(* ===== verification/_CoqProject ===== *)
-Q . S2P
Prelude.v
Fail.v
Interfaces.v
Base.v
Sync.v
Threads.v
Lists.v
HLists.v
Mempool.v
TaskQueue.v
Context.v
ContextSwitch.v
Ring.v
Bytes.v
Lrpc.v
LrpcConc.v
Peers.v
Requests.v
DispatchQueue.v
Dispatcher.v
Worker.v
NetWorker.v
SystemSpec.v
System.v
Program.v
Startup.v
Benchmark.v
Checksum.v
Udp.v
AppWorker.v
Stats.v
Schedule.v
Client.v
ClientLog.v
Control.v
Nic.v
NetDebug.v
Hash.v
ClientRun.v
ClientSetup.v
Boot.v
Server.v
Timing.v
Logging.v
Teardown.v
