(* ===== verification/Prelude.v ===== *)
(** * Perséphone, verified

    Perséphone is a user-level request scheduler in C++.  A net worker receives
    packets and runs the dispatcher; the dispatcher hands requests to worker
    threads, which run each on a context of its own, may be preempted, and give
    it back; application workers answer requests over the network; a load
    generator sends requests and reports on the answers.  This library is a
    shallow embedding of that program: each operation is a Rocq function with
    the name of the C++ one, and file names below are under [src/].

    ** Conventions

    A call has an [outcome]: it returns, stops the process with an error code
    ([Panic], also for [exit] and [abort]), or is undefined ([UB]: null or
    unmapped pointers, indices outside of an array, signed overflow).  Integers
    are [Z] with their conversions written out ([u8] ... [i64]).  Objects that
    the code shares are in maps from addresses, and pointers are addresses; an
    array is a list whose accesses outside of it are [UB].  The build is the
    release build: [assert] and [PSP_DEBUG] code is empty, and output is left
    out; what [NET_DEBUG] adds to the handling of packets is in [NetDebug].
    What is not in the repository (DPDK, RocksDB, malloc, the clock, random
    numbers, floating-point arithmetic) is a parameter, with what the theorems
    need of it as named hypotheses.  The main theorems are numbered ([C1] ...),
    and each of them that has a hypothesis has a witness at a concrete input.

    ** Files, and what they model

    Support: [Prelude] (outcomes, machine integers, arrays, tactics, the hint
    database [word]), [Ring] (rings with free-running counters), [Bytes]
    (little-endian words in buffers), [Interfaces] (the type classes
    [Allocator], [TaskQueueOps], [ContextOps] with their laws: clients are
    proved against them, [Mempool], [TaskQueue] and [Context] discharge them).

    - [Fail]: [c++/common/fail.c], [psp/fail.h].
    - [Base], [Sync]: helpers of [include/base] (arithmetic, byte order, pages,
      generation numbers, the map of the page memory; atomics, reference
      counts, spin locks).  [Threads]: [base/thread.h] and [base/tcache.h].
      [Hash]: [base/hash.h] and the CRC instruction of [asm/ops.h].
      [Timing]: [psp/time.hh], [psp/cpuid.hh] and the time-stamp counter.
      [Logging]: [base/log.h], [base/assert.h] and [base/time.h].
    - [Lists], [HLists]: [base/list.h], as operations on the [next] and [prev]
      fields of all nodes.
    - [Mempool]: [base/mempool.h].  [TaskQueue], [Context]: [psp/taskqueue.h].
    - [ContextSwitch]: [context_fast.S], instruction by instruction.
    - [Lrpc], [LrpcConc], [Peers]: [io/lrpc.h], [lrpc/context.cc] and
      [Worker::register_dpt]: the channels call by call, one memory access at a
      time, and as wired between worker and dispatcher.
    - [Requests], [DispatchQueue]: [Request.hh], and the typed queues of
      [dispatch_su.cc] with [drain_queue] and [signal_free_worker].
    - [Dispatcher], [Worker], [NetWorker]: the preemptive path:
      [Dispatcher::dispatch], the handlers and the loop of [Worker.cc],
      [NetWorker::work] and [sent_fake_packet].
    - [SystemSpec], [System], [Program], [Startup]: the abstract system, the
      simulation, all interleavings of the threads, and the start state that
      [taskqueue_init] builds.
    - [Benchmark]: the packets that [main] of [psp_app.cc] sends, and the run of
      the net worker up to its end.
    - [Checksum]: [asm/chksum.h].  [Udp], [NetDebug]: [udp_dpdk/context.cc].
    - [Nic]: [udp_dpdk/dpdk.cc] and the creation, the flow rules and the
      destruction of a context.  Computations that call the driver record the
      calls and their answers (the monad [nic]); the driver is any function that
      answers calls, and a class [Healthy] says what a working card answers.
    - [AppWorker]: [app_work], [app_dequeue] and their loop, [mb_su.cc],
      [rocksdb_su.cc].
    - [Schedule], [Client], [Stats], [ClientLog]: the load generator of
      [apps/client]: its schedules, its play, its histograms and its reports.
      [ClientRun] composes the schedules of a worker with a network that
      answers, [ClientSetup] is its [main], from the configuration to running
      clients and to the end of their work, and the reports over all of them.
    - [Control]: the workers that the constructor of [Psp] makes,
      [CreateWorker], [launch], [stop_all] and the worker loop's test of its
      flag.  [Boot]: the whole constructor over [Control], [Nic] and [Context],
      and the start of [main].  [Server]: the constructor, the threads over the
      pools it made, and the benchmark, as one run.  [Teardown]: the end of
      [main] and the destructors.

    ** What the theorems show

    - Whole runs ([Program], [Startup]): under every interleaving no step is
      undefined, no request is lost or duplicated, and a fair schedule answers
      each; the receive loop ends exactly when there are contexts enough.
      [Benchmark]: the hundred packets of the configured benchmark always find
      room.  [Server]: from a configuration, the server starts, and the benchmark
      ends with all of them counted.
    - Refinements: the linked task queue and the LRPC channels are bounded
      FIFO queues, the intrusive lists are sequences; the channel's two ends
      may run concurrently without races, tearing or loss.
    - Pools and contexts: no block or stack is handed out twice; a context that
      is left is resumed with its registers, stack and control state.
    - Dispatch: requests go to free workers in order; completions free them;
      request types are registered with empty queues.
    - Network and applications: bursts, headers and checksums; every request in
      a worker's channel is answered once and reported.
    - NIC: setting up the port is all or nothing, with every call to the driver
      in its place; flow rules take the datagrams of their context and no
      others; contexts share one pool of buffers.
    - Client: a configuration without faults becomes running, well-formed
      clients, and the first faulty entry ends the process; schedules are well
      formed, and every client gets through all of its own, within the allowed
      concurrency and with every request accounted for, also when answers to
      one schedule come in during the next; answers find their requests,
      reports say what was measured.  A request of the client, handled by the server's worker, comes
      back as its answer.
    - Server: a configuration becomes a system of running workers connected to
      their dispatcher, each with its context, over a port that is up; launching
      stops at the first failure; at the end everything is released once.
    - Helpers: a rate-limited message comes at most once a second, and none is
      lost without a count; the two calibrations of the time-stamp counter
      agree, and intervals are measured across its overflow.
    - Some theorems state what goes wrong: a worker other than the first never
      runs, a waiting worker misses [stop_all], [drain_queue] can stall, a
      request without a buffer aborts the client, the link of a context is
      outside of its declared stack, the statistics of the device leak their
      buffers, a server without typed queues deletes what it never made.

    ** Bounds and fuel

    Loops of the code that are not structural take [fuel] and answer [None]
    when it is used up.  Theorems that such a loop returns give a sufficient
    amount: the receive loop a burst of eight, the fair schedule and the
    benchmark seven rounds for each packet, the wait for the link its ninety
    polls, the iteration over the threads one pass for each, the printing of a
    histogram one pass for each bucket up to the largest, the play of a schedule
    one pass for each tick of its maximal duration, a scan one pass for each
    entry.  Where a counter that is compared with [>] would wrap, its theorem
    assumes that it does not (2^32 packets).

    ** Not modelled

    What the command-line and YAML libraries do with their input (what they
    return is a record), RocksDB, and the random distributions; the text of
    messages and reports, and what [logk] does with a message; the variables
    per thread, which the linker lays out; the page allocator and the other functions that headers
    declare and the repository does not define ([slab.h], [pci.h], [stat.h] and
    the like; the slow paths of [tcache.h] are parameters).  The memory model
    of [LrpcConc] is sequential consistency of the accesses the code marks as
    acquire and release, which x86 provides for them. *)
From Stdlib Require Export ZArith Lia.
From stdpp Require Export base tactics numbers list gmap strings.

#[global] Open Scope Z_scope.

(** ** Outcomes of C++ code

    A call either returns, or stops the process ([Panic], what [psp_panic] and
    [abort] do, with the error code that was reported), or has undefined
    behaviour ([UB]: a null or dangling pointer, an index outside of an array,
    a signed overflow). *)

Inductive outcome (A : Type) : Type :=
| Ok (a : A)
| Panic (err : Z)
| UB.

Arguments Ok {A} a.
Arguments Panic {A} err.
Arguments UB {A}.

#[export] Instance outcome_ret : MRet outcome := fun A a => Ok a.

#[export] Instance outcome_bind : MBind outcome :=
  fun A B f m =>
    match m with
    | Ok a => f a
    | Panic e => Panic e
    | UB => UB
    end.

#[export] Instance outcome_fmap : FMap outcome :=
  fun A B f m =>
    match m with
    | Ok a => Ok (f a)
    | Panic e => Panic e
    | UB => UB
    end.

#[export] Instance outcome_eq_dec {A} `{EqDecision A} : EqDecision (outcome A).
Proof. solve_decision. Defined.

Lemma bind_Ok_inv {A B} (f : A -> outcome B) (m : outcome A) (b : B) :
  (m ≫= f) = Ok b -> exists a, m = Ok a /\ f a = Ok b.
Proof. destruct m; simpl; naive_solver. Qed.

(** [ok_agree]: two results of the same call are the same. *)
Ltac ok_agree :=
  repeat match goal with
  | H1 : ?f = Ok _, H2 : ?f = Ok _ |- _ => rewrite H1 in H2; injection H2 as; subst
  end.

(** [ok_inv E] takes apart a call that returned, [E : m = Ok r], into the
    calls it is made of. *)
Ltac ok_inv E :=
  repeat match type of E with
  | mbind _ _ = Ok _ => let H := fresh "E" in apply bind_Ok_inv in E as (? & H & E)
  | (let '(_, _) := ?x in _) = Ok _ => destruct x
  | (if ?c then _ else _) = Ok _ => destruct c eqn:?
  | Ok _ = Ok _ => injection E as E; subst
  | UB = Ok _ => discriminate E
  | Panic _ = Ok _ => discriminate E
  end.

(** [is_Ok m]: the call returns. *)
Definition is_Ok {A} (m : outcome A) : bool :=
  match m with Ok _ => true | _ => false end.

(** ** Machine integers

    An unsigned w-bit value is a [Z] in [0, 2^w); an operation that can leave
    that range is followed by the reduction of its type. *)

Definition u8 (z : Z) : Z := z mod 2 ^ 8.
Definition u16 (z : Z) : Z := z mod 2 ^ 16.
Definition u32 (z : Z) : Z := z mod 2 ^ 32.
Definition u64 (z : Z) : Z := z mod 2 ^ 64.

(** Conversion to a signed w-bit type (two's complement, as gcc defines it). *)
Definition i32 (z : Z) : Z := (z + 2 ^ 31) mod 2 ^ 32 - 2 ^ 31.
Definition i64 (z : Z) : Z := (z + 2 ^ 63) mod 2 ^ 64 - 2 ^ 63.

Definition INT_MAX : Z := 2 ^ 31 - 1.
Definition INT_MIN : Z := - 2 ^ 31.

(** A signed [int] result: outside of the range the code has no meaning. *)
Definition int_result (z : Z) : outcome Z :=
  if decide (INT_MIN <= z <= INT_MAX) then Ok z else UB.

Lemma int_result_Ok z : INT_MIN <= z <= INT_MAX -> int_result z = Ok z.
Proof. intros Hz. unfold int_result. by rewrite decide_True. Qed.

Definition NULL : Z := 0.

(** [word_lia]: linear arithmetic through the reductions above. *)
Ltac word_unfold :=
  unfold u8, u16, u32, u64, i32, i64, INT_MAX, INT_MIN, NULL in *;
  change (2 ^ 8) with 256 in *; change (2 ^ 16) with 65536 in *;
  change (2 ^ 31) with 2147483648 in *; change (2 ^ 32) with 4294967296 in *;
  change (2 ^ 63) with 9223372036854775808 in *;
  change (2 ^ 64) with 18446744073709551616 in *.

Ltac word_lia := word_unfold; Z.div_mod_to_equations; lia.

Create HintDb word.

Lemma u32_range z : 0 <= u32 z < 2 ^ 32.
Proof. word_lia. Qed.

Lemma u64_range z : 0 <= u64 z < 2 ^ 64.
Proof. word_lia. Qed.

Lemma u16_id z : 0 <= z < 2 ^ 16 -> u16 z = z.
Proof. word_lia. Qed.

Lemma u32_id z : 0 <= z < 2 ^ 32 -> u32 z = z.
Proof. word_lia. Qed.

Lemma u64_id z : 0 <= z < 2 ^ 64 -> u64 z = z.
Proof. word_lia. Qed.

Lemma i64_id z : - 2 ^ 63 <= z < 2 ^ 63 -> i64 z = z.
Proof. intros. unfold i64. rewrite Z.mod_small; lia. Qed.

Lemma u32_sub_cancel (h t : Z) : u32 (u32 (h + t) - u32 t) = u32 h.
Proof. word_lia. Qed.

#[export] Hint Resolve u32_range u64_range : word.

(** Reading a counter through a power-of-two mask is a reduction modulo the
    ring's length; the wrap of the 32-bit counter does not disturb it. *)
Lemma land_mask (x k : Z) : 0 <= k -> Z.land x (2 ^ k - 1) = x mod 2 ^ k.
Proof.
  intros Hk. rewrite <- Z.land_ones by done. f_equal. rewrite Z.ones_equiv. lia.
Qed.

(** Clearing the low bits of a pointer ([& -16L]). *)
Lemma land_align16 (x : Z) : Z.land x (-16) = 16 * (x / 16).
Proof.
  replace (-16) with (Z.lnot (Z.ones 4)) by done.
  rewrite <- Z.ldiff_land, Z.ldiff_ones_r by lia.
  rewrite Z.shiftr_div_pow2, Z.shiftl_mul_pow2 by lia. change (2 ^ 4) with 16. lia.
Qed.

Lemma mod_u32 (x k : Z) : 0 <= k <= 32 -> u32 x mod 2 ^ k = x mod 2 ^ k.
Proof.
  intros Hk. unfold u32. apply Z.mod_mod_divide.
  exists (2 ^ (32 - k)). rewrite <- Z.pow_add_r by lia. f_equal. lia.
Qed.

Lemma lxor_range n a b : 0 <= n -> 0 <= a < 2 ^ n -> 0 <= b < 2 ^ n -> 0 <= Z.lxor a b < 2 ^ n.
Proof.
  intros Hn Ha Hb. assert (H0 : 0 <= Z.lxor a b) by (apply Z.lxor_nonneg; lia). split; [done|].
  destruct (decide (Z.lxor a b = 0)) as [->|Hne]; [lia|].
  assert (L : forall x, 0 <= x < 2 ^ n -> Z.log2 x < n \/ x = 0).
  { intros x Hx. destruct (decide (x = 0)); [by right|left]. apply Z.log2_lt_pow2; lia. }
  destruct (L a Ha) as [La| ->], (L b Hb) as [Lb| ->]; rewrite ?Z.lxor_0_l, ?Z.lxor_0_r in *; try lia.
  apply Z.log2_lt_pow2; [lia|]. pose proof (Z.log2_lxor a b ltac:(lia) ltac:(lia)). lia.
Qed.

(** ** Reachability *)

(** An invariant and a quantity that every step preserves hold along a run. *)
Lemma rtc_invariant {A B} (R : A -> A -> Prop) (I : A -> Prop) (f : A -> B) :
  (forall x y, R x y -> I x -> I y /\ f y = f x) ->
  forall x y, rtc R x y -> I x -> I y /\ f y = f x.
Proof.
  intros Hstep x y Hr. induction Hr as [x|x y z Hxy _ IH]; intros Hx; [done|].
  destruct (Hstep _ _ Hxy Hx) as [Hy <-]. by apply IH.
Qed.

(** ** Lists *)

Lemma length_omap_Some {A B} (f : A -> option B) (l : list A) :
  Forall (fun x => is_Some (f x)) l -> length (omap f l) = length l.
Proof. induction 1 as [|x l [y E] _ IH]; csimpl; [done|]. rewrite E. csimpl. by rewrite IH. Qed.

Lemma take_incl {A} (k : nat) (l : list A) (x : A) : x ∈ take k l -> x ∈ l.
Proof. intros Hx. rewrite <- (take_drop k l). apply elem_of_app. by left. Qed.

Lemma drop_incl {A} (k : nat) (l : list A) (x : A) : x ∈ drop k l -> x ∈ l.
Proof. intros Hx. rewrite <- (take_drop k l). apply elem_of_app. by right. Qed.

Lemma filter_none {A} (P : A -> Prop) `{forall x, Decision (P x)} (l : list A) :
  (forall x, x ∈ l -> ~ P x) -> filter P l = [].
Proof.
  induction l as [|x l IH]; intros Hl; [done|]. rewrite filter_cons_False by apply Hl, list_elem_of_here.
  apply IH. intros y Hy. by apply Hl, list_elem_of_further.
Qed.

Lemma omap_Forall2 {A B} (f : A -> option B) (P : A -> B -> Prop) (l : list A) :
  (forall x, x ∈ l -> exists y, f x = Some y /\ P x y) -> Forall2 P l (omap f l).
Proof.
  induction l as [|x l IH]; intros Hl; csimpl; [constructor|].
  destruct (Hl x) as (y & -> & Hy); [left|]. constructor; [done|].
  apply IH. intros z Hz. apply Hl. by right.
Qed.

(** ** Arrays: a [list] indexed by [Z], out of range is [UB] *)

Definition arr_get {A} (a : list A) (i : Z) : outcome A :=
  if decide (0 <= i) then
    match a !! Z.to_nat i with Some x => Ok x | None => UB end
  else UB.

Definition arr_set {A} (a : list A) (i : Z) (x : A) : outcome (list A) :=
  if decide (0 <= i < Z.of_nat (length a)) then Ok (<[Z.to_nat i := x]> a)
  else UB.

Lemma arr_get_Ok {A} (a : list A) (i : Z) (x : A) :
  arr_get a i = Ok x <-> 0 <= i /\ a !! Z.to_nat i = Some x.
Proof.
  unfold arr_get. destruct (decide (0 <= i)); [|by split; [|intros []]].
  destruct (a !! Z.to_nat i); split; try done; [by intros [= ->]|by intros [_ [= ->]]|by intros []].
Qed.

Lemma arr_get_lt {A} (a : list A) (i : Z) :
  0 <= i < Z.of_nat (length a) -> exists x, arr_get a i = Ok x.
Proof.
  intros Hi. destruct (lookup_lt_is_Some_2 a (Z.to_nat i)) as [x Hx]; [lia|].
  exists x. apply arr_get_Ok. split; [lia|done].
Qed.

Lemma arr_get_UB {A} (a : list A) (i : Z) : ~ (0 <= i < Z.of_nat (length a)) -> arr_get a i = UB.
Proof.
  intros Hi. unfold arr_get. case_decide; [|done]. by rewrite lookup_ge_None_2 by lia.
Qed.

Lemma arr_set_Ok {A} (a : list A) (i : Z) (x : A) :
  0 <= i < Z.of_nat (length a) -> arr_set a i x = Ok (<[Z.to_nat i := x]> a).
Proof. intros Hi. unfold arr_set. by rewrite decide_True. Qed.

Lemma arr_set_UB {A} (a : list A) (i : Z) (x : A) :
  ~ (0 <= i < Z.of_nat (length a)) -> arr_set a i x = UB.
Proof. intros Hi. unfold arr_set. by rewrite decide_False. Qed.

Lemma arr_set_inv {A} (a b : list A) (i : Z) (x : A) :
  arr_set a i x = Ok b ->
  0 <= i < Z.of_nat (length a) /\ b = <[Z.to_nat i := x]> a.
Proof. unfold arr_set. case_decide; [by intros [= <-]|done]. Qed.

(** Read, modify and write one element. *)
Definition arr_upd {A} (a : list A) (i : Z) (f : A -> A) : outcome (list A) :=
  x ← arr_get a i; arr_set a i (f x).

Lemma arr_upd_Ok {A} (a : list A) (i : Z) (f : A -> A) (x : A) :
  0 <= i -> a !! Z.to_nat i = Some x -> arr_upd a i f = Ok (<[Z.to_nat i := f x]> a).
Proof.
  intros Hi Hx. unfold arr_upd. rewrite (proj2 (arr_get_Ok a i x)) by done. simpl.
  apply arr_set_Ok. apply lookup_lt_Some in Hx. lia.
Qed.

(** ** Error codes and the failure macros *)

Definition ENOENT : Z := 2.
Definition EAGAIN : Z := 11.
Definition ENOMEM : Z := 12.
Definition ENODEV : Z := 19.
Definition EINVAL : Z := 22.
Definition EXFULL : Z := 54.
Definition ENOTSUP : Z := 95.

(** What [abort] and [psp_panic] report when there is no error code. *)
Definition SIGABRT : Z := 6.
