(* ===== verification/Fail.v ===== *)
(** * Fail: failure reporting

    Models [src/src/c++/common/fail.c] (the handler variable, [psp_panic],
    [psp_onfail], [psp_fail], [default_onfail]) and the checking macros of
    [src/include/psp/fail.h].  The macros return from the enclosing function
    after the handler returned; the theorems show that under the handler the
    library starts with they never return, which is what the short forms
    [PSP_TRUE] and [PSP_OK] of the other files say. *)
From S2P Require Import Prelude.

Module Fail.

(** [psp_onfail_t]: the library's own handler, or one installed by the user. *)
Inductive onfail : Type :=
| default_handler
| user_handler (f : Z -> option string -> outcome unit).

Definition psp_panic {A} (err : Z) : outcome A := Panic err.

(** [psp_onfail]: [None] is a null handler argument. *)
Definition psp_onfail (onfail_arg : option onfail) : onfail :=
  match onfail_arg with
  | None => default_handler
  | Some h => h
  end.

(** [default_onfail]; [n] is what [fprintf] returned. *)
Definition default_onfail (n error_arg : Z) (fnn_arg : option string) : outcome unit :=
  if error_arg =? 0 then psp_panic error_arg
  else
    match fnn_arg with
    | None => if n <? 1 then psp_panic error_arg else psp_panic error_arg
    | Some _ => if n <? 1 then psp_panic error_arg else Ok tt
    end.

Definition psp_fail (current_onfail : onfail) (n error_arg : Z)
    (fnn_arg : option string) : outcome unit :=
  match current_onfail with
  | default_handler => default_onfail n error_arg fnn_arg
  | user_handler f => f error_arg fnn_arg
  end.

(** The macros: [None] continues behind the macro, [Some e] returns [e] from
    the enclosing function.  They pass a null function name. *)
Definition PSP_TRUE2 (cur : onfail) (n err : Z) (cond : bool) : outcome (option Z) :=
  if negb cond then psp_fail cur n err None ≫= (fun _ => Ok (Some err))
  else Ok None.

Definition PSP_OK2 (cur : onfail) (n err : Z) : outcome (option Z) :=
  if negb (0 =? err) then psp_fail cur n err None ≫= (fun _ => Ok (Some err))
  else Ok None.

End Fail.

(** The macros under the handler the library starts with; nothing in the
    repository installs another one. *)
Definition PSP_TRUE (err : Z) (cond : bool) : outcome unit :=
  if cond then Ok tt else Panic err.

Definition PSP_OK (err : Z) : outcome unit :=
  if err =? 0 then Ok tt else Panic err.

Import Fail.

Lemma default_onfail_null n err : default_onfail n err None = Panic err.
Proof. unfold default_onfail, psp_panic. by repeat case_match. Qed.

(** The default handler never returns to a macro: a failed check stops the
    process, whatever [fprintf] did and whatever the error code is, so the
    short forms are exactly the macros. *)
Theorem psp_macros_default n err cond :
  PSP_TRUE2 (psp_onfail None) n err cond = (PSP_TRUE err cond ≫= fun _ => Ok None)
  /\ PSP_OK2 (psp_onfail None) n err = (PSP_OK err ≫= fun _ => Ok None)
  /\ (forall e, PSP_TRUE2 (psp_onfail None) n err cond <> Ok (Some e))
  /\ (forall e, PSP_OK2 (psp_onfail None) n err <> Ok (Some e)).
Proof.
  unfold PSP_TRUE2, PSP_OK2, PSP_TRUE, PSP_OK, psp_fail, psp_onfail.
  rewrite !default_onfail_null, (Z.eqb_sym 0 err).
  destruct cond, (err =? 0); simpl; repeat split; intros; discriminate.
Qed.

(** An installed handler that returns makes the macro return its error code
    from the enclosing function. *)
Theorem psp_macros_user f n err cond :
  (forall e fnn, f e fnn = Ok tt) ->
  PSP_TRUE2 (psp_onfail (Some (user_handler f))) n err cond
    = Ok (if cond then None else Some err)
  /\ PSP_OK2 (psp_onfail (Some (user_handler f))) n err
    = Ok (if err =? 0 then None else Some err).
Proof.
  intros Hf. unfold PSP_TRUE2, PSP_OK2, psp_fail, psp_onfail.
  rewrite (Z.eqb_sym 0 err), !Hf. by destruct cond, (err =? 0).
Qed.
