(* ===== verification/Interfaces.v ===== *)
(** * Interfaces: what the components promise to each other

    [Allocator] is what a block pool ([src/include/base/mempool.h]) promises to
    the code that takes blocks from it; [TaskQueueOps] is what the task queue
    ([src/include/psp/taskqueue.h]) promises to the dispatcher and to the net
    worker, and [ContextOps] what the execution contexts promise to both.  The
    clients are defined and proved against these classes; the instances are in
    [Mempool], [TaskQueue] and [Context]. *)
From S2P Require Import Prelude.

(** ** Block pools *)

Class Allocator (P : Type) : Type := {
  pool_alloc : P -> outcome (Z * P);
  pool_free : P -> Z -> outcome P
}.

(** [pool_inv p own]: the blocks handed out by [p] and not returned are
    exactly those of [own]. *)
Class AllocatorLaws (P : Type) `{Allocator P} : Type := {
  pool_blocks : P -> gset Z;
  pool_inv : P -> gset Z -> Prop;
  pool_inv_sub p own : pool_inv p own -> own ⊆ pool_blocks p;
  pool_no_null p own : pool_inv p own -> NULL ∉ pool_blocks p;
  pool_alloc_room p own :
    pool_inv p own -> (size own < size (pool_blocks p))%nat ->
    exists b p', pool_alloc p = Ok (b, p') /\ b ∈ pool_blocks p /\ b ∉ own
      /\ pool_blocks p' = pool_blocks p /\ pool_inv p' ({[b]} ∪ own);
  pool_alloc_full p own :
    pool_inv p own -> size own = size (pool_blocks p) -> pool_alloc p = Ok (NULL, p);
  pool_free_owned p own b :
    pool_inv p own -> b ∈ own ->
    exists p', pool_free p b = Ok p' /\ pool_blocks p' = pool_blocks p
      /\ pool_inv p' (own ∖ {[b]})
}.

(** ** Task queues *)

(** What the five arguments of the queue operations describe
    ([struct task] without its link). *)
Record task_info : Type := mk_info {
  ti_runnable : Z;
  ti_mbuf : Z;
  ti_type : Z;
  ti_category : Z;
  ti_timestamp : Z
}.

#[export] Instance task_info_eq_dec : EqDecision task_info.
Proof. solve_decision. Defined.

Class TaskQueueOps (Q : Type) : Type := {
  tq_enqueue_tail : Q -> task_info -> outcome Q;
  tq_dequeue : Q -> outcome (Q * option task_info)
}.

(** [tq_model q l]: the queue holds [l], the next task to run first.  A queue
    that holds [tq_cap] tasks silently drops what is enqueued. *)
Class TaskQueueLaws (Q : Type) `{TaskQueueOps Q} : Type := {
  tq_cap : Q -> nat;
  tq_model : Q -> list task_info -> Prop;
  tq_model_cap q l : tq_model q l -> (length l <= tq_cap q)%nat;
  tq_enqueue_room q l x :
    tq_model q l -> (length l < tq_cap q)%nat ->
    exists q', tq_enqueue_tail q x = Ok q' /\ tq_cap q' = tq_cap q /\ tq_model q' (l ++ [x]);
  tq_enqueue_full q l x :
    tq_model q l -> length l = tq_cap q ->
    exists q', tq_enqueue_tail q x = Ok q' /\ tq_cap q' = tq_cap q /\ tq_model q' l;
  tq_dequeue_cons q x l :
    tq_model q (x :: l) ->
    exists q', tq_dequeue q = Ok (q', Some x) /\ tq_cap q' = tq_cap q /\ tq_model q' l;
  tq_dequeue_nil q : tq_model q [] -> tq_dequeue q = Ok (q, None)
}.

(** ** Execution contexts *)

(** What [context_alloc], [context_free] and [set_context_link] promise to the
    net worker, the dispatcher and the workers. *)
Class ContextOps (C : Type) : Type := {
  ctx_alloc : C -> outcome (C * option Z);
  ctx_free : C -> Z -> outcome C;
  ctx_link : C -> Z -> Z -> outcome C
}.

(** [ctx_model s live]: the contexts handed out and not freed are [live]. *)
Class ContextLaws (C : Type) `{ContextOps C} : Type := {
  ctx_cap : C -> nat;
  ctx_model : C -> gset Z -> Prop;
  ctx_model_cap s live : ctx_model s live -> (size live <= ctx_cap s)%nat;
  ctx_model_null s live : ctx_model s live -> NULL ∉ live;
  ctx_alloc_room s live :
    ctx_model s live -> (size live < ctx_cap s)%nat ->
    exists s' c, ctx_alloc s = Ok (s', Some c) /\ c ∉ live
      /\ ctx_cap s' = ctx_cap s /\ ctx_model s' ({[c]} ∪ live);
  ctx_alloc_full s live :
    ctx_model s live -> size live = ctx_cap s ->
    exists s', ctx_alloc s = Ok (s', None) /\ ctx_cap s' = ctx_cap s /\ ctx_model s' live;
  ctx_free_live s live c :
    ctx_model s live -> c ∈ live ->
    exists s', ctx_free s c = Ok s' /\ ctx_cap s' = ctx_cap s /\ ctx_model s' (live ∖ {[c]});
  ctx_link_live s live c l :
    ctx_model s live -> c ∈ live ->
    exists s', ctx_link s c l = Ok s' /\ ctx_cap s' = ctx_cap s /\ ctx_model s' live
}.
