(* ===== verification/Base.v ===== *)
(** * Base: integer helpers of the base library

    Models the arithmetic macros and functions of [src/include/base/stddef.h],
    the byte swaps of [src/include/base/byteorder.h], the page arithmetic of
    [src/include/base/mem.h] and [page.h] and the generation numbers of
    [gen.h]. *)
From S2P Require Import Prelude.

(** ** stddef.h, on 64-bit operands *)

Definition align_up (x align : Z) : Z := u64 (Z.lor (u64 (x - 1)) (u64 (align - 1)) + 1).
Definition align_down (x align : Z) : Z := Z.land x (u64 (Z.lnot (u64 (align - 1)))).
Definition div_up (x d : Z) : outcome Z :=
  if d =? 0 then UB else Ok (u64 (u64 (x + d) - 1) / d).
Definition BIT (n : Z) : outcome Z := if (0 <=? n) && (n <? 64) then Ok (2 ^ n) else UB.

Definition wraps_lt (a b : Z) : bool := i32 (u32 (a - b)) <? 0.
Definition wraps_lte (a b : Z) : bool := i32 (u32 (a - b)) <=? 0.
Definition wraps_gt (a b : Z) : bool := i32 (u32 (b - a)) <? 0.
Definition wraps_gte (a b : Z) : bool := i32 (u32 (b - a)) <=? 0.

(** ** byteorder.h, the code without the compiler's built-in *)

Definition bswap16 (val : Z) : Z :=
  u16 (Z.lor (Z.shiftl (Z.land val 0x00ff) 8) (Z.shiftr (Z.land val 0xff00) 8)).

Definition bswap32 (val : Z) : Z :=
  u32 (Z.lor (Z.lor (Z.lor
    (Z.shiftl (Z.land val 0x000000ff) 24)
    (Z.shiftl (Z.land val 0x0000ff00) 8))
    (Z.shiftr (Z.land val 0x00ff0000) 8))
    (Z.shiftr (Z.land val 0xff000000) 24)).

Definition bswap64 (val : Z) : Z :=
  Z.lor (Z.lor (Z.lor (Z.lor (Z.lor (Z.lor (Z.lor
    (u64 (Z.shiftl (Z.land val 0x00000000000000ff) 56))
    (u64 (Z.shiftl (Z.land val 0x000000000000ff00) 40)))
    (u64 (Z.shiftl (Z.land val 0x0000000000ff0000) 24)))
    (u64 (Z.shiftl (Z.land val 0x00000000ff000000) 8)))
    (Z.shiftr (Z.land val 0x000000ff00000000) 8))
    (Z.shiftr (Z.land val 0x0000ff0000000000) 24))
    (Z.shiftr (Z.land val 0x00ff000000000000) 40))
    (Z.shiftr (Z.land val 0xff00000000000000) 56).

(** On the little-endian target. *)
Definition hton16 (x : Z) : Z := bswap16 x.
Definition ntoh16 (x : Z) : Z := bswap16 x.
Definition hton32 (x : Z) : Z := bswap32 x.
Definition ntoh32 (x : Z) : Z := bswap32 x.
Definition hton64 (x : Z) : Z := bswap64 x.
Definition ntoh64 (x : Z) : Z := bswap64 x.

(** ** mem.h and page.h *)

Definition PGSHIFT_4KB : Z := 12.
Definition PGSHIFT_2MB : Z := 21.
Definition PGSHIFT_1GB : Z := 30.
Definition PGSIZE_4KB : Z := Z.shiftl 1 PGSHIFT_4KB.
Definition PGSIZE_2MB : Z := Z.shiftl 1 PGSHIFT_2MB.
Definition PGSIZE_1GB : Z := Z.shiftl 1 PGSHIFT_1GB.
Definition PGMASK_4KB : Z := PGSIZE_4KB - 1.
Definition PGMASK_2MB : Z := PGSIZE_2MB - 1.
Definition PGMASK_1GB : Z := PGSIZE_1GB - 1.
Definition PGN_4KB (la : Z) : Z := Z.shiftr la PGSHIFT_4KB.
Definition PGN_2MB (la : Z) : Z := Z.shiftr la PGSHIFT_2MB.
Definition PGN_1GB (la : Z) : Z := Z.shiftr la PGSHIFT_1GB.
Definition PGOFF_4KB (la : Z) : Z := Z.land la PGMASK_4KB.
Definition PGOFF_2MB (la : Z) : Z := Z.land la PGMASK_2MB.
Definition PGOFF_1GB (la : Z) : Z := Z.land la PGMASK_1GB.
Definition PGADDR_4KB (la : Z) : Z := Z.land la (u64 (Z.lnot PGMASK_4KB)).
Definition PGADDR_2MB (la : Z) : Z := Z.land la (u64 (Z.lnot PGMASK_2MB)).
Definition PGADDR_1GB (la : Z) : Z := Z.land la (u64 (Z.lnot PGMASK_1GB)).

Definition PAGE_BASE_ADDR : Z := 0x100000000000.
Definition PAGE_FLAG_LARGE : Z := 0x01.
Definition PAGE_FLAG_SHATTERED : Z := 0x08.

(** [sizeof(struct page)]: two ints, a pointer, a list node, a pointer and
    three longs. *)
Definition sizeof_page : Z := 64.

Definition LGPGN (addr : Z) : Z := PGN_2MB (u64 (addr - PAGE_BASE_ADDR)).
Definition PGN (addr : Z) : Z := PGN_4KB (u64 (addr - PGADDR_2MB addr)).

(** Page structures are addresses; [page_tbl] is the address of the table. *)
Definition addr_to_lgpage (page_tbl addr : Z) : Z := u64 (page_tbl + LGPGN addr * sizeof_page).
Definition lgpage_to_addr (page_tbl pg : Z) : Z :=
  u64 (PAGE_BASE_ADDR + i64 (pg - page_tbl) / sizeof_page * PGSIZE_2MB).
Definition addr_to_smpage (addr : Z) : Z := u64 (PGADDR_2MB addr + PGN addr * sizeof_page).
Definition smpage_to_addr (pg : Z) : Z :=
  u64 (PGADDR_2MB pg + i64 (pg - PGADDR_2MB pg) / sizeof_page * PGSIZE_4KB).

(** [flags] reads the flags of a page structure. *)
Definition addr_to_page (page_tbl : Z) (flags : Z -> Z) (addr : Z) : Z :=
  let pg := addr_to_lgpage page_tbl addr in
  if negb (Z.land (flags pg) PAGE_FLAG_SHATTERED =? 0) then addr_to_smpage addr else pg.
Definition page_to_addr (page_tbl : Z) (flags : Z -> Z) (pg : Z) : Z :=
  if negb (Z.land (flags pg) PAGE_FLAG_LARGE =? 0) then lgpage_to_addr page_tbl pg else smpage_to_addr pg.
Definition page_to_size (flags : Z -> Z) (pg : Z) : Z :=
  if negb (Z.land (flags pg) PAGE_FLAG_LARGE =? 0) then PGSIZE_2MB else PGSIZE_4KB.

Definition NNUMA : Z := 4.
Definition LGPAGE_META_NR_LGPAGES : Z := 1.
Definition SMPAGE_META_LEN : Z := PGSIZE_2MB / PGSIZE_4KB * sizeof_page.
Definition LGPAGE_META_LEN : Z := LGPAGE_META_NR_LGPAGES * PGSIZE_2MB.
Definition LGPAGE_META_ENTS : Z := LGPAGE_META_LEN / sizeof_page.
Definition LGPAGE_NODE_ADDR_LEN : Z := LGPAGE_META_ENTS * PGSIZE_2MB.
Definition PAGE_END_ADDR : Z := PAGE_BASE_ADDR + LGPAGE_META_ENTS * PGSIZE_2MB * NNUMA.

Definition is_page_addr (addr : Z) : bool := (PAGE_BASE_ADDR <=? addr) && (addr <? PAGE_END_ADDR).
Definition addr_to_numa_node (addr : Z) : Z := u32 (u64 (addr - PAGE_BASE_ADDR) / LGPAGE_NODE_ADDR_LEN).
(** [paddr] reads the physical address of a page structure. *)
Definition addr_to_pa (page_tbl : Z) (paddr : Z -> Z) (addr : Z) : Z :=
  u64 (paddr (addr_to_lgpage page_tbl addr) + PGOFF_2MB addr).
Definition smpage_to_lgpage (page_tbl pg : Z) : Z := addr_to_lgpage page_tbl pg.

(** ** gen.h: the generation number shared through [*gen] *)

Record gen_num : Type := mk_gen { prev_gen : Z; gen : Z }.

(** [gen] is the value of the shared number. *)
Definition gen_init (gen : Z) : gen_num := mk_gen 0 gen.

Definition gen_active (g : gen_num) : gen_num :=
  if gen g =? 0 then mk_gen (prev_gen g) (u32 (prev_gen g + 1)) else g.
Definition gen_inactive (g : gen_num) : gen_num :=
  if negb (gen g =? 0) then mk_gen (gen g) 0 else g.
Definition gen_in_same_gen (g : gen_num) : bool * gen_num :=
  let current_gen := gen g in
  (negb (current_gen =? 0) && (current_gen =? prev_gen g), mk_gen current_gen (gen g)).

(** ** Properties *)

(** The wrap-safe comparisons order counters that are less than half the range
    apart, whatever their values. *)
Theorem wraps_compare a b :
  - 2 ^ 31 < a - b < 2 ^ 31 ->
  wraps_lt (u32 a) (u32 b) = (a <? b) /\ wraps_lte (u32 a) (u32 b) = (a <=? b)
  /\ wraps_gt (u32 a) (u32 b) = (b <? a) /\ wraps_gte (u32 a) (u32 b) = (b <=? a).
Proof.
  intros Hab. unfold wraps_lt, wraps_lte, wraps_gt, wraps_gte.
  assert (E1 : i32 (u32 (u32 a - u32 b)) = a - b) by word_lia.
  assert (E2 : i32 (u32 (u32 b - u32 a)) = b - a) by word_lia.
  rewrite E1, E2. split_and!; apply eq_true_iff_eq;
    rewrite ?Z.ltb_lt, ?Z.leb_le; lia.
Qed.

Lemma land_high x k : 0 <= k -> Z.ldiff x (2 ^ k - 1) = x / 2 ^ k * 2 ^ k.
Proof.
  intros Hk. change (2 ^ k - 1) with (Z.pred (2 ^ k)). rewrite <- Z.ones_equiv.
  rewrite Z.ldiff_ones_r, Z.shiftl_mul_pow2, Z.shiftr_div_pow2 by lia. done.
Qed.

Lemma lor_low y k : 0 <= k -> Z.lor y (2 ^ k - 1) = y / 2 ^ k * 2 ^ k + (2 ^ k - 1).
Proof.
  intros Hk. rewrite <- land_high by done. change (2 ^ k - 1) with (Z.pred (2 ^ k)). rewrite <- Z.ones_equiv.
  rewrite Z.add_nocarry_lxor, Z.lxor_lor by
    (apply Z.bits_inj'; intros n Hn; rewrite Z.land_spec, Z.ldiff_spec, Z.bits_0;
     destruct (Z.testbit y n), (Z.testbit (Z.ones k) n); done).
  apply Z.bits_inj'. intros n Hn. rewrite !Z.lor_spec, Z.ldiff_spec.
  destruct (Z.testbit y n), (Z.testbit (Z.ones k) n); done.
Qed.

(** Rounding to a power of two: up to the next multiple, down to the last one. *)
Theorem align_correct x k :
  0 <= k < 64 -> 0 <= x -> x + 2 ^ k <= 2 ^ 64 ->
  (align_up x (2 ^ k)) mod 2 ^ k = 0 /\ x <= align_up x (2 ^ k) < x + 2 ^ k
  /\ (align_down x (2 ^ k)) mod 2 ^ k = 0 /\ align_down x (2 ^ k) <= x < align_down x (2 ^ k) + 2 ^ k.
Proof.
  intros Hk Hx Hmax. pose proof (Z.pow_pos_nonneg 2 k).
  assert (Hlt : 2 ^ k < 2 ^ 64) by (apply Z.pow_lt_mono_r; lia).
  assert (Hup : align_up x (2 ^ k) = (x + 2 ^ k - 1) / 2 ^ k * 2 ^ k).
  { unfold align_up. rewrite (u64_id (2 ^ k - 1)) by lia. destruct (decide (x = 0)) as [->|].
    - replace (u64 (0 - 1)) with (2 ^ 64 - 1) by done. rewrite lor_low by lia.
      replace (0 + 2 ^ k - 1) with (2 ^ k - 1) by lia. rewrite (Z.div_small (2 ^ k - 1)) by lia.
      assert (Hd : (2 ^ 64 - 1) / 2 ^ k = 2 ^ (64 - k) - 1).
      { symmetry. apply (Z.div_unique _ _ _ (2 ^ k - 1)); [lia|].
        rewrite Z.mul_sub_distr_l, <- Z.pow_add_r by lia. replace (k + (64 - k)) with 64 by lia. lia. }
      rewrite Hd, Z.mul_sub_distr_r, <- Z.pow_add_r by lia. replace (64 - k + k) with 64 by lia.
      replace (2 ^ 64 - 1 * 2 ^ k + (2 ^ k - 1) + 1) with (2 ^ 64) by lia. done.
    - rewrite (u64_id (x - 1)), lor_low by lia.
      replace (x + 2 ^ k - 1) with (x - 1 + 1 * 2 ^ k) by lia. rewrite Z.div_add by lia.
      rewrite u64_id by (pose proof (Z.mul_div_le (x - 1) (2 ^ k)); pose proof (Z.div_pos (x - 1) (2 ^ k)); nia). lia. }
  assert (Hdown : align_down x (2 ^ k) = x / 2 ^ k * 2 ^ k).
  { unfold align_down. rewrite (u64_id (2 ^ k - 1)) by lia. rewrite <- land_high, Z.ldiff_land by lia.
    apply Z.bits_inj'. intros n Hn. rewrite !Z.land_spec.
    destruct (Z.lt_ge_cases n 64).
    - unfold u64. by rewrite Z.mod_pow2_bits_low by lia.
    - assert (Z.testbit x n = false) as ->; [|done].
      destruct (decide (x = 0)) as [->|]; [apply Z.bits_0|].
      apply Z.bits_above_log2; [lia|]. assert (Z.log2 x < 64) by (apply Z.log2_lt_pow2; lia). lia. }
  rewrite Hup, Hdown. pose proof (Z.mod_pos_bound (x + 2 ^ k - 1) (2 ^ k)).
  pose proof (Z.mod_pos_bound x (2 ^ k)). rewrite !Z.mod_mul by lia.
  pose proof (Z.div_mod (x + 2 ^ k - 1) (2 ^ k)). pose proof (Z.div_mod x (2 ^ k)). lia.
Qed.

(** Where the bits of a swapped word come from: the same bit of the byte at the
    mirrored position. *)
Definition mirror (bytes i : Z) : Z := 8 * (bytes - 1 - i / 8) + i mod 8.

Ltac bswap_bit :=
  cbn [Z.of_nat Pos.of_succ_nat Pos.succ];
  unfold u16, u32, u64; rewrite ?Z.lor_spec;
  repeat first [rewrite Z.mod_pow2_bits_low by lia | rewrite Z.lor_spec | rewrite Z.shiftl_spec by lia
               | rewrite Z.shiftr_spec by lia | rewrite Z.land_spec];
  repeat match goal with
  | |- context [Z.testbit (Zpos ?p) ?i] =>
    let b := eval vm_compute in (Z.testbit (Zpos p) i) in change (Z.testbit (Zpos p) i) with b
  end;
  rewrite ?andb_true_r, ?andb_false_r, ?orb_false_r, ?orb_false_l; cbn [orb]; reflexivity.

Lemma bswap16_bit x i : 0 <= i < 16 -> Z.testbit (bswap16 x) i = Z.testbit x (mirror 2 i).
Proof.
  intros Hi. unfold bswap16. rewrite <- (Z2Nat.id i) by lia. assert (Hn : (Z.to_nat i < 16)%nat) by lia.
  generalize dependent (Z.to_nat i). clear Hi i. intros n Hn.
  do 16 (destruct n as [|n]; [bswap_bit|]). lia.
Qed.

Lemma bswap32_bit x i : 0 <= i < 32 -> Z.testbit (bswap32 x) i = Z.testbit x (mirror 4 i).
Proof.
  intros Hi. unfold bswap32. rewrite <- (Z2Nat.id i) by lia. assert (Hn : (Z.to_nat i < 32)%nat) by lia.
  generalize dependent (Z.to_nat i). clear Hi i. intros n Hn.
  do 32 (destruct n as [|n]; [bswap_bit|]). lia.
Qed.

Lemma bswap64_bit x i : 0 <= i < 64 -> Z.testbit (bswap64 x) i = Z.testbit x (mirror 8 i).
Proof.
  intros Hi. unfold bswap64. rewrite <- (Z2Nat.id i) by lia. assert (Hn : (Z.to_nat i < 64)%nat) by lia.
  generalize dependent (Z.to_nat i). clear Hi i. intros n Hn.
  do 64 (destruct n as [|n]; [bswap_bit|]). lia.
Qed.

Lemma const_bit_high p n : Z.log2 (Zpos p) < n -> Z.testbit (Zpos p) n = false.
Proof. intros. by apply Z.bits_above_log2. Qed.

Lemma bswap64_high x n : 64 <= n -> Z.testbit (bswap64 x) n = false.
Proof.
  intros Hn. unfold bswap64, u64. rewrite !Z.lor_spec, !Z.mod_pow2_bits_high by lia.
  rewrite !Z.shiftr_spec, !Z.land_spec by lia.
  rewrite !const_bit_high by (simpl Z.log2; lia). by rewrite !andb_false_r.
Qed.

Lemma high_bits x w n : 0 <= x < 2 ^ w -> w <= n -> Z.testbit x n = false.
Proof.
  intros Hx Hn. destruct (decide (x = 0)) as [->|]; [apply Z.bits_0|].
  apply Z.bits_above_log2; [lia|]. assert (Z.log2 x < w) by (apply Z.log2_lt_pow2; lia). lia.
Qed.

Lemma mirror_mirror b i : 0 <= i < 8 * b -> 0 <= mirror b i < 8 * b /\ mirror b (mirror b i) = i.
Proof. intros Hi. unfold mirror. Z.div_mod_to_equations. lia. Qed.

(** Host order to network order and back is the identity on every width, and
    network order is host order with the bytes mirrored. *)
Theorem byteorder_roundtrip :
  (forall x, 0 <= x < 2 ^ 16 -> ntoh16 (hton16 x) = x
    /\ forall i, 0 <= i < 16 -> Z.testbit (hton16 x) i = Z.testbit x (mirror 2 i))
  /\ (forall x, 0 <= x < 2 ^ 32 -> ntoh32 (hton32 x) = x
    /\ forall i, 0 <= i < 32 -> Z.testbit (hton32 x) i = Z.testbit x (mirror 4 i))
  /\ (forall x, 0 <= x < 2 ^ 64 -> ntoh64 (hton64 x) = x
    /\ forall i, 0 <= i < 64 -> Z.testbit (hton64 x) i = Z.testbit x (mirror 8 i)).
Proof.
  split_and!; intros x Hx; (split; [apply Z.bits_inj'; intros n Hn|]).
  - destruct (Z.lt_ge_cases n 16).
    + destruct (mirror_mirror 2 n) as [? E]; [lia|]. unfold ntoh16, hton16. rewrite !bswap16_bit by lia. by rewrite E.
    + rewrite (high_bits x 16) by lia. unfold ntoh16, bswap16, u16. by rewrite Z.mod_pow2_bits_high by lia.
  - intros i Hi. by apply bswap16_bit.
  - destruct (Z.lt_ge_cases n 32).
    + destruct (mirror_mirror 4 n) as [? E]; [lia|]. unfold ntoh32, hton32. rewrite !bswap32_bit by lia. by rewrite E.
    + rewrite (high_bits x 32) by lia. unfold ntoh32, bswap32, u32. by rewrite Z.mod_pow2_bits_high by lia.
  - intros i Hi. by apply bswap32_bit.
  - destruct (Z.lt_ge_cases n 64).
    + destruct (mirror_mirror 8 n) as [? E]; [lia|]. unfold ntoh64, hton64. rewrite !bswap64_bit by lia. by rewrite E.
    + rewrite (high_bits x 64) by lia. by apply bswap64_high.
  - intros i Hi. by apply bswap64_bit.
Qed.

(** ** Page addresses *)

Lemma mask_high x k : 0 <= k -> 0 <= x < 2 ^ 64 -> Z.land x (u64 (Z.lnot (2 ^ k - 1))) = x / 2 ^ k * 2 ^ k.
Proof.
  intros Hk Hx. rewrite <- land_high, Z.ldiff_land by lia.
  apply Z.bits_inj'. intros n Hn. rewrite !Z.land_spec. destruct (Z.lt_ge_cases n 64).
  - unfold u64. by rewrite Z.mod_pow2_bits_low by lia.
  - by rewrite (high_bits x 64) by lia.
Qed.

Lemma PGADDR_2MB_eq x : 0 <= x < 2 ^ 64 -> PGADDR_2MB x = x / 2 ^ 21 * 2 ^ 21.
Proof. intros Hx. unfold PGADDR_2MB. change PGMASK_2MB with (2 ^ 21 - 1). by apply mask_high. Qed.

(** What the macros of one page size say of an address. *)
Definition splits (la addr off n size : Z) : Prop := la = addr + off /\ addr = n * size /\ 0 <= off < size.

Lemma mask_splits la k :
  0 <= k -> 0 <= la < 2 ^ 64 ->
  splits la (Z.land la (u64 (Z.lnot (2 ^ k - 1)))) (Z.land la (2 ^ k - 1)) (Z.shiftr la k) (2 ^ k).
Proof.
  intros Hk Hla. unfold splits. rewrite mask_high, Z.shiftr_div_pow2 by lia. change (2 ^ k - 1) with (Z.pred (2 ^ k)).
  rewrite <- Z.ones_equiv, Z.land_ones by lia. pose proof (Z.mod_pos_bound la (2 ^ k)).
  pose proof (Z.div_mod la (2 ^ k)). lia.
Qed.

(** An address is the start of its page and the offset in it, for each of the
    page sizes. *)
Theorem page_split la :
  0 <= la < 2 ^ 64 ->
  splits la (PGADDR_4KB la) (PGOFF_4KB la) (PGN_4KB la) PGSIZE_4KB
  /\ splits la (PGADDR_2MB la) (PGOFF_2MB la) (PGN_2MB la) PGSIZE_2MB
  /\ splits la (PGADDR_1GB la) (PGOFF_1GB la) (PGN_1GB la) PGSIZE_1GB.
Proof. intros Hla. split_and!; [by apply (mask_splits la 12)|by apply (mask_splits la 21)|by apply (mask_splits la 30)]. Qed.

(** A page structure determines its page: going from an address to the large or
    small page structure and back gives the start of the page the address is
    in. *)
Theorem page_roundtrip page_tbl addr :
  PAGE_BASE_ADDR <= addr < PAGE_BASE_ADDR + 2 ^ 46 -> 0 <= page_tbl < 2 ^ 47 ->
  lgpage_to_addr page_tbl (addr_to_lgpage page_tbl addr) = addr / 2 ^ 21 * 2 ^ 21
  /\ smpage_to_addr (addr_to_smpage addr) = addr / 2 ^ 12 * 2 ^ 12.
Proof.
  unfold PAGE_BASE_ADDR. intros Ha Ht. split.
  - unfold lgpage_to_addr, addr_to_lgpage, LGPGN, PGN_2MB, PAGE_BASE_ADDR, sizeof_page, PGSIZE_2MB, PGSHIFT_2MB.
    rewrite Z.shiftr_div_pow2, Z.shiftl_mul_pow2 by lia.
    rewrite (u64_id (addr - _)) by lia.
    set (q := (addr - 17592186044416) / 2 ^ 21). assert (Hq : 0 <= q < 2 ^ 25) by (unfold q; Z.div_mod_to_equations; lia).
    rewrite (u64_id (page_tbl + _)), i64_id by lia. replace (page_tbl + q * 64 - page_tbl) with (q * 64) by lia.
    rewrite Z.div_mul, u64_id by lia.
    assert (addr / 2 ^ 21 = q + 8388608) by (unfold q; Z.div_mod_to_equations; lia). lia.
  - unfold smpage_to_addr, addr_to_smpage, PGN, PGN_4KB, sizeof_page, PGSIZE_4KB, PGSHIFT_4KB.
    rewrite Z.shiftr_div_pow2, Z.shiftl_mul_pow2 by lia. rewrite (PGADDR_2MB_eq addr) by lia.
    set (a := addr / 2 ^ 21). assert (Hr : 0 <= addr - a * 2 ^ 21 < 2 ^ 21) by (unfold a; Z.div_mod_to_equations; lia).
    rewrite (u64_id (addr - _)) by lia. set (p := (addr - a * 2 ^ 21) / 2 ^ 12).
    assert (Hp : 0 <= p < 512) by (unfold p; Z.div_mod_to_equations; lia).
    rewrite (u64_id (a * 2 ^ 21 + p * 64)) by lia. rewrite PGADDR_2MB_eq by lia.
    assert (E : (a * 2 ^ 21 + p * 64) / 2 ^ 21 = a) by (symmetry; apply (Z.div_unique _ _ _ (p * 64)); lia).
    rewrite E. replace (a * 2 ^ 21 + p * 64 - a * 2 ^ 21) with (p * 64) by lia.
    rewrite i64_id, Z.div_mul, u64_id by lia.
    unfold p, a in *. Z.div_mod_to_equations. lia.
Qed.

Lemma LGPGN_eq addr :
  PAGE_BASE_ADDR <= addr < 2 ^ 64 -> LGPGN addr = addr / 2 ^ 21 - 2 ^ 23.
Proof.
  unfold PAGE_BASE_ADDR. intros Ha. unfold LGPGN, PGN_2MB, PAGE_BASE_ADDR, PGSHIFT_2MB.
  rewrite Z.shiftr_div_pow2, u64_id by lia. Z.div_mod_to_equations. lia.
Qed.

(** Page memory is laid out as the helpers assume.  An address in it belongs to one
    of the four NUMA nodes, and the structure of its large page is in that
    node's part of the table.  The structure of a small page lies in the large
    page itself, in its first 32768 bytes, so that both structures lead to the
    same large page; and two addresses of a large page are as far apart in
    physical memory as they are here. *)
Theorem page_layout page_tbl paddr addr addr' :
  is_page_addr addr = true -> is_page_addr addr' = true -> 0 <= page_tbl < 2 ^ 47 ->
  (forall pg, 0 <= paddr pg < 2 ^ 63) ->
  0 <= addr_to_numa_node addr < NNUMA
  /\ (exists i, 0 <= i < LGPAGE_META_ENTS
        /\ addr_to_lgpage page_tbl addr = page_tbl + (addr_to_numa_node addr * LGPAGE_META_ENTS + i) * sizeof_page)
  /\ PGADDR_2MB addr <= addr_to_smpage addr < PGADDR_2MB addr + SMPAGE_META_LEN
  /\ smpage_to_lgpage page_tbl (addr_to_smpage addr) = addr_to_lgpage page_tbl addr
  /\ (PGADDR_2MB addr = PGADDR_2MB addr' ->
      addr_to_pa page_tbl paddr addr - addr_to_pa page_tbl paddr addr' = addr - addr').
Proof.
  unfold is_page_addr. rewrite !andb_true_iff, !Z.leb_le, !Z.ltb_lt.
  change PAGE_END_ADDR with (PAGE_BASE_ADDR + 2 ^ 38). unfold PAGE_BASE_ADDR. intros Ha Ha' Ht Hp.
  change LGPAGE_META_ENTS with (2 ^ 15). change SMPAGE_META_LEN with (2 ^ 15). change sizeof_page with 64.
  assert (Hn : addr_to_numa_node addr = (addr - PAGE_BASE_ADDR) / 2 ^ 36).
  { unfold addr_to_numa_node, PAGE_BASE_ADDR. change LGPAGE_NODE_ADDR_LEN with (2 ^ 36).
    rewrite u64_id by lia. apply u32_id. Z.div_mod_to_equations. lia. }
  assert (Hl : forall x, 17592186044416 <= x < 17592186044416 + 2 ^ 38 ->
    addr_to_lgpage page_tbl x = page_tbl + (x / 2 ^ 21 - 2 ^ 23) * 64).
  { intros x Hx. unfold addr_to_lgpage. rewrite LGPGN_eq by (unfold PAGE_BASE_ADDR; lia). apply u64_id.
    change sizeof_page with 64. Z.div_mod_to_equations. lia. }
  rewrite Hn, Hl by lia. unfold PAGE_BASE_ADDR, NNUMA. split; [Z.div_mod_to_equations; lia|]. split.
  { exists ((addr - 17592186044416) / 2 ^ 21 mod 2 ^ 15). split; [apply Z.mod_pos_bound; lia|].
    Z.div_mod_to_equations. lia. }
  assert (Hs : addr_to_smpage addr = addr / 2 ^ 21 * 2 ^ 21 + (addr - addr / 2 ^ 21 * 2 ^ 21) / 2 ^ 12 * 64).
  { unfold addr_to_smpage, PGN, PGN_4KB, PGSHIFT_4KB. change sizeof_page with 64.
    rewrite Z.shiftr_div_pow2, PGADDR_2MB_eq by lia. rewrite (u64_id (addr - _)) by (Z.div_mod_to_equations; lia).
    apply u64_id. Z.div_mod_to_equations. lia. }
  rewrite Hs, !PGADDR_2MB_eq by lia. split; [Z.div_mod_to_equations; lia|]. split.
  { unfold smpage_to_lgpage. rewrite Hl by (Z.div_mod_to_equations; lia).
    do 3 f_equal. symmetry. apply (Z.div_unique _ _ _ ((addr - addr / 2 ^ 21 * 2 ^ 21) / 2 ^ 12 * 64)); Z.div_mod_to_equations; lia. }
  intros Heq. unfold addr_to_pa. rewrite !Hl by lia. assert (E : addr / 2 ^ 21 = addr' / 2 ^ 21) by lia. rewrite <- E.
  unfold PGOFF_2MB. change PGMASK_2MB with (Z.ones 21). rewrite !Z.land_ones by lia.
  specialize (Hp (page_tbl + (addr / 2 ^ 21 - 2 ^ 23) * 64)). rewrite !u64_id by (Z.div_mod_to_equations; lia).
  Z.div_mod_to_equations. lia.
Qed.

Lemma page_layout_witness :
  0 <= addr_to_numa_node (PAGE_BASE_ADDR + 2 ^ 36 + 5000) < NNUMA
  /\ smpage_to_lgpage 4096 (addr_to_smpage (PAGE_BASE_ADDR + 2 ^ 36 + 5000))
     = addr_to_lgpage 4096 (PAGE_BASE_ADDR + 2 ^ 36 + 5000).
Proof.
  destruct (page_layout 4096 (fun _ => 0) (PAGE_BASE_ADDR + 2 ^ 36 + 5000) (PAGE_BASE_ADDR + 2 ^ 36))
    as (H1 & _ & _ & H2 & _).
  - reflexivity.
  - reflexivity.
  - lia.
  - intros _. lia.
  - split; [exact H1|exact H2].
Defined.

(** ** Generations: a writer and a reader that share the number *)

Inductive gen_op : Type := GActive | GInactive.

Definition gen_do (g : gen_num) (o : gen_op) : gen_num :=
  match o with GActive => gen_active g | GInactive => gen_inactive g end.

(** As long as numbers do not wrap, once the generation [g0] has ended the
    shared number is never [g0] again. *)
Lemma gen_ended g0 os w :
  1 <= g0 -> (gen w = 0 \/ g0 < gen w) -> g0 <= prev_gen w -> prev_gen w <= gen w \/ gen w = 0 ->
  Z.max (gen w) (prev_gen w) + Z.of_nat (length os) < 2 ^ 32 ->
  gen (foldl gen_do w os) <> g0.
Proof.
  intros H0. revert w. induction os as [|o os IH]; intros w Hg Hp Hle Hmax; simpl in *; [lia|].
  apply IH; destruct o; simpl; unfold gen_active, gen_inactive;
    destruct (Z.eqb_spec (gen w) 0); simpl; rewrite ?u32_id by lia; lia.
Qed.

(** A reader that checks twice during generation [g0] is told that it is in the
    same generation exactly when the writer has not ended it in between. *)
Theorem gen_same_iff g0 os pr :
  1 <= g0 -> g0 + Z.of_nat (length os) < 2 ^ 32 ->
  let w := mk_gen (g0 - 1) g0 in
  let r := (gen_in_same_gen (mk_gen pr g0)).2 in
  (gen_in_same_gen (mk_gen (prev_gen r) (gen (foldl gen_do w os)))).1 = true
  <-> GInactive ∉ os.
Proof.
  intros H0 Hmax w r. unfold r, gen_in_same_gen. simpl.
  assert (Hsame : (negb (gen (foldl gen_do w os) =? 0) && (gen (foldl gen_do w os) =? g0)) = true
    <-> gen (foldl gen_do w os) = g0).
  { rewrite andb_true_iff, negb_true_iff, Z.eqb_neq, Z.eqb_eq. lia. }
  rewrite Hsame. unfold w. clear Hsame w r. induction os as [|o os IH]; simpl.
  - split; [|done]. intros _. apply not_elem_of_nil.
  - destruct o; simpl.
    + assert (E : gen_active (mk_gen (g0 - 1) g0) = mk_gen (g0 - 1) g0).
      { unfold gen_active. simpl. by rewrite (proj2 (Z.eqb_neq g0 0)) by lia. }
      rewrite E, IH by (simpl in Hmax; lia). rewrite not_elem_of_cons. naive_solver.
    + split; [|intros H; destruct H; by constructor]. intros Heq. exfalso. revert Heq.
      unfold gen_inactive. simpl. rewrite (proj2 (Z.eqb_neq g0 0)) by lia. simpl in *.
      apply gen_ended; simpl; lia.
Qed.
