(* ===== verification/Sync.v ===== *)
(** * Sync: atomic operations, reference counts and spin locks

    Models [src/include/base/atomic.h], [kref.h] and [lock.h], and the references
    to pages of [page.h].  The compiler's
    [__sync] built-ins act in one step; [int] and [long] wrap around in them. *)
From S2P Require Import Prelude.

(** ** Atomic operations: the new value of the counter and the result *)

Definition atomic_read (a : Z) : Z := a.
Definition atomic_write (a val : Z) : Z := val.
Definition atomic_fetch_and_add (a val : Z) : Z * Z := (i32 (a + val), a).
Definition atomic_fetch_and_sub (a val : Z) : Z * Z := (i32 (a + val), a).
Definition atomic_fetch_and_or (a val : Z) : Z * Z := (Z.lor a val, a).
Definition atomic_fetch_and_xor (a val : Z) : Z * Z := (Z.lxor a val, a).
Definition atomic_fetch_and_and (a val : Z) : Z * Z := (Z.land a val, a).
Definition atomic_fetch_and_nand (a val : Z) : Z * Z := (Z.lnot (Z.land a val), a).
Definition atomic_add_and_fetch (a val : Z) : Z * Z := (i32 (a + val), i32 (a + val)).
Definition atomic_sub_and_fetch (a val : Z) : Z * Z := (i32 (a - val), i32 (a - val)).
Definition atomic_inc (a : Z) : Z := (atomic_fetch_and_add a 1).1.
Definition atomic_dec (a : Z) : Z := (atomic_sub_and_fetch a 1).1.
Definition atomic_dec_and_test (a : Z) : Z * bool :=
  let '(a, r) := atomic_sub_and_fetch a 1 in (a, r =? 0).
Definition atomic_cmpxchg (a oldv newv : Z) : Z * bool :=
  if a =? oldv then (newv, true) else (a, false).
Definition atomic_cmpxchg_val (a oldv newv : Z) : Z * Z :=
  if a =? oldv then (newv, a) else (a, a).

Definition atomic64_read (a : Z) : Z := a.
Definition atomic64_write (a val : Z) : Z := val.
Definition atomic64_fetch_and_add (a val : Z) : Z * Z := (i64 (a + val), a).
Definition atomic64_fetch_and_sub (a val : Z) : Z * Z := (i64 (a - val), a).
Definition atomic64_fetch_and_or (a val : Z) : Z * Z := (Z.lor a val, a).
Definition atomic64_fetch_and_xor (a val : Z) : Z * Z := (Z.lxor a val, a).
Definition atomic64_fetch_and_nand (a val : Z) : Z * Z := (Z.lnot (Z.land a val), a).
Definition atomic64_fetch_and_and (a val : Z) : Z * Z := (Z.land a val, a).
Definition atomic64_add_and_fetch (a val : Z) : Z * Z := (i64 (a + val), i64 (a + val)).
Definition atomic64_sub_and_fetch (a val : Z) : Z * Z := (i64 (a - val), i64 (a - val)).
Definition atomic64_inc (a : Z) : Z := (atomic64_fetch_and_add a 1).1.
Definition atomic64_dec (a : Z) : Z := (atomic64_sub_and_fetch a 1).1.
Definition atomic64_dec_and_test (a : Z) : Z * bool :=
  let '(a, r) := atomic64_sub_and_fetch a 1 in (a, r =? 0).
Definition atomic64_cmpxchg (a oldv newv : Z) : Z * bool :=
  if a =? oldv then (newv, true) else (a, false).
Definition atomic64_cmpxchg_val (a oldv newv : Z) : Z * Z :=
  if a =? oldv then (newv, a) else (a, a).

(** ** Reference counts; the second result says that [release] is called *)

Definition kref_init : Z := atomic_write 0 1.
Definition kref_initn (n : Z) : Z := atomic_write 0 n.
Definition kref_get (cnt : Z) : Z := atomic_inc cnt.
Definition kref_put (cnt : Z) : Z * bool := atomic_dec_and_test cnt.
Definition kref_released (cnt : Z) : bool := atomic_read cnt =? 0.

(** ** page.h: references to pages, by the address of their structures; the second
    result of [page_put] says that [page_release] is called *)

Definition page_get (pg : Z) (refs : gmap Z Z) : outcome (gmap Z Z) :=
  match refs !! pg with None => UB | Some cnt => Ok (<[pg := kref_get cnt]> refs) end.

Definition page_put (pg : Z) (refs : gmap Z Z) : outcome (gmap Z Z * bool) :=
  match refs !! pg with
  | None => UB
  | Some cnt => let '(cnt, b) := kref_put cnt in Ok (<[pg := cnt]> refs, b)
  end.

(** ** Spin locks: where a thread is *)

Inductive lpc : Type :=
  | LOut       (** not interested *)
  | LTry       (** in [spin_lock], about to test and set *)
  | LSpin      (** in [spin_lock], reading until the lock looks free *)
  | LHeld.     (** between [spin_lock] and [spin_unlock] *)

Record lstate : Type := mk_lstate { locked : Z; pcs : list lpc }.

(** One step of the thread [i]: calling [spin_lock], a test and set of it, a
    read of its inner loop, a [spin_try_lock], a [spin_unlock]. *)
Inductive lock_step : lstate -> lstate -> Prop :=
  | L_call i l ps : ps !! i = Some LOut -> lock_step (mk_lstate l ps) (mk_lstate l (<[i := LTry]> ps))
  | L_take i ps : ps !! i = Some LTry -> lock_step (mk_lstate 0 ps) (mk_lstate 1 (<[i := LHeld]> ps))
  | L_busy i l ps : l <> 0 -> ps !! i = Some LTry ->
      lock_step (mk_lstate l ps) (mk_lstate 1 (<[i := LSpin]> ps))
  | L_spin i l ps : l <> 0 -> ps !! i = Some LSpin -> lock_step (mk_lstate l ps) (mk_lstate l ps)
  | L_free i ps : ps !! i = Some LSpin -> lock_step (mk_lstate 0 ps) (mk_lstate 0 (<[i := LTry]> ps))
  | L_try_take i ps : ps !! i = Some LOut -> lock_step (mk_lstate 0 ps) (mk_lstate 1 (<[i := LHeld]> ps))
  | L_try_fail i l ps : l <> 0 -> ps !! i = Some LOut -> lock_step (mk_lstate l ps) (mk_lstate 1 ps)
  | L_unlock i l ps : ps !! i = Some LHeld -> lock_step (mk_lstate l ps) (mk_lstate 0 (<[i := LOut]> ps)).

Definition spin_lock_init (n : nat) : lstate := mk_lstate 0 (replicate n LOut).

Definition spin_lock_held (s : lstate) : bool := negb (locked s =? 0).

(** ** Mutual exclusion *)

(** The lock word says whether some thread holds the lock, and only one does. *)
Definition lock_inv (s : lstate) : Prop :=
  (locked s = 0 /\ forall i, pcs s !! i <> Some LHeld)
  \/ (locked s = 1 /\ exists i, pcs s !! i = Some LHeld /\ forall j, pcs s !! j = Some LHeld -> j = i).

Lemma no_held_insert (ps : list lpc) i x :
  x <> LHeld -> (forall j, ps !! j <> Some LHeld) -> forall j, <[i := x]> ps !! j <> Some LHeld.
Proof.
  intros Hx Hn j Hj. apply list_lookup_insert_Some in Hj as [(-> & -> & _)|[_ Hj]]; [done|]. by apply (Hn j).
Qed.

Lemma one_held_insert (ps : list lpc) i k x :
  x <> LHeld -> ps !! i <> Some LHeld -> ps !! k = Some LHeld ->
  (forall j, ps !! j = Some LHeld -> j = k) ->
  <[i := x]> ps !! k = Some LHeld /\ forall j, <[i := x]> ps !! j = Some LHeld -> j = k.
Proof.
  intros Hx Hi Hk Hu. split.
  - rewrite list_lookup_insert_ne by (by intros ->). done.
  - intros j Hj. apply list_lookup_insert_Some in Hj as [(-> & -> & _)|[_ Hj]]; [done|by apply Hu].
Qed.

Lemma held_insert (ps : list lpc) i p :
  ps !! i = Some p -> (forall j, ps !! j <> Some LHeld) ->
  exists k, <[i := LHeld]> ps !! k = Some LHeld /\ forall j, <[i := LHeld]> ps !! j = Some LHeld -> j = k.
Proof.
  intros Hi Hn. exists i. split; [apply list_lookup_insert_eq; by eapply lookup_lt_Some|].
  intros j Hj. apply list_lookup_insert_Some in Hj as [(-> & _)|[_ Hj]]; [done|]. by destruct (Hn j).
Qed.

Lemma lock_step_inv s s' : lock_inv s -> lock_step s s' -> lock_inv s'.
Proof.
  intros Hinv Hstep. destruct Hstep as [i l ps Hi|i ps Hi|i l ps Hl Hi|i l ps Hl Hi|i ps Hi|i ps Hi|i l ps Hl Hi|i l ps Hi];
    destruct Hinv as [[Hl0 Hn]|(Hl1 & k & Hk & Hu)]; simpl in *; try done.
  - left. split; [done|]. by apply no_held_insert.
  - right. split; [done|]. exists k. apply one_held_insert; [done|congruence|done|done].
  - right. split; [done|]. simpl. by eapply held_insert.
  - right. split; [done|]. exists k. apply one_held_insert; [done|congruence|done|done].
  - right. simpl. eauto.
  - left. split; [done|]. by apply no_held_insert.
  - right. split; [done|]. simpl. by eapply held_insert.
  - right. simpl. eauto.
  - destruct (Hn i Hi).
  - left. split; [done|]. simpl. intros j Hj. rewrite (Hu i Hi) in Hj.
    apply list_lookup_insert_Some in Hj as [(-> & Hx & _)|[Hne Hj]]; [done|]. by apply Hne, eq_sym, Hu.
Qed.

(** Spin locks exclude: in every state any number of threads can reach by
    locking, trying, spinning and unlocking in any order, at most one thread
    holds the lock, [spin_lock_held] says whether one does, and a free lock can
    be taken by any thread that tries. *)
Theorem spin_lock_excludes n s :
  rtc lock_step (spin_lock_init n) s ->
  (forall i j, pcs s !! i = Some LHeld -> pcs s !! j = Some LHeld -> i = j)
  /\ (spin_lock_held s = true <-> exists i, pcs s !! i = Some LHeld)
  /\ (forall i, locked s = 0 -> pcs s !! i = Some LTry ->
       lock_step s (mk_lstate 1 (<[i := LHeld]> (pcs s)))).
Proof.
  intros Hr. assert (Hinv : lock_inv s).
  { revert Hr. apply (rtc_ind_r (fun s => lock_inv s)).
    - left. split; [done|]. intros i Hi. apply lookup_replicate in Hi as [? _]. done.
    - intros y z _ Hs Hy. by eapply lock_step_inv. }
  destruct s as [l ps]. unfold spin_lock_held. simpl. split_and!.
  - intros i j Hi Hj. destruct Hinv as [[_ Hn]|(_ & k & _ & Hu)]; [by destruct (Hn i)|].
    by rewrite (Hu i Hi), (Hu j Hj).
  - destruct Hinv as [[Hl Hn]|(Hl & k & Hk & _)]; simpl in *; rewrite Hl.
    + split; [done|]. intros [i Hi]. by destruct (Hn i).
    + split; [by exists k|done].
  - intros i -> Hi. by apply L_take.
Qed.

Lemma spin_lock_excludes_witness :
  let s := mk_lstate 1 [LHeld; LSpin] in
  rtc lock_step (spin_lock_init 2) s
  /\ (forall i j, pcs s !! i = Some LHeld -> pcs s !! j = Some LHeld -> i = j).
Proof.
  intros s. assert (Hr : rtc lock_step (spin_lock_init 2) s).
  { eapply rtc_l; [exact (L_call 0 0 [LOut; LOut] eq_refl)|].
    eapply rtc_l; [exact (L_call 1 0 [LTry; LOut] eq_refl)|].
    eapply rtc_l; [exact (L_take 0 [LTry; LTry] eq_refl)|].
    eapply rtc_l; [exact (L_busy 1 1 [LHeld; LTry] ltac:(discriminate) eq_refl)|]. apply rtc_refl. }
  split; [exact Hr|]. apply (spin_lock_excludes 2 s Hr).
Defined.

(** ** Reference counting *)

Inductive ref_op : Type := RGet | RPut.

(** The references held after [os], and the count and the number of calls of
    [release] the code arrives at. *)
Definition refs_after (r : Z) (o : ref_op) : Z := match o with RGet => r + 1 | RPut => r - 1 end.

Fixpoint kref_run (cnt : Z) (rel : nat) (os : list ref_op) : Z * nat :=
  match os with
  | [] => (cnt, rel)
  | RGet :: os => kref_run (kref_get cnt) rel os
  | RPut :: os => let '(cnt, b) := kref_put cnt in kref_run cnt (if (b : bool) then S rel else rel) os
  end.

(** Operations on a reference one holds. *)
Fixpoint ref_ok (r : Z) (os : list ref_op) : Prop :=
  match os with [] => True | o :: os => 0 < r < 2 ^ 31 - 1 /\ ref_ok (refs_after r o) os end.

Lemma kref_get_eq r : 0 < r < 2 ^ 31 - 1 -> kref_get r = r + 1.
Proof. intros Hr. unfold kref_get, atomic_inc. simpl. word_lia. Qed.

Lemma kref_put_eq r : 0 < r < 2 ^ 31 - 1 -> kref_put r = (r - 1, r - 1 =? 0).
Proof. intros Hr. unfold kref_put, atomic_dec_and_test. simpl. by replace (i32 (r - 1)) with (r - 1) by word_lia. Qed.

(** The object is released exactly once, by the operation that gives up the
    last reference, and never before. *)
Theorem kref_releases_once r os :
  0 <= r < 2 ^ 31 -> ref_ok r os ->
  let r' := foldl refs_after r os in
  kref_run r 0 os = (r', if decide (0 < r /\ r' = 0) then 1%nat else 0%nat) /\ 0 <= r'
  /\ kref_released (kref_run r 0 os).1 = bool_decide (r' = 0).
Proof.
  intros Hr Hok. cut (forall rel, kref_run r rel os = (foldl refs_after r os,
    Nat.add (if decide (0 < r /\ foldl refs_after r os = 0) then 1%nat else 0%nat) rel) /\ 0 <= foldl refs_after r os).
  { intros H. destruct (H 0%nat) as [E Hp]. simpl. rewrite E, Nat.add_0_r. split_and!; [done|done|].
    unfold kref_released, atomic_read. simpl. apply eq_true_iff_eq. rewrite Z.eqb_eq, bool_decide_eq_true. done. }
  revert r Hr Hok. induction os as [|o os IH]; intros r Hr Hok rel; cbn [kref_run foldl].
  { split; [|lia]. rewrite decide_False by lia. done. }
  destruct Hok as [Hr0 Hok]. destruct o; cbn [kref_run refs_after] in *.
  - rewrite kref_get_eq by done.
    destruct (IH (r + 1) ltac:(lia) Hok rel) as [-> ?]. split; [|done]. f_equal.
    destruct (decide (0 < r + 1 /\ _)), (decide (0 < r /\ _)); lia.
  - rewrite kref_put_eq by done. destruct (IH (r - 1) ltac:(lia) Hok (if r - 1 =? 0 then S rel else rel)) as [-> Hp].
    split; [|done]. f_equal. destruct (Z.eqb_spec (r - 1) 0) as [E0|].
    + destruct os as [|o os]; [|simpl in Hok; lia]. simpl in *.
      rewrite decide_False by lia. rewrite decide_True by lia. done.
    + destruct (decide (0 < r - 1 /\ _)), (decide (0 < r /\ _)); lia.
Qed.

(** ** Pages in use by many *)

Definition page_do (pg : Z) (o : ref_op) (refs : gmap Z Z) : outcome (gmap Z Z * bool) :=
  match o with
  | RGet => refs ← page_get pg refs; Ok (refs, false)
  | RPut => page_put pg refs
  end.

(** A sequence of operations, and the pages that are released, in order. *)
Fixpoint page_run (refs : gmap Z Z) (os : list (Z * ref_op)) : outcome (gmap Z Z * list Z) :=
  match os with
  | [] => Ok (refs, [])
  | (pg, o) :: os =>
    '(refs, b) ← page_do pg o refs;
    '(refs, rel) ← page_run refs os;
    Ok (refs, if (b : bool) then pg :: rel else rel)
  end.

(** The operations on one page. *)
Definition on_page (pg : Z) (os : list (Z * ref_op)) : list ref_op := (filter (fun o => o.1 = pg) os).*2.

Lemma on_page_cons pg p o os :
  on_page pg ((p, o) :: os) = if decide (p = pg) then o :: on_page pg os else on_page pg os.
Proof. unfold on_page. rewrite filter_cons. cbn [fst]. by case_decide. Qed.

Lemma refs_zero os : ref_ok 0 os -> os = [].
Proof. destruct os; [done|]. intros [? _]. lia. Qed.

Lemma page_do_ok pg o refs r :
  refs !! pg = Some r -> 0 < r < 2 ^ 31 - 1 ->
  page_do pg o refs = Ok (<[pg := refs_after r o]> refs, bool_decide (refs_after r o = 0)).
Proof.
  intros Hr Hpos. unfold page_do, page_get, page_put. rewrite Hr. destruct o; cbn [mbind outcome_bind refs_after].
  - by rewrite kref_get_eq, bool_decide_eq_false_2 by lia.
  - rewrite kref_put_eq by done. destruct (Z.eqb_spec (r - 1) 0); [by rewrite bool_decide_eq_true_2|by rewrite bool_decide_eq_false_2].
Qed.

(** Whatever users do with the pages they hold, in any order, every operation
    is defined, each page keeps the count of its references, and it is released
    exactly once, when the last of them is given up. *)
Theorem pages_released_once refs os :
  (forall pg o, (pg, o) ∈ os -> is_Some (refs !! pg)) ->
  (forall pg r, refs !! pg = Some r -> 0 <= r /\ ref_ok r (on_page pg os)) ->
  exists refs' rel, page_run refs os = Ok (refs', rel) /\ NoDup rel
    /\ (forall pg r, refs !! pg = Some r -> refs' !! pg = Some (foldl refs_after r (on_page pg os)))
    /\ (forall pg, pg ∈ rel <-> exists r, refs !! pg = Some r /\ 0 < r /\ foldl refs_after r (on_page pg os) = 0).
Proof.
  revert refs. induction os as [|[p o] os IH]; intros refs Hin Hok; cbn [page_run].
  { exists refs, []. split_and!; [done|constructor|done|]. intros pg. split; [by intros ?%elem_of_nil|]. cbn. intros (r & _ & ? & ?). lia. }
  destruct (Hin p o) as [r Hr]; [left|]. destruct (Hok p r Hr) as [H0 Hp].
  rewrite on_page_cons, decide_True in Hp by done. destruct Hp as [Hpos Hp]. rewrite (page_do_ok p o refs r) by done.
  set (r1 := refs_after r o) in *. assert (Hr1 : 0 <= r1) by (subst r1; destruct o; cbn; lia).
  destruct (IH (<[p := r1]> refs)) as (refs' & rel & E & Hnd & Hcnt & Hrel).
  { intros pg o' Ho. rewrite lookup_insert. case_decide; [done|]. apply (Hin pg o'). by right. }
  { intros pg r2. rewrite lookup_insert. case_decide as Hd; [intros [= <-]; by subst|]. intros H2.
    specialize (Hok pg r2 H2). by rewrite on_page_cons, decide_False in Hok by done. }
  cbn [mbind outcome_bind]. rewrite E. cbn [mbind outcome_bind]. eexists refs', _. split; [reflexivity|]. split_and!.
  - case_bool_decide as Hz; [|done]. constructor; [|done]. rewrite Hrel. intros (r2 & H2 & Hlt & _).
    rewrite lookup_insert, decide_True in H2 by done. injection H2 as <-. lia.
  - intros pg r2 H2. rewrite on_page_cons. specialize (Hcnt pg). rewrite lookup_insert in Hcnt.
    case_decide as Hd; [|by apply Hcnt]. subst pg. rewrite Hr in H2. injection H2 as <-. by apply Hcnt.
  - intros pg. rewrite on_page_cons. specialize (Hrel pg). rewrite lookup_insert in Hrel.
    destruct (decide (p = pg)) as [<-|Hd].
    + case_bool_decide as Hz.
      * rewrite Hz in Hp. apply refs_zero in Hp. split; [|by left]. intros _. exists r. rewrite Hp. split_and!; [done|lia|exact Hz].
      * rewrite Hrel. split; [intros (r2 & [= <-] & Hlt & Hf)|intros (r2 & H2 & _ & Hf)]; [exists r; split_and!; [done|lia|done]|].
        exists r1. rewrite Hr in H2. injection H2 as <-. split_and!; [done|lia|done].
    + rewrite <- Hrel. case_bool_decide; [|done]. rewrite elem_of_cons. split; [by intros [->|?]|by right].
Qed.
