(* ===== verification/Threads.v ===== *)
(** * Threads: the table of threads and the caches of the threads

    Models the inline code of [src/include/base/thread.h] (the iteration over
    the active threads) and of [src/include/base/tcache.h] (the fast paths of a
    thread's cache of items; the slow paths are declared there, but have no
    source, and are parameters). *)
From S2P Require Import Prelude.

Module Threads.

(** ** thread.h *)

Definition NTHREAD : nat := 512.

Section table.
(** [perthread_offsets] and [thread_count]. *)
Context (perthread_offsets : list Z) (thread_count : Z).

Definition thread_is_active (thread : Z) : outcome bool :=
  off ← arr_get perthread_offsets thread; Ok (negb (off =? NULL)).

(** [n_left] is [thread_count - thread]: the loop ends when it is zero. *)
Fixpoint next_loop (n_left : nat) (thread : Z) : outcome Z :=
  match n_left with
  | O => Ok thread
  | S n_left =>
    active ← thread_is_active (thread + 1);
    if active : bool then Ok (thread + 1) else next_loop n_left (thread + 1)
  end.

Definition thread_next_active (thread : Z) : outcome Z :=
  next_loop (Z.to_nat (i32 thread_count - thread)) thread.

(** [for_each_thread] with a body that notes the thread; [None] when [fuel] is
    used up.  The comparison is one of unsigned numbers. *)
Fixpoint for_each_thread (fuel : nat) (thread : Z) : outcome (option (list Z)) :=
  match fuel with
  | O => Ok None
  | S fuel =>
    thread ← thread_next_active thread;
    if u32 thread <? thread_count then
      r ← for_each_thread fuel thread;
      match r with None => Ok None | Some ts => Ok (Some (thread :: ts)) end
    else Ok (Some [])
  end.

Definition active (t : Z) : Prop := exists off, perthread_offsets !! Z.to_nat t = Some off /\ off <> NULL.

#[export] Instance active_dec t : Decision (active t).
Proof.
  unfold active. destruct (perthread_offsets !! Z.to_nat t) as [off|].
  - destruct (decide (off = NULL)); [right|left]; naive_solver.
  - right. naive_solver.
Defined.

Lemma thread_is_active_Ok t :
  0 <= t < Z.of_nat (length perthread_offsets) -> thread_is_active t = Ok (bool_decide (active t)).
Proof.
  intros Ht. unfold thread_is_active.
  destruct (lookup_lt_is_Some_2 perthread_offsets (Z.to_nat t)) as [off Hoff]; [lia|].
  rewrite (proj2 (arr_get_Ok _ t off)) by (split; [lia|done]). cbn [mbind outcome_bind]. f_equal.
  destruct (Z.eqb_spec off NULL) as [E|E]; symmetry; cbn [negb].
  - apply bool_decide_eq_false. unfold active. naive_solver.
  - apply bool_decide_eq_true. by exists off.
Qed.

(** The next active thread behind [t], up to [t + n]. *)
Lemma next_loop_ok n t :
  -1 <= t -> t + Z.of_nat n < Z.of_nat (length perthread_offsets) ->
  exists t', next_loop n t = Ok t' /\ t <= t' <= t + Z.of_nat n /\ ((0 < n)%nat -> t < t')
    /\ (forall j, t < j < t' -> ~ active j) /\ (t' < t + Z.of_nat n -> active t').
Proof.
  revert t. induction n as [|n IH]; intros t Ht Hn; cbn [next_loop].
  { exists t. split_and!; try done; try lia. }
  rewrite thread_is_active_Ok by lia. cbn [mbind outcome_bind].
  case_bool_decide as Ha.
  - exists (t + 1). split_and!; try done; lia.
  - destruct (IH (t + 1)) as (t' & -> & H1 & H2 & H3 & H4); [lia|lia|]. exists t'. split_and!; try done; try lia.
    + intros j Hj. destruct (decide (j = t + 1)) as [->|Hne]; [done|]. apply H3. lia.
    + intros Hlt. apply H4. lia.
Qed.

Lemma active_skip t t' :
  t < t' <= thread_count -> (forall j, t < j < t' -> ~ active j) ->
  filter active (seqZ (t + 1) (thread_count - (t + 1))) = filter active (seqZ t' (thread_count - t')).
Proof.
  intros Ht Hno. replace (thread_count - (t + 1)) with ((t' - (t + 1)) + (thread_count - t')) by lia.
  rewrite seqZ_app by lia. rewrite filter_app. replace (t + 1 + (t' - (t + 1))) with t' by lia.
  rewrite (filter_none active); [done|]. intros j Hj. apply elem_of_seqZ in Hj. apply Hno. lia.
Qed.

Lemma for_each_ok fuel t :
  -1 <= t < thread_count -> thread_count < Z.of_nat (length perthread_offsets) -> thread_count < 2 ^ 31 ->
  thread_count - t <= Z.of_nat fuel ->
  for_each_thread fuel t = Ok (Some (filter active (seqZ (t + 1) (thread_count - (t + 1))))).
Proof.
  revert t. induction fuel as [|fuel IH]; intros t Ht Hlen Hc Hf; [lia|]. cbn [for_each_thread].
  unfold thread_next_active. replace (i32 thread_count) with thread_count by word_lia.
  destruct (next_loop_ok (Z.to_nat (thread_count - t)) t) as (t' & -> & H1 & H2 & H3 & H4); [lia|lia|].
  cbn [mbind outcome_bind]. rewrite u32_id by lia. rewrite (active_skip t t') by (done || lia).
  destruct (Z.ltb_spec t' thread_count) as [Hlt|Hge].
  - rewrite IH by lia. cbn [mbind outcome_bind]. rewrite (seqZ_cons t') by lia.
    rewrite filter_cons_True by (apply H4; lia). replace (Z.succ t') with (t' + 1) by lia.
    by replace (Z.pred (thread_count - t')) with (thread_count - (t' + 1)) by lia.
  - replace (thread_count - t') with 0 by lia. done.
Qed.

End table.

(** ** tcache.h *)

(** The [next_item] of the headers that lie in the free items. *)
Record tcache_perthread : Type := mk_ltc {
  next_item : gmap Z Z;
  rounds : Z;
  capacity : Z;
  loaded : Z
}.

Section tcache.
(** [__tcache_alloc] and [__tcache_free]. *)
Context (slow_alloc : tcache_perthread -> outcome (Z * tcache_perthread)).
Context (slow_free : Z -> tcache_perthread -> outcome tcache_perthread).

Definition tcache_alloc (ltc : tcache_perthread) : outcome (Z * tcache_perthread) :=
  let item := loaded ltc in
  if rounds ltc =? 0 then slow_alloc ltc
  else
    match next_item ltc !! loaded ltc with
    | None => UB
    | Some next => Ok (item, mk_ltc (next_item ltc) (u32 (rounds ltc - 1)) (capacity ltc) next)
    end.

Definition tcache_free (item : Z) (ltc : tcache_perthread) : outcome tcache_perthread :=
  if capacity ltc <=? rounds ltc then slow_free item ltc
  else
    match next_item ltc !! item with
    | None => UB
    | Some _ =>
      Ok (mk_ltc (<[item := loaded ltc]> (next_item ltc)) (u32 (rounds ltc + 1)) (capacity ltc) item)
    end.

End tcache.

(** The items of the loaded magazine, the next one first. *)
Fixpoint chain (next : gmap Z Z) (a : Z) (l : list Z) : Prop :=
  match l with
  | [] => True
  | x :: l => a = x /\ exists b, next !! x = Some b /\ chain next b l
  end.

Record magazine (ltc : tcache_perthread) (l : list Z) : Prop := {
  mg_chain : chain (next_item ltc) (loaded ltc) l;
  mg_nodup : NoDup l;
  mg_rounds : rounds ltc = Z.of_nat (length l);
  mg_cap : rounds ltc <= capacity ltc < 2 ^ 32
}.

Lemma chain_insert next a x b l : x ∉ l -> chain next a l -> chain (<[x := b]> next) a l.
Proof.
  revert a. induction l as [|y l IH]; intros a Hx Hc; [done|]. apply not_elem_of_cons in Hx as [Hne Hx].
  destruct Hc as (-> & d & Hd & Hc). split; [done|]. exists d. rewrite lookup_insert_ne by done. by auto.
Qed.

(** What a thread does with its cache, and what it sees. *)
Inductive tc_op : Type := TAlloc | TFree (item : Z).

Fixpoint tc_run (sa : tcache_perthread -> outcome (Z * tcache_perthread))
    (sf : Z -> tcache_perthread -> outcome tcache_perthread) (ops : list tc_op) (ltc : tcache_perthread)
  : outcome (list Z * tcache_perthread) :=
  match ops with
  | [] => Ok ([], ltc)
  | TAlloc :: ops =>
    '(x, ltc) ← tcache_alloc sa ltc; '(xs, ltc) ← tc_run sa sf ops ltc; Ok (x :: xs, ltc)
  | TFree x :: ops => ltc ← tcache_free sf x ltc; tc_run sa sf ops ltc
  end.

(** A stack of bounded depth: [None] when an operation would leave the bounds,
    or an item is given back that is in the stack. *)
Fixpoint stack_run (cap : Z) (ops : list tc_op) (l : list Z) : option (list Z * list Z) :=
  match ops with
  | [] => Some ([], l)
  | TAlloc :: ops =>
    match l with
    | [] => None
    | x :: l => match stack_run cap ops l with Some (xs, l) => Some (x :: xs, l) | None => None end
    end
  | TFree x :: ops =>
    if decide (Z.of_nat (length l) < cap /\ x ∉ l) then stack_run cap ops (x :: l) else None
  end.

Lemma tcache_alloc_ok sa ltc x l :
  magazine ltc (x :: l) ->
  exists ltc', tcache_alloc sa ltc = Ok (x, ltc') /\ magazine ltc' l /\ capacity ltc' = capacity ltc
    /\ dom (next_item ltc') = dom (next_item ltc).
Proof.
  intros [(Hx & b & Hb & Hc) Hnd Hr Hcap]. cbn [length] in Hr. apply NoDup_cons in Hnd as [_ Hnd].
  unfold tcache_alloc. rewrite (proj2 (Z.eqb_neq _ _)) by lia. rewrite Hx, Hb. eexists. split; [done|].
  split; [|done]. split; cbn; rewrite ?u32_id by lia; (done || lia).
Qed.

Lemma tcache_free_ok sf ltc x l :
  magazine ltc l -> x ∉ l -> x ∈ dom (next_item ltc) -> rounds ltc < capacity ltc ->
  exists ltc', tcache_free sf x ltc = Ok ltc' /\ magazine ltc' (x :: l) /\ capacity ltc' = capacity ltc
    /\ dom (next_item ltc') = dom (next_item ltc).
Proof.
  intros [Hc Hnd Hr Hcap] Hx [b Hb]%elem_of_dom Hlt. unfold tcache_free.
  rewrite (proj2 (Z.leb_gt _ _)) by lia. rewrite Hb. eexists. split; [done|]. split; [split; cbn|].
  - split; [done|]. exists (loaded ltc). rewrite lookup_insert_eq. split; [done|]. by apply chain_insert.
  - by apply NoDup_cons.
  - rewrite u32_id by lia. lia.
  - rewrite u32_id by lia. lia.
  - split; [done|]. cbn. rewrite dom_insert_L. apply elem_of_dom_2 in Hb. set_solver.
Qed.

End Threads.
Import Threads.

(** Iterating over the threads.  With room in the table behind the last thread,
    the body runs once for each active thread, in order.  With a full table the
    iteration reads behind its end. *)
Theorem for_each_thread_correct offs count :
  length offs = NTHREAD -> 0 <= count ->
  (count < Z.of_nat NTHREAD ->
     for_each_thread offs count (S (Z.to_nat count)) (-1) = Ok (Some (filter (active offs) (seqZ 0 count))))
  /\ (count = Z.of_nat NTHREAD -> thread_next_active offs count (count - 1) = UB).
Proof.
  intros Hl Hc. split.
  - intros Hlt. rewrite for_each_ok by (rewrite ?Hl; unfold NTHREAD in *; lia).
    change (-1 + 1) with 0. by rewrite Z.sub_0_r.
  - intros ->. unfold thread_next_active. change (i32 (Z.of_nat NTHREAD)) with 512.
    change (Z.to_nat (512 - (Z.of_nat NTHREAD - 1))) with 1%nat. cbn [next_loop].
    unfold thread_is_active. rewrite (arr_get_UB offs); [done|]. rewrite Hl. cbn. lia.
Qed.

(** The fast paths of a thread's cache are a stack: as long as a bounded stack
    that starts with the items of the magazine can serve the operations, the
    cache serves them without its slow paths, hands out the same items in the
    same order, and its magazine holds what the stack holds.  An empty magazine
    and a full one call the slow paths. *)
Theorem tcache_refines_stack sa sf ops ltc l xs l' :
  magazine ltc l -> (forall x, TFree x ∈ ops -> x ∈ dom (next_item ltc)) ->
  stack_run (capacity ltc) ops l = Some (xs, l') ->
  (exists ltc', tc_run sa sf ops ltc = Ok (xs, ltc') /\ magazine ltc' l')
  /\ (l = [] -> tcache_alloc sa ltc = sa ltc)
  /\ (Z.of_nat (length l) = capacity ltc -> forall x, tcache_free sf x ltc = sf x ltc).
Proof.
  intros Hm Hdom Hrun. split; [|split].
  - revert ltc l xs Hm Hdom Hrun. induction ops as [|[|x] ops IH]; intros ltc l xs Hm Hdom Hrun; cbn in *.
    + simplify_eq. by exists ltc.
    + destruct l as [|y l]; [done|]. destruct (stack_run _ ops l) as [[ys l2]|] eqn:E; [|done]. simplify_eq.
      destruct (tcache_alloc_ok sa ltc y l Hm) as (ltc1 & -> & Hm1 & Hc1 & Hd1). cbn [mbind outcome_bind].
      destruct (IH ltc1 l ys Hm1) as (ltc2 & -> & Hm2); [|by rewrite Hc1|by exists ltc2].
      intros x Hx. rewrite Hd1. apply Hdom. by apply list_elem_of_further.
    + case_decide as Hd; [|done]. destruct Hd as [Hlt Hx].
      destruct (tcache_free_ok sf ltc x l Hm Hx) as (ltc1 & -> & Hm1 & Hc1 & Hd1).
      { apply Hdom. by apply list_elem_of_here. }
      { rewrite (mg_rounds _ _ Hm). done. }
      cbn [mbind outcome_bind]. destruct (IH ltc1 (x :: l) xs Hm1) as (ltc2 & -> & Hm2); [|by rewrite Hc1|by exists ltc2].
      intros y Hy. rewrite Hd1. apply Hdom. by apply list_elem_of_further.
  - intros ->. unfold tcache_alloc. by rewrite (mg_rounds _ _ Hm).
  - intros Hf x. unfold tcache_free. rewrite (mg_rounds _ _ Hm), Hf. by rewrite Z.leb_refl.
Qed.

(** *** Witnesses *)

Definition example_offsets : list Z := [4096; 0; 8192] ++ replicate 509 0.

Lemma for_each_thread_correct_witness :
  for_each_thread example_offsets 3 4 (-1) = Ok (Some [0; 2]).
Proof.
  destruct (for_each_thread_correct example_offsets 3) as [H _].
  - reflexivity.
  - lia.
  - apply H. unfold NTHREAD. lia.
Defined.

Definition example_ltc : tcache_perthread := mk_ltc {[ 64 := 128; 128 := 0; 192 := 0 ]} 2 3 64.

Lemma tcache_refines_stack_witness :
  exists ltc', tc_run (fun _ => UB) (fun _ _ => UB) [TFree 192; TAlloc; TAlloc] example_ltc = Ok ([192; 64], ltc')
    /\ magazine ltc' [128].
Proof.
  apply (tcache_refines_stack (fun _ => UB) (fun _ _ => UB) [TFree 192; TAlloc; TAlloc] example_ltc [64; 128] [192; 64] [128]).
  - split; [| |reflexivity|cbn; lia].
    + split; [reflexivity|]. exists 128. split; [reflexivity|]. split; [reflexivity|]. by exists 0.
    + apply NoDup_cons. split; [set_solver|]. apply NoDup_singleton.
  - intros x Hx. assert (x = 192) as -> by set_solver. apply elem_of_dom. by eexists.
  - reflexivity.
Defined.
