(* ===== verification/Lists.v ===== *)
(** * Lists: the intrusive linked lists of the base library

    Models [src/include/base/list.h]: the circular doubly linked list with a
    head node, the singly linked list and the doubly linked list with a single
    head pointer.  Nodes are addresses; the fields [next] and [prev] of all
    nodes are two maps, so that every assignment of the C code is one update.
    The offsets by which the macros turn a node into the structure that
    contains it are arguments. *)
From S2P Require Import Prelude.

Module CList.

(** ** Doubly linked lists *)

Record dheap : Type := mk_dheap { nxt : gmap Z Z; prv : gmap Z Z }.

Definition load (m : gmap Z Z) (p : Z) : outcome Z :=
  match m !! p with Some v => Ok v | None => UB end.

Definition get_next (s : dheap) (n : Z) : outcome Z := load (nxt s) n.
Definition get_prev (s : dheap) (n : Z) : outcome Z := load (prv s) n.

(** A store to a field of memory that is not a node is undefined. *)
Definition set_next (n v : Z) (s : dheap) : outcome dheap :=
  _ ← get_next s n; Ok (mk_dheap (<[n := v]> (nxt s)) (prv s)).
Definition set_prev (n v : Z) (s : dheap) : outcome dheap :=
  _ ← get_prev s n; Ok (mk_dheap (nxt s) (<[n := v]> (prv s))).

Definition list_head_init (h : Z) (s : dheap) : outcome dheap :=
  s ← set_prev h h s;
  set_next h h s.

Definition list_add (h n : Z) (s : dheap) : outcome dheap :=
  x ← get_next s h;
  s ← set_next n x s;
  s ← set_prev n h s;
  x ← get_next s h;
  s ← set_prev x n s;
  set_next h n s.

Definition list_add_tail (h n : Z) (s : dheap) : outcome dheap :=
  s ← set_next n h s;
  x ← get_prev s h;
  s ← set_prev n x s;
  x ← get_prev s h;
  s ← set_next x n s;
  set_prev h n s.

Definition list_add_between (prev n next : Z) (s : dheap) : outcome dheap :=
  s ← set_next prev n s;
  s ← set_prev n prev s;
  s ← set_next n next s;
  set_prev next n s.

Definition list_add_after (prev n : Z) (s : dheap) : outcome dheap :=
  x ← get_next s prev; list_add_between prev n x s.

Definition list_add_before (next n : Z) (s : dheap) : outcome dheap :=
  x ← get_prev s next; list_add_between x n next s.

Definition list_empty (h : Z) (s : dheap) : outcome bool :=
  x ← get_next s h; Ok (x =? h).

Definition list_del (n : Z) (s : dheap) : outcome dheap :=
  x ← get_next s n;
  y ← get_prev s n;
  s ← set_prev x y s;
  y ← get_prev s n;
  x ← get_next s n;
  set_next y x s.

Definition list_del_from (h n : Z) (s : dheap) : outcome dheap := list_del n s.

Definition list_node_to_off_ (node off : Z) : Z := node - off.
Definition list_node_from_off_ (ptr off : Z) : Z := ptr + off.

Definition list_top_ (h off : Z) (s : dheap) : outcome Z :=
  e ← list_empty h s;
  if (e : bool) then Ok NULL else x ← get_next s h; Ok (x - off).

Definition list_pop_ (h off : Z) (s : dheap) : outcome (Z * dheap) :=
  e ← list_empty h s;
  if (e : bool) then Ok (NULL, s)
  else
    n ← get_next s h;
    s ← list_del n s;
    Ok (n - off, s).

Definition list_tail_ (h off : Z) (s : dheap) : outcome Z :=
  e ← list_empty h s;
  if (e : bool) then Ok NULL else x ← get_prev s h; Ok (x - off).

Definition list_entry_or_null (h n off : Z) : Z := if n =? h then NULL else n - off.

Definition list_next (h i off : Z) (s : dheap) : outcome Z :=
  x ← get_next s (i + off); Ok (list_entry_or_null h x off).

Definition list_prev (h i off : Z) (s : dheap) : outcome Z :=
  x ← get_prev s (i + off); Ok (list_entry_or_null h x off).

Definition list_append_list (to from : Z) (s : dheap) : outcome dheap :=
  from_tail ← get_prev s from;
  to_tail ← get_prev s to;
  s ← set_prev to from_tail s;
  s ← set_next from_tail to s;
  s ← set_next to_tail from s;
  s ← set_prev from to_tail s;
  s ← list_del from s;
  list_head_init from s.

Definition list_prepend_list (to from : Z) (s : dheap) : outcome dheap :=
  from_tail ← get_prev s from;
  to_head ← get_next s to;
  s ← set_next to from s;
  s ← set_prev from to s;
  s ← set_prev to_head from_tail s;
  s ← set_next from_tail to_head s;
  s ← list_del from s;
  list_head_init from s.

(** The loops of [list_for_each_off] and [list_for_each_rev]: the structures
    visited; [None] when the loop has not ended after [fuel] iterations. *)
Fixpoint for_each_loop (fuel : nat) (step : dheap -> Z -> outcome Z) (h i off : Z) (s : dheap)
  : outcome (option (list Z)) :=
  if list_node_from_off_ i off =? h then Ok (Some [])
  else
    match fuel with
    | O => Ok None
    | S fuel =>
      x ← step s (list_node_from_off_ i off);
      r ← for_each_loop fuel step h (list_node_to_off_ x off) off s;
      Ok (match r with Some l => Some (i :: l) | None => None end)
    end.

Definition list_for_each (fuel : nat) (h off : Z) (s : dheap) : outcome (option (list Z)) :=
  x ← get_next s h; for_each_loop fuel get_next h (list_node_to_off_ x off) off s.

Definition list_for_each_rev (fuel : nat) (h off : Z) (s : dheap) : outcome (option (list Z)) :=
  x ← get_prev s h; for_each_loop fuel get_prev h (list_node_to_off_ x off) off s.

(** [list_for_each_safe] with a body that may change the list. *)
Fixpoint for_each_safe_loop (fuel : nat) (body : Z -> dheap -> outcome dheap) (h i nx off : Z) (s : dheap)
  : outcome (option dheap) :=
  if list_node_from_off_ i off =? h then Ok (Some s)
  else
    match fuel with
    | O => Ok None
    | S fuel =>
      s ← body i s;
      let i := nx in
      x ← get_next s (list_node_from_off_ i off);
      for_each_safe_loop fuel body h i (list_node_to_off_ x off) off s
    end.

Definition list_for_each_safe (fuel : nat) (body : Z -> dheap -> outcome dheap) (h off : Z) (s : dheap)
  : outcome (option dheap) :=
  x ← get_next s h;
  let i := list_node_to_off_ x off in
  y ← get_next s (list_node_from_off_ i off);
  for_each_safe_loop fuel body h i (list_node_to_off_ y off) off s.

(** ** Chains of nodes *)

Definition edge (s : dheap) (x y : Z) : Prop := nxt s !! x = Some y /\ prv s !! y = Some x.

(** Consecutive nodes of [xs] are linked in both directions. *)
Fixpoint path (s : dheap) (xs : list Z) : Prop :=
  match xs with
  | x :: (y :: _) as t => edge s x y /\ path s t
  | _ => True
  end.

(** The head [h] and the nodes [l] form a circle. *)
Definition list_rep (s : dheap) (h : Z) (l : list Z) : Prop :=
  NoDup (h :: l) /\ path s (h :: l ++ [h]).

(** A node that can be added to a list. *)
Definition node_at (s : dheap) (n : Z) : Prop := is_Some (nxt s !! n) /\ is_Some (prv s !! n).

Lemma path_app s xs a ys : path s (xs ++ a :: ys) <-> path s (xs ++ [a]) /\ path s (a :: ys).
Proof.
  induction xs as [|x xs IH]; simpl; [naive_solver|].
  destruct xs as [|x' xs]; simpl in *; [naive_solver|]. rewrite IH. tauto.
Qed.

Lemma path_cons s x y ys : path s (x :: y :: ys) <-> edge s x y /\ path s (y :: ys).
Proof. done. Qed.

(** A chain stays one when no [next] of its nodes but the last and no [prev]
    of its nodes but the first changes. *)
Lemma path_frame s s' xs :
  path s xs -> (forall x, x ∈ removelast xs -> nxt s' !! x = nxt s !! x) ->
  (forall y, y ∈ tail xs -> prv s' !! y = prv s !! y) -> path s' xs.
Proof.
  induction xs as [|x xs IH]; [done|]. destruct xs as [|y xs]; [done|].
  intros [[H1 H2] Hp] Hn Hv. split.
  - split; [rewrite Hn; [done|simpl; by constructor]|rewrite Hv; [done|by constructor]].
  - apply IH; [done|intros; apply Hn; simpl; by constructor|intros z Hz; apply Hv; simpl in *; by constructor].
Qed.

(** What linking [n] between [a] and [b] changes, and what unlinking the node
    between them does. *)
Record linked (s s' : dheap) (a n b : Z) : Prop := {
  lk_an : edge s' a n;
  lk_nb : edge s' n b;
  lk_next : forall x, x <> a -> x <> n -> nxt s' !! x = nxt s !! x;
  lk_prev : forall x, x <> b -> x <> n -> prv s' !! x = prv s !! x
}.

Record unlinked (s s' : dheap) (a b : Z) : Prop := {
  ul_ab : edge s' a b;
  ul_next : forall x, x <> a -> nxt s' !! x = nxt s !! x;
  ul_prev : forall x, x <> b -> prv s' !! x = prv s !! x
}.

(** The nodes of a circle around two neighbours. *)
Record around (xs : list Z) (a b : Z) (ys : list Z) : Prop := {
  ar_src : NoDup (xs ++ a :: removelast (b :: ys));
  ar_tgt : NoDup (tail (xs ++ [a]) ++ b :: ys)
}.

Lemma elem_removelast (x : Z) l : x ∈ removelast l -> x ∈ l.
Proof.
  induction l as [|y l IH]; [done|]. destruct l as [|z l]; [intros H; by apply not_elem_of_nil in H|].
  intros [->|H]%elem_of_cons; [by constructor|constructor; auto].
Qed.

Lemma elem_tail (x : Z) l : x ∈ tail l -> x ∈ l.
Proof. destruct l; [done|]. simpl. by constructor. Qed.

(** The rest of the circle does not see the changes. *)
Lemma around_frame s s' xs a b ys :
  path s (xs ++ [a]) -> path s (b :: ys) -> around xs a b ys ->
  (forall x, x ∈ xs ++ a :: b :: ys -> x <> a -> nxt s' !! x = nxt s !! x) ->
  (forall x, x ∈ xs ++ a :: b :: ys -> x <> b -> prv s' !! x = prv s !! x) ->
  path s' (xs ++ [a]) /\ path s' (b :: ys).
Proof.
  intros H1 H2 [Hs Ht] Hn Hv.
  apply NoDup_app in Hs as (_ & Hs1 & Hs2), Ht as (_ & Ht1 & Ht2).
  apply NoDup_cons in Hs2 as [Hs2 _], Ht2 as [Ht2 _].
  split; (eapply path_frame; [eassumption|..]); rewrite ?removelast_last; intros x Hx.
  - apply Hn; [apply elem_of_app; by left|]. intros ->. apply (Hs1 a Hx). by constructor.
  - apply Hv; [|intros ->; apply (Ht1 b Hx); by constructor].
    apply elem_tail, elem_of_app in Hx. apply elem_of_app.
    destruct Hx as [Hx| ->%list_elem_of_singleton]; [by left|right; by constructor].
  - apply Hn; [|by intros ->]. apply elem_of_app. right. constructor. by apply elem_removelast.
  - apply Hv; [|by intros ->]. apply elem_of_app. right. by do 2 constructor.
Qed.

Lemma linked_path s s' xs a n b ys :
  path s (xs ++ a :: b :: ys) -> around xs a b ys -> n ∉ xs ++ a :: b :: ys ->
  linked s s' a n b -> path s' (xs ++ a :: n :: b :: ys).
Proof.
  intros Hp Har Hn []. apply path_app in Hp as [H1 [_ H2]].
  destruct (around_frame s s' xs a b ys) as [G1 G2]; try done.
  - intros x Hx Hxa. apply lk_next0; [done|by intros ->].
  - intros x Hx Hxa. apply lk_prev0; [done|by intros ->].
  - apply path_app. split; [done|]. by split; [|split].
Qed.

Lemma unlinked_path s s' xs a n b ys :
  path s (xs ++ a :: n :: b :: ys) -> around xs a b ys ->
  unlinked s s' a b -> path s' (xs ++ a :: b :: ys).
Proof.
  intros Hp Har []. apply path_app in Hp as [H1 (_ & _ & H2)].
  destruct (around_frame s s' xs a b ys) as [G1 G2]; try done.
  - intros x _ Hx. by apply ul_next0.
  - intros x _ Hx. by apply ul_prev0.
  - apply path_app. split; [done|]. by split.
Qed.

(** ** The elementary operations *)

Lemma load_Ok m p v : load m p = Ok v <-> m !! p = Some v.
Proof. unfold load. destruct (m !! p); naive_solver. Qed.

Lemma set_next_Ok n v s :
  is_Some (nxt s !! n) -> set_next n v s = Ok (mk_dheap (<[n := v]> (nxt s)) (prv s)).
Proof. intros [x Hx]. unfold set_next, get_next. by rewrite (proj2 (load_Ok _ _ x) Hx). Qed.

Lemma set_prev_Ok n v s :
  is_Some (prv s !! n) -> set_prev n v s = Ok (mk_dheap (nxt s) (<[n := v]> (prv s))).
Proof. intros [x Hx]. unfold set_prev, get_prev. by rewrite (proj2 (load_Ok _ _ x) Hx). Qed.

Lemma get_next_Ok s n v : nxt s !! n = Some v -> get_next s n = Ok v.
Proof. apply load_Ok. Qed.
Lemma get_prev_Ok s n v : prv s !! n = Some v -> get_prev s n = Ok v.
Proof. apply load_Ok. Qed.

Lemma edge_next s x y : edge s x y -> get_next s x = Ok y.
Proof. intros [? _]. by apply get_next_Ok. Qed.
Lemma edge_prev s x y : edge s x y -> get_prev s y = Ok x.
Proof. intros [_ ?]. by apply get_prev_Ok. Qed.

(** [dlookup]: a lookup in a heap that has been stored to. *)
Ltac dlookup :=
  simpl; repeat first [rewrite lookup_insert_eq | rewrite lookup_insert_ne by congruence];
  first [done | eassumption | congruence | by eauto | idtac].

(** [dstep]: one load or store of an operation. *)
Ltac dstep :=
  first
    [ erewrite get_next_Ok by dlookup
    | erewrite get_prev_Ok by dlookup
    | rewrite set_next_Ok by dlookup
    | rewrite set_prev_Ok by dlookup ]; cbn [mbind outcome_bind].

(** [dinsert x y]: a lookup at [x] after a store at [y]. *)
Ltac dcase :=
  simpl; repeat (rewrite lookup_insert; case_decide; subst); first [done | congruence | idtac].

Lemma list_add_linked s h n x :
  edge s h x -> n <> h -> n <> x -> node_at s n ->
  exists s', list_add h n s = Ok s' /\ linked s s' h n x.
Proof.
  intros [E1 E2] Hh Hx [[? N1] [? N2]]. unfold list_add. do 6 dstep. eexists. split; [reflexivity|].
  split; [split; dcase|split; dcase|intros; dcase|intros; dcase].
Qed.

Lemma list_add_tail_linked s h n x :
  edge s x h -> n <> h -> n <> x -> node_at s n ->
  exists s', list_add_tail h n s = Ok s' /\ linked s s' x n h.
Proof.
  intros [E1 E2] Hh Hx [[? N1] [? N2]]. unfold list_add_tail. do 6 dstep. eexists. split; [reflexivity|].
  split; [split; dcase|split; dcase|intros; dcase|intros; dcase].
Qed.

Lemma list_add_between_linked s a n b :
  edge s a b -> n <> a -> n <> b -> node_at s n ->
  exists s', list_add_between a n b s = Ok s' /\ linked s s' a n b.
Proof.
  intros [E1 E2] Hh Hx [[? N1] [? N2]]. unfold list_add_between. do 4 dstep. eexists. split; [reflexivity|].
  split; [split; dcase|split; dcase|intros; dcase|intros; dcase].
Qed.

Lemma list_del_unlinked s a n b :
  edge s a n -> edge s n b -> n <> a -> n <> b ->
  exists s', list_del n s = Ok s' /\ unlinked s s' a b.
Proof.
  intros [E1 E2] [E3 E4] Ha Hb. unfold list_del. do 6 dstep. eexists. split; [reflexivity|].
  split; [split; dcase|intros; dcase|intros; dcase].
Qed.

(** ** Operations on a whole list *)

Lemma split_around h l1 l2 :
  NoDup (h :: l1 ++ l2) ->
  exists xs a b ys, h :: l1 = xs ++ [a] /\ l2 ++ [h] = b :: ys /\ around xs a b ys.
Proof.
  intros Hnd. destruct (exists_last (l := h :: l1)) as (xs & a & Ha); [done|].
  destruct (l2 ++ [h]) as [|b ys] eqn:Hb; [by destruct l2|].
  exists xs, a, b, ys. split_and!; [done|done|]. split.
  - rewrite <- Hb, removelast_last, cons_middle, app_assoc, <- Ha. done.
  - rewrite <- Ha, <- Hb. simpl. rewrite app_assoc. by rewrite Permutation_app_comm.
Qed.

(** The circle around the place between [l1] and [l2]. *)
Lemma list_rep_at s h l1 l2 xs a b ys :
  h :: l1 = xs ++ [a] -> l2 ++ [h] = b :: ys ->
  path s (h :: (l1 ++ l2) ++ [h]) <-> path s (xs ++ a :: b :: ys).
Proof.
  intros Ha Hb. rewrite <- app_assoc, Hb, app_comm_cons, Ha, <- app_assoc. done.
Qed.

Lemma insert_rep s s' h l1 l2 n xs a b ys :
  list_rep s h (l1 ++ l2) -> n ∉ h :: l1 ++ l2 -> h :: l1 = xs ++ [a] -> l2 ++ [h] = b :: ys ->
  around xs a b ys -> linked s s' a n b -> list_rep s' h (l1 ++ n :: l2).
Proof.
  intros [Hnd Hp] Hn Ha Hb Har Hl. split.
  - rewrite <- (Permutation_middle l1 l2 n), (Permutation_swap n h). by constructor.
  - rewrite <- app_assoc. cbn [app]. rewrite Hb, app_comm_cons, Ha, <- app_assoc.
    apply (list_rep_at s _ _ _ _ _ _ _ Ha Hb) in Hp.
    eapply linked_path; [exact Hp|exact Har| |exact Hl].
    intros Hin. apply Hn. rewrite cons_middle, app_assoc, <- Ha, <- Hb in Hin.
    rewrite !elem_of_app, !elem_of_cons in *. set_solver.
Qed.

Lemma delete_rep s s' h l1 l2 n xs a b ys :
  list_rep s h (l1 ++ n :: l2) -> h :: l1 = xs ++ [a] -> l2 ++ [h] = b :: ys ->
  around xs a b ys -> unlinked s s' a b -> list_rep s' h (l1 ++ l2).
Proof.
  intros [Hnd Hp] Ha Hb Har Hl. split.
  - rewrite <- (Permutation_middle l1 l2 n), (Permutation_swap n h) in Hnd by done. by apply NoDup_cons in Hnd as [_ ?].
  - apply (list_rep_at s' _ _ _ _ _ _ _ Ha Hb). rewrite <- app_assoc in Hp. cbn [app] in Hp.
    rewrite Hb, app_comm_cons, Ha, <- app_assoc in Hp.
    eapply unlinked_path; [exact Hp|exact Har|exact Hl].
Qed.

Lemma nodup_remove (h : Z) l1 n l2 : NoDup (h :: l1 ++ n :: l2) -> NoDup (h :: l1 ++ l2) /\ n ∉ h :: l1 ++ l2.
Proof.
  intros Hnd. rewrite <- (Permutation_middle l1 l2 n), (Permutation_swap n h) in Hnd by done.
  by apply NoDup_cons in Hnd as [? ?].
Qed.

Lemma list_del_rep s h l1 n l2 :
  list_rep s h (l1 ++ n :: l2) -> exists s', list_del n s = Ok s' /\ list_rep s' h (l1 ++ l2)
    /\ (forall x, x ∉ h :: l1 ++ n :: l2 -> nxt s' !! x = nxt s !! x /\ prv s' !! x = prv s !! x)
    /\ node_at s n /\ node_at s' n.
Proof.
  intros Hr. pose proof Hr as [Hnd Hp]. destruct (nodup_remove _ _ _ _ Hnd) as [Hnd' Hn].
  destruct (split_around _ _ _ Hnd') as (xs & a & b & ys & Ha & Hb & Har).
  assert (Hp' : path s (xs ++ a :: n :: b :: ys)).
  { rewrite <- app_assoc in Hp. cbn [app] in Hp. by rewrite Hb, app_comm_cons, Ha, <- app_assoc in Hp. }
  apply path_app in Hp' as [_ (E1 & E2 & _)].
  assert (Hin : a ∈ h :: l1 /\ b ∈ l2 ++ [h])
    by (rewrite Ha, Hb; split; [apply elem_of_app; right|]; by constructor).
  destruct (list_del_unlinked s a n b) as (s' & E & Hu); [done|done|set_solver|set_solver|].
  exists s'. split; [done|]. split; [by eapply delete_rep|]. destruct Hu. split.
  - intros x Hx. split; [apply ul_next0|apply ul_prev0]; set_solver.
  - assert (Hnode : node_at s n) by (destruct E1, E2; split; eauto). split; [done|].
    unfold node_at. rewrite ul_next0, ul_prev0 by set_solver. done.
Qed.

(** Lists that share no node with [xs] are as before. *)
Definition others (s s' : dheap) (xs : list Z) : Prop :=
  forall h2 k, list_rep s h2 k -> (forall x, x ∈ h2 :: k -> x ∉ xs) -> list_rep s' h2 k.

Lemma others_intro s s' xs :
  (forall x, x ∉ xs -> nxt s' !! x = nxt s !! x /\ prv s' !! x = prv s !! x) -> others s s' xs.
Proof.
  intros Hx h2 k [Hnd Hp] Hd. split; [done|].
  eapply path_frame; [exact Hp|..]; intros x Hin; apply Hx, Hd.
  - apply elem_removelast in Hin. set_solver.
  - simpl in Hin. set_solver.
Qed.

Lemma insert_at s h l1 l2 n :
  list_rep s h (l1 ++ l2) -> n ∉ h :: l1 ++ l2 ->
  exists a b, last (h :: l1) = Some a /\ head (l2 ++ [h]) = Some b /\ edge s a b /\ n <> a /\ n <> b
    /\ forall s', linked s s' a n b -> list_rep s' h (l1 ++ n :: l2) /\ others s s' (h :: n :: l1 ++ l2).
Proof.
  intros Hr Hn. pose proof Hr as [Hnd Hp].
  destruct (split_around _ _ _ Hnd) as (xs & a & b & ys & Ha & Hb & Har).
  assert (Hin : a ∈ h :: l1 /\ b ∈ l2 ++ [h])
    by (rewrite Ha, Hb; split; [apply elem_of_app; right|]; by constructor).
  exists a, b. rewrite Ha, Hb, last_snoc. split_and!; [done|done| |set_solver|set_solver|].
  - apply (list_rep_at s _ _ _ _ _ _ _ Ha Hb) in Hp. by apply path_app in Hp as [_ [? _]].
  - intros s' Hl. split; [by eapply insert_rep|]. destruct Hl. apply others_intro.
    intros x Hx. split; [apply lk_next0|apply lk_prev0]; set_solver.
Qed.

(** ** Splicing *)

Lemma path_join s xs a b ys :
  path s (xs ++ [a]) -> edge s a b -> path s (b :: ys) -> path s (xs ++ a :: b :: ys).
Proof. intros H1 H2 H3. apply path_app. by split; [|split]. Qed.

(** The nodes of a list in order, the head first, with its last node and the
    first one. *)
Lemma list_ends s h l :
  list_rep s h l -> exists xs a b ys, h :: l = xs ++ [a] /\ l ++ [h] = b :: ys
    /\ edge s a h /\ edge s h b /\ path s (xs ++ [a]) /\ path s (b :: ys).
Proof.
  intros [Hnd Hp]. destruct (exists_last (l := h :: l)) as (xs & a & Ha); [done|].
  destruct (l ++ [h]) as [|b ys] eqn:Hb; [by destruct l|]. exists xs, a, b, ys.
  split; [done|]. split; [done|]. split_and!.
  - rewrite <- Hb, app_comm_cons, Ha, <- app_assoc in Hp. by apply path_app in Hp as [_ [? _]].
  - by destruct Hp.
  - rewrite <- Hb, app_comm_cons, Ha, <- app_assoc in Hp. by apply path_app in Hp as [? _].
  - by destruct Hp.
Qed.

(** [list_del] of the old head and its reset. *)
Lemma unsew s to from l1 l2 :
  list_rep s to (l1 ++ from :: l2) ->
  exists s', (list_del from s ≫= list_head_init from) = Ok s' /\ list_rep s' to (l1 ++ l2) /\ list_rep s' from []
    /\ forall x, x ∉ to :: l1 ++ from :: l2 -> nxt s' !! x = nxt s !! x /\ prv s' !! x = prv s !! x.
Proof.
  intros Hr. destruct (list_del_rep _ _ _ _ _ Hr) as (s1 & E & Hr1 & Ho & _ & [[u N1] [v N2]]). rewrite E. simpl.
  destruct Hr as [Hnd _]. destruct (nodup_remove _ _ _ _ Hnd) as [_ Hfrom].
  unfold list_head_init. dstep. dstep. eexists. split; [done|]. split_and!.
  - assert (Hf : others s1 (mk_dheap (<[from := from]> (nxt s1)) (<[from := from]> (prv s1))) [from]).
    { apply others_intro. intros x Hx. simpl. rewrite !lookup_insert_ne by set_solver. done. }
    apply Hf; [done|]. set_solver.
  - split; [apply NoDup_singleton|]. simpl. split; [split; dlookup|done].
  - intros x Hx. simpl. rewrite !lookup_insert_ne by set_solver. by apply Ho.
Qed.

(** Two circles become one: [to] and its nodes [l1], then [from] and [l2]. *)
Lemma sew_rep s s' to l1 from l2 xs1 a1 xs2 a2 :
  list_rep s to l1 -> list_rep s from l2 -> (forall x, x ∈ to :: l1 -> x ∉ from :: l2) ->
  to :: l1 = xs1 ++ [a1] -> from :: l2 = xs2 ++ [a2] ->
  edge s' a1 from -> edge s' a2 to ->
  (forall x, x <> a1 -> x <> a2 -> nxt s' !! x = nxt s !! x) ->
  (forall x, x <> to -> x <> from -> prv s' !! x = prv s !! x) -> list_rep s' to (l1 ++ from :: l2).
Proof.
  intros [Hnd1 Hp1] [Hnd2 Hp2] Hd E1 E2 Hs1 Hs2 Hn Hv. split.
  { rewrite app_comm_cons. apply NoDup_app. split_and!; [done| |done]. intros x Hx. by apply Hd. }
  rewrite app_comm_cons in Hp1, Hp2. rewrite E1, <- app_assoc in Hp1. rewrite E2, <- app_assoc in Hp2.
  apply path_app in Hp1 as [Hp1 _], Hp2 as [Hp2 _].
  assert (Hx1 : forall x, x ∈ xs1 -> x <> a1).
  { intros x Hx ->. rewrite E1 in Hnd1. apply NoDup_app in Hnd1 as (_ & H & _). apply (H a1 Hx). by constructor. }
  assert (Hx2 : forall x, x ∈ xs2 -> x <> a2).
  { intros x Hx ->. rewrite E2 in Hnd2. apply NoDup_app in Hnd2 as (_ & H & _). apply (H a2 Hx). by constructor. }
  assert (Hin1 : forall x, x ∈ xs1 \/ x = a1 -> x ∈ to :: l1)
    by (intros x Hx; rewrite E1, elem_of_app, list_elem_of_singleton; done).
  assert (Hin2 : forall x, x ∈ xs2 \/ x = a2 -> x ∈ from :: l2)
    by (intros x Hx; rewrite E2, elem_of_app, list_elem_of_singleton; done).
  assert (Hneq : forall x y, x ∈ to :: l1 -> y ∈ from :: l2 -> x <> y) by (intros x y Hx Hy ->; by apply (Hd y)).
  apply NoDup_cons in Hnd1 as [Hto _], Hnd2 as [Hfrom _].
  rewrite <- app_assoc, app_comm_cons, E1, <- app_assoc. cbn [app].
  apply path_join; [|done|].
  - eapply path_frame; [exact Hp1|rewrite removelast_last|rewrite <- E1; simpl]; intros x Hx.
    + apply Hn; [by apply Hx1|]. apply Hneq; [apply Hin1; by left|apply Hin2; by right].
    + apply Hv; [by intros ->|]. apply Hneq; by constructor.
  - rewrite app_comm_cons, E2, <- app_assoc. cbn [app]. apply path_join; [|done|done].
    eapply path_frame; [exact Hp2|rewrite removelast_last|rewrite <- E2; simpl]; intros x Hx.
    + apply Hn; [apply not_eq_sym, Hneq; [apply Hin1; by right|apply Hin2; by left]|by apply Hx2].
    + apply Hv; [|by intros ->]. apply not_eq_sym, Hneq; by constructor.
Qed.

(** The same with [from] and its nodes put first. *)
Lemma sew_front_rep s s' to l1 from l2 b1 ys1 xs2 a2 :
  list_rep s to l1 -> list_rep s from l2 -> (forall x, x ∈ to :: l1 -> x ∉ from :: l2) ->
  l1 ++ [to] = b1 :: ys1 -> from :: l2 = xs2 ++ [a2] ->
  edge s' to from -> edge s' a2 b1 ->
  (forall x, x <> to -> x <> a2 -> nxt s' !! x = nxt s !! x) ->
  (forall x, x <> from -> x <> b1 -> prv s' !! x = prv s !! x) -> list_rep s' to (from :: l2 ++ l1).
Proof.
  intros [Hnd1 Hp1] [Hnd2 Hp2] Hd E1 E2 Hs1 Hs2 Hn Hv.
  assert (Hneq : forall x y, x ∈ to :: l1 -> y ∈ from :: l2 -> x <> y) by (intros x y Hx Hy ->; by apply (Hd y)).
  split.
  { rewrite app_comm_cons, Permutation_app_comm, app_comm_cons. apply NoDup_app.
    split_and!; [done| |done]. intros x Hx. by apply Hd. }
  assert (Hb1 : b1 ∈ to :: l1).
  { assert (Hb : b1 ∈ l1 ++ [to]) by (rewrite E1; by constructor). set_solver. }
  assert (Ha2 : a2 ∈ from :: l2) by (rewrite E2; apply elem_of_app; right; by constructor).
  assert (Hx2 : forall x, x ∈ xs2 -> x <> a2).
  { intros x Hx ->. rewrite E2 in Hnd2. apply NoDup_app in Hnd2 as (_ & H & _). apply (H a2 Hx). by constructor. }
  assert (Hys : b1 ∉ ys1).
  { assert (H : NoDup (b1 :: ys1)) by (rewrite <- E1, Permutation_app_comm; done). by apply NoDup_cons in H as [? _]. }
  rewrite E1 in Hp1. destruct Hp1 as [_ Hp1].
  rewrite app_comm_cons, E2, <- app_assoc in Hp2. apply path_app in Hp2 as [Hp2 _].
  apply NoDup_cons in Hnd1 as [Hto _], Hnd2 as [Hfrom _].
  cbn [app]. apply path_cons. split; [done|].
  rewrite <- app_assoc, E1, app_comm_cons, E2, <- app_assoc. apply path_join; [|done|].
  - eapply path_frame; [exact Hp2|rewrite removelast_last|rewrite <- E2; simpl]; intros x Hx.
    + apply Hn; [|by apply Hx2]. apply not_eq_sym, Hneq; [by constructor|].
      rewrite E2. apply elem_of_app. by left.
    + apply Hv; [by intros ->|]. apply not_eq_sym, Hneq; [done|by constructor].
  - eapply path_frame; [exact Hp1|rewrite <- E1, removelast_last|]; intros x Hx.
    + apply Hn; [by intros ->|]. apply Hneq; [by constructor|done].
    + simpl in Hx. apply Hv; [|by intros ->]. apply Hneq; [|by constructor].
      assert (Hin : x ∈ l1 ++ [to]) by (rewrite E1; by constructor). set_solver.
Qed.

(** ** Queries and iteration *)

Lemma list_next_edge s h l1 l2 :
  list_rep s h (l1 ++ l2) ->
  exists a b, last (h :: l1) = Some a /\ head (l2 ++ [h]) = Some b /\ edge s a b.
Proof.
  intros [Hnd Hp]. destruct (split_around _ _ _ Hnd) as (xs & a & b & ys & Ha & Hb & _).
  exists a, b. rewrite Ha, Hb, last_snoc. split_and!; [done|done|].
  apply (list_rep_at s _ _ _ _ _ _ _ Ha Hb) in Hp. by apply path_app in Hp as [_ [? _]].
Qed.

Lemma first_next s h l : list_rep s h l -> exists b, head (l ++ [h]) = Some b /\ get_next s h = Ok b.
Proof.
  intros Hr. destruct (list_next_edge s h [] l Hr) as (a & b & Ha & Hb & E). simpl in Ha. injection Ha as <-.
  exists b. split; [done|]. by apply edge_next.
Qed.

Lemma last_prev s h l : list_rep s h l -> exists a, last (h :: l) = Some a /\ get_prev s h = Ok a.
Proof.
  intros Hr. destruct (list_next_edge s h l []) as (a & b & Ha & Hb & E); [by rewrite app_nil_r|].
  simpl in Hb. injection Hb as <-. exists a. split; [done|]. by apply edge_prev.
Qed.

(** Every node of a list, and its head, has a next node. *)
Lemma member_next s h l1 l2 b :
  list_rep s h (l1 ++ l2) -> head (l2 ++ [h]) = Some b -> exists c, get_next s b = Ok c.
Proof.
  intros Hr Hb. destruct l2 as [|x l2]; simpl in Hb; injection Hb as <-.
  - destruct (first_next _ _ _ Hr) as (c & _ & E). eauto.
  - destruct (list_next_edge s h (l1 ++ [x]) l2) as (a & c & Ha & _ & E); [by rewrite <- app_assoc|].
    rewrite app_comm_cons, last_snoc in Ha. injection Ha as <-. exists c. by apply edge_next.
Qed.

Lemma list_empty_rep s h l : list_rep s h l -> list_empty h s = Ok (bool_decide (l = [])).
Proof.
  intros Hr. destruct (first_next s h l Hr) as (b & Hb & E). unfold list_empty. rewrite E. simpl. f_equal.
  destruct l as [|x l]; simpl in Hb; injection Hb as <-; [by rewrite Z.eqb_refl|].
  destruct Hr as [Hnd _]. apply NoDup_cons in Hnd as [Hh _].
  rewrite bool_decide_eq_false_2 by done. apply Z.eqb_neq. set_solver.
Qed.

Lemma for_each_next s h off l1 l2 fuel b :
  list_rep s h (l1 ++ l2) -> head (l2 ++ [h]) = Some b -> (length l2 <= fuel)%nat ->
  for_each_loop fuel get_next h (list_node_to_off_ b off) off s
  = Ok (Some ((fun x => list_node_to_off_ x off) <$> l2)).
Proof.
  revert l1 fuel b. induction l2 as [|x l2 IH]; intros l1 fuel b Hr Hb Hf; simpl in Hb; injection Hb as <-.
  - assert (E : list_node_from_off_ (list_node_to_off_ h off) off = h)
      by (unfold list_node_from_off_, list_node_to_off_; lia).
    destruct fuel; simpl; by rewrite E, Z.eqb_refl.
  - destruct fuel as [|fuel]; simpl in Hf; [lia|].
    assert (E : list_node_from_off_ (list_node_to_off_ x off) off = x)
      by (unfold list_node_from_off_, list_node_to_off_; lia).
    assert (Hx : x <> h) by (destruct Hr as [Hnd _]; apply NoDup_cons in Hnd as [Hnd _]; set_solver).
    simpl. rewrite E, (proj2 (Z.eqb_neq _ _) Hx).
    assert (Hr' : list_rep s h ((l1 ++ [x]) ++ l2)) by by rewrite <- app_assoc.
    destruct (list_next_edge s h (l1 ++ [x]) l2 Hr') as (a & b & Ha & Hb & Eab).
    rewrite app_comm_cons, last_snoc in Ha. injection Ha as <-. rewrite (edge_next _ _ _ Eab). simpl.
    rewrite (IH _ _ _ Hr' Hb) by lia. done.
Qed.

Lemma for_each_prev s h off l1 l2 fuel a :
  list_rep s h (l1 ++ l2) -> last (h :: l1) = Some a -> (length l1 <= fuel)%nat ->
  for_each_loop fuel get_prev h (list_node_to_off_ a off) off s
  = Ok (Some ((fun x => list_node_to_off_ x off) <$> reverse l1)).
Proof.
  revert l2 fuel a. induction l1 as [|x l1 IH] using rev_ind; intros l2 fuel a Hr Ha Hf.
  - simpl in Ha. injection Ha as <-.
    assert (E : list_node_from_off_ (list_node_to_off_ h off) off = h)
      by (unfold list_node_from_off_, list_node_to_off_; lia).
    destruct fuel; simpl; by rewrite E, Z.eqb_refl.
  - rewrite app_comm_cons, last_snoc in Ha. injection Ha as <-. rewrite length_app in Hf. simpl in Hf.
    destruct fuel as [|fuel]; [lia|].
    assert (E : list_node_from_off_ (list_node_to_off_ x off) off = x)
      by (unfold list_node_from_off_, list_node_to_off_; lia).
    assert (Hx : x <> h) by (destruct Hr as [Hnd _]; apply NoDup_cons in Hnd as [Hnd _]; set_solver).
    simpl. rewrite E, (proj2 (Z.eqb_neq _ _) Hx).
    rewrite <- app_assoc in Hr. destruct (list_next_edge s h l1 (x :: l2) Hr) as (a & b & Ha & Hb & Eab).
    simpl in Hb. injection Hb as <-. rewrite (edge_prev _ _ _ Eab). simpl.
    rewrite (IH _ _ _ Hr Ha) by lia. by rewrite reverse_snoc.
Qed.

(** A body that deletes the entries it does not want. *)
Definition sweep (P : Z -> bool) (off i : Z) (s : dheap) : outcome dheap :=
  if P i then Ok s else list_del (list_node_from_off_ i off) s.

Lemma sweep_loop P s h off l1 l2 fuel b nx :
  list_rep s h (l1 ++ l2) -> head (l2 ++ [h]) = Some b -> get_next s b = Ok nx -> (length l2 <= fuel)%nat ->
  exists s', for_each_safe_loop fuel (sweep P off) h (list_node_to_off_ b off) (list_node_to_off_ nx off) off s
    = Ok (Some s') /\ list_rep s' h (l1 ++ filter (fun x => P (list_node_to_off_ x off) = true) l2).
Proof.
  assert (Eoff : forall x, list_node_from_off_ (list_node_to_off_ x off) off = x)
    by (intros; unfold list_node_from_off_, list_node_to_off_; lia).
  revert s l1 fuel b nx. induction l2 as [|x l2 IH]; intros s l1 fuel b nx Hr Hb Hnx Hf;
    simpl in Hb; injection Hb as <-.
  - exists s. split; [|done]. destruct fuel; simpl; by rewrite Eoff, Z.eqb_refl.
  - destruct fuel as [|fuel]; simpl in Hf; [lia|].
    assert (Hx : x <> h) by (destruct Hr as [Hnd _]; apply NoDup_cons in Hnd as [Hnd _]; set_solver).
    assert (Hr' : list_rep s h ((l1 ++ [x]) ++ l2)) by by rewrite <- app_assoc.
    destruct (list_next_edge s h (l1 ++ [x]) l2 Hr') as (a & b & Ha & Hb & Eab).
    rewrite app_comm_cons, last_snoc in Ha. injection Ha as <-.
    rewrite (edge_next _ _ _ Eab) in Hnx. injection Hnx as <-.
    simpl. rewrite Eoff, (proj2 (Z.eqb_neq _ _) Hx), filter_cons.
    assert (Esw : sweep P off (list_node_to_off_ x off) s
      = if P (list_node_to_off_ x off) then Ok s else list_del x s) by (unfold sweep; by rewrite Eoff).
    rewrite Esw.
    destruct (P (list_node_to_off_ x off)) eqn:EP.
    + rewrite decide_True by done. simpl. rewrite Eoff.
      destruct (member_next s h (l1 ++ [x]) l2 b Hr' Hb) as [c Hc]. rewrite Hc. simpl.
      destruct (IH s (l1 ++ [x]) fuel b c Hr' Hb Hc) as (s' & E & R); [lia|].
      exists s'. rewrite E. rewrite <- app_assoc in R. done.
    + rewrite decide_False by done.
      destruct (list_del_rep _ _ _ _ _ Hr) as (s1 & E1 & R1 & _). rewrite E1. simpl. rewrite Eoff.
      destruct (member_next s1 h l1 l2 b R1 Hb) as [c Hc]. rewrite Hc. simpl.
      destruct (IH s1 l1 fuel b c R1 Hb Hc) as (s' & E & R); [lia|]. by exists s'.
Qed.

End CList.
Import CList.

(** The circular list is the sequence of its nodes: adding a node at the
    start, at the end, after or before a member, and deleting a member give the
    expected sequence, and lists made of other nodes are not affected. *)
Theorem clist_updates s h l n :
  list_rep s h l -> n ∉ h :: l -> node_at s n ->
  (exists s', list_add h n s = Ok s' /\ list_rep s' h (n :: l) /\ others s s' (h :: n :: l))
  /\ (exists s', list_add_tail h n s = Ok s' /\ list_rep s' h (l ++ [n]) /\ others s s' (h :: n :: l))
  /\ (forall l1 x l2, l = l1 ++ x :: l2 ->
    (exists s', list_add_after x n s = Ok s' /\ list_rep s' h (l1 ++ x :: n :: l2) /\ others s s' (h :: n :: l))
    /\ (exists s', list_add_before x n s = Ok s' /\ list_rep s' h (l1 ++ n :: x :: l2)
        /\ others s s' (h :: n :: l))
    /\ (exists s', list_del x s = Ok s' /\ list_rep s' h (l1 ++ l2) /\ others s s' (h :: l))).
Proof.
  intros Hr Hn Hnode. split_and!.
  - destruct (insert_at s h [] l n Hr Hn) as (a & b & Ha & Hb & E & N1 & N2 & Hl).
    simpl in Ha. injection Ha as <-.
    destruct (list_add_linked s h n b E N1 N2 Hnode) as (s' & Es & Hk). exists s'. split; [done|]. by apply Hl.
  - destruct (insert_at s h l [] n) as (a & b & Ha & Hb & E & N1 & N2 & Hl); [by rewrite app_nil_r..|].
    simpl in Hb. injection Hb as <-. rewrite app_nil_r in Hl.
    destruct (list_add_tail_linked s h n a E N2 N1 Hnode) as (s' & Es & Hk). exists s'. split; [done|]. by apply Hl.
  - intros l1 x l2 ->. split_and!.
    + destruct (insert_at s h (l1 ++ [x]) l2 n) as (a & b & Ha & Hb & E & N1 & N2 & Hl);
        [by rewrite <- app_assoc..|].
      rewrite app_comm_cons, last_snoc in Ha. injection Ha as <-. rewrite <- !app_assoc in Hl.
      destruct (list_add_between_linked s x n b E N1 N2 Hnode) as (s' & Es & Hk). exists s'.
      unfold list_add_after. rewrite (edge_next _ _ _ E). split; [done|]. by apply Hl.
    + destruct (insert_at s h l1 (x :: l2) n Hr Hn) as (a & b & Ha & Hb & E & N1 & N2 & Hl).
      simpl in Hb. injection Hb as <-.
      destruct (list_add_between_linked s a n x E N1 N2 Hnode) as (s' & Es & Hk). exists s'.
      unfold list_add_before. rewrite (edge_prev _ _ _ E). split; [done|]. by apply Hl.
    + destruct (list_del_rep _ _ _ _ _ Hr) as (s' & E & Hr' & Ho & _). exists s'. split_and!; [done|done|].
      by apply others_intro.
Qed.

(** A list of two nodes and a third node to add. *)
Definition example_dheap : dheap :=
  mk_dheap (<[1 := 2]> (<[2 := 3]> (<[3 := 1]> (<[4 := 0]> ∅))))
    (<[1 := 3]> (<[2 := 1]> (<[3 := 2]> (<[4 := 0]> ∅)))).

Lemma example_list : list_rep example_dheap 1 [2; 3].
Proof. split; [by apply (bool_decide_unpack _)|by repeat split]. Qed.

Lemma clist_updates_witness :
  (exists s', list_add 1 4 example_dheap = Ok s' /\ list_rep s' 1 [4; 2; 3] /\ others example_dheap s' [1; 4; 2; 3])
  /\ (exists s', list_del 2 example_dheap = Ok s' /\ list_rep s' 1 [3] /\ others example_dheap s' [1; 2; 3]).
Proof.
  assert (Hn : 4 ∉ [1; 2; 3]) by set_solver.
  assert (Hnode : node_at example_dheap 4) by (split; eexists; reflexivity).
  destruct (clist_updates example_dheap 1 [2; 3] 4 example_list Hn Hnode) as (H1 & _ & H2).
  split; [exact H1|]. destruct (H2 [] 2 [3] eq_refl) as (_ & _ & H3). exact H3.
Defined.

(** Splicing: appending or prepending one list to another moves all its
    nodes, in order, to the end or to the start, leaves the emptied list empty
    and does not affect other lists. *)
Theorem clist_splices s to l1 from l2 :
  list_rep s to l1 -> list_rep s from l2 -> (forall x, x ∈ to :: l1 -> x ∉ from :: l2) ->
  (exists s', list_append_list to from s = Ok s' /\ list_rep s' to (l1 ++ l2) /\ list_rep s' from []
    /\ others s s' (to :: l1 ++ from :: l2))
  /\ (exists s', list_prepend_list to from s = Ok s' /\ list_rep s' to (l2 ++ l1) /\ list_rep s' from []
    /\ others s s' (to :: from :: l2 ++ l1)).
Proof.
  intros H1 H2 Hd.
  destruct (list_ends _ _ _ H1) as (xs1 & a1 & b1 & ys1 & Ea1 & Eb1 & [A1 A2] & [B1 B2] & _ & _).
  destruct (list_ends _ _ _ H2) as (xs2 & a2 & b2 & ys2 & Ea2 & Eb2 & [A3 A4] & [B3 B4] & _ & _).
  assert (Ha1 : a1 ∈ to :: l1) by (rewrite Ea1; apply elem_of_app; right; by constructor).
  assert (Ha2 : a2 ∈ from :: l2) by (rewrite Ea2; apply elem_of_app; right; by constructor).
  assert (Hb1 : b1 ∈ to :: l1).
  { assert (Hb : b1 ∈ l1 ++ [to]) by (rewrite Eb1; by constructor). set_solver. }
  assert (N1 : a1 <> a2) by (intros ->; by apply (Hd a2)).
  assert (N2 : to <> from) by (intros ->; apply (Hd from); by constructor).
  assert (N3 : to <> a2) by (intros ->; apply (Hd a2); [by constructor|done]).
  assert (N4 : b1 <> from) by (intros ->; apply (Hd from); [done|by constructor]).
  split.
  - unfold list_append_list. do 6 dstep.
    set (s1 := mk_dheap _ _). assert (Hr : list_rep s1 to (l1 ++ from :: l2)).
    { apply (sew_rep s s1 to l1 from l2 xs1 a1 xs2 a2); try done; unfold s1.
      - split; dlookup.
      - split; dlookup.
      - intros x ? ?. dlookup.
      - intros x ? ?. dlookup. }
    destruct (unsew s1 to from l1 l2 Hr) as (s' & E & R1 & R2 & Ho). exists s'. split_and!; [exact E|done|done|].
    apply others_intro. intros x Hx. destruct (Ho x Hx) as [-> ->]. unfold s1. simpl.
    rewrite !lookup_insert_ne by set_solver. done.
  - unfold list_prepend_list. do 6 dstep.
    set (s1 := mk_dheap _ _). assert (Hr : list_rep s1 to ([] ++ from :: l2 ++ l1)).
    { apply (sew_front_rep s s1 to l1 from l2 b1 ys1 xs2 a2); try done; unfold s1.
      - split; dlookup.
      - split; dlookup.
      - intros x ? ?. dlookup.
      - intros x ? ?. dlookup. }
    destruct (unsew s1 to from [] (l2 ++ l1) Hr) as (s' & E & R1 & R2 & Ho). exists s'. split_and!; [exact E|done|done|].
    apply others_intro. intros x Hx. destruct (Ho x Hx) as [-> ->]. unfold s1. simpl.
    rewrite !lookup_insert_ne by set_solver. done.
Qed.

(** Two lists, of two nodes and of one. *)
Definition example_two : dheap :=
  mk_dheap (<[1 := 2]> (<[2 := 3]> (<[3 := 1]> (<[4 := 5]> (<[5 := 4]> ∅)))))
    (<[1 := 3]> (<[2 := 1]> (<[3 := 2]> (<[4 := 5]> (<[5 := 4]> ∅))))).

Lemma clist_splices_witness :
  (exists s', list_append_list 1 4 example_two = Ok s' /\ list_rep s' 1 [2; 3; 5] /\ list_rep s' 4 []
    /\ others example_two s' [1; 2; 3; 4; 5])
  /\ (exists s', list_prepend_list 1 4 example_two = Ok s' /\ list_rep s' 1 [5; 2; 3] /\ list_rep s' 4 []
    /\ others example_two s' [1; 4; 5; 2; 3]).
Proof.
  apply (clist_splices example_two 1 [2; 3] 4 [5]).
  - split; [by apply (bool_decide_unpack _)|by repeat split].
  - split; [by apply (bool_decide_unpack _)|by repeat split].
  - set_solver.
Defined.

(** Looking at a list and walking it: emptiness, the first, the last, the
    next and the previous entry and the removal of the first are those of the
    sequence; the loops forwards and backwards visit every entry once, in
    order, and end; and a loop that deletes entries on the way leaves exactly
    the others. *)
Theorem clist_walks s h l off fuel (P : Z -> bool) :
  list_rep s h l -> (length l <= fuel)%nat ->
  let entry x := list_node_to_off_ x off in
  list_empty h s = Ok (bool_decide (l = []))
  /\ list_top_ h off s = Ok (from_option entry NULL (head l))
  /\ list_tail_ h off s = Ok (from_option entry NULL (last l))
  /\ (exists s', list_pop_ h off s = Ok (from_option entry NULL (head l), s') /\ list_rep s' h (tail l))
  /\ (forall l1 x l2, l = l1 ++ x :: l2 ->
       list_next h (entry x) off s = Ok (from_option entry NULL (head l2))
       /\ list_prev h (entry x) off s = Ok (from_option entry NULL (last l1)))
  /\ list_for_each fuel h off s = Ok (Some (entry <$> l))
  /\ list_for_each_rev fuel h off s = Ok (Some (entry <$> reverse l))
  /\ (exists s', list_for_each_safe fuel (sweep P off) h off s = Ok (Some s')
       /\ list_rep s' h (filter (fun x => P (entry x) = true) l)).
Proof.
  intros Hr Hf entry. destruct (first_next _ _ _ Hr) as (b & Hb & Eb).
  destruct (last_prev _ _ _ Hr) as (a & Ha & Ea). pose proof (list_empty_rep _ _ _ Hr) as He.
  assert (Hh : h ∉ l) by (destruct Hr as [Hnd _]; by apply NoDup_cons in Hnd as [? _]).
  split_and!; [done|..].
  - unfold list_top_. rewrite He. simpl. destruct l as [|x l]; [done|]. rewrite Eb. simpl in *. by injection Hb as <-.
  - unfold list_tail_. rewrite He. simpl. destruct l as [|x l]; [done|]. rewrite Ea. simpl bool_decide. cbn [mbind outcome_bind].
    rewrite last_cons in Ha. destruct (last (x :: l)) eqn:El; [|by apply last_None in El].
    injection Ha as <-. done.
  - unfold list_pop_. rewrite He. simpl. destruct l as [|x l]; [by exists s|]. rewrite Eb. simpl in *. injection Hb as <-.
    destruct (list_del_rep s h [] x l Hr) as (s' & E & R & _). rewrite E. by exists s'.
  - intros l1 x l2 ->. unfold list_next, list_prev, list_entry_or_null.
    replace (entry x + off) with x by (unfold entry, list_node_to_off_; lia). split.
    + destruct (list_next_edge s h (l1 ++ [x]) l2) as (a' & c & Ha' & Hc & E); [by rewrite <- app_assoc|].
      rewrite app_comm_cons, last_snoc in Ha'. injection Ha' as <-. rewrite (edge_next _ _ _ E). simpl.
      destruct l2 as [|y l2]; simpl in Hc; injection Hc as <-; [by rewrite Z.eqb_refl|].
      rewrite (proj2 (Z.eqb_neq _ _)) by set_solver. done.
    + destruct (list_next_edge s h l1 (x :: l2) Hr) as (a' & c & Ha' & Hc & E).
      simpl in Hc. injection Hc as <-. rewrite (edge_prev _ _ _ E). simpl. rewrite last_cons in Ha'.
      destruct (last l1) eqn:El; injection Ha' as <-; [|by rewrite Z.eqb_refl].
      apply last_Some_elem_of in El. rewrite (proj2 (Z.eqb_neq _ _)) by set_solver. done.
  - unfold list_for_each. rewrite Eb. simpl. by apply (for_each_next s h off [] l).
  - unfold list_for_each_rev. rewrite Ea. simpl. apply (for_each_prev s h off l []); [by rewrite app_nil_r|done|done].
  - unfold list_for_each_safe. rewrite Eb. simpl.
    replace (list_node_from_off_ (list_node_to_off_ b off) off) with b
      by (unfold list_node_from_off_, list_node_to_off_; lia).
    destruct (member_next s h [] l b Hr Hb) as [c Hc]. rewrite Hc. simpl.
    by apply (sweep_loop P s h off [] l).
Qed.

Lemma clist_walks_witness :
  list_for_each 2 1 0 example_dheap = Ok (Some [2; 3])
  /\ list_for_each_rev 2 1 0 example_dheap = Ok (Some [3; 2])
  /\ exists s', list_for_each_safe 2 (sweep Z.odd 0) 1 0 example_dheap = Ok (Some s') /\ list_rep s' 1 [3].
Proof.
  destruct (clist_walks example_dheap 1 [2; 3] 0 2 Z.odd example_list ltac:(apply le_n))
    as (_ & _ & _ & _ & _ & H1 & H2 & H3).
  split; [exact H1|]. split; [exact H2|exact H3].
Defined.
