(* ===== verification/HLists.v ===== *)
(** * HLists: the lists with a single head pointer

    Models the [slist] and the [hlist] of [src/include/base/list.h].  An hlist
    node points back at the cell that points at it - the head or the [next]
    field of the node before - which is what makes deletion in constant time
    possible. *)
From S2P Require Import Prelude.

Module HList.

(** ** Singly linked lists: the field [next] of all nodes, heads included *)

Notation sheap := (gmap Z Z).

Definition s_load (s : sheap) (n : Z) : outcome Z :=
  match s !! n with Some v => Ok v | None => UB end.
Definition s_store (n v : Z) (s : sheap) : outcome sheap :=
  _ ← s_load s n; Ok (<[n := v]> s).

Definition slist_init_head (h : Z) (s : sheap) : outcome sheap := s_store h NULL s.

Definition slist_add_head (h n : Z) (s : sheap) : outcome sheap :=
  x ← s_load s h;
  s ← s_store n x s;
  s_store h n s.

Definition slist_del_head (h : Z) (s : sheap) : outcome sheap :=
  x ← s_load s h;
  y ← s_load s x;
  s_store h y s.

Definition slist_del (prev n : Z) (s : sheap) : outcome sheap :=
  x ← s_load s n; s_store prev x s.

Definition slist_empty (h : Z) (s : sheap) : outcome bool :=
  x ← s_load s h; Ok (x =? NULL).

Definition slist_pop_ (h off : Z) (s : sheap) : outcome (Z * sheap) :=
  e ← slist_empty h s;
  if (e : bool) then Ok (NULL, s)
  else
    n ← s_load s h;
    s ← slist_del h n s;
    Ok (n - off, s).

(** From [p] the chain goes through [l] and ends. *)
Fixpoint s_chain (s : sheap) (p : Z) (l : list Z) : Prop :=
  match l with
  | [] => s !! p = Some NULL
  | n :: l => s !! p = Some n /\ n <> NULL /\ s_chain s n l
  end.

Definition slist_rep (s : sheap) (h : Z) (l : list Z) : Prop := NoDup (h :: l) /\ s_chain s h l.

Lemma s_chain_frame s p l x v : s_chain s p l -> x ∉ p :: l -> s_chain (<[x := v]> s) p l.
Proof.
  revert p. induction l as [|n l IH]; intros p; simpl.
  - intros Hp Hx. rewrite lookup_insert_ne by set_solver. done.
  - intros (Hp & Hn & Hc) Hx. rewrite lookup_insert_ne by set_solver. split_and!; [done|done|].
    apply IH; [done|set_solver].
Qed.

Lemma s_chain_head s p l : s_chain s p l -> s !! p = Some (default NULL (head l)).
Proof. destruct l; [done|]. by intros [? _]. Qed.

(** ** Lists with back pointers to cells *)

Inductive cell : Type := HeadCell (h : Z) | NextCell (n : Z).

#[export] Instance cell_eq_dec : EqDecision cell.
Proof. solve_decision. Defined.

Record hheap : Type := mk_hheap { heads : gmap Z Z; hnext : gmap Z Z; pprev : gmap Z cell }.

Definition cell_val (s : hheap) (c : cell) : option Z :=
  match c with HeadCell h => heads s !! h | NextCell n => hnext s !! n end.

Definition load_cell (s : hheap) (c : cell) : outcome Z :=
  match cell_val s c with Some v => Ok v | None => UB end.

Definition store_cell (c : cell) (v : Z) (s : hheap) : outcome hheap :=
  _ ← load_cell s c;
  Ok (match c with
      | HeadCell h => mk_hheap (<[h := v]> (heads s)) (hnext s) (pprev s)
      | NextCell n => mk_hheap (heads s) (<[n := v]> (hnext s)) (pprev s)
      end).

Definition load_pprev (s : hheap) (n : Z) : outcome cell :=
  match pprev s !! n with Some c => Ok c | None => UB end.

Definition store_pprev (n : Z) (c : cell) (s : hheap) : outcome hheap :=
  _ ← load_pprev s n; Ok (mk_hheap (heads s) (hnext s) (<[n := c]> (pprev s))).

Definition hlist_init_head (h : Z) (s : hheap) : outcome hheap := store_cell (HeadCell h) NULL s.

Definition hlist_add_head (h n : Z) (s : hheap) : outcome hheap :=
  hd ← load_cell s (HeadCell h);
  s ← store_cell (NextCell n) hd s;
  s ← store_pprev n (HeadCell h) s;
  s ← store_cell (HeadCell h) n s;
  if negb (hd =? NULL) then store_pprev hd (NextCell n) s else Ok s.

Definition hlist_del (n : Z) (s : hheap) : outcome hheap :=
  c ← load_pprev s n;
  x ← load_cell s (NextCell n);
  s ← store_cell c x s;
  x ← load_cell s (NextCell n);
  if negb (x =? NULL) then
    c ← load_pprev s n;
    store_pprev x c s
  else Ok s.

Definition hlist_del_head (h : Z) (s : hheap) : outcome hheap :=
  x ← load_cell s (HeadCell h);
  if negb (x =? NULL) then hlist_del x s else Ok s.

Definition hlist_empty (h : Z) (s : hheap) : outcome bool :=
  x ← load_cell s (HeadCell h); Ok (x =? NULL).

(** The chain that starts in the cell [c]. *)
Fixpoint h_chain (s : hheap) (c : cell) (l : list Z) : Prop :=
  match l with
  | [] => cell_val s c = Some NULL
  | n :: l => cell_val s c = Some n /\ pprev s !! n = Some c /\ n <> NULL /\ h_chain s (NextCell n) l
  end.

Definition hlist_rep (s : hheap) (h : Z) (l : list Z) : Prop := NoDup l /\ h_chain s (HeadCell h) l.

Definition hnode_at (s : hheap) (n : Z) : Prop := is_Some (hnext s !! n) /\ is_Some (pprev s !! n).

(** A chain does not see stores to other cells and back pointers. *)
Lemma h_chain_frame s s' c l :
  h_chain s c l -> cell_val s' c = cell_val s c ->
  (forall n, n ∈ l -> cell_val s' (NextCell n) = cell_val s (NextCell n) /\ pprev s' !! n = pprev s !! n) ->
  h_chain s' c l.
Proof.
  revert c. induction l as [|n l IH]; intros c Hc Hv Hl; simpl in *; [by rewrite Hv|].
  destruct Hc as (H1 & H2 & H3 & H4). destruct (Hl n ltac:(by constructor)) as [Hn1 Hn2].
  rewrite Hv, Hn2. split_and!; try done. apply IH; [done|done|]. intros m Hm. apply Hl. by constructor.
Qed.

(** The first nodes of a chain, the cells that point at them, and the cell
    behind them. *)
Fixpoint h_seg (s : hheap) (c : cell) (l : list Z) : Prop :=
  match l with
  | [] => True
  | n :: l => cell_val s c = Some n /\ pprev s !! n = Some c /\ n <> NULL /\ h_seg s (NextCell n) l
  end.

Fixpoint cells (c : cell) (l : list Z) : list cell :=
  match l with [] => [] | n :: l => c :: cells (NextCell n) l end.

Fixpoint end_cell (c : cell) (l : list Z) : cell :=
  match l with [] => c | n :: l => end_cell (NextCell n) l end.

Lemma h_chain_app s c l1 l2 : h_chain s c (l1 ++ l2) <-> h_seg s c l1 /\ h_chain s (end_cell c l1) l2.
Proof.
  revert c. induction l1 as [|n l1 IH]; intros c; simpl; [tauto|]. rewrite IH. tauto.
Qed.

Lemma h_seg_frame s s' c l :
  h_seg s c l -> (forall d, d ∈ cells c l -> cell_val s' d = cell_val s d) ->
  (forall n, n ∈ l -> pprev s' !! n = pprev s !! n) -> h_seg s' c l.
Proof.
  revert c. induction l as [|n l IH]; intros c Hc Hv Hl; simpl in *; [done|].
  destruct Hc as (H1 & H2 & H3 & H4). rewrite Hv, Hl by by constructor. split_and!; try done.
  apply IH; [done|intros d Hd; apply Hv; by constructor|intros m Hm; apply Hl; by constructor].
Qed.

(** A cell from which a chain with the nodes [l] can start. *)
Definition outside (c : cell) (l : list Z) : Prop :=
  match c with HeadCell _ => True | NextCell p => p ∉ l end.

Lemma end_cell_cases c l : end_cell c l = c \/ exists n, n ∈ l /\ end_cell c l = NextCell n.
Proof.
  revert c. induction l as [|n l IH]; intros c; simpl; [by left|]. right.
  destruct (IH (NextCell n)) as [->|(m & Hm & ->)]; eexists; (split; [|done]); by constructor.
Qed.

Lemma end_cell_fresh c l : NoDup l -> outside c l -> end_cell c l ∉ cells c l.
Proof.
  intros Hnd. revert c. induction Hnd as [|n l Hn Hnd IH]; intros c Hc; simpl; [apply not_elem_of_nil|].
  apply not_elem_of_cons. split; [|by apply IH].
  destruct (end_cell_cases (NextCell n) l) as [->|(m & Hm & ->)]; intros <-; apply Hc; by constructor.
Qed.

Lemma load_cell_Ok s c v : load_cell s c = Ok v <-> cell_val s c = Some v.
Proof. unfold load_cell. destruct (cell_val s c); naive_solver. Qed.

Lemma load_pprev_Ok s n c : load_pprev s n = Ok c <-> pprev s !! n = Some c.
Proof. unfold load_pprev. destruct (pprev s !! n); naive_solver. Qed.

Lemma store_cell_Ok c v s u :
  cell_val s c = Some u -> exists s', store_cell c v s = Ok s' /\ pprev s' = pprev s
    /\ forall d, cell_val s' d = if decide (d = c) then Some v else cell_val s d.
Proof.
  intros Hc. unfold store_cell. rewrite (proj2 (load_cell_Ok _ _ _) Hc). simpl. eexists. split; [done|].
  split; [by destruct c|]. intros d. case_decide as Hd.
  - subst. destruct c; simpl; by rewrite lookup_insert_eq.
  - destruct c, d; simpl; try done; rewrite lookup_insert_ne; try done; by intros ->.
Qed.

Lemma store_pprev_Ok n c s u :
  pprev s !! n = Some u -> store_pprev n c s = Ok (mk_hheap (heads s) (hnext s) (<[n := c]> (pprev s))).
Proof. intros Hn. unfold store_pprev. by rewrite (proj2 (load_pprev_Ok _ _ _) Hn). Qed.

Lemma cell_val_pprev s m d : cell_val (mk_hheap (heads s) (hnext s) m) d = cell_val s d.
Proof. by destruct d. Qed.

Lemma h_chain_head s c l : h_chain s c l -> cell_val s c = Some (default NULL (head l)).
Proof. destruct l; [done|]. by intros [? _]. Qed.

(** Making the cell [c'] behind [l1] point at the chain [l2]. *)
Lemma relink s s' h l1 l2 :
  let c' := end_cell (HeadCell h) l1 in
  h_seg s (HeadCell h) l1 -> NoDup (l1 ++ l2) ->
  (forall d, d ∈ cells (HeadCell h) l1 -> cell_val s' d = cell_val s d) ->
  (forall m, m ∈ l1 -> pprev s' !! m = pprev s !! m) ->
  h_chain s' c' l2 -> hlist_rep s' h (l1 ++ l2).
Proof.
  intros c' Hs Hnd Hc Hp Hl. split; [done|]. apply h_chain_app. split; [|done]. by eapply h_seg_frame.
Qed.

Lemma hlist_del_rep s h l1 n l2 :
  hlist_rep s h (l1 ++ n :: l2) -> exists s', hlist_del n s = Ok s' /\ hlist_rep s' h (l1 ++ l2).
Proof.
  intros [Hnd Hc]. apply h_chain_app in Hc as [Hs (Hv & Hp & Hn & Hl)].
  set (c' := end_cell (HeadCell h) l1) in *.
  pose proof (proj1 (NoDup_app _ _) Hnd) as (Hnd1 & Hd & Hnd2). apply NoDup_cons in Hnd2 as [Hn2 Hnd2].
  assert (Hnd' : NoDup (l1 ++ l2)) by (apply NoDup_app; split_and!; [done|set_solver|done]).
  assert (Hfresh : c' ∉ cells (HeadCell h) l1) by by apply end_cell_fresh.
  assert (Hcn : forall m, m ∈ n :: l2 -> NextCell m <> c').
  { intros m Hm Heq. destruct (end_cell_cases (HeadCell h) l1) as [E|(k & Hk & E)]; unfold c' in Heq; rewrite E in Heq;
      [done|]. injection Heq as ->. by apply (Hd k). }
  pose proof (h_chain_head _ _ _ Hl) as Hx.
  unfold hlist_del. rewrite (proj2 (load_pprev_Ok _ _ _) Hp), (proj2 (load_cell_Ok _ _ _) Hx). simpl mbind.
  destruct (store_cell_Ok c' (default NULL (head l2)) s n Hv) as (s1 & E1 & Ep1 & Ec1). rewrite E1. simpl mbind.
  rewrite (proj2 (load_cell_Ok s1 (NextCell n) (default NULL (head l2))))
    by (rewrite Ec1, decide_False by (apply Hcn; by constructor); done). simpl mbind.
  destruct l2 as [|y l3]; simpl default.
  - exists s1. split; [done|]. apply (relink s s1 h l1 []); try done.
    + intros d Hd'. rewrite Ec1, decide_False; [done|by intros ->].
    + intros m _. by rewrite Ep1.
    + simpl. fold c'. rewrite Ec1, decide_True by done. done.
  - destruct Hl as (_ & Hpy & Hy & Hl). rewrite (proj2 (Z.eqb_neq _ _) Hy). simpl negb. cbn iota.
    rewrite (proj2 (load_pprev_Ok s1 n c')) by (by rewrite Ep1). simpl mbind.
    rewrite (store_pprev_Ok y c' s1 (NextCell n)) by (by rewrite Ep1).
    eexists. split; [done|]. apply NoDup_cons in Hnd2 as [Hy3 Hnd3].
    apply (relink s _ h l1 (y :: l3)); try done.
    + intros d Hd'. rewrite cell_val_pprev, Ec1, decide_False; [done|by intros ->].
    + intros m Hm. simpl. rewrite lookup_insert_ne by set_solver. by rewrite Ep1.
    + fold c'. simpl. rewrite cell_val_pprev, Ec1, decide_True, lookup_insert_eq by done. split_and!; try done.
      eapply h_chain_frame; [exact Hl| |].
      * rewrite cell_val_pprev, Ec1, decide_False; [done|apply Hcn; by do 2 constructor].
      * intros m Hm. rewrite cell_val_pprev, Ec1, decide_False by (apply Hcn; by do 2 constructor).
        simpl. rewrite lookup_insert_ne, Ep1 by set_solver. done.
Qed.

Lemma hlist_add_rep s h l n :
  hlist_rep s h l -> hnode_at s n -> n ∉ l -> n <> NULL ->
  exists s', hlist_add_head h n s = Ok s' /\ hlist_rep s' h (n :: l).
Proof.
  intros [Hnd Hc] [[u Hu] [v Hv]] Hn Hn0. pose proof (h_chain_head _ _ _ Hc) as Hh.
  unfold hlist_add_head. rewrite (proj2 (load_cell_Ok _ _ _) Hh). simpl mbind.
  destruct (store_cell_Ok (NextCell n) (default NULL (head l)) s u Hu) as (s1 & E1 & P1 & C1). rewrite E1. simpl mbind.
  rewrite (store_pprev_Ok n _ s1 v) by (by rewrite P1). simpl mbind.
  set (s2 := mk_hheap _ _ _). destruct (store_cell_Ok (HeadCell h) n s2 (default NULL (head l))) as (s3 & E3 & P3 & C3).
  { unfold s2. rewrite cell_val_pprev, C1, decide_False by done. done. }
  rewrite E3. simpl mbind.
  assert (Hval : forall d, cell_val s3 d = if decide (d = HeadCell h) then Some n
    else if decide (d = NextCell n) then Some (default NULL (head l)) else cell_val s d).
  { intros d. rewrite C3. case_decide; [done|]. unfold s2. by rewrite cell_val_pprev, C1. }
  assert (Hprev : pprev s3 = <[n := HeadCell h]> (pprev s)) by (rewrite P3; unfold s2; simpl; by rewrite P1).
  destruct l as [|y l]; simpl default in *.
  - exists s3. split; [done|]. split; [apply NoDup_singleton|]. cbn [h_chain].
    rewrite !Hval, Hprev, lookup_insert_eq. by rewrite decide_True, decide_False, decide_True.
  - destruct Hc as (_ & Hpy & Hy & Hl). rewrite (proj2 (Z.eqb_neq _ _) Hy). simpl negb. cbn iota.
    apply not_elem_of_cons in Hn as [Hny Hnl]. apply NoDup_cons in Hnd as [Hyl Hnd].
    rewrite (store_pprev_Ok y _ s3 (HeadCell h)) by (by rewrite Hprev, lookup_insert_ne).
    eexists. split; [done|]. split; [apply NoDup_cons; split; [set_solver|by apply NoDup_cons]|].
    cbn [h_chain]. rewrite !cell_val_pprev, !Hval, Hprev. simpl pprev.
    rewrite lookup_insert_ne, !lookup_insert_eq by done. rewrite decide_True, decide_False, decide_True by done.
    split_and!; try done. eapply h_chain_frame; [exact Hl| |].
    + rewrite cell_val_pprev, Hval, !decide_False by (intros [=]; done). done.
    + intros m Hm. assert (m <> n /\ m <> y) as [Hmn Hmy] by set_solver.
      rewrite cell_val_pprev, Hval, !decide_False by (intros [=]; done). simpl.
      by rewrite !lookup_insert_ne.
Qed.

(** ** Singly linked lists *)

Lemma s_load_Ok s n v : s_load s n = Ok v <-> s !! n = Some v.
Proof. unfold s_load. destruct (s !! n); naive_solver. Qed.

Lemma s_store_Ok n v s u : s !! n = Some u -> s_store n v s = Ok (<[n := v]> s).
Proof. intros Hn. unfold s_store. by rewrite (proj2 (s_load_Ok _ _ _) Hn). Qed.

(** Unlinking the node behind [p], wherever it is in the list. *)
Lemma s_unlink s p n l :
  s_chain s p (n :: l) -> NoDup (p :: n :: l) -> s_chain (<[p := default NULL (head l)]> s) p l.
Proof.
  intros (_ & _ & Hc) Hnd. apply NoDup_cons in Hnd as [Hp _]. destruct l as [|m l]; simpl in *.
  - apply lookup_insert_eq.
  - destruct Hc as (_ & Hm & Hc). rewrite lookup_insert_eq. split_and!; [done|done|].
    apply s_chain_frame; [done|set_solver].
Qed.

Lemma s_chain_split s h l1 p l2 :
  s_chain s h (l1 ++ p :: l2) -> s_chain s p l2.
Proof.
  revert h. induction l1 as [|n l1 IH]; intros h; simpl; [by intros (_ & _ & ?)|].
  intros (_ & _ & Hc). by apply (IH n).
Qed.

(** Replacing the end of a chain from the member [p] on. *)
Lemma s_chain_replace s h l1 p l2 l3 v :
  s_chain s h (l1 ++ p :: l2) -> p ∉ h :: l1 ->
  s_chain (<[p := v]> s) p l3 -> s_chain (<[p := v]> s) h (l1 ++ p :: l3).
Proof.
  revert h. induction l1 as [|n l1 IH]; intros h Hc Hp Hl; simpl in *.
  - destruct Hc as (H1 & H2 & _). rewrite lookup_insert_ne by set_solver. done.
  - destruct Hc as (H1 & H2 & Hc). rewrite lookup_insert_ne by set_solver. split_and!; [done|done|].
    apply IH; [done|set_solver|done].
Qed.

Lemma slist_del_rep s h l1 p n l2 :
  slist_rep s h (l1 ++ p :: n :: l2) -> exists s', slist_del p n s = Ok s' /\ slist_rep s' h (l1 ++ p :: l2).
Proof.
  intros [Hnd Hc]. pose proof (s_chain_split _ _ _ _ _ Hc) as Hp. pose proof Hp as (Hpn & Hn & Hl).
  unfold slist_del. rewrite (proj2 (s_load_Ok _ _ _) (s_chain_head _ _ _ Hl)). simpl.
  rewrite (s_store_Ok _ _ _ _ Hpn). eexists. split; [done|].
  rewrite app_comm_cons in Hnd. pose proof (proj1 (NoDup_app _ _) Hnd) as (Hnd1 & Hd & Hnd2).
  split.
  - rewrite app_comm_cons. apply NoDup_app. split_and!; [done|set_solver|].
    apply NoDup_cons in Hnd2 as [? Hnd2]. apply NoDup_cons in Hnd2 as [? Hnd2]. apply NoDup_cons. set_solver.
  - eapply s_chain_replace; [exact Hc| |eapply s_unlink; [exact Hp|done]].
    intros Hin. apply (Hd p Hin). by constructor.
Qed.

Lemma slist_del_first s h n l :
  slist_rep s h (n :: l) -> exists s', slist_del h n s = Ok s' /\ slist_rep s' h l
    /\ s_load s h = Ok n /\ s_load s n = Ok (default NULL (head l)) /\ s' = <[h := default NULL (head l)]> s.
Proof.
  intros [Hnd Hc]. pose proof Hc as (Hh & Hn & Hl). pose proof (s_chain_head _ _ _ Hl) as Hx.
  unfold slist_del. rewrite (proj2 (s_load_Ok _ _ _) Hx), (proj2 (s_load_Ok _ _ _) Hh). simpl.
  rewrite (s_store_Ok _ _ _ _ Hh). eexists. split; [done|]. split; [|done].
  split; [|by eapply s_unlink]. apply NoDup_cons in Hnd as [? Hnd]. apply NoDup_cons in Hnd as [? Hnd].
  apply NoDup_cons. set_solver.
Qed.

Lemma slist_add_rep s h l n :
  slist_rep s h l -> is_Some (s !! n) -> n ∉ h :: l -> n <> NULL ->
  exists s', slist_add_head h n s = Ok s' /\ slist_rep s' h (n :: l).
Proof.
  intros [Hnd Hc] [u Hu] Hn Hn0. pose proof (s_chain_head _ _ _ Hc) as Hh.
  unfold slist_add_head. rewrite (proj2 (s_load_Ok _ _ _) Hh). simpl. rewrite (s_store_Ok _ _ _ _ Hu). simpl.
  rewrite (s_store_Ok _ _ _ (default NULL (head l))) by (rewrite lookup_insert_ne by set_solver; done).
  eexists. split; [done|]. apply NoDup_cons in Hnd as [Hhl Hnd]. split; [repeat apply NoDup_cons_2; set_solver|].
  simpl. rewrite lookup_insert_eq. split_and!; [done|done|].
  assert (Hnh : n <> h) by set_solver. destruct l as [|y l]; simpl in *.
  - by rewrite lookup_insert_ne, lookup_insert_eq by done.
  - destruct Hc as (_ & Hy & Hc). rewrite lookup_insert_ne, lookup_insert_eq by done. split_and!; [done|done|].
    apply s_chain_frame; [apply s_chain_frame|]; [done|set_solver|set_solver].
Qed.

End HList.
Import HList.

(** The lists of the hash tables are the sequences of their nodes.  For an
    hlist, adding at the head and deleting any member, from the node alone; for
    an slist, adding and removing at the head and deleting the node behind a
    member; emptiness is that of the sequence, and taking the head off an empty
    slist dereferences a null pointer. *)
Theorem hash_lists_correct s m h l n off :
  (hlist_rep s h l ->
    hlist_empty h s = Ok (bool_decide (l = []))
    /\ (hnode_at s n -> n ∉ l -> n <> NULL ->
        exists s', hlist_add_head h n s = Ok s' /\ hlist_rep s' h (n :: l))
    /\ (exists s', hlist_del_head h s = Ok s' /\ hlist_rep s' h (tail l))
    /\ (forall l1 x l2, l = l1 ++ x :: l2 -> exists s', hlist_del x s = Ok s' /\ hlist_rep s' h (l1 ++ l2)))
  /\ (slist_rep m h l -> m !! NULL = None ->
    slist_empty h m = Ok (bool_decide (l = []))
    /\ (is_Some (m !! n) -> n ∉ h :: l ->
        exists m', slist_add_head h n m = Ok m' /\ slist_rep m' h (n :: l))
    /\ (exists m', slist_pop_ h off m = Ok (from_option (fun x => x - off) NULL (head l), m')
        /\ slist_rep m' h (tail l))
    /\ match l with
       | [] => slist_del_head h m = UB
       | _ :: l' => exists m', slist_del_head h m = Ok m' /\ slist_rep m' h l'
       end
    /\ (forall l1 p x l2, l = l1 ++ p :: x :: l2 -> exists m', slist_del p x m = Ok m' /\ slist_rep m' h (l1 ++ p :: l2))).
Proof.
  split.
  - intros Hr. pose proof (h_chain_head _ _ _ (proj2 Hr)) as Hh.
    assert (Hl0 : forall x, x ∈ l -> x <> NULL).
    { destruct Hr as [_ Hc]. clear Hh. revert Hc. generalize (HeadCell h). induction l as [|y l IH]; intros c Hc x Hx;
        [by apply not_elem_of_nil in Hx|]. destruct Hc as (_ & _ & Hy & Hc).
      apply elem_of_cons in Hx as [->|Hx]; [done|by eapply IH]. }
    split_and!.
    + unfold hlist_empty. rewrite (proj2 (load_cell_Ok _ _ _) Hh). simpl. f_equal.
      destruct l as [|x l]; [done|]. simpl. apply Z.eqb_neq, Hl0. by constructor.
    + intros Hn Hnl Hn0. by apply hlist_add_rep.
    + unfold hlist_del_head. rewrite (proj2 (load_cell_Ok _ _ _) Hh). simpl mbind.
      destruct l as [|x l]; [by exists s|]. simpl default. rewrite (proj2 (Z.eqb_neq _ _)) by (apply Hl0; by constructor).
      by apply (hlist_del_rep s h []).
    + intros l1 x l2 ->. by apply hlist_del_rep.
  - intros Hr Hm0. destruct Hr as [Hnd Hc]. pose proof (s_chain_head _ _ _ Hc) as Hh. split_and!.
    + unfold slist_empty. rewrite (proj2 (s_load_Ok _ _ _) Hh). simpl. f_equal.
      destruct l as [|x l]; [done|]. destruct Hc as (_ & Hx & _). by apply Z.eqb_neq.
    + intros Hu Hn. apply slist_add_rep; [done|done|done|]. intros ->. rewrite Hm0 in Hu. by destruct Hu.
    + unfold slist_pop_, slist_empty. rewrite (proj2 (s_load_Ok _ _ _) Hh). simpl.
      destruct l as [|x l]; [by exists m|]. destruct Hc as (H1 & H2 & H3). simpl.
      rewrite (proj2 (Z.eqb_neq _ _) H2). simpl.
      destruct (slist_del_first m h x l) as (m' & E & R & _); [by split|]. rewrite E. by exists m'.
    + unfold slist_del_head. rewrite (proj2 (s_load_Ok _ _ _) Hh). simpl. destruct l as [|x l]; simpl.
      * unfold s_load. by rewrite Hm0.
      * destruct (slist_del_first m h x l) as (m' & _ & R & _ & E & ->); [by split|]. rewrite E. simpl.
        rewrite (s_store_Ok _ _ _ _ Hh). by eexists.
    + intros l1 p x l2 ->. by apply slist_del_rep.
Qed.

(** An hlist and an slist of two nodes, and a third node. *)
Definition example_hheap : hheap :=
  mk_hheap (<[1 := 10]> ∅) (<[10 := 20]> (<[20 := NULL]> (<[30 := NULL]> ∅)))
    (<[10 := HeadCell 1]> (<[20 := NextCell 10]> (<[30 := HeadCell 1]> ∅))).
Definition example_sheap : gmap Z Z := <[1 := 10]> (<[10 := 20]> (<[20 := NULL]> (<[30 := NULL]> ∅))).

Lemma hash_lists_correct_witness :
  (exists s', hlist_del 20 example_hheap = Ok s' /\ hlist_rep s' 1 [10])
  /\ (exists m', slist_add_head 1 30 example_sheap = Ok m' /\ slist_rep m' 1 [30; 10; 20]).
Proof.
  destruct (hash_lists_correct example_hheap example_sheap 1 [10; 20] 30 0) as [H1 H2]. split.
  - destruct H1 as (_ & _ & _ & H1).
    + split; [by apply (bool_decide_unpack _)|by repeat split].
    + exact (H1 [10] 20 [] eq_refl).
  - destruct H2 as (_ & H2 & _).
    + split; [by apply (bool_decide_unpack _)|by repeat split].
    + reflexivity.
    + apply H2; [eexists; reflexivity|set_solver].
Defined.
