(* ===== verification/Mempool.v ===== *)
(** * Mempool: preallocated block pools

    Models [src/include/base/mempool.h] as the release build compiles it
    ([NDEBUG], no [DEBUG]: [assert] and the debug checks are empty).  A pool is
    an array of block addresses used as a stack; [allocated] is the stack
    pointer, the entries below it are stale. *)
From S2P Require Import Prelude Interfaces.

Module Mempool.

Record mempool : Type := mk_mempool {
  free_items : list Z;
  allocated : Z;
  capacity : Z;
  buf : Z;
  len : Z;
  pgsize : Z;
  item_len : Z;
  num_items : Z;
  num_pages : Z
}.

Definition mempool_zero : mempool := mk_mempool [] 0 0 0 0 0 0 0 0.

Definition set_stack (m : mempool) (fi : list Z) (a : Z) : mempool :=
  mk_mempool fi a (capacity m) (buf m) (len m) (pgsize m) (item_len m)
    (num_items m) (num_pages m).

Definition mempool_alloc (m : mempool) : outcome (Z * mempool) :=
  if capacity m <=? allocated m then Ok (NULL, m)
  else
    item ← arr_get (free_items m) (allocated m);
    Ok (item, set_stack m (free_items m) (u64 (allocated m + 1))).

Definition mempool_free (m : mempool) (item : Z) : outcome mempool :=
  let a := u64 (allocated m - 1) in
  fi ← arr_set (free_items m) a item;
  Ok (set_stack m fi a).

(** The loop of [mempool_create]: [n] entries from address [p] on. *)
Fixpoint init_free_items (n : nat) (p element_siz : Z) : list Z :=
  match n with
  | O => []
  | S n' => p :: init_free_items n' (p + element_siz) element_siz
  end.

(** [mempool_create]: [None] is a null pool argument; [malloc1] and [malloc2]
    answer the two allocations; the last component lists what was freed. *)
Definition mempool_create (malloc1 malloc2 : Z -> Z) (m : option mempool)
    (n_elements element_siz : Z) : outcome (Z * option mempool * list Z) :=
  match m with
  | None => Ok (-1, None, [])
  | Some m =>
    if (n_elements <=? 0) || (element_siz <=? 0) then Ok (-1, Some m, [])
    else
      prod ← int_result (n_elements * element_siz);
      let ln := u64 prod in
      let b := malloc1 ln in
      if b =? NULL then
        Ok (-1, Some (mk_mempool (free_items m) (allocated m) (capacity m) b ln 0
                        element_siz (num_items m) (num_pages m)), [])
      else
        let ni := ln / element_siz in
        if malloc2 (u64 (ni * 8)) =? NULL then
          Ok (-1, Some (mk_mempool [] (allocated m) (capacity m) b ln 0
                          element_siz ni 0), [b])
        else
          Ok (0, Some (mk_mempool (init_free_items (Z.to_nat ni) b element_siz)
                         0 ni b ln 0 element_siz ni 0), [])
  end.

(** [mempool_destroy]: the second component lists what is freed. *)
Definition mempool_destroy (m : mempool) (free_items_ptr : Z) : mempool * list Z :=
  (mempool_zero, [free_items_ptr]).

(** ** Invariant *)

(** The free part of the stack and all the addresses of the pool. *)
Definition free_part (m : mempool) : list Z :=
  drop (Z.to_nat (allocated m)) (free_items m).

Definition items (m : mempool) : list Z :=
  init_free_items (Z.to_nat (capacity m)) (buf m) (item_len m).

Record pool_ok (m : mempool) (own : gset Z) : Prop := {
  po_len : length (free_items m) = Z.to_nat (capacity m);
  po_cap : capacity m < 2 ^ 63;
  po_alloc : 0 <= allocated m <= capacity m;
  po_buf : 0 < buf m;
  po_item : 0 < item_len m;
  po_nodup : NoDup (free_part m);
  po_disj : own ## list_to_set (free_part m);
  po_union : own ∪ list_to_set (free_part m) = list_to_set (items m)
}.

Lemma length_init n p e : length (init_free_items n p e) = n.
Proof. revert p; induction n as [|n IH]; simpl; [done|]. intros p. by rewrite IH. Qed.

Lemma lookup_init n p e i :
  (i < n)%nat -> init_free_items n p e !! i = Some (p + Z.of_nat i * e).
Proof.
  revert p i; induction n as [|n IH]; [lia|]. intros p [|i] Hi; simpl.
  - f_equal. lia.
  - rewrite IH by lia. f_equal. lia.
Qed.

Lemma elem_init n p e x :
  x ∈ init_free_items n p e <-> exists i, (i < n)%nat /\ x = p + Z.of_nat i * e.
Proof.
  rewrite list_elem_of_lookup. split.
  - intros [i Hi]. pose proof (lookup_lt_Some _ _ _ Hi) as Hl. rewrite length_init in Hl.
    rewrite lookup_init in Hi by done. exists i. split; [done|congruence].
  - intros (i & Hi & ->). exists i. by apply lookup_init.
Qed.

Lemma NoDup_init n p e : 0 < e -> NoDup (init_free_items n p e).
Proof.
  revert p; induction n as [|n IH]; simpl; intros p He; constructor; [|by apply IH].
  rewrite elem_init. intros (i & Hi & Heq). nia.
Qed.

Lemma size_items m : 0 < item_len m -> size (list_to_set (items m) : gset Z) = Z.to_nat (capacity m).
Proof.
  intros. unfold items. rewrite size_list_to_set by by apply NoDup_init. apply length_init.
Qed.

Lemma length_free_part m :
  length (free_part m) = (length (free_items m) - Z.to_nat (allocated m))%nat.
Proof. apply length_drop. Qed.

(** The stack pointer counts the blocks that are out. *)
Lemma pool_ok_size m own : pool_ok m own -> Z.of_nat (size own) = allocated m.
Proof.
  intros [Hl Hc Ha Hb Hi Hn Hd Hu].
  pose proof (size_items m Hi) as Hs. rewrite <- Hu in Hs.
  rewrite size_union in Hs by done.
  rewrite size_list_to_set in Hs by done.
  rewrite length_free_part, Hl in Hs. lia.
Qed.

Lemma null_not_item m own : pool_ok m own -> NULL ∉ (list_to_set (items m) : gset Z).
Proof.
  intros [Hl Hc Ha Hb Hi _ _ _]. rewrite elem_of_list_to_set. unfold items, NULL.
  rewrite elem_init. intros (i & ? & ?). nia.
Qed.

Lemma alloc_room m own :
  pool_ok m own -> allocated m < capacity m ->
  exists b m', mempool_alloc m = Ok (b, m')
    /\ b ∈ (list_to_set (items m) : gset Z) /\ b ∉ own
    /\ items m' = items m /\ capacity m' = capacity m
    /\ pool_ok m' ({[b]} ∪ own).
Proof.
  intros Hok Hlt. destruct Hok as [Hl Hc Ha Hb Hi Hn Hd Hu].
  destruct (lookup_lt_is_Some_2 (free_items m) (Z.to_nat (allocated m))) as [b Hbk]; [lia|].
  assert (Hfp : free_part m = b :: drop (Z.to_nat (u64 (allocated m + 1))) (free_items m)).
  { unfold free_part. rewrite (drop_S _ b) by done. f_equal. f_equal.
    rewrite u64_id by lia. lia. }
  rewrite Hfp in Hn, Hd, Hu. apply NoDup_cons in Hn as [Hnb Hn]. simpl in Hd, Hu.
  exists b, (set_stack m (free_items m) (u64 (allocated m + 1))). split_and!.
  - unfold mempool_alloc. rewrite (proj2 (Z.leb_gt _ _)) by lia.
    rewrite (proj2 (arr_get_Ok _ _ b)) by (split; [lia|done]). done.
  - rewrite <- Hu. set_solver.
  - set_solver.
  - done.
  - done.
  - split; simpl; try done; unfold free_part; simpl; try done.
    + rewrite u64_id by lia. lia.
    + assert (b ∉ (list_to_set (drop (Z.to_nat (u64 (allocated m + 1))) (free_items m)) : gset Z)).
      { by rewrite elem_of_list_to_set. } set_solver.
    + unfold items in *; simpl. rewrite <- Hu. set_solver.
Qed.

Lemma alloc_full m own :
  pool_ok m own -> allocated m = capacity m -> mempool_alloc m = Ok (NULL, m).
Proof. intros _ He. unfold mempool_alloc. by rewrite (proj2 (Z.leb_le _ _)) by lia. Qed.

Lemma free_owned m own b :
  pool_ok m own -> b ∈ own ->
  exists m', mempool_free m b = Ok m'
    /\ items m' = items m /\ capacity m' = capacity m
    /\ pool_ok m' (own ∖ {[b]}).
Proof.
  intros Hok Hin. pose proof (pool_ok_size _ _ Hok) as Hsz.
  destruct Hok as [Hl Hc Ha Hb Hi Hn Hd Hu].
  assert (Hpos : 0 < allocated m).
  { rewrite <- Hsz. enough (size own <> 0%nat) by lia.
    intros H0. apply size_empty_inv in H0. set_solver. }
  assert (Hu64 : u64 (allocated m - 1) = allocated m - 1) by (rewrite u64_id; lia).
  exists (set_stack m (<[Z.to_nat (allocated m - 1) := b]> (free_items m)) (allocated m - 1)).
  assert (Hfp : drop (Z.to_nat (allocated m - 1)) (<[Z.to_nat (allocated m - 1) := b]> (free_items m))
                = b :: free_part m).
  { rewrite (drop_S _ b) by (apply list_lookup_insert_eq; lia).
    f_equal. rewrite drop_insert_lt by lia. unfold free_part. f_equal. lia. }
  split_and!; [| done | done |].
  - unfold mempool_free. rewrite Hu64. rewrite arr_set_Ok by (rewrite Hl; lia). done.
  - split; simpl; try done; unfold free_part; simpl; rewrite ?Hfp.
    + by rewrite length_insert.
    + lia.
    + apply NoDup_cons. split; [|done].
      intros Hx. apply (Hd b); [done|]. by rewrite elem_of_list_to_set.
    + set_solver.
    + unfold items in *; simpl. rewrite <- Hu. simpl.
      apply leibniz_equiv. intros x. destruct (decide (x = b)); set_solver.
Qed.

(** ** The pool is an allocator *)

Lemma pool_ok_sub m own : pool_ok m own -> own ⊆ list_to_set (items m).
Proof. intros [_ _ _ _ _ _ _ Hu]. rewrite <- Hu. set_solver. Qed.

Lemma alloc_room_size m own :
  pool_ok m own -> (size own < size (list_to_set (items m) : gset Z))%nat ->
  exists b m', mempool_alloc m = Ok (b, m')
    /\ b ∈ (list_to_set (items m) : gset Z) /\ b ∉ own
    /\ (list_to_set (items m') : gset Z) = list_to_set (items m)
    /\ pool_ok m' ({[b]} ∪ own).
Proof.
  intros Hok Hsz. rewrite size_items in Hsz by apply Hok.
  pose proof (pool_ok_size _ _ Hok).
  destruct (alloc_room m own) as (b & m' & ? & ? & ? & Hi & _ & ?); [done|lia|].
  exists b, m'. by rewrite Hi.
Qed.

Lemma alloc_full_size m own :
  pool_ok m own -> size own = size (list_to_set (items m) : gset Z) ->
  mempool_alloc m = Ok (NULL, m).
Proof.
  intros Hok Hsz. rewrite size_items in Hsz by apply Hok.
  pose proof (pool_ok_size _ _ Hok). pose proof (po_alloc _ _ Hok).
  apply (alloc_full m own); [done|lia].
Qed.

Lemma free_owned_blocks m own b :
  pool_ok m own -> b ∈ own ->
  exists m', mempool_free m b = Ok m'
    /\ (list_to_set (items m') : gset Z) = list_to_set (items m)
    /\ pool_ok m' (own ∖ {[b]}).
Proof.
  intros Hok Hb. destruct (free_owned m own b) as (m' & ? & Hi & _ & ?); [done..|].
  exists m'. by rewrite Hi.
Qed.

End Mempool.

Import Mempool.

#[export] Instance mempool_allocator : Allocator mempool := {
  pool_alloc := mempool_alloc;
  pool_free := mempool_free
}.

#[export] Instance mempool_laws : AllocatorLaws mempool := {
  pool_blocks m := list_to_set (items m);
  pool_inv := pool_ok;
  pool_inv_sub := pool_ok_sub;
  pool_no_null := null_not_item;
  pool_alloc_room := alloc_room_size;
  pool_alloc_full := alloc_full_size;
  pool_free_owned := free_owned_blocks
}.

(** ** Creation *)

Lemma create_unfold (malloc1 malloc2 : Z -> Z) m n e :
  0 < n -> 0 < e -> n * e <= INT_MAX ->
  malloc1 (n * e) <> NULL -> malloc2 (n * 8) <> NULL -> n * 8 < 2 ^ 64 ->
  mempool_create malloc1 malloc2 (Some m) n e =
    Ok (0, Some (mk_mempool (init_free_items (Z.to_nat n) (malloc1 (n * e)) e) 0 n
                   (malloc1 (n * e)) (n * e) 0 e n 0), []).
Proof.
  intros Hn He Hp H1 H2 H8. unfold mempool_create.
  rewrite !(proj2 (Z.leb_gt _ _)) by lia. simpl.
  unfold int_result. rewrite decide_True by (unfold INT_MIN; nia). simpl.
  assert (Hu : u64 (n * e) = n * e) by (apply u64_id; unfold INT_MAX in *; nia).
  rewrite Hu, (proj2 (Z.eqb_neq _ _)) by done.
  rewrite Z.div_mul by lia. rewrite (u64_id (n * 8)) by lia.
  by rewrite (proj2 (Z.eqb_neq _ _)) by done.
Qed.

Lemma create_ok (malloc1 malloc2 : Z -> Z) (m : mempool) (n e : Z) :
  0 < n -> 0 < e -> n * e <= INT_MAX ->
  0 < malloc1 (n * e) -> malloc2 (n * 8) <> NULL ->
  exists m', mempool_create malloc1 malloc2 (Some m) n e = Ok (0, Some m', [])
    /\ pool_ok m' ∅ /\ capacity m' = n
    /\ (forall x, x ∈ items m' ->
          malloc1 (n * e) <= x /\ x + e <= malloc1 (n * e) + len m')
    /\ (forall i j x y, items m' !! i = Some x -> items m' !! j = Some y -> i <> j ->
          x + e <= y \/ y + e <= x).
Proof.
  intros Hn He Hp H1 H2. eexists. split_and!.
  - apply create_unfold; unfold NULL, INT_MAX in *; nia.
  - assert (Hnd : NoDup (init_free_items (Z.to_nat n) (malloc1 (n * e)) e)) by by apply NoDup_init.
    split; unfold free_part, items; simpl; rewrite ?drop_0; try done;
      first [by rewrite length_init|lia|set_solver|unfold INT_MAX in *; nia].
  - done.
  - intros x. unfold items; simpl. rewrite elem_init. intros (i & Hi & ->). nia.
  - intros i j x y. unfold items; simpl. intros Hx Hy Hij.
    pose proof (lookup_lt_Some _ _ _ Hx) as Hi. pose proof (lookup_lt_Some _ _ _ Hy) as Hj.
    rewrite length_init in Hi, Hj. rewrite lookup_init in Hx, Hy by done.
    simplify_eq. destruct (decide (i < j)%nat); [left|right]; nia.
Qed.

(** A successful [mempool_create] gives a pool of exactly [n] blocks with
    none handed out; every block lies inside the buffer that [malloc] returned
    and the blocks do not overlap. *)
Theorem mempool_create_ok (malloc1 malloc2 : Z -> Z) (m : mempool) (n e : Z) :
  0 < n -> 0 < e -> n * e <= INT_MAX ->
  0 < malloc1 (n * e) -> malloc2 (n * 8) <> NULL ->
  exists m', mempool_create malloc1 malloc2 (Some m) n e = Ok (0, Some m', [])
    /\ pool_ok m' ∅ /\ capacity m' = n
    /\ (forall x, x ∈ items m' ->
          malloc1 (n * e) <= x /\ x + e <= malloc1 (n * e) + len m')
    /\ (forall i j x y, items m' !! i = Some x -> items m' !! j = Some y -> i <> j ->
          x + e <= y \/ y + e <= x).
Proof. apply create_ok. Qed.

Lemma mempool_create_ok_witness :
  exists m', mempool_create (fun _ => 4096) (fun _ => 64) (Some mempool_zero) 3 16
             = Ok (0, Some m', [])
    /\ pool_ok m' ∅ /\ capacity m' = 3
    /\ (forall x, x ∈ items m' -> 4096 <= x /\ x + 16 <= 4096 + len m')
    /\ (forall i j x y, items m' !! i = Some x -> items m' !! j = Some y -> i <> j ->
          x + 16 <= y \/ y + 16 <= x).
Proof. apply (mempool_create_ok (fun _ => 4096) (fun _ => 64)); unfold INT_MAX, NULL; lia. Defined.

(** The failing branches of [mempool_create]: it answers [-1] for a null
    pool, for a non-positive count or size, and when either allocation fails
    (the buffer is released when the second one does); the only call without a
    meaning is one whose size overflows [int]. *)
Theorem mempool_create_cases (malloc1 malloc2 : Z -> Z) (m : mempool) (n e : Z) :
  mempool_create malloc1 malloc2 None n e = Ok (-1, None, [])
  /\ (n <= 0 \/ e <= 0 ->
      mempool_create malloc1 malloc2 (Some m) n e = Ok (-1, Some m, []))
  /\ (0 < n -> 0 < e -> n * e <= INT_MAX -> malloc1 (n * e) = NULL ->
      exists m', mempool_create malloc1 malloc2 (Some m) n e = Ok (-1, Some m', [])
        /\ free_items m' = free_items m /\ capacity m' = capacity m)
  /\ (0 < n -> 0 < e -> n * e <= INT_MAX -> malloc1 (n * e) <> NULL -> malloc2 (n * 8) = NULL ->
      exists m', mempool_create malloc1 malloc2 (Some m) n e
        = Ok (-1, Some m', [malloc1 (n * e)]))
  /\ (mempool_create malloc1 malloc2 (Some m) n e = UB <-> 0 < n /\ 0 < e /\ INT_MAX < n * e).
Proof.
  assert (Hsz : 0 < n -> 0 < e -> n * e <= INT_MAX ->
            int_result (n * e) = Ok (n * e) /\ u64 (n * e) = n * e
            /\ n * e / e = n /\ u64 (n * 8) = n * 8).
  { intros. split_and!; [| | |].
    - unfold int_result. apply decide_True. unfold INT_MIN; nia.
    - apply u64_id. unfold INT_MAX in *; nia.
    - apply Z.div_mul; lia.
    - apply u64_id. unfold INT_MAX in *; nia. }
  split_and!.
  - done.
  - intros Hne. unfold mempool_create. by destruct (Z.leb_spec n 0), (Z.leb_spec e 0); try lia.
  - intros Hn He Hp H1. destruct (Hsz Hn He Hp) as (Hi & Hu & _).
    unfold mempool_create. rewrite !(proj2 (Z.leb_gt _ _)), Hi by lia. simpl.
    rewrite Hu, H1. simpl. by eexists.
  - intros Hn He Hp H1 H2. destruct (Hsz Hn He Hp) as (Hi & Hu & Hd & H8).
    unfold mempool_create. rewrite !(proj2 (Z.leb_gt _ _)), Hi by lia. simpl.
    rewrite Hu, Hd, H8, H2, (proj2 (Z.eqb_neq _ _)) by done. simpl. by eexists.
  - unfold mempool_create. destruct (Z.leb_spec n 0), (Z.leb_spec e 0); simpl;
      try (split; [done|lia]).
    destruct (decide (n * e <= INT_MAX)) as [Hp|Hp].
    + destruct Hsz as (-> & _); [lia..|]. simpl.
      split; [|lia]. by repeat case_match.
    + unfold int_result. rewrite decide_False by lia. simpl. split; [lia|done].
Qed.

Lemma mempool_create_cases_witness :
  mempool_create (fun _ => 0) (fun _ => 0) None 3 16 = Ok (-1, None, [])
  /\ mempool_create (fun _ => 0) (fun _ => 0) (Some mempool_zero) (-1) 16
     = Ok (-1, Some mempool_zero, []).
Proof.
  split; [apply (mempool_create_cases (fun _ => 0) (fun _ => 0) mempool_zero 3 16)|].
  apply (mempool_create_cases (fun _ => 0) (fun _ => 0) mempool_zero (-1) 16). lia.
Defined.

(** ** Allocation and release in any order *)

(** One call of a client that only returns blocks it holds. *)
Inductive pool_step : mempool * gset Z -> mempool * gset Z -> Prop :=
| pool_step_alloc m own b m' :
    mempool_alloc m = Ok (b, m') ->
    pool_step (m, own) (m', if decide (b = NULL) then own else {[b]} ∪ own)
| pool_step_free m own b m' :
    b ∈ own -> mempool_free m b = Ok m' ->
    pool_step (m, own) (m', own ∖ {[b]}).

Lemma pool_step_ok s s' : pool_step s s' -> pool_ok s.1 s.2 -> pool_ok s'.1 s'.2.
Proof.
  intros [m own b m' Ha|m own b m' Hb Hf] Hok; simpl in *.
  - destruct (decide (allocated m < capacity m)) as [Hlt|Hge].
    + destruct (alloc_room m own) as (b1 & m1 & Ha1 & Hi & _ & _ & _ & Hok1); [done..|].
      ok_agree. case_decide; [|done]. subst. by destruct (null_not_item m own Hok).
    + pose proof (po_alloc _ _ Hok). rewrite (alloc_full m own) in Ha by (done || lia).
      simplify_eq. by rewrite decide_True.
  - destruct (free_owned m own b) as (m1 & Hf1 & _ & _ & Hok1); [done..|].
    by ok_agree.
Qed.

Lemma pool_reach_ok s s' : rtc pool_step s s' -> pool_ok s.1 s.2 -> pool_ok s'.1 s'.2.
Proof. induction 1; eauto using pool_step_ok. Qed.

(** C8. However allocations and releases are interleaved, starting from a fresh
    pool: the stack pointer counts the blocks that are out, neither call is
    ever undefined, an allocation answers null exactly when every block is
    out, and it never answers a block that somebody holds. *)
Theorem mempool_reachable_safe (m0 m : mempool) (own : gset Z) :
  pool_ok m0 ∅ -> rtc pool_step (m0, ∅) (m, own) ->
  pool_ok m own /\ allocated m = Z.of_nat (size own)
  /\ (exists b m', mempool_alloc m = Ok (b, m') /\ b ∉ own
      /\ (b = NULL <-> Z.of_nat (size own) = capacity m))
  /\ (forall b, b ∈ own -> is_Ok (mempool_free m b) = true).
Proof.
  intros H0 Hr. pose proof (pool_reach_ok _ _ Hr H0) as Hok. simpl in Hok.
  pose proof (pool_ok_size _ _ Hok) as Hsz. pose proof (po_alloc _ _ Hok) as Ha.
  pose proof (null_not_item _ _ Hok) as Hnull. pose proof (pool_ok_sub _ _ Hok) as Hsub.
  split_and!; [done|done| |].
  - destruct (decide (allocated m < capacity m)) as [Hlt|Hge].
    + destruct (alloc_room m own) as (b & m' & E & Hi & Hb & _); [done..|].
      exists b, m'. split_and!; [exact E|exact Hb|].
      split; [intros ->; by destruct (Hnull Hi)|lia].
    + exists NULL, m. rewrite (alloc_full m own) by (done || lia).
      split_and!; [done|set_solver|]. split; [lia|done].
  - intros b Hb. destruct (free_owned m own b) as (m' & -> & _); [done..|]. done.
Qed.

Lemma mempool_reachable_safe_witness :
  let m0 := mk_mempool [16; 24] 0 2 16 16 0 8 2 0 in
  let m1 := mk_mempool [16; 24] 1 2 16 16 0 8 2 0 in
  pool_ok m1 {[16]} /\ allocated m1 = Z.of_nat (size ({[16]} : gset Z))
  /\ (exists b m', mempool_alloc m1 = Ok (b, m') /\ b ∉ ({[16]} : gset Z)
      /\ (b = NULL <-> Z.of_nat (size ({[16]} : gset Z)) = capacity m1))
  /\ (forall b, b ∈ ({[16]} : gset Z) -> is_Ok (mempool_free m1 b) = true).
Proof.
  intros m0 m1. apply (mempool_reachable_safe m0).
  - split; try done; apply (bool_decide_unpack _); by vm_compute.
  - apply rtc_once. pose proof (pool_step_alloc m0 ∅ 16 m1 eq_refl) as Hs.
    rewrite decide_False in Hs by done. by rewrite (right_id_L ∅ (∪)) in Hs.
Defined.

(** The pool is a stack: the block returned last is the next one handed
    out, with the rest of the free list as it was; and returning a block to a
    pool that has none out writes outside of the array. *)
Theorem mempool_lifo (m : mempool) (own : gset Z) :
  pool_ok m own ->
  (forall b, b ∈ own -> exists m' m'',
     mempool_free m b = Ok m' /\ mempool_alloc m' = Ok (b, m'')
     /\ free_part m'' = free_part m /\ allocated m'' = allocated m)
  /\ (own = ∅ -> forall b, mempool_free m b = UB).
Proof.
  intros Hok. pose proof (pool_ok_size _ _ Hok) as Hsz.
  pose proof (po_alloc _ _ Hok) as Ha. pose proof (po_len _ _ Hok) as Hl.
  pose proof (po_cap _ _ Hok) as Hc. split.
  - intros b Hb.
    assert (Hpos : 0 < allocated m).
    { rewrite <- Hsz. enough (size own <> 0%nat) by lia.
      intros H0. apply size_empty_inv in H0. set_solver. }
    unfold mempool_free. rewrite (u64_id (allocated m - 1)) by lia.
    rewrite arr_set_Ok by (rewrite Hl; lia). simpl. eexists _, _. split; [done|].
    unfold mempool_alloc; simpl. rewrite (proj2 (Z.leb_gt _ _)) by lia.
    rewrite (proj2 (arr_get_Ok _ _ b)); cycle 1.
    { split; [lia|]. apply list_lookup_insert_eq. lia. }
    simpl. split; [done|]. rewrite u64_id by lia. unfold free_part; simpl.
    rewrite Z.sub_add. split; [|done]. apply drop_insert_lt. lia.
  - intros -> b. rewrite size_empty in Hsz. unfold mempool_free.
    rewrite arr_set_UB; [done|]. rewrite Hl, <- Hsz. word_lia.
Qed.

Lemma mempool_lifo_witness :
  exists m' m'', mempool_free (mk_mempool [16; 24] 1 2 16 16 0 8 2 0) 16 = Ok m'
    /\ mempool_alloc m' = Ok (16, m'')
    /\ free_part m'' = [24] /\ allocated m'' = 1.
Proof.
  apply (mempool_lifo (mk_mempool [16; 24] 1 2 16 16 0 8 2 0) {[16]}); [|set_solver].
  split; try done; apply (bool_decide_unpack _); by vm_compute.
Defined.
