(* ===== verification/TaskQueue.v ===== *)
(** * TaskQueue: the queue of tasks waiting for a worker

    Models the task queue of [src/include/psp/taskqueue.h]: singly linked nodes
    taken from a block pool, a head and a tail pointer.  Node memory is a map
    from addresses to nodes: an access to any other address is undefined.  The
    operations are generic in the pool ([Allocator]). *)
From S2P Require Import Prelude Interfaces Mempool.

Record task : Type := mk_task { info : task_info; next : Z }.

Definition set_info (x : task_info) (t : task) : task := mk_task x (next t).
Definition set_next (n : Z) (t : task) : task := mk_task (info t) n.

Record task_queue : Type := mk_queue { head : Z; tail : Z }.

(** Node memory and the pool the nodes come from ([task_mempool]). *)
Record tmem (P : Type) : Type := mk_tmem { tasks : gmap Z task; task_mempool : P }.
Arguments mk_tmem {P} _ _.
Arguments tasks {P} _.
Arguments task_mempool {P} _.

Section operations.
Context {P : Type} `{Allocator P}.

Definition get_task (m : tmem P) (p : Z) : outcome task :=
  match tasks m !! p with Some t => Ok t | None => UB end.

Definition upd_task (m : tmem P) (p : Z) (f : task -> task) : outcome (tmem P) :=
  match tasks m !! p with
  | Some t => Ok (mk_tmem (<[p := f t]> (tasks m)) (task_mempool m))
  | None => UB
  end.

(** [tskq_enqueue_head] writes through the allocation without a null check. *)
Definition tskq_enqueue_head (m : tmem P) (tq : task_queue) (x : task_info)
  : outcome (tmem P * task_queue) :=
  '(tsk, pool) ← pool_alloc (task_mempool m);
  m ← upd_task (mk_tmem (tasks m) pool) tsk (set_info x);
  if negb (head tq =? NULL) then
    let tmp := head tq in
    m ← upd_task m tsk (set_next tmp);
    Ok (m, mk_queue tsk (tail tq))
  else
    m ← upd_task m tsk (set_next NULL);
    Ok (m, mk_queue tsk tsk).

Definition tskq_enqueue_tail (m : tmem P) (tq : task_queue) (x : task_info)
  : outcome (tmem P * task_queue) :=
  '(tsk, pool) ← pool_alloc (task_mempool m);
  let m := mk_tmem (tasks m) pool in
  if tsk =? NULL then Ok (m, tq)
  else
    m ← upd_task m tsk (set_info x);
    if negb (head tq =? NULL) then
      m ← upd_task m (tail tq) (set_next tsk);
      let tq := mk_queue (head tq) tsk in
      m ← upd_task m tsk (set_next NULL);
      Ok (m, tq)
    else
      m ← upd_task m tsk (set_next NULL);
      Ok (m, mk_queue tsk tsk).

(** [tskq_dequeue]: [None] is the return value -1, [Some x] is 0 with the five
    output parameters set to [x]. *)
Definition tskq_dequeue (m : tmem P) (tq : task_queue)
  : outcome (tmem P * task_queue * option task_info) :=
  if head tq =? NULL then Ok (m, tq, None)
  else
    t ← get_task m (head tq);
    let tsk := head tq in
    let tq := mk_queue (next t) (tail tq) in
    pool ← pool_free (task_mempool m) tsk;
    let m := mk_tmem (tasks m) pool in
    if head tq =? NULL then Ok (m, mk_queue (head tq) NULL, Some (info t))
    else Ok (m, tq, Some (info t)).

Definition get_queue_timestamp (m : tmem P) (tq : task_queue) : outcome (option Z) :=
  if head tq =? NULL then Ok None
  else
    t ← get_task m (head tq);
    Ok (Some (ti_timestamp (info t))).

(** The loop of [naive_tskq_dequeue] over [tq[i]], [n] iterations left. *)
Fixpoint naive_loop (n : nat) (i : Z) (m : tmem P) (tq : list task_queue)
  : outcome (tmem P * list task_queue * option task_info) :=
  match n with
  | O => Ok (m, tq, None)
  | S n' =>
    q ← arr_get tq i;
    '(m, q, r) ← tskq_dequeue m q;
    tq ← arr_set tq i q;
    match r with
    | Some x => Ok (m, tq, Some x)
    | None => naive_loop n' (i + 1) m tq
    end
  end.

Definition naive_tskq_dequeue := naive_loop 1 0.

(** The scan of [smart_tskq_dequeue]: the index of the queue whose first task
    has waited longest, in thousands of cycles, or -1. *)
Fixpoint smart_loop (n : nat) (i index max cur_time : Z) (m : tmem P)
    (tq : list task_queue) : outcome Z :=
  match n with
  | O => Ok index
  | S n' =>
    q ← arr_get tq i;
    ret ← get_queue_timestamp m q;
    match ret with
    | None => smart_loop n' (i + 1) index max cur_time m tq
    | Some queue_stamp =>
      let diff := i64 (cur_time - queue_stamp) in
      let current := Z.quot diff 1000 in
      if max <? current then smart_loop n' (i + 1) i current cur_time m tq
      else smart_loop n' (i + 1) index max cur_time m tq
    end
  end.

Definition smart_tskq_dequeue (m : tmem P) (tq : list task_queue) (cur_time : Z)
  : outcome (tmem P * list task_queue * option task_info) :=
  index ← smart_loop 1 0 (-1) 0 cur_time m tq;
  if negb (index =? -1) then
    q ← arr_get tq index;
    '(m, q, r) ← tskq_dequeue m q;
    tq ← arr_set tq index q;
    Ok (m, tq, r)
  else Ok (m, tq, None).

End operations.

(** ** Representation *)

(** [lseg h p l]: from [p] a null-terminated chain through the addresses and
    contents of [l]. *)
Fixpoint lseg (h : gmap Z task) (p : Z) (l : list (Z * task_info)) : Prop :=
  match l with
  | [] => p = NULL
  | (a, x) :: l' => p = a /\ exists n, h !! a = Some (mk_task x n) /\ lseg h n l'
  end.

Definition last_addr (l : list (Z * task_info)) : Z :=
  match last l with Some (a, _) => a | None => NULL end.

Lemma lseg_insert_ne h p l a t : a ∉ l.*1 -> lseg h p l -> lseg (<[a := t]> h) p l.
Proof.
  revert p. induction l as [|[b x] l IH]; intros p Ha; simpl; [done|].
  intros (-> & n & Hb & Hl). split; [done|]. exists n. split.
  - rewrite lookup_insert_ne; [done|set_solver].
  - apply IH; [set_solver|done].
Qed.

Lemma last_addr_cons a x l : last_addr ((a, x) :: l) = if decide (l = []) then a else last_addr l.
Proof. unfold last_addr. by destruct l as [|y l]. Qed.

Lemma last_addr_app l a x : last_addr (l ++ [(a, x)]) = a.
Proof. unfold last_addr. by rewrite last_snoc. Qed.

Lemma last_addr_in l : l <> [] -> last_addr l ∈ l.*1.
Proof.
  intros Hl. destruct l as [|[b y] l _] using rev_ind; [done|].
  rewrite last_addr_app, fmap_app. set_solver.
Qed.

(** Linking a fresh node behind the last one appends it. *)
Lemma lseg_snoc h p l a x :
  l <> [] -> NoDup (l.*1) -> a ∉ l.*1 -> a <> NULL -> lseg h p l ->
  h !! a = Some (mk_task x NULL) ->
  exists t, h !! last_addr l = Some t
    /\ lseg (<[last_addr l := set_next a t]> h) p (l ++ [(a, x)]).
Proof.
  revert p. induction l as [|[b y] l IH]; [done|].
  intros p _ Hnd Ha Hnull (-> & n & Hb & Hl) Hx.
  apply NoDup_cons in Hnd as [Hbl Hnd]. rewrite last_addr_cons. case_decide as Hd.
  - subst l. exists (mk_task y n). split; [done|]. simpl. split; [done|].
    exists a. rewrite lookup_insert_eq. split; [done|]. split; [done|].
    exists NULL. rewrite lookup_insert_ne; [done|set_solver].
  - destruct (IH n) as (t & Ht & Hseg); [done|done|set_solver|done|done|done|].
    exists t. split; [done|]. simpl. split; [done|]. exists n. split; [|done].
    rewrite lookup_insert_ne; [done|]. intros <-. apply Hbl. by apply last_addr_in.
Qed.

Section representation.
Context {P : Type} `{AllocatorLaws P}.

(** The queue [tq] in memory [m] holds the nodes [l] (addresses and contents);
    they are exactly the blocks that are out of the pool. *)
Record tq_rep (m : tmem P) (tq : task_queue) (l : list (Z * task_info)) : Prop := {
  tr_seg : lseg (tasks m) (head tq) l;
  tr_nodup : NoDup (l.*1);
  tr_tail : tail tq = last_addr l;
  tr_pool : pool_inv (task_mempool m) (list_to_set (l.*1));
  tr_dom : dom (tasks m) = pool_blocks (task_mempool m)
}.

Lemma tq_rep_in (m : tmem P) tq l a : tq_rep m tq l -> a ∈ l.*1 -> a ∈ pool_blocks (task_mempool m).
Proof.
  intros [_ _ _ Hp _] Ha. eapply pool_inv_sub; [done|]. by apply elem_of_list_to_set.
Qed.

Lemma tq_rep_head (m : tmem P) tq l : tq_rep m tq l -> head tq = NULL <-> l = [].
Proof.
  intros Hr. destruct l as [|[a x] l].
  - split; [done|]. intros _. by destruct Hr as [Hseg _ _ _ _].
  - split; [|done]. intros Hn. exfalso.
    eapply (pool_no_null (task_mempool m)); [apply Hr|].
    rewrite <- Hn. replace (head tq) with a by (by destruct Hr as [[-> _] _ _ _ _]).
    eapply tq_rep_in; [done|]. set_solver.
Qed.

Lemma size_addrs (l : list (Z * task_info)) :
  NoDup (l.*1) -> size (list_to_set (l.*1) : gset Z) = length l.
Proof. intros. rewrite size_list_to_set by done. apply length_fmap. Qed.

Lemma upd_task_block (m : tmem P) p f :
  p ∈ dom (tasks m) -> exists t, tasks m !! p = Some t
    /\ upd_task m p f = Ok (mk_tmem (<[p := f t]> (tasks m)) (task_mempool m)).
Proof.
  intros Hp. apply elem_of_dom in Hp as [t Ht]. exists t. split; [done|].
  unfold upd_task. by rewrite Ht.
Qed.

Lemma tail_block (m : tmem P) tq l :
  tq_rep m tq l -> l <> [] -> tail tq ∈ pool_blocks (task_mempool m) /\ tail tq ∈ l.*1.
Proof.
  intros Hr Hl. assert (tail tq ∈ l.*1) by (rewrite (tr_tail _ _ _ Hr); by apply last_addr_in).
  split; [|done]. by eapply tq_rep_in.
Qed.

(** Taking a node from a pool that has one left and filling it. *)
Lemma alloc_node (m : tmem P) tq l x :
  tq_rep m tq l -> (length l < size (pool_blocks (task_mempool m)))%nat ->
  exists a pool n, pool_alloc (task_mempool m) = Ok (a, pool)
    /\ a <> NULL /\ a ∉ l.*1
    /\ pool_inv pool ({[a]} ∪ list_to_set (l.*1))
    /\ pool_blocks pool = pool_blocks (task_mempool m)
    /\ dom (<[a := mk_task x n]> (tasks m)) = pool_blocks (task_mempool m)
    /\ upd_task (mk_tmem (tasks m) pool) a (set_info x)
        = Ok (mk_tmem (<[a := mk_task x n]> (tasks m)) pool).
Proof.
  intros [Hseg Hnd Htl Hp Hdom] Hlen.
  destruct (pool_alloc_room _ _ Hp) as (a & pool & Ha & Hab & Hao & Hbl & Hpi);
    [by rewrite size_addrs|].
  destruct (upd_task_block (mk_tmem (tasks m) pool) a (set_info x)) as (t0 & _ & Hu);
    [simpl; by rewrite Hdom|].
  exists a, pool, (next t0). split_and!; try done.
  - intros ->. by apply (pool_no_null _ _ Hp).
  - intros ?. apply Hao. by apply elem_of_list_to_set.
  - rewrite dom_insert_L, Hdom. set_solver.
Qed.

Lemma upd_task_Some (m : tmem P) p t f :
  tasks m !! p = Some t ->
  upd_task m p f = Ok (mk_tmem (<[p := f t]> (tasks m)) (task_mempool m)).
Proof. intros Ht. unfold upd_task. by rewrite Ht. Qed.

Lemma upd_task_None (m : tmem P) p f : tasks m !! p = None -> upd_task m p f = UB.
Proof. intros Ht. unfold upd_task. by rewrite Ht. Qed.

Lemma upd_task_set_next (h : gmap Z task) (pool : P) a x n p :
  upd_task (mk_tmem (<[a := mk_task x n]> h) pool) a (set_next p)
  = Ok (mk_tmem (<[a := mk_task x p]> h) pool).
Proof. unfold upd_task. simpl. by rewrite lookup_insert_eq, insert_insert_eq. Qed.

(** Appending to an empty queue. *)
Lemma enqueue_tail_empty (m : tmem P) tq x :
  tq_rep m tq [] -> (0 < size (pool_blocks (task_mempool m)))%nat ->
  exists m' tq' a, tskq_enqueue_tail m tq x = Ok (m', tq')
    /\ tq_rep m' tq' [(a, x)]
    /\ pool_blocks (task_mempool m') = pool_blocks (task_mempool m).
Proof.
  intros Hr Hlen.
  destruct (alloc_node m tq [] x) as (a & pool & n & Ha & Hnull & _ & Hpi & Hbl & Hdom & Hu);
    [done..|].
  unfold tskq_enqueue_tail. rewrite Ha. simpl. rewrite (proj2 (Z.eqb_neq _ _)), Hu by done. simpl.
  rewrite (proj2 (tq_rep_head _ _ _ Hr)), upd_task_set_next by done. simpl.
  eexists _, _, a. split; [done|]. split; [|done]. split; simpl; [|apply NoDup_singleton|done|done|].
  - split; [done|]. exists NULL. by rewrite lookup_insert_eq.
  - rewrite Hbl, <- Hdom, !dom_insert_L. done.
Qed.

(** Appending to a queue that has a last node. *)
Lemma enqueue_tail_snoc (m : tmem P) tq l x :
  tq_rep m tq l -> l <> [] -> (length l < size (pool_blocks (task_mempool m)))%nat ->
  exists m' tq' a, tskq_enqueue_tail m tq x = Ok (m', tq')
    /\ tq_rep m' tq' (l ++ [(a, x)])
    /\ pool_blocks (task_mempool m') = pool_blocks (task_mempool m).
Proof.
  intros Hr Hl Hlen.
  destruct (alloc_node m tq l x) as (a & pool & n & Ha & Hnull & Hal & Hpi & Hbl & Hdom & Hu);
    [done..|].
  destruct (tail_block _ _ _ Hr Hl) as [Htb Htl].
  assert (Hne : tail tq <> a) by congruence.
  unfold tskq_enqueue_tail. rewrite Ha. simpl. rewrite (proj2 (Z.eqb_neq _ _)), Hu by done. simpl.
  rewrite (proj2 (Z.eqb_neq _ _)) by by rewrite (tq_rep_head _ _ _ Hr). simpl.
  destruct (lseg_snoc (<[a := mk_task x NULL]> (tasks m)) (head tq) l a x) as (t & Ht & Hs);
    [done|apply Hr|done|done|apply lseg_insert_ne; [done|apply Hr]|by rewrite lookup_insert_eq|].
  rewrite <- (tr_tail _ _ _ Hr) in Ht, Hs. rewrite lookup_insert_ne in Ht by done.
  rewrite (upd_task_Some _ (tail tq) t) by (simpl; by rewrite lookup_insert_ne). simpl.
  rewrite insert_insert_ne, upd_task_set_next by done. simpl.
  eexists _, _, a. split; [done|]. split; [|done]. split; simpl.
  - by rewrite insert_insert_ne.
  - rewrite fmap_app. apply NoDup_app. split; [apply Hr|]. split; [set_solver|apply NoDup_singleton].
  - by rewrite last_addr_app.
  - rewrite fmap_app, list_to_set_app_L. simpl. by rewrite (right_id_L ∅ (∪)), (comm_L (∪)).
  - rewrite Hbl, <- Hdom, !dom_insert_L, (tr_dom _ _ _ Hr). set_solver.
Qed.

Lemma enqueue_tail_room (m : tmem P) tq l x :
  tq_rep m tq l -> (length l < size (pool_blocks (task_mempool m)))%nat ->
  exists m' tq' a, tskq_enqueue_tail m tq x = Ok (m', tq')
    /\ tq_rep m' tq' (l ++ [(a, x)])
    /\ pool_blocks (task_mempool m') = pool_blocks (task_mempool m).
Proof.
  intros Hr Hlen. destruct (decide (l = [])) as [->|Hl].
  - by apply enqueue_tail_empty.
  - by apply enqueue_tail_snoc.
Qed.

(** A full pool: the task is dropped without an error. *)
Lemma enqueue_tail_full (m : tmem P) tq l x :
  tq_rep m tq l -> length l = size (pool_blocks (task_mempool m)) ->
  tskq_enqueue_tail m tq x = Ok (m, tq).
Proof.
  intros Hr Hlen. unfold tskq_enqueue_tail.
  rewrite (pool_alloc_full _ _ (tr_pool _ _ _ Hr)); [by destruct m|].
  rewrite size_addrs; [done|apply Hr].
Qed.

(** Inserting at the head. *)
Lemma enqueue_head_room (m : tmem P) tq l x :
  tq_rep m tq l -> (length l < size (pool_blocks (task_mempool m)))%nat ->
  exists m' tq' a, tskq_enqueue_head m tq x = Ok (m', tq')
    /\ tq_rep m' tq' ((a, x) :: l)
    /\ pool_blocks (task_mempool m') = pool_blocks (task_mempool m).
Proof.
  intros Hr Hlen.
  destruct (alloc_node m tq l x) as (a & pool & n & Ha & Hnull & Hal & Hpi & Hbl & Hdom & Hu);
    [done..|].
  unfold tskq_enqueue_head. rewrite Ha. simpl. rewrite Hu. simpl.
  exists (mk_tmem (<[a := mk_task x (head tq)]> (tasks m)) pool),
    (mk_queue a (if decide (l = []) then a else tail tq)), a. split_and!; [| |done].
  - case_decide as Hl.
    + subst l. rewrite (proj2 (tq_rep_head _ _ _ Hr)) by done. simpl.
      by rewrite upd_task_set_next.
    + rewrite (proj2 (Z.eqb_neq _ _)) by by rewrite (tq_rep_head _ _ _ Hr). simpl.
      by rewrite upd_task_set_next.
  - split; simpl.
    + split; [done|]. exists (head tq). rewrite lookup_insert_eq. split; [done|].
      apply lseg_insert_ne; [done|apply Hr].
    + apply NoDup_cons. split; [done|apply Hr].
    + rewrite last_addr_cons. case_decide; [done|apply Hr].
    + done.
    + rewrite Hbl, <- Hdom, !dom_insert_L. done.
Qed.

Lemma dequeue_nil (m : tmem P) tq : tq_rep m tq [] -> tskq_dequeue m tq = Ok (m, tq, None).
Proof.
  intros Hr. unfold tskq_dequeue. by rewrite (proj2 (tq_rep_head _ _ _ Hr)) by done.
Qed.

Lemma lseg_null_iff (h : gmap Z task) p l : NULL ∉ l.*1 -> lseg h p l -> p = NULL <-> l = [].
Proof. destruct l as [|[a y] l]; simpl; [done|]. intros Hn (-> & _). set_solver. Qed.

Lemma dequeue_cons (m : tmem P) tq a x l :
  tq_rep m tq ((a, x) :: l) ->
  exists m' tq', tskq_dequeue m tq = Ok (m', tq', Some x)
    /\ tq_rep m' tq' l
    /\ pool_blocks (task_mempool m') = pool_blocks (task_mempool m).
Proof.
  intros Hr. pose proof (tq_rep_head _ _ _ Hr) as Hhd.
  pose proof (pool_no_null _ _ (tr_pool _ _ _ Hr)) as Hnn.
  pose proof (fun b => tq_rep_in _ _ _ b Hr) as Hin. csimpl in Hin.
  destruct Hr as [(Hh & n & Ha & Hseg) Hnd Htl Hp Hdom]. csimpl in *.
  apply NoDup_cons in Hnd as [Hal Hnd].
  destruct (pool_free_owned _ _ a Hp) as (pool & Hf & Hbl & Hpi); [set_solver|].
  assert (Hset : ({[a]} ∪ list_to_set l.*1) ∖ {[a]} = (list_to_set l.*1 : gset Z)).
  { assert (a ∉ (list_to_set l.*1 : gset Z)) by by rewrite elem_of_list_to_set. set_solver. }
  rewrite Hset in Hpi.
  assert (Hn : n = NULL <-> l = []).
  { apply (lseg_null_iff (tasks m)); [|done]. intros ?. apply Hnn, Hin. set_solver. }
  unfold tskq_dequeue. rewrite (proj2 (Z.eqb_neq _ _)) by by rewrite Hhd.
  unfold get_task. rewrite Hh, Ha. simpl. rewrite Hf. simpl.
  exists (mk_tmem (tasks m) pool), (mk_queue n (last_addr l)). split_and!; [| |done].
  - rewrite last_addr_cons in Htl. destruct (Z.eqb_spec n NULL) as [E|E].
    + rewrite (proj1 Hn E). done.
    + rewrite Htl, decide_False by (by rewrite <- Hn). done.
  - split; simpl; [done|done|done|done|by rewrite Hbl].
Qed.

End representation.

(** ** The queue implements the interface *)

#[export] Instance task_queue_ops {P} `{Allocator P} : TaskQueueOps (tmem P * task_queue) := {
  tq_enqueue_tail q x := tskq_enqueue_tail q.1 q.2 x;
  tq_dequeue q := '(m, tq, r) ← tskq_dequeue q.1 q.2; Ok ((m, tq), r)
}.

Section instance.
Context {P : Type} `{AllocatorLaws P}.

Definition tq_contents (q : tmem P * task_queue) (l : list task_info) : Prop :=
  exists l', tq_rep q.1 q.2 l' /\ l'.*2 = l.

Definition tq_capacity (q : tmem P * task_queue) : nat :=
  size (pool_blocks (task_mempool q.1)).

Lemma tq_contents_cap q l : tq_contents q l -> (length l <= tq_capacity q)%nat.
Proof.
  intros (l' & Hr & <-). rewrite length_fmap, <- size_addrs by apply Hr.
  unfold tq_capacity. apply subseteq_size. by apply pool_inv_sub, Hr.
Qed.

Lemma tq_contents_enq q l x :
  tq_contents q l -> (length l < tq_capacity q)%nat ->
  exists q', tskq_enqueue_tail q.1 q.2 x = Ok q'
    /\ tq_capacity q' = tq_capacity q /\ tq_contents q' (l ++ [x]).
Proof.
  intros (l' & Hr & <-) Hlen. rewrite length_fmap in Hlen.
  destruct (enqueue_tail_room _ _ _ x Hr) as (m' & tq' & a & E & Hr' & Hb); [done|].
  exists (m', tq'). split_and!; [done|unfold tq_capacity; simpl; by rewrite Hb|].
  exists (l' ++ [(a, x)]). by rewrite fmap_app.
Qed.

Lemma tq_contents_full q l x :
  tq_contents q l -> length l = tq_capacity q ->
  tskq_enqueue_tail q.1 q.2 x = Ok q.
Proof.
  intros (l' & Hr & <-) Hlen. rewrite length_fmap in Hlen.
  rewrite (enqueue_tail_full _ _ _ _ Hr); [by destruct q|done].
Qed.

Lemma tq_contents_head q l x :
  tq_contents q l -> (length l < tq_capacity q)%nat ->
  exists q', tskq_enqueue_head q.1 q.2 x = Ok q'
    /\ tq_capacity q' = tq_capacity q /\ tq_contents q' (x :: l).
Proof.
  intros (l' & Hr & <-) Hlen. rewrite length_fmap in Hlen.
  destruct (enqueue_head_room _ _ _ x Hr) as (m' & tq' & a & E & Hr' & Hb); [done|].
  exists (m', tq'). split_and!; [done|unfold tq_capacity; simpl; by rewrite Hb|].
  by exists ((a, x) :: l').
Qed.

Lemma tq_contents_head_full q l x :
  tq_contents q l -> length l = tq_capacity q -> tskq_enqueue_head q.1 q.2 x = UB.
Proof.
  intros (l' & Hr & <-) Hlen. rewrite length_fmap in Hlen. unfold tskq_enqueue_head.
  rewrite (pool_alloc_full _ _ (tr_pool _ _ _ Hr)) by (rewrite size_addrs; [done|apply Hr]).
  assert (E : tasks q.1 !! NULL = None).
  { apply not_elem_of_dom. rewrite (tr_dom _ _ _ Hr). eapply pool_no_null, Hr. }
  simpl. by rewrite upd_task_None.
Qed.

Lemma tq_contents_cons q x l :
  tq_contents q (x :: l) ->
  exists m tq, tskq_dequeue q.1 q.2 = Ok (m, tq, Some x)
    /\ tq_capacity (m, tq) = tq_capacity q /\ tq_contents (m, tq) l.
Proof.
  intros (l' & Hr & E). destruct l' as [|[a y] l']; [done|]. injection E as -> <-.
  destruct (dequeue_cons _ _ _ _ _ Hr) as (m' & tq' & E' & Hr' & Hb).
  exists m', tq'. split_and!; [done|unfold tq_capacity; simpl; by rewrite Hb|by exists l'].
Qed.

Lemma tq_contents_nil q : tq_contents q [] -> tskq_dequeue q.1 q.2 = Ok (q, None).
Proof.
  intros (l' & Hr & E). destruct l' as [|? l']; [|done]. rewrite dequeue_nil by done. by destruct q.
Qed.

#[export] Instance task_queue_laws : TaskQueueLaws (tmem P * task_queue).
Proof.
  refine {| tq_cap := tq_capacity; tq_model := tq_contents |}.
  - exact tq_contents_cap.
  - exact tq_contents_enq.
  - intros q l x Hq Hl. exists q. by rewrite <- (tq_contents_full q l x).
  - intros q x l Hq. destruct (tq_contents_cons _ _ _ Hq) as (m & tq & E & ? & ?).
    exists (m, tq). simpl. rewrite E. done.
  - intros q Hq. simpl. rewrite tq_contents_nil by done. by destruct q.
Defined.

Lemma queue_timestamp_nil q : tq_contents q [] -> get_queue_timestamp q.1 q.2 = Ok None.
Proof.
  intros (l' & Hr & E). destruct l'; [|done]. unfold get_queue_timestamp.
  by rewrite (proj2 (tq_rep_head _ _ _ Hr) eq_refl).
Qed.

Lemma queue_timestamp_cons q x l :
  tq_contents q (x :: l) -> get_queue_timestamp q.1 q.2 = Ok (Some (ti_timestamp x)).
Proof.
  intros (l' & Hr & E). destruct l' as [|[a y] l']; [done|]. injection E as -> <-.
  unfold get_queue_timestamp. destruct (Z.eqb_spec (head q.2) NULL) as [Hn|Hn].
  - by apply (tq_rep_head _ _ _ Hr) in Hn.
  - unfold get_task. destruct (tr_seg _ _ _ Hr) as (-> & n & -> & _). done.
Qed.

(** ** Refinement: the queue is a bounded list *)

Inductive qop : Type :=
| QTail (x : task_info)
| QHead (x : task_info)
| QDequeue.

(** The specification: a list of at most [cap] tasks.  Appending to a full
    queue loses the task, inserting at the head of a full queue is undefined. *)
Definition spec_step (cap : nat) (l : list task_info) (o : qop)
  : outcome (list task_info * option task_info) :=
  match o with
  | QTail x => Ok (if decide (length l < cap)%nat then l ++ [x] else l, None)
  | QHead x => if decide (length l < cap)%nat then Ok (x :: l, None) else UB
  | QDequeue => match l with [] => Ok ([], None) | x :: l => Ok (l, Some x) end
  end.

Definition impl_step (q : tmem P * task_queue) (o : qop)
  : outcome (tmem P * task_queue * option task_info) :=
  match o with
  | QTail x => q ← tskq_enqueue_tail q.1 q.2 x; Ok (q, None)
  | QHead x => q ← tskq_enqueue_head q.1 q.2 x; Ok (q, None)
  | QDequeue => tskq_dequeue q.1 q.2
  end.

Fixpoint run {S O : Type} (step : S -> O -> outcome (S * option task_info))
    (s : S) (os : list O) : outcome (S * list (option task_info)) :=
  match os with
  | [] => Ok (s, [])
  | o :: os => '(s, r) ← step s o; '(s, rs) ← run step s os; Ok (s, r :: rs)
  end.

Lemma impl_step_sim q l o :
  tq_contents q l ->
  match spec_step (tq_capacity q) l o with
  | Ok (l', r) => exists q', impl_step q o = Ok (q', r)
      /\ tq_capacity q' = tq_capacity q /\ tq_contents q' l'
  | Panic _ => False
  | UB => impl_step q o = UB
  end.
Proof.
  intros Hq. pose proof (tq_contents_cap _ _ Hq) as Hcap. destruct o as [x|x|]; simpl.
  - case_decide as Hl.
    + destruct (tq_contents_enq _ _ x Hq Hl) as (q' & -> & ? & ?). by exists q'.
    + rewrite (tq_contents_full _ l) by (done || lia). by exists q.
  - case_decide as Hl.
    + destruct (tq_contents_head _ _ x Hq Hl) as (q' & -> & ? & ?). by exists q'.
    + by rewrite (tq_contents_head_full _ l) by (done || lia).
  - destruct l as [|x l].
    + rewrite tq_contents_nil by done. by exists q.
    + destruct (tq_contents_cons _ _ _ Hq) as (m & tq & E & ? & ?). by exists (m, tq).
Qed.

End instance.

Lemma run_app {S O} (step : S -> O -> outcome (S * option task_info)) s os1 os2 s1 rs1 :
  run step s os1 = Ok (s1, rs1) ->
  run step s (os1 ++ os2) = ('(s2, rs2) ← run step s1 os2; Ok (s2, rs1 ++ rs2)).
Proof.
  revert s rs1. induction os1 as [|o os1 IH]; intros s rs1; simpl.
  - intros [= <- <-]. by destruct (run step s os2) as [[? ?]| |].
  - destruct (step s o) as [[s' r]| |]; simpl; [|done|done].
    destruct (run step s' os1) as [[s1' rs]| |] eqn:E; simpl; [|done|done].
    intros [= <- <-]. rewrite (IH _ _ E). by destruct (run step s1' os2) as [[? ?]| |].
Qed.

Lemma spec_enqueue_all cap l xs :
  (length l + length xs <= cap)%nat ->
  run (spec_step cap) l (QTail <$> xs) = Ok (l ++ xs, replicate (length xs) None).
Proof.
  revert l. induction xs as [|x xs IH]; intros l Hl; simpl; [by rewrite app_nil_r|].
  simpl in Hl. rewrite decide_True by lia. rewrite IH; [|rewrite length_app; simpl; lia].
  simpl. by rewrite <- app_assoc.
Qed.

Lemma spec_dequeue_all cap xs :
  run (spec_step cap) xs (replicate (length xs) QDequeue) = Ok ([], Some <$> xs).
Proof. induction xs as [|x xs IH]; simpl; [done|]. by rewrite IH. Qed.

(** A small queue over a pool of two nodes, for the examples. *)
Definition example_pool : Mempool.mempool := Mempool.mk_mempool [16; 24] 0 2 16 16 0 8 2 0.

Definition example_mem : tmem Mempool.mempool :=
  mk_tmem (<[16 := mk_task (mk_info 0 0 0 0 0) 0]>
          (<[24 := mk_task (mk_info 0 0 0 0 0) 0]> ∅)) example_pool.

Definition example_queue : tmem Mempool.mempool * task_queue := (example_mem, mk_queue NULL NULL).

Definition example_task (n : Z) : task_info := mk_info n (n + 100) 1 1 5.

Lemma example_queue_empty : tq_contents example_queue [].
Proof.
  exists []. split; [|done]. split; simpl; try done.
  - constructor.
  - split; try done; apply (bool_decide_unpack _); by vm_compute.
Qed.

Lemma example_queue_cap : tq_capacity example_queue = 2%nat.
Proof. by vm_compute. Qed.

Lemma impl_run_sim {P} `{AllocatorLaws P} (q : tmem P * task_queue) l os :
  tq_contents q l ->
  match run (spec_step (tq_capacity q)) l os with
  | Ok (l', rs) => exists q', run impl_step q os = Ok (q', rs) /\ tq_contents q' l'
  | Panic _ => False
  | UB => run impl_step q os = UB
  end.
Proof.
  revert q l. induction os as [|o os IH]; intros q l Hq; simpl; [by exists q|].
  pose proof (impl_step_sim q l o Hq) as Hs.
  destruct (spec_step (tq_capacity q) l o) as [[l1 r]| |]; [|done|by rewrite Hs].
  destruct Hs as (q1 & -> & Hc & Hq1). simpl. rewrite <- Hc.
  specialize (IH q1 l1 Hq1).
  destruct (run (spec_step (tq_capacity q1)) l1 os) as [[l2 rs]| |]; simpl; [|done|].
  - destruct IH as (q2 & -> & Hq2). by exists q2.
  - by rewrite IH.
Qed.

(** C6. The linked queue refines a bounded list: any sequence of operations,
    from any queue that represents a list, behaves as the same operations on
    that list do - the same results, undefined exactly when the specification
    is - and the queue it leaves represents the list the specification leaves. *)
Theorem tskq_refines_list {P} `{AllocatorLaws P} (q : tmem P * task_queue) l os :
  tq_contents q l ->
  match run (spec_step (tq_capacity q)) l os with
  | Ok (l', rs) => exists q', run impl_step q os = Ok (q', rs) /\ tq_contents q' l'
  | Panic _ => False
  | UB => run impl_step q os = UB
  end.
Proof. apply impl_run_sim. Qed.

Lemma tskq_refines_list_witness :
  exists q', run impl_step example_queue
      [QTail (example_task 1); QTail (example_task 2); QTail (example_task 3);
       QDequeue; QDequeue; QDequeue]
    = Ok (q', [None; None; None; Some (example_task 1); Some (example_task 2); None])
    /\ tq_contents q' [].
Proof.
  pose proof (tskq_refines_list example_queue []
    [QTail (example_task 1); QTail (example_task 2); QTail (example_task 3);
     QDequeue; QDequeue; QDequeue] example_queue_empty) as H.
  rewrite example_queue_cap in H. exact H.
Defined.

(** First in, first out: as many tasks as the pool has nodes can be
    enqueued on an empty queue, and dequeuing then delivers exactly those
    tasks in the order they came, with every node back in the pool. *)
Theorem tskq_fifo {P} `{AllocatorLaws P} (q : tmem P * task_queue) xs :
  tq_contents q [] -> (length xs <= tq_capacity q)%nat ->
  exists q', run impl_step q ((QTail <$> xs) ++ replicate (length xs) QDequeue)
      = Ok (q', replicate (length xs) None ++ (Some <$> xs))
    /\ tq_contents q' [].
Proof.
  intros Hq Hlen.
  pose proof (impl_run_sim q [] ((QTail <$> xs) ++ replicate (length xs) QDequeue) Hq) as Hsim.
  rewrite (run_app _ _ _ _ xs (replicate (length xs) None)) in Hsim
    by (by rewrite spec_enqueue_all).
  by rewrite spec_dequeue_all in Hsim.
Qed.

Lemma tskq_fifo_witness :
  exists q', run impl_step example_queue
      [QTail (example_task 7); QTail (example_task 8); QDequeue; QDequeue]
    = Ok (q', [None; None; Some (example_task 7); Some (example_task 8)])
    /\ tq_contents q' [].
Proof.
  apply (tskq_fifo example_queue [example_task 7; example_task 8]).
  - apply example_queue_empty.
  - rewrite example_queue_cap. simpl. lia.
Defined.

(** The scheduling policies over the single queue: the naive policy takes
    the oldest task; the smart policy takes it only once it has waited a
    thousand cycles, and leaves the queue untouched before.  On an empty
    queue both report that there is nothing to do. *)
Theorem tskq_policies {P} `{AllocatorLaws P} (q : tmem P * task_queue) l now :
  tq_contents q l -> 0 <= now < 2 ^ 63 ->
  Forall (fun x => 0 <= ti_timestamp x < 2 ^ 63) l ->
  match l with
  | [] => naive_tskq_dequeue q.1 [q.2] = Ok (q.1, [q.2], None)
      /\ smart_tskq_dequeue q.1 [q.2] now = Ok (q.1, [q.2], None)
  | x :: l' => exists m tq,
      naive_tskq_dequeue q.1 [q.2] = Ok (m, [tq], Some x)
      /\ tq_contents (m, tq) l'
      /\ smart_tskq_dequeue q.1 [q.2] now =
           (if 1000 <=? now - ti_timestamp x then Ok (m, [tq], Some x)
            else Ok (q.1, [q.2], None))
  end.
Proof.
  intros Hq Hnow Hts. unfold naive_tskq_dequeue, smart_tskq_dequeue. simpl.
  destruct l as [|x l'].
  - rewrite tq_contents_nil by done. rewrite (queue_timestamp_nil q) by done.
    simpl. by destruct q.
  - destruct (tq_contents_cons _ _ _ Hq) as (m & tq & E & _ & Hq').
    exists m, tq. rewrite E. apply Forall_cons in Hts as [Hx _].
    rewrite (queue_timestamp_cons _ _ _ Hq). simpl.
    rewrite i64_id by lia. split_and!; [done|done|].
    destruct (1000 <=? now - ti_timestamp x) eqn:Ht.
    + apply Z.leb_le in Ht. rewrite (proj2 (Z.ltb_lt _ _)); [simpl; by rewrite E|].
      assert (1 <= (now - ti_timestamp x) ÷ 1000); [|lia].
      apply Z.quot_le_lower_bound; lia.
    + apply Z.leb_gt in Ht. rewrite (proj2 (Z.ltb_ge _ _)); [done|].
      destruct (decide (0 <= now - ti_timestamp x)).
      * rewrite Z.quot_small by lia. lia.
      * pose proof (Z.quot_pos (- (now - ti_timestamp x)) 1000).
        rewrite Z.quot_opp_l in *; lia.
Qed.

Lemma tskq_policies_witness :
  exists q, tq_contents q [example_task 1] /\ exists m tq,
    naive_tskq_dequeue q.1 [q.2] = Ok (m, [tq], Some (example_task 1))
    /\ tq_contents (m, tq) []
    /\ smart_tskq_dequeue q.1 [q.2] 900 = Ok (q.1, [q.2], None).
Proof.
  destruct (tq_contents_enq example_queue [] (example_task 1)) as (q & _ & _ & Hq).
  - apply example_queue_empty.
  - rewrite example_queue_cap. simpl. lia.
  - exists q. split; [exact Hq|].
    apply (tskq_policies q [example_task 1] 900 Hq); [lia|].
    repeat constructor; simpl; lia.
Defined.
