(* ===== verification/Context.v ===== *)
(** * Context: execution contexts, their stacks, and the pools at start-up

    Models [context_alloc], [context_free], [set_context_link] and
    [taskqueue_init] of [src/include/psp/taskqueue.h].  A context is a block of
    [context_pool] with a block of [stack_pool] as its stack.  Of [ucontext_t]
    the fields the code reads or writes are kept; stack memory is a map from
    word addresses to words, an access outside of it is undefined. *)
From S2P Require Import Prelude Interfaces Mempool.

(** The fields of [ucontext_t] that the code uses. *)
Record ucontext : Type := mk_uctx { ss_sp : Z; ss_size : Z; uc_link : Z }.

Definition STACK_SIZE : Z := 2048.
Definition TASK_CAPACITY : Z := 768 * 1024.
Definition MCELL_CAPACITY : Z := 768 * 1024.
Definition STACK_CAPACITY : Z := 768 * 1024.

(** The size of a pointer. *)
Definition sizeof_ptr : Z := 8.

Record cmem (P : Type) : Type := mk_cmem {
  ctxs : gmap Z ucontext;
  stack_words : gmap Z Z;
  context_pool : P;
  stack_pool : P
}.
Arguments mk_cmem {P} _ _ _ _.
Arguments ctxs {P} _.
Arguments stack_words {P} _.
Arguments context_pool {P} _.
Arguments stack_pool {P} _.

(** The slot [set_context_link] writes: pointer arithmetic on [uintptr_t *]
    scales [ss_size] by eight. *)
Definition link_slot (sp size : Z) : Z :=
  let sp := u64 (sp + size * 8) in
  let sp := u64 (sp - 8) in
  let sp := u64 (Z.land sp (-16) - 8) in
  u64 (sp + 8).

Section operations.
Context {P : Type} `{Allocator P}.

Definition get_ctx (m : cmem P) (c : Z) : outcome ucontext :=
  match ctxs m !! c with Some u => Ok u | None => UB end.

Definition put_ctx (m : cmem P) (c : Z) (u : ucontext) : outcome (cmem P) :=
  match ctxs m !! c with
  | Some _ => Ok (mk_cmem (<[c := u]> (ctxs m)) (stack_words m) (context_pool m) (stack_pool m))
  | None => UB
  end.

Definition put_word (m : cmem P) (a v : Z) : outcome (cmem P) :=
  match stack_words m !! a with
  | Some _ => Ok (mk_cmem (ctxs m) (<[a := v]> (stack_words m)) (context_pool m) (stack_pool m))
  | None => UB
  end.

(** [context_alloc]: [None] is the return value -1, [Some c] is 0 with [*cont]
    set to [c]. *)
Definition context_alloc (m : cmem P) : outcome (cmem P * option Z) :=
  '(cont, cp) ← pool_alloc (context_pool m);
  let m := mk_cmem (ctxs m) (stack_words m) cp (stack_pool m) in
  if cont =? NULL then Ok (m, None)
  else
    '(stack, sp) ← pool_alloc (stack_pool m);
    let m := mk_cmem (ctxs m) (stack_words m) (context_pool m) sp in
    if stack =? NULL then
      cp ← pool_free (context_pool m) cont;
      Ok (mk_cmem (ctxs m) (stack_words m) cp (stack_pool m), None)
    else
      u ← get_ctx m cont;
      m ← put_ctx m cont (mk_uctx stack sizeof_ptr (uc_link u));
      Ok (m, Some cont).

Definition context_free (m : cmem P) (c : Z) : outcome (cmem P) :=
  u ← get_ctx m c;
  sp ← pool_free (stack_pool m) (ss_sp u);
  cp ← pool_free (context_pool m) c;
  Ok (mk_cmem (ctxs m) (stack_words m) cp sp).

Definition set_context_link (m : cmem P) (c link : Z) : outcome (cmem P) :=
  u ← get_ctx m c;
  m ← put_ctx m c (mk_uctx (ss_sp u) (ss_size u) link);
  put_word m (link_slot (ss_sp u) (ss_size u)) link.

End operations.

(** ** Start-up: the four pools *)

Record pools : Type := mk_pools {
  task_mempool : Mempool.mempool;
  mcell_mempool : Mempool.mempool;
  p_context_pool : Mempool.mempool;
  p_stack_pool : Mempool.mempool
}.

(** [sizeof] of the two structures of the repository; that of [ucontext_t]
    belongs to the C library and is an argument. *)
Definition sizeof_task : Z := 40.
Definition sizeof_mbuf_cell : Z := 16.

Section startup.
(** [malloc k n]: what the [k]-th call of [malloc], for [n] bytes, returns. *)
Variable malloc : nat -> Z -> Z.
Variable sizeof_ucontext : Z.

(** A pool argument is never null here; [k] counts the earlier allocations. *)
Definition create_pool (k : nat) (p : Mempool.mempool) (n siz : Z)
  : outcome (Z * Mempool.mempool) :=
  '(ret, p', _) ← Mempool.mempool_create (malloc k) (malloc (S k)) (Some p) n siz;
  match p' with Some p' => Ok (ret, p') | None => UB end.

Definition task_init_mempool (g : pools) : outcome (Z * pools) :=
  '(ret, p) ← create_pool 0 (task_mempool g) TASK_CAPACITY sizeof_task;
  Ok (ret, mk_pools p (mcell_mempool g) (p_context_pool g) (p_stack_pool g)).

Definition mcell_init_mempool (g : pools) : outcome (Z * pools) :=
  '(ret, p) ← create_pool 2 (mcell_mempool g) MCELL_CAPACITY sizeof_mbuf_cell;
  Ok (ret, mk_pools (task_mempool g) p (p_context_pool g) (p_stack_pool g)).

Definition context_init_mempool (g : pools) : outcome (Z * pools) :=
  '(ret, p) ← create_pool 4 (p_context_pool g) TASK_CAPACITY sizeof_ucontext;
  Ok (ret, mk_pools (task_mempool g) (mcell_mempool g) p (p_stack_pool g)).

Definition stack_init_mempool (g : pools) : outcome (Z * pools) :=
  '(ret, p) ← create_pool 6 (p_stack_pool g) STACK_CAPACITY STACK_SIZE;
  Ok (ret, mk_pools (task_mempool g) (mcell_mempool g) (p_context_pool g) p).

Definition taskqueue_init (g : pools) : outcome (Z * pools) :=
  '(ret, g) ← task_init_mempool g;
  if negb (ret =? 0) then Ok (ret, g)
  else
    '(ret, g) ← mcell_init_mempool g;
    if negb (ret =? 0) then Ok (ret, g)
    else
      '(ret, g) ← context_init_mempool g;
      if negb (ret =? 0) then Ok (ret, g)
      else
        '(ret, g) ← stack_init_mempool g;
        if negb (ret =? 0) then Ok (ret, g)
        else Ok (0, g).

End startup.

(** ** Representation *)

Section representation.
Context {P : Type} `{AllocatorLaws P}.

(** The stacks of the contexts of [live]. *)
Definition stacks_of (m : cmem P) (live : gset Z) : gset Z :=
  set_omap (fun c => ss_sp <$> ctxs m !! c) live.

Record ctx_rep (m : cmem P) (live : gset Z) : Prop := {
  cr_ctx : pool_inv (context_pool m) live;
  cr_stk : pool_inv (stack_pool m) (stacks_of m live);
  cr_dom : dom (ctxs m) = pool_blocks (context_pool m);
  cr_inj : forall c d u v, c ∈ live -> d ∈ live -> ctxs m !! c = Some u ->
    ctxs m !! d = Some v -> ss_sp u = ss_sp v -> c = d;
  cr_size : forall c u, c ∈ live -> ctxs m !! c = Some u -> ss_size u = sizeof_ptr;
  cr_align : forall b, b ∈ pool_blocks (stack_pool m) -> 0 <= b < 2 ^ 63 /\ b mod 8 = 0;
  cr_words : forall b k, b ∈ pool_blocks (stack_pool m) -> 0 <= k < STACK_SIZE / 8 ->
    is_Some (stack_words m !! (b + 8 * k))
}.

Definition context_capacity (m : cmem P) : nat :=
  size (pool_blocks (context_pool m)) `min` size (pool_blocks (stack_pool m)).

Lemma live_ctx (m : cmem P) live c : ctx_rep m live -> c ∈ live -> exists u, ctxs m !! c = Some u.
Proof.
  intros Hr Hc. apply elem_of_dom. rewrite (cr_dom _ _ Hr).
  by eapply pool_inv_sub; [apply Hr|].
Qed.

Lemma elem_stacks (m : cmem P) live s :
  s ∈ stacks_of m live <-> exists c u, c ∈ live /\ ctxs m !! c = Some u /\ ss_sp u = s.
Proof.
  unfold stacks_of. rewrite elem_of_set_omap. split.
  - intros (c & Hc & E). apply fmap_Some in E as (u & ? & ->). eauto.
  - intros (c & u & Hc & E & <-). exists c. rewrite E. done.
Qed.

Lemma size_stacks (m : cmem P) live : ctx_rep m live -> size (stacks_of m live) = size live.
Proof.
  intros Hr. unfold stacks_of, set_omap. rewrite size_list_to_set.
  - unfold size, set_size. apply length_omap_Some, Forall_forall.
    intros c Hc. apply elem_of_elements in Hc.
    destruct (live_ctx m live c) as [u ->]; [done..|]. by eexists.
  - assert (Hin : forall c, c ∈ elements live -> c ∈ live) by (intros c; apply elem_of_elements).
    pose proof (NoDup_elements live) as Hnd. induction (elements live) as [|c l IH]; [constructor|].
    apply NoDup_cons in Hnd as [Hcl Hnd]. simpl.
    destruct (live_ctx m live c) as [u E]; [done|apply Hin; set_solver|]. rewrite E. simpl.
    constructor; [|apply IH; [intros; apply Hin; set_solver|done]].
    rewrite list_elem_of_omap. intros (d & Hd & Ed). apply fmap_Some in Ed as (v & Ed & Ev).
    apply Hcl. rewrite (cr_inj _ _ Hr c d u v); try done; apply Hin; set_solver.
Qed.

Lemma stacks_other (m m' : cmem P) live :
  (forall c, c ∈ live -> ss_sp <$> ctxs m' !! c = ss_sp <$> ctxs m !! c) ->
  stacks_of m' live = stacks_of m live.
Proof.
  intros Heq. apply leibniz_equiv. intros s. unfold stacks_of. rewrite !elem_of_set_omap.
  split; intros (c & Hc & E); exists c; split; try done; [rewrite <- Heq|rewrite Heq]; done.
Qed.

Lemma stacks_insert (m m' : cmem P) live c u :
  c ∉ live -> ctxs m' = <[c := u]> (ctxs m) ->
  stacks_of m' ({[c]} ∪ live) = {[ss_sp u]} ∪ stacks_of m live.
Proof.
  intros Hc Hm. rewrite <- (stacks_other m m' live).
  - apply leibniz_equiv. intros s. rewrite elem_of_union, !elem_stacks. split.
    + intros (d & v & Hd & E & <-). apply elem_of_union in Hd as [Hd|Hd].
      * left. rewrite Hm in E. apply elem_of_singleton in Hd as ->.
        rewrite lookup_insert_eq in E. set_solver.
      * right. eauto.
    + intros [Hs|(d & v & Hd & E & <-)].
      * apply elem_of_singleton in Hs as ->. exists c, u. rewrite Hm, lookup_insert_eq. set_solver.
      * exists d, v. set_solver.
  - intros d Hd. rewrite Hm, lookup_insert_ne; [done|set_solver].
Qed.

Lemma context_alloc_room (m : cmem P) live :
  ctx_rep m live -> (size live < context_capacity m)%nat ->
  exists m' c, context_alloc m = Ok (m', Some c) /\ c ∉ live
    /\ context_capacity m' = context_capacity m /\ ctx_rep m' ({[c]} ∪ live).
Proof.
  intros Hr Hsz. unfold context_capacity in Hsz. pose proof (size_stacks _ _ Hr) as Hss.
  destruct (pool_alloc_room _ _ (cr_ctx _ _ Hr)) as (c & cp & Ec & Hcb & Hcl & Hcbl & Hci); [lia|].
  destruct (pool_alloc_room _ _ (cr_stk _ _ Hr)) as (s & sp & Es & Hsb & Hsl & Hsbl & Hsi); [lia|].
  assert (Hnc : c <> NULL) by (intros ->; by eapply pool_no_null; [apply Hr|]).
  assert (Hns : s <> NULL) by (intros ->; by eapply pool_no_null; [apply (cr_stk _ _ Hr)|]).
  assert (exists u, ctxs m !! c = Some u) as [u Eu]
    by (apply elem_of_dom; by rewrite (cr_dom _ _ Hr)).
  unfold context_alloc, get_ctx, put_ctx. rewrite Ec. simpl. rewrite (proj2 (Z.eqb_neq _ _)) by done.
  rewrite Es. simpl. rewrite (proj2 (Z.eqb_neq _ _)) by done. simpl. rewrite Eu. simpl.
  eexists _, c. split_and!; [done|done|unfold context_capacity; simpl; by rewrite Hcbl, Hsbl|].
  split; simpl; rewrite ?Hcbl, ?Hsbl.
  - done.
  - by rewrite (stacks_insert m _ live c (mk_uctx s sizeof_ptr (uc_link u))) by done.
  - rewrite dom_insert_L, (cr_dom _ _ Hr). set_solver.
  - intros d e v w Hd He. rewrite !lookup_insert_Some.
    intros [[<- <-]|[? Ed]] [[<- <-]|[? Ee]]; simpl; intros Heq; [done|..]; subst.
    + exfalso. apply Hsl, elem_stacks. exists e, w. set_solver.
    + exfalso. apply Hsl, elem_stacks. exists d, v. set_solver.
    + eapply (cr_inj _ _ Hr d e v w); set_solver.
  - intros d v Hd. rewrite lookup_insert_Some. intros [[<- <-]|[? Ed]]; [done|].
    eapply (cr_size _ _ Hr); [|done]. set_solver.
  - apply Hr.
  - intros b k. apply (cr_words _ _ Hr).
Qed.

Lemma context_alloc_full (m : cmem P) live :
  ctx_rep m live -> size live = context_capacity m ->
  exists m', context_alloc m = Ok (m', None)
    /\ context_capacity m' = context_capacity m /\ ctx_rep m' live.
Proof.
  intros Hr Hsz. unfold context_capacity in Hsz. pose proof (size_stacks _ _ Hr) as Hss.
  assert (Hsub : (size live <= size (pool_blocks (context_pool m)))%nat)
    by (apply subseteq_size, pool_inv_sub, Hr).
  unfold context_alloc.
  destruct (decide (size live = size (pool_blocks (context_pool m)))) as [E|E].
  - rewrite (pool_alloc_full _ _ (cr_ctx _ _ Hr)) by done. simpl. exists m. by destruct m.
  - destruct (pool_alloc_room _ _ (cr_ctx _ _ Hr)) as (c & cp & Ec & Hcb & Hcl & Hcbl & Hci); [lia|].
    assert (Hnc : c <> NULL) by (intros ->; by eapply pool_no_null; [apply Hr|]).
    rewrite Ec. simpl. rewrite (proj2 (Z.eqb_neq _ _)) by done.
    rewrite (pool_alloc_full _ _ (cr_stk _ _ Hr)) by lia. simpl.
    destruct (pool_free_owned _ _ c Hci) as (cp' & Ef & Hb & Hi); [set_solver|].
    rewrite Ef. simpl. eexists. split_and!; [done|unfold context_capacity; simpl; by rewrite Hb, Hcbl|].
    destruct Hr as [H1 H2 H3 H4 H5 H6 H7]. split; simpl; try done.
    + replace live with (({[c]} ∪ live) ∖ {[c]}) by set_solver. done.
    + by rewrite Hb, Hcbl.
Qed.

Lemma stacks_delete (m : cmem P) live c u :
  ctx_rep m live -> c ∈ live -> ctxs m !! c = Some u ->
  stacks_of m (live ∖ {[c]}) = stacks_of m live ∖ {[ss_sp u]}.
Proof.
  intros Hr Hc Eu. apply leibniz_equiv. intros s.
  rewrite elem_of_difference, elem_of_singleton, !elem_stacks. split.
  - intros (d & v & Hd & Ed & <-). split; [exists d, v; set_solver|].
    intros Heq. assert (d = c); [|set_solver].
    eapply (cr_inj _ _ Hr d c v u); set_solver.
  - intros [(d & v & Hd & Ed & <-) Hne]. exists d, v. split; [|done].
    apply elem_of_difference. split; [done|]. intros ->%elem_of_singleton. congruence.
Qed.

Lemma context_free_live (m : cmem P) live c :
  ctx_rep m live -> c ∈ live ->
  exists m', context_free m c = Ok m'
    /\ context_capacity m' = context_capacity m /\ ctx_rep m' (live ∖ {[c]}).
Proof.
  intros Hr Hc. destruct (live_ctx _ _ _ Hr Hc) as [u Eu].
  unfold context_free, get_ctx. rewrite Eu. simpl.
  destruct (pool_free_owned _ _ (ss_sp u) (cr_stk _ _ Hr)) as (sp & -> & Hsb & Hsi).
  { apply elem_stacks. eauto. }
  destruct (pool_free_owned _ _ c (cr_ctx _ _ Hr) Hc) as (cp & -> & Hcb & Hci). simpl.
  eexists. split_and!; [done|unfold context_capacity; simpl; by rewrite Hsb, Hcb|].
  rewrite <- (stacks_delete m live c) in Hsi by done.
  destruct Hr as [H1 H2 H3 H4 H5 H6 H7]. split; simpl; rewrite ?Hsb, ?Hcb; try done.
  - intros d e v w Hd He. apply H4; set_solver.
  - intros d v Hd. apply H5; set_solver.
Qed.

(** The slot written for a stack block: inside of the block, whatever the
    alignment of the block. *)
Lemma link_slot_alloc b :
  0 <= b < 2 ^ 63 -> b mod 8 = 0 ->
  link_slot b sizeof_ptr = b + 8 * (if b mod 16 =? 0 then 6 else 7).
Proof.
  intros Hb H8. unfold link_slot, sizeof_ptr.
  rewrite (u64_id (b + 8 * 8)) by lia. rewrite (u64_id (b + 8 * 8 - 8)) by lia.
  rewrite land_align16.
  destruct (Z.eqb_spec (b mod 16) 0) as [H16|H16].
  all: pose proof (Z.div_mod (b + 8 * 8 - 8) 16); pose proof (Z.mod_pos_bound (b + 8 * 8 - 8) 16).
  all: rewrite (u64_id (_ - 8)) by lia; rewrite u64_id by lia; Z.div_mod_to_equations; lia.
Qed.

Lemma set_context_link_live (m : cmem P) live c link :
  ctx_rep m live -> c ∈ live ->
  exists m', set_context_link m c link = Ok m'
    /\ context_capacity m' = context_capacity m /\ ctx_rep m' live
    /\ stack_words m' = <[link_slot (default 0 (ss_sp <$> ctxs m !! c)) sizeof_ptr := link]>
                          (stack_words m)
    /\ (exists u, ctxs m !! c = Some u /\ ctxs m' = <[c := mk_uctx (ss_sp u) sizeof_ptr link]> (ctxs m)).
Proof.
  intros Hr Hc. destruct (live_ctx _ _ _ Hr Hc) as [u Eu].
  assert (Hb : ss_sp u ∈ pool_blocks (stack_pool m)).
  { eapply pool_inv_sub; [apply Hr|]. apply elem_stacks. eauto. }
  destruct (cr_align _ _ Hr _ Hb) as [Hrange H8].
  unfold set_context_link, get_ctx, put_ctx, put_word. rewrite Eu. simpl.
  rewrite (cr_size _ _ Hr c u) by done.
  assert (is_Some (stack_words m !! link_slot (ss_sp u) sizeof_ptr)) as [w Ew].
  { rewrite link_slot_alloc by done. apply (cr_words _ _ Hr); [done|].
    unfold STACK_SIZE. case_match; by vm_compute. }
  rewrite Ew. eexists. split_and!; [done|done| |done|by exists u].
  destruct Hr as [H1 H2 H3 H4 H5 H6 H7]. split; simpl; try done.
  - rewrite (stacks_other m); [done|]. intros d Hd. simpl.
    destruct (decide (d = c)) as [->|]; [by rewrite lookup_insert_eq, Eu|by rewrite lookup_insert_ne].
  - rewrite dom_insert_L, H3. apply elem_of_dom_2 in Eu. rewrite H3 in Eu. set_solver.
  - intros d e v v' Hd He. rewrite !lookup_insert_Some.
    intros [[<- <-]|[? Ed]] [[<- <-]|[? Ee]]; simpl; intros Heq; [done|..]; eapply H4; eauto.
  - intros d v Hd. rewrite lookup_insert_Some. intros [[<- <-]|[? Ed]]; simpl; by eauto.
  - intros b k Hbk Hk. rewrite lookup_insert_is_Some'. eauto.
Qed.

Lemma ctx_rep_cap (m : cmem P) live : ctx_rep m live -> (size live <= context_capacity m)%nat.
Proof.
  intros Hr. apply Nat.min_glb.
  - apply subseteq_size, pool_inv_sub, Hr.
  - rewrite <- (size_stacks m live) by done. apply subseteq_size, pool_inv_sub, Hr.
Qed.

Lemma ctx_rep_null (m : cmem P) live : ctx_rep m live -> NULL ∉ live.
Proof.
  intros Hr Hn. eapply pool_no_null; [apply Hr|]. eapply pool_inv_sub; [apply Hr|done].
Qed.

End representation.

#[export] Instance context_ops {P} `{Allocator P} : ContextOps (cmem P) := {
  ctx_alloc := context_alloc;
  ctx_free := context_free;
  ctx_link := set_context_link
}.

#[export] Instance context_laws {P} `{AllocatorLaws P} : ContextLaws (cmem P).
Proof.
  refine {| ctx_cap := context_capacity; ctx_model := ctx_rep |}.
  - exact ctx_rep_cap.
  - exact ctx_rep_null.
  - exact context_alloc_room.
  - exact context_alloc_full.
  - exact context_free_live.
  - intros s live c l Hr Hc.
    destruct (set_context_link_live _ _ _ l Hr Hc) as (s' & ? & ? & ? & _). by exists s'.
Defined.

(** ** Safety of every use *)

(** One use of the contexts by the program: [live] are the contexts it holds. *)
Inductive ctx_step {P} `{Allocator P} : cmem P * gset Z -> cmem P * gset Z -> Prop :=
| step_alloc m m' c live :
    context_alloc m = Ok (m', Some c) -> ctx_step (m, live) (m', {[c]} ∪ live)
| step_alloc_none m m' live :
    context_alloc m = Ok (m', None) -> ctx_step (m, live) (m', live)
| step_free m m' c live :
    c ∈ live -> context_free m c = Ok m' -> ctx_step (m, live) (m', live ∖ {[c]})
| step_link m m' c l live :
    c ∈ live -> set_context_link m c l = Ok m' -> ctx_step (m, live) (m', live).

Lemma ctx_step_inv {P} `{AllocatorLaws P} (s s' : cmem P * gset Z) :
  ctx_step s s' -> ctx_rep s.1 s.2 ->
  ctx_rep s'.1 s'.2 /\ context_capacity s'.1 = context_capacity s.1.
Proof.
  intros Hs Hr. destruct Hs as [m m' c live E|m m' live E|m m' c live Hc E|m m' c l live Hc E];
    simpl in *; pose proof (ctx_rep_cap _ _ Hr) as Hcap.
  1,2: destruct (decide (size live < context_capacity m)%nat) as [Hl|Hl];
    [destruct (context_alloc_room _ _ Hr Hl) as (m2 & c2 & E2 & _ & ? & ?)
    |destruct (context_alloc_full m live) as (m2 & E2 & ? & ?); [done|lia|]];
    ok_agree; simplify_eq; done.
  - destruct (context_free_live _ _ _ Hr Hc) as (m2 & E2 & ? & ?). ok_agree. by simplify_eq.
  - destruct (set_context_link_live _ _ _ l Hr Hc) as (m2 & E2 & ? & ? & _). ok_agree. by simplify_eq.
Qed.

(** C9. Contexts are handed out safely, whatever the program does with them:
    in every reachable state two live contexts never share a stack; a new
    allocation never gives a context that is still live, and is refused exactly
    when the smaller of the two pools is used up; freeing or linking a live
    context is always defined. *)
Theorem context_reachable_safe {P} `{AllocatorLaws P} (m0 m : cmem P) live :
  ctx_rep m0 ∅ -> rtc ctx_step (m0, ∅) (m, live) ->
  (forall c d u v, c ∈ live -> d ∈ live -> c <> d ->
     ctxs m !! c = Some u -> ctxs m !! d = Some v -> ss_sp u <> ss_sp v)
  /\ (exists m' r, context_alloc m = Ok (m', r)
        /\ (r = None <-> size live = context_capacity m0)
        /\ (forall c, r = Some c -> c ∉ live))
  /\ (forall c, c ∈ live -> is_Ok (context_free m c)
        /\ forall l, is_Ok (set_context_link m c l)).
Proof.
  intros Hinit Hrtc.
  assert (ctx_rep m live /\ context_capacity m = context_capacity m0) as [Hr <-].
  { apply (rtc_invariant ctx_step (fun s => ctx_rep s.1 s.2) (fun s => context_capacity s.1)
      ctx_step_inv (m0, ∅) (m, live)); done. }
  split_and!.
  - intros c d u v Hc Hd Hne Eu Ev Heq. by apply Hne, (cr_inj _ _ Hr c d u v).
  - pose proof (ctx_rep_cap _ _ Hr).
    destruct (decide (size live < context_capacity m)%nat) as [Hl|Hl].
    + destruct (context_alloc_room _ _ Hr Hl) as (m' & c & -> & ? & _). exists m', (Some c).
      split_and!; [done|split; [done|lia]|by intros ? [= <-]].
    + destruct (context_alloc_full m live) as (m' & -> & _); [done|lia|].
      exists m', None. split_and!; [done|split; [lia|done]|done].
  - intros c Hc. split.
    + destruct (context_free_live _ _ _ Hr Hc) as (m' & -> & _). done.
    + intros l. destruct (set_context_link_live _ _ _ l Hr Hc) as (m' & -> & _). done.
Qed.

(** A pair of pools with two contexts and stacks, for the examples. *)
Definition example_ctx_pool : Mempool.mempool :=
  Mempool.mk_mempool [4096; 5064] 0 2 4096 1936 0 968 2 0.
Definition example_stack_pool : Mempool.mempool :=
  Mempool.mk_mempool [8192; 10240] 0 2 8192 4096 0 2048 2 0.

Definition example_cmem : cmem Mempool.mempool :=
  mk_cmem (<[4096 := mk_uctx 0 0 0]> (<[5064 := mk_uctx 0 0 0]> ∅))
    (list_to_map ((fun i => (8192 + 8 * Z.of_nat i, 0)) <$> seq 0 512))
    example_ctx_pool example_stack_pool.

Lemma example_ctx_pool_ok : Mempool.pool_ok example_ctx_pool ∅.
Proof. split; simpl; try done; apply (bool_decide_unpack _); by vm_compute. Qed.

Lemma example_stack_pool_ok : Mempool.pool_ok example_stack_pool ∅.
Proof. split; simpl; try done; apply (bool_decide_unpack _); by vm_compute. Qed.

Lemma example_words i : (i < 512)%nat -> is_Some (stack_words example_cmem !! (8192 + 8 * Z.of_nat i)).
Proof.
  intros Hi. apply elem_of_dom. unfold example_cmem, stack_words.
  rewrite dom_list_to_map_L, elem_of_list_to_set, <- list_fmap_compose.
  apply list_elem_of_fmap. exists i. split; [done|]. apply elem_of_seq. lia.
Qed.

Lemma example_stacks b :
  b ∈ pool_blocks (stack_pool example_cmem) -> b = 8192 \/ b = 10240.
Proof. intros Hb. apply elem_of_list_to_set in Hb. revert Hb. vm_compute. set_solver. Qed.

Lemma example_cmem_rep : ctx_rep example_cmem ∅.
Proof.
  constructor.
  - apply example_ctx_pool_ok.
  - apply example_stack_pool_ok.
  - apply leibniz_equiv, (bool_decide_unpack _). by vm_compute.
  - intros c d u v Hc. set_solver.
  - intros c u Hc. set_solver.
  - intros b [->| ->]%example_stacks; (split; [lia|done]).
  - intros b k Hb Hk. change (STACK_SIZE / 8) with 256 in Hk.
    apply example_stacks in Hb as [->| ->].
    + replace (8192 + 8 * k) with (8192 + 8 * Z.of_nat (Z.to_nat k)) by lia.
      apply example_words. lia.
    + replace (10240 + 8 * k) with (8192 + 8 * Z.of_nat (256 + Z.to_nat k)) by lia.
      apply example_words. lia.
Qed.

Lemma example_cmem_cap : context_capacity example_cmem = 2%nat.
Proof. by vm_compute. Qed.

Lemma context_reachable_safe_witness :
  exists m live, rtc ctx_step (example_cmem, ∅) (m, live) /\ size live = 2%nat
  /\ (forall c d u v, c ∈ live -> d ∈ live -> c <> d ->
     ctxs m !! c = Some u -> ctxs m !! d = Some v -> ss_sp u <> ss_sp v)
  /\ (exists m' r, context_alloc m = Ok (m', r)
        /\ (r = None <-> size live = context_capacity example_cmem)
        /\ (forall c, r = Some c -> c ∉ live))
  /\ (forall c, c ∈ live -> is_Ok (context_free m c)
        /\ forall l, is_Ok (set_context_link m c l)).
Proof.
  destruct (context_alloc_room example_cmem ∅) as (m1 & c1 & E1 & Hc1 & Hcap1 & Hr1).
  { apply example_cmem_rep. }
  { rewrite example_cmem_cap, size_empty. lia. }
  rewrite union_empty_r_L in Hr1.
  destruct (context_alloc_room m1 {[c1]}) as (m2 & c2 & E2 & Hc2 & _ & _).
  { exact Hr1. }
  { rewrite Hcap1, example_cmem_cap, size_singleton. lia. }
  assert (Hrtc : rtc ctx_step (example_cmem, ∅) (m2, {[c2]} ∪ ({[c1]} ∪ ∅))).
  { eapply rtc_l; [by apply step_alloc|]. eapply rtc_l; [by apply step_alloc|]. apply rtc_refl. }
  exists m2, ({[c2]} ∪ ({[c1]} ∪ ∅)). split; [exact Hrtc|]. split.
  - rewrite union_empty_r_L, size_union by set_solver. by rewrite !size_singleton.
  - apply (context_reachable_safe example_cmem m2 _ example_cmem_rep Hrtc).
Defined.

(** C40. The stack a context declares is the size of a pointer, eight bytes of
    its [STACK_SIZE] block, and [set_context_link] scales that size by eight:
    for a context as [context_alloc] leaves it the link is stored inside of
    the stack block but always beyond the declared stack; a context that
    declared its whole block would have the link stored outside of it. *)
Theorem link_slot_outside {P} `{AllocatorLaws P} (m : cmem P) live c u l :
  ctx_rep m live -> c ∈ live -> ctxs m !! c = Some u ->
  exists m', set_context_link m c l = Ok m'
    /\ ss_size u = 8
    /\ stack_words m' = <[link_slot (ss_sp u) (ss_size u) := l]> (stack_words m)
    /\ ss_sp u + ss_size u <= link_slot (ss_sp u) (ss_size u)
    /\ link_slot (ss_sp u) (ss_size u) + 8 <= ss_sp u + STACK_SIZE
    /\ ss_sp u + STACK_SIZE < link_slot (ss_sp u) STACK_SIZE.
Proof.
  intros Hr Hc Eu. destruct (set_context_link_live _ _ _ l Hr Hc) as (m' & E & _ & _ & Hw & _).
  assert (Hb : ss_sp u ∈ pool_blocks (stack_pool m)).
  { eapply pool_inv_sub; [apply Hr|]. apply elem_stacks. eauto. }
  destruct (cr_align _ _ Hr _ Hb) as [Hrange H8].
  rewrite Eu in Hw. simpl in Hw. rewrite (cr_size _ _ Hr c u) by done.
  exists m'. split_and!; [done|done|done|..].
  - rewrite link_slot_alloc by done. unfold sizeof_ptr. case_match; lia.
  - rewrite link_slot_alloc by done. unfold STACK_SIZE. case_match; lia.
  - unfold link_slot, STACK_SIZE. rewrite land_align16.
    rewrite (u64_id (ss_sp u + 2048 * 8)), (u64_id (ss_sp u + 2048 * 8 - 8)) by lia.
    word_lia.
Qed.

Lemma link_slot_outside_witness :
  exists m c u, context_alloc example_cmem = Ok (m, Some c) /\ ctxs m !! c = Some u
  /\ exists m', set_context_link m c 77 = Ok m'
    /\ ss_size u = 8
    /\ stack_words m' = <[link_slot (ss_sp u) (ss_size u) := 77]> (stack_words m)
    /\ ss_sp u + ss_size u <= link_slot (ss_sp u) (ss_size u)
    /\ link_slot (ss_sp u) (ss_size u) + 8 <= ss_sp u + STACK_SIZE
    /\ ss_sp u + STACK_SIZE < link_slot (ss_sp u) STACK_SIZE.
Proof.
  destruct (context_alloc_room example_cmem ∅) as (m & c & E & Hc & _ & Hr).
  { apply example_cmem_rep. }
  { rewrite example_cmem_cap, size_empty. lia. }
  destruct (live_ctx m ({[c]} ∪ ∅) c Hr) as [u Eu]; [set_solver|].
  exists m, c, u. split; [exact E|]. split; [exact Eu|].
  apply (link_slot_outside m ({[c]} ∪ ∅) c u 77 Hr); [set_solver|exact Eu].
Defined.

(** ** Start-up *)

Section startup_lemmas.
Variable malloc : nat -> Z -> Z.

Lemma create_pool_ok k p n e :
  0 < n -> 0 < e -> n * e <= INT_MAX ->
  (forall z, 0 < malloc k z) -> (forall z, 0 < malloc (S k) z) ->
  exists p', create_pool malloc k p n e = Ok (0, p')
    /\ Mempool.pool_ok p' ∅ /\ Mempool.capacity p' = n.
Proof.
  intros Hn He Hp H1 H2. unfold create_pool.
  destruct (Mempool.create_ok (malloc k) (malloc (S k)) p n e) as (p' & -> & ? & ? & _);
    try done; [|by exists p'].
  specialize (H2 (n * 8)). unfold NULL. lia.
Qed.

Lemma create_pool_fail k p n e :
  0 < n -> 0 < e -> n * e <= INT_MAX ->
  (forall z, malloc k z = NULL) \/ (forall z, malloc k z <> NULL) /\ (forall z, malloc (S k) z = NULL) ->
  exists p', create_pool malloc k p n e = Ok (-1, p').
Proof.
  intros Hn He Hp Hm. unfold create_pool, Mempool.mempool_create.
  rewrite !(proj2 (Z.leb_gt _ _)) by lia. simpl.
  unfold int_result. rewrite decide_True by (unfold INT_MIN; nia). simpl.
  destruct Hm as [H1|[H1 H2]].
  - rewrite H1. simpl. by eexists.
  - rewrite (proj2 (Z.eqb_neq _ _)) by apply H1. rewrite H2. simpl. by eexists.
Qed.

(** One stage when the [j]-th allocation is the first to fail. *)
Lemma create_pool_stage j k p n e :
  0 < n -> 0 < e -> n * e <= INT_MAX ->
  (forall k z, (k < j)%nat -> 0 < malloc k z) -> (forall z, malloc j z = NULL) -> (k <= j)%nat ->
  ((S k < j)%nat /\ exists p', create_pool malloc k p n e = Ok (0, p')
     /\ Mempool.pool_ok p' ∅ /\ Mempool.capacity p' = n)
  \/ ((j = k \/ j = S k) /\ exists p', create_pool malloc k p n e = Ok (-1, p')).
Proof.
  intros Hn He Hp Hlt Hf Hk. destruct (decide (S k < j)%nat) as [Hj|Hj].
  - left. split; [done|]. apply create_pool_ok; try done; intros z; apply Hlt; lia.
  - right. split; [lia|]. apply create_pool_fail; try done.
    destruct (decide (j = k)) as [->|Hne]; [by left|right].
    assert (j = S k) as -> by lia. split; [|done].
    intros z. specialize (Hlt k z). unfold NULL. lia.
Qed.

End startup_lemmas.

(** A pool as [mempool_create] leaves it: [n] blocks of [e] bytes from [b]. *)
Definition fresh_pool (b n e : Z) : Mempool.mempool :=
  Mempool.mk_mempool (Mempool.init_free_items (Z.to_nat n) b e) 0 n b (n * e) 0 e n 0.

Lemma create_pool_eq malloc k p n e :
  0 < n -> 0 < e -> n * e <= INT_MAX ->
  (forall z, 0 < malloc k z) -> (forall z, 0 < malloc (S k) z) ->
  create_pool malloc k p n e = Ok (0, fresh_pool (malloc k (n * e)) n e).
Proof.
  intros Hn He Hp H1 H2. unfold create_pool.
  pose proof (H1 (n * e)). pose proof (H2 (n * 8)).
  rewrite (Mempool.create_unfold (malloc k) (malloc (S k)) p n e); [done|..];
    unfold NULL, INT_MAX in *; first [lia|nia].
Qed.

Lemma fresh_pool_ok b n e :
  0 < b -> 0 < n < 2 ^ 63 -> 0 < e -> Mempool.pool_ok (fresh_pool b n e) ∅.
Proof.
  intros Hb Hn He. pose proof (Mempool.NoDup_init (Z.to_nat n) b e He) as Hnd.
  split; unfold Mempool.free_part, Mempool.items; simpl; rewrite ?drop_0; try done;
    first [apply Mempool.length_init|lia|set_solver].
Qed.

(** The pools [taskqueue_init] creates. *)
Definition fresh_pools (malloc : nat -> Z -> Z) (sizeof_ucontext : Z) : pools :=
  mk_pools (fresh_pool (malloc 0%nat (TASK_CAPACITY * sizeof_task)) TASK_CAPACITY sizeof_task)
    (fresh_pool (malloc 2%nat (MCELL_CAPACITY * sizeof_mbuf_cell)) MCELL_CAPACITY sizeof_mbuf_cell)
    (fresh_pool (malloc 4%nat (TASK_CAPACITY * sizeof_ucontext)) TASK_CAPACITY sizeof_ucontext)
    (fresh_pool (malloc 6%nat (STACK_CAPACITY * STACK_SIZE)) STACK_CAPACITY STACK_SIZE).

Lemma taskqueue_init_eq malloc sizeof_ucontext g :
  0 < sizeof_ucontext <= 2730 -> (forall k z, 0 < malloc k z) ->
  taskqueue_init malloc sizeof_ucontext g = Ok (0, fresh_pools malloc sizeof_ucontext).
Proof.
  intros Hs Hm. unfold taskqueue_init, task_init_mempool, mcell_init_mempool,
    context_init_mempool, stack_init_mempool.
  rewrite (create_pool_eq malloc 0) by done. simpl.
  rewrite (create_pool_eq malloc 2) by done. simpl.
  rewrite (create_pool_eq malloc 4) by (done || lia || (unfold TASK_CAPACITY; word_lia)). simpl.
  by rewrite (create_pool_eq malloc 6) by done.
Qed.

(** The pools in the order [taskqueue_init] creates them. *)
Definition pool_nth (g : pools) (i : nat) : option Mempool.mempool :=
  [task_mempool g; mcell_mempool g; p_context_pool g; p_stack_pool g] !! i.

(** Start-up: when memory is available [taskqueue_init] succeeds and all
    four pools hold their 786432 blocks with none handed out; none of the size
    computations overflows [int]. *)
Theorem taskqueue_init_ok (malloc : nat -> Z -> Z) (sizeof_ucontext : Z) (g : pools) :
  0 < sizeof_ucontext <= 2730 -> (forall k z, 0 < malloc k z) ->
  exists g', taskqueue_init malloc sizeof_ucontext g = Ok (0, g')
    /\ forall i p, pool_nth g' i = Some p ->
         Mempool.pool_ok p ∅ /\ Mempool.capacity p = 786432.
Proof.
  intros Hs Hm. exists (fresh_pools malloc sizeof_ucontext). split; [by apply taskqueue_init_eq|].
  intros [|[|[|[|i]]]] p [= <-]; (split; [|done]);
    (apply fresh_pool_ok; [apply Hm|done|first [done|lia]]).
Qed.

Lemma taskqueue_init_ok_witness :
  exists g', taskqueue_init (fun k _ => Z.of_nat (S k) * 2 ^ 32) 968
      (mk_pools Mempool.mempool_zero Mempool.mempool_zero Mempool.mempool_zero Mempool.mempool_zero)
    = Ok (0, g')
    /\ forall i p, pool_nth g' i = Some p ->
         Mempool.pool_ok p ∅ /\ Mempool.capacity p = 786432.
Proof.
  apply (taskqueue_init_ok (fun k _ => Z.of_nat (S k) * 2 ^ 32) 968); [lia|].
  intros k z. lia.
Defined.

(** Start-up without enough memory: when the [j]-th allocation is the
    first to fail, [taskqueue_init] reports -1, the pools created before it are
    complete and those after it are untouched. *)
Theorem taskqueue_init_oom (malloc : nat -> Z -> Z) (sizeof_ucontext : Z) (g : pools) (j : nat) :
  0 < sizeof_ucontext <= 2730 -> (j < 8)%nat ->
  (forall k z, (k < j)%nat -> 0 < malloc k z) -> (forall z, malloc j z = NULL) ->
  exists g', taskqueue_init malloc sizeof_ucontext g = Ok (-1, g')
    /\ (forall i p, (i < j / 2)%nat -> pool_nth g' i = Some p ->
          Mempool.pool_ok p ∅ /\ Mempool.capacity p = 786432)
    /\ (forall i, (j / 2 < i)%nat -> pool_nth g' i = pool_nth g i).
Proof.
  intros Hs Hj Hlt Hf. unfold taskqueue_init, task_init_mempool, mcell_init_mempool,
    context_init_mempool, stack_init_mempool.
  assert (Hctx : TASK_CAPACITY * sizeof_ucontext <= INT_MAX) by (unfold TASK_CAPACITY; word_lia).
  assert (Hdiv : forall k, (j = 2 * k \/ j = S (2 * k))%nat -> (j / 2 = k)%nat).
  { intros k Hk. symmetry. apply (Nat.div_unique j 2 k (j - 2 * k)); lia. }
  remember (j / 2)%nat as h eqn:Hh. clear Hh.
  destruct (create_pool_stage malloc j 0 (task_mempool g) TASK_CAPACITY sizeof_task)
    as [(Hj0 & p0 & -> & H0 & C0)|(Hj0 & p0 & ->)]; try done; [lia|..]; simpl.
  2: { rewrite (Hdiv 0%nat) by lia. eexists. split_and!; [done|lia|].
       intros [|i] Hi; [lia|done]. }
  destruct (create_pool_stage malloc j 2 (mcell_mempool g) MCELL_CAPACITY sizeof_mbuf_cell)
    as [(Hj1 & p1 & -> & H1 & C1)|(Hj1 & p1 & ->)]; try done; simpl.
  2: { rewrite (Hdiv 1%nat) by lia. eexists. split_and!; [done|..].
       - intros [|i] p Hi E; [by injection E as <-|lia].
       - intros [|[|i]] Hi; [lia..|done]. }
  destruct (create_pool_stage malloc j 4 (p_context_pool g) TASK_CAPACITY sizeof_ucontext)
    as [(Hj2 & p2 & -> & H2 & C2)|(Hj2 & p2 & ->)]; try done; [lia..| |]; simpl.
  2: { rewrite (Hdiv 2%nat) by lia. eexists. split_and!; [done|..].
       - intros [|[|i]] p Hi E; [by injection E as <-..|lia].
       - intros [|[|[|i]]] Hi; [lia..|done]. }
  destruct (create_pool_stage malloc j 6 (p_stack_pool g) STACK_CAPACITY STACK_SIZE)
    as [(Hj3 & _)|(Hj3 & p3 & ->)]; try done; simpl; [lia|].
  rewrite (Hdiv 3%nat) by lia. eexists. split_and!; [done|..].
  - intros [|[|[|i]]] p Hi E; [by injection E as <-..|lia].
  - intros [|[|[|[|i]]]] Hi; [lia..|done].
Qed.

Lemma taskqueue_init_oom_witness :
  exists g', taskqueue_init (fun k _ => if (k =? 5)%nat then NULL else Z.of_nat (S k) * 2 ^ 32) 968
      (mk_pools Mempool.mempool_zero Mempool.mempool_zero Mempool.mempool_zero Mempool.mempool_zero)
    = Ok (-1, g')
    /\ (forall i p, (i < 5 / 2)%nat -> pool_nth g' i = Some p ->
          Mempool.pool_ok p ∅ /\ Mempool.capacity p = 786432)
    /\ (forall i, (5 / 2 < i)%nat -> pool_nth g' i = pool_nth
          (mk_pools Mempool.mempool_zero Mempool.mempool_zero Mempool.mempool_zero Mempool.mempool_zero) i).
Proof.
  apply (taskqueue_init_oom (fun k _ => if (k =? 5)%nat then NULL else Z.of_nat (S k) * 2 ^ 32) 968 _ 5).
  - lia.
  - lia.
  - intros k z Hk. rewrite (proj2 (Nat.eqb_neq k 5)) by lia. lia.
  - intros z. reflexivity.
Defined.
