(* ===== verification/ContextSwitch.v ===== *)
(** * ContextSwitch: saving and resuming a context

    Models [src/src/c++/libos/common/context_fast.S] instruction by
    instruction: the subset of x86-64 the file uses, a machine with the
    registers it touches, and its four routines as instruction lists.  Memory
    is a map from word addresses to 64-bit words, an access outside of it is
    undefined.  The floating-point save areas of the contexts are in maps of
    their own (x87 control word, MXCSR). *)
From S2P Require Import Prelude.

Module ContextSwitch.

Inductive reg : Type :=
| RAX | RBX | RBP | RSP | RDI | RSI | RDX | RCX | R8 | R9 | R12 | R13 | R14 | R15.

#[export] Instance reg_eq_dec : EqDecision reg.
Proof. solve_decision. Defined.

(** Operands in the order of the assembly text: [Store r off b] is
    [movq r, off(b)], [Load off b r] is [movq off(b), r]. *)
Inductive instr : Type :=
| Store (src : reg) (off : Z) (base : reg)
| Load (off : Z) (base dst : reg)
| Lea (off : Z) (base dst : reg)
| Push (src : reg)
| XorEax
| Fnstenv (base : reg)
| Fldenv (base : reg)
| Stmxcsr (off : Z) (base : reg)
| Ldmxcsr (off : Z) (base : reg)
| Ret.

Record machine : Type := mk_machine {
  regs : reg -> Z;
  rip : Z;
  mem : gmap Z Z;
  x87_cw : Z;
  mxcsr : Z;
  fenv_mem : gmap Z Z;
  mxcsr_mem : gmap Z Z
}.

Definition set_reg (r : reg) (v : Z) (s : machine) : machine :=
  mk_machine (fun r' => if decide (r' = r) then v else regs s r') (rip s) (mem s)
    (x87_cw s) (mxcsr s) (fenv_mem s) (mxcsr_mem s).

Definition set_mem (m : gmap Z Z) (s : machine) : machine :=
  mk_machine (regs s) (rip s) m (x87_cw s) (mxcsr s) (fenv_mem s) (mxcsr_mem s).

Definition read (m : gmap Z Z) (a : Z) : outcome Z :=
  match m !! a with Some v => Ok v | None => UB end.

Definition write (m : gmap Z Z) (a v : Z) : outcome (gmap Z Z) :=
  match m !! a with Some _ => Ok (<[a := v]> m) | None => UB end.

Definition ea (s : machine) (off : Z) (base : reg) : Z := u64 (regs s base + off).

Definition step (s : machine) (i : instr) : outcome machine :=
  match i with
  | Store r off b => m ← write (mem s) (ea s off b) (regs s r); Ok (set_mem m s)
  | Load off b r => v ← read (mem s) (ea s off b); Ok (set_reg r v s)
  | Lea off b r => Ok (set_reg r (ea s off b) s)
  | Push r =>
    let sp := u64 (regs s RSP - 8) in
    m ← write (mem s) sp (regs s r); Ok (set_mem m (set_reg RSP sp s))
  | XorEax => Ok (set_reg RAX 0 s)
  | Fnstenv b =>
    (* stores the environment, then masks all x87 exceptions *)
    f ← write (fenv_mem s) (ea s 0 b) (x87_cw s);
    Ok (mk_machine (regs s) (rip s) (mem s) (Z.lor (x87_cw s) 63) (mxcsr s) f (mxcsr_mem s))
  | Fldenv b =>
    cw ← read (fenv_mem s) (ea s 0 b);
    Ok (mk_machine (regs s) (rip s) (mem s) cw (mxcsr s) (fenv_mem s) (mxcsr_mem s))
  | Stmxcsr off b =>
    f ← write (mxcsr_mem s) (ea s off b) (mxcsr s);
    Ok (mk_machine (regs s) (rip s) (mem s) (x87_cw s) (mxcsr s) (fenv_mem s) f)
  | Ldmxcsr off b =>
    v ← read (mxcsr_mem s) (ea s off b);
    Ok (mk_machine (regs s) (rip s) (mem s) (x87_cw s) v (fenv_mem s) (mxcsr_mem s))
  | Ret =>
    a ← read (mem s) (regs s RSP);
    let s := set_reg RSP (u64 (regs s RSP + 8)) s in
    Ok (mk_machine (regs s) a (mem s) (x87_cw s) (mxcsr s) (fenv_mem s) (mxcsr_mem s))
  end.

Fixpoint exec (s : machine) (p : list instr) : outcome machine :=
  match p with
  | [] => Ok s
  | i :: p => s ← step s i; exec s p
  end.

(** ** The routines *)

Definition oRBX : Z := 0x80.
Definition oRBP : Z := 0x78.
Definition oR12 : Z := 0x48.
Definition oR13 : Z := 0x50.
Definition oR14 : Z := 0x58.
Definition oR15 : Z := 0x60.
Definition oRDI : Z := 0x68.
Definition oRSI : Z := 0x70.
Definition oRDX : Z := 0x88.
Definition oRCX : Z := 0x98.
Definition oR8 : Z := 0x28.
Definition oR9 : Z := 0x30.
Definition oRIP : Z := 0xa8.
Definition oRSP : Z := 0xa0.
Definition oFPREGSMEM : Z := 0x1a8.
Definition oFPREGS : Z := 0xe0.
Definition oMXCSR : Z := 0x1c0.

Definition swapcontext_fast_to_control : list instr := [
  Store RBX oRBX RDI; Store RBP oRBP RDI; Store R12 oR12 RDI; Store R13 oR13 RDI;
  Store R14 oR14 RDI; Store R15 oR15 RDI;
  Store RDI oRDI RDI; Store RSI oRSI RDI; Store RDX oRDX RDI; Store RCX oRCX RDI;
  Store R8 oR8 RDI; Store R9 oR9 RDI;
  Load 0 RSP RCX; Store RCX oRIP RDI; Lea 8 RSP RCX; Store RCX oRSP RDI;
  Lea oFPREGSMEM RDI RCX; Store RCX oFPREGS RDI;
  Fnstenv RCX; Stmxcsr oMXCSR RDI;
  Load oFPREGS RSI RCX;
  Load oRSP RSI RSP; Load oRBX RSI RBX; Load oRBP RSI RBP; Load oR12 RSI R12;
  Load oR13 RSI R13; Load oR14 RSI R14; Load oR15 RSI R15;
  Load oRIP RSI RCX; Push RCX;
  Load oRDI RSI RDI; Load oRDX RSI RDX; Load oRCX RSI RCX; Load oR8 RSI R8; Load oR9 RSI R9;
  Load oRSI RSI RSI; XorEax; Ret].

Definition swapcontext_fast : list instr := [
  Store RBX oRBX RDI; Store RBP oRBP RDI; Store R12 oR12 RDI; Store R13 oR13 RDI;
  Store R14 oR14 RDI; Store R15 oR15 RDI;
  Store RDI oRDI RDI; Store RSI oRSI RDI; Store RDX oRDX RDI; Store RCX oRCX RDI;
  Store R8 oR8 RDI; Store R9 oR9 RDI;
  Load 0 RSP RCX; Store RCX oRIP RDI; Lea 8 RSP RCX; Store RCX oRSP RDI;
  Lea oFPREGSMEM RDI RCX; Store RCX oFPREGS RDI;
  Load oFPREGS RSI RCX; Fldenv RCX; Ldmxcsr oMXCSR RSI;
  Load oRSP RSI RSP; Load oRBX RSI RBX; Load oRBP RSI RBP; Load oR12 RSI R12;
  Load oR13 RSI R13; Load oR14 RSI R14; Load oR15 RSI R15;
  Load oRIP RSI RCX; Push RCX;
  Load oRDI RSI RDI; Load oRDX RSI RDX; Load oRCX RSI RCX; Load oR8 RSI R8; Load oR9 RSI R9;
  Load oRSI RSI RSI; XorEax; Ret].

Definition swapcontext_very_fast : list instr := [
  Store RBX oRBX RDI; Store RBP oRBP RDI; Store R12 oR12 RDI; Store R13 oR13 RDI;
  Store R14 oR14 RDI; Store R15 oR15 RDI;
  Store RDI oRDI RDI; Store RSI oRSI RDI; Store RDX oRDX RDI; Store RCX oRCX RDI;
  Store R8 oR8 RDI; Store R9 oR9 RDI;
  Load 0 RSP RCX; Store RCX oRIP RDI; Lea 8 RSP RCX; Store RCX oRSP RDI;
  Lea oFPREGSMEM RDI RCX; Store RCX oFPREGS RDI;
  Load oFPREGS RSI RCX;
  Load oRSP RSI RSP; Load oRBX RSI RBX; Load oRBP RSI RBP; Load oR12 RSI R12;
  Load oR13 RSI R13; Load oR14 RSI R14; Load oR15 RSI R15;
  Load oRIP RSI RCX; Push RCX;
  Load oRDI RSI RDI; Load oRDX RSI RDX; Load oRCX RSI RCX; Load oR8 RSI R8; Load oR9 RSI R9;
  Load oRSI RSI RSI; XorEax; Ret].

Definition getcontext_fast : list instr := [
  Store RBX oRBX RDI; Store RBP oRBP RDI; Store R12 oR12 RDI; Store R13 oR13 RDI;
  Store R14 oR14 RDI; Store R15 oR15 RDI;
  Store RDI oRDI RDI; Store RSI oRSI RDI; Store RDX oRDX RDI; Store RCX oRCX RDI;
  Store R8 oR8 RDI; Store R9 oR9 RDI;
  Load 0 RSP RCX; Store RCX oRIP RDI; Lea 8 RSP RCX; Store RCX oRSP RDI;
  Lea oFPREGSMEM RDI RCX; Store RCX oFPREGS RDI;
  Fnstenv RCX; Fldenv RCX; Stmxcsr oMXCSR RDI;
  XorEax; Ret].

(** ** The common parts *)

Definition saved_regs : list (reg * Z) :=
  [(RBX, oRBX); (RBP, oRBP); (R12, oR12); (R13, oR13); (R14, oR14); (R15, oR15);
   (RDI, oRDI); (RSI, oRSI); (RDX, oRDX); (RCX, oRCX); (R8, oR8); (R9, oR9)].

Definition stores (l : list (reg * Z)) : list instr := (fun x => Store x.1 x.2 RDI) <$> l.
Definition loads (l : list (reg * Z)) : list instr := (fun x => Load x.2 RSI x.1) <$> l.

Definition save_point : list instr :=
  [Load 0 RSP RCX; Store RCX oRIP RDI; Lea 8 RSP RCX; Store RCX oRSP RDI;
   Lea oFPREGSMEM RDI RCX; Store RCX oFPREGS RDI].

Definition preserved_regs : list (reg * Z) :=
  [(RSP, oRSP); (RBX, oRBX); (RBP, oRBP); (R12, oR12); (R13, oR13); (R14, oR14); (R15, oR15);
   (RCX, oRIP)].

Definition arg_regs : list (reg * Z) :=
  [(RDI, oRDI); (RDX, oRDX); (RCX, oRCX); (R8, oR8); (R9, oR9)].

Definition save_ctx : list instr := stores saved_regs ++ save_point.
Definition resume_ctx : list instr :=
  loads preserved_regs ++ [Push RCX] ++ loads arg_regs ++ [Load oRSI RSI RSI; XorEax; Ret].

Lemma to_control_parts :
  swapcontext_fast_to_control =
    save_ctx ++ [Fnstenv RCX; Stmxcsr oMXCSR RDI; Load oFPREGS RSI RCX] ++ resume_ctx.
Proof. done. Qed.

Lemma fast_parts :
  swapcontext_fast =
    save_ctx ++ [Load oFPREGS RSI RCX; Fldenv RCX; Ldmxcsr oMXCSR RSI] ++ resume_ctx.
Proof. done. Qed.

Lemma very_fast_parts :
  swapcontext_very_fast = save_ctx ++ [Load oFPREGS RSI RCX] ++ resume_ctx.
Proof. done. Qed.

Lemma getcontext_parts :
  getcontext_fast = save_ctx ++ [Fnstenv RCX; Fldenv RCX; Stmxcsr oMXCSR RDI; XorEax; Ret].
Proof. done. Qed.

(** ** Running them *)

Lemma exec_app s p q : exec s (p ++ q) = (s' ← exec s p; exec s' q).
Proof.
  revert s. induction p as [|i p IH]; intros s; simpl; [done|].
  destruct (step s i); simpl; [apply IH|done|done].
Qed.

(** The words of a context that the routines use. *)
Definition in_ctx (a x : Z) : Prop := a + 0x28 <= x < a + 0xe8.

Definition slot (off : Z) : Prop := 0x28 <= off <= 0xe0 /\ off mod 8 = 0.

Definition ctx_mapped (m : gmap Z Z) (a : Z) : Prop :=
  forall off, slot off -> is_Some (m !! (a + off)).

Definition ctx_addr (a : Z) : Prop := 0 <= a /\ a + 0x1c8 <= 2 ^ 64.

(** Everything but registers and memory. *)
Definition same_fp (s s' : machine) : Prop :=
  x87_cw s' = x87_cw s /\ mxcsr s' = mxcsr s
  /\ fenv_mem s' = fenv_mem s /\ mxcsr_mem s' = mxcsr_mem s.

(** The context at [a] holds the registers [v], to be resumed at [r] with the
    stack pointer behind the return address. *)
Record ctx_saved (m : gmap Z Z) (a : Z) (v : reg -> Z) (r : Z) : Prop := {
  cs_regs : forall q off, (q, off) ∈ saved_regs -> m !! (a + off) = Some (v q);
  cs_rip : m !! (a + oRIP) = Some r;
  cs_rsp : m !! (a + oRSP) = Some (v RSP + 8);
  cs_fp : m !! (a + oFPREGS) = Some (a + oFPREGSMEM)
}.

Fixpoint store_all (a : Z) (v : reg -> Z) (l : list (reg * Z)) (m : gmap Z Z) : gmap Z Z :=
  match l with
  | [] => m
  | (q, off) :: l => store_all a v l (<[a + off := v q]> m)
  end.

Lemma store_all_ne a v l m x :
  (forall off, off ∈ l.*2 -> x <> a + off) -> store_all a v l m !! x = m !! x.
Proof.
  revert m. induction l as [|[q off] l IH]; intros m Hx; csimpl in *; [done|].
  rewrite IH by set_solver. rewrite lookup_insert_ne; [done|]. apply not_eq_sym, Hx. set_solver.
Qed.

Lemma store_all_in a v l m q off :
  NoDup (l.*2) -> (q, off) ∈ l -> store_all a v l m !! (a + off) = Some (v q).
Proof.
  revert m. induction l as [|[q' o] l IH]; intros m Hnd Hin; csimpl in *; [set_solver|].
  apply NoDup_cons in Hnd as [Ho Hnd]. apply elem_of_cons in Hin as [[= -> ->]|Hin].
  - rewrite store_all_ne, lookup_insert_eq; [done|]. intros o' Ho' Heq.
    assert (o = o') as -> by lia. done.
  - by apply IH.
Qed.

Lemma store_all_some a v l m x : is_Some (m !! x) -> is_Some (store_all a v l m !! x).
Proof.
  revert m. induction l as [|[q off] l IH]; intros m Hx; simpl; [done|].
  apply IH. rewrite lookup_insert_is_Some'. eauto.
Qed.

Lemma exec_stores l s a :
  regs s RDI = a -> ctx_addr a -> ctx_mapped (mem s) a -> Forall slot (l.*2) ->
  exec s (stores l) = Ok (set_mem (store_all a (regs s) l (mem s)) s).
Proof.
  intros Ha Hr. revert s Ha. induction l as [|[q off] l IH]; intros s Ha Hm Hf; csimpl in *;
    [by destruct s|].
  apply Forall_cons in Hf as [Hoff Hf]. unfold ea, ctx_addr in *.
  rewrite Ha, u64_id by (destruct Hoff; lia). unfold write.
  destruct (Hm _ Hoff) as [w ->]. csimpl.
  rewrite IH; csimpl; [done|done| |done].
  intros o Ho. rewrite lookup_insert_is_Some'. right. by apply Hm.
Qed.

Lemma exec_loads l s b f :
  regs s RSI = b -> ctx_addr b -> RSI ∉ l.*1 -> Forall slot (l.*2) ->
  (forall q off, (q, off) ∈ l -> mem s !! (b + off) = Some (f q)) ->
  exists s', exec s (loads l) = Ok s' /\ (forall q, q ∈ l.*1 -> regs s' q = f q)
    /\ (forall q, q ∉ l.*1 -> regs s' q = regs s q)
    /\ mem s' = mem s /\ rip s' = rip s /\ same_fp s s'.
Proof.
  intros Hb Hr. revert s Hb. induction l as [|[q off] l IH]; intros s Hb Hn Hf Hl; csimpl in *.
  - exists s. unfold same_fp. set_solver.
  - apply Forall_cons in Hf as [Hoff Hf]. unfold ea, ctx_addr in *.
    rewrite Hb, u64_id by (destruct Hoff; lia). unfold read.
    rewrite (Hl q off) by set_solver. csimpl.
    destruct (IH (set_reg q (f q) s)) as (s' & E & H1 & H2 & H3 & H4 & H5); csimpl in *.
    + rewrite decide_False by set_solver. done.
    + set_solver.
    + done.
    + intros q' o Hin. apply Hl. set_solver.
    + exists s'. split_and!; try done.
      * intros q' Hq'. destruct (decide (q' ∈ l.*1)) as [Hin|Hin]; [by apply H1|].
        rewrite H2 by done. simpl. rewrite decide_True by set_solver. f_equal. set_solver.
      * intros q' Hq'. rewrite H2 by set_solver. simpl. rewrite decide_False by set_solver. done.
Qed.

Lemma saved_slots : Forall slot (saved_regs.*2).
Proof. repeat constructor; by vm_compute. Qed.

Lemma saved_nodup : NoDup (saved_regs.*2).
Proof. apply (bool_decide_unpack _). by vm_compute. Qed.

Lemma slot_in_ctx a off : slot off -> in_ctx a (a + off).
Proof. unfold slot, in_ctx. lia. Qed.

Lemma saved_ne a x : ~ in_ctx a x -> forall off, off ∈ saved_regs.*2 -> x <> a + off.
Proof.
  intros Hx off Hoff ->. apply Hx, slot_in_ctx.
  pose proof saved_slots as Hs. rewrite Forall_forall in Hs. by apply Hs.
Qed.

Lemma write_some m a v : is_Some (m !! a) -> write m a v = Ok (<[a := v]> m).
Proof. intros [w E]. unfold write. by rewrite E. Qed.

Lemma saved_special q off :
  (q, off) ∈ saved_regs -> off <> oRIP /\ off <> oRSP /\ off <> oFPREGS.
Proof.
  intros Hin. assert (Hf : Forall (fun x => x.2 <> oRIP /\ x.2 <> oRSP /\ x.2 <> oFPREGS) saved_regs)
    by (repeat constructor; done).
  rewrite Forall_forall in Hf. by apply (Hf (q, off)).
Qed.

Lemma step_load s off b q v w :
  regs s b = v -> 0 <= v + off < 2 ^ 64 -> mem s !! (v + off) = Some w ->
  step s (Load off b q) = Ok (set_reg q w s).
Proof. intros Hb Hr E. simpl. unfold ea, read. rewrite Hb, u64_id by done. by rewrite E. Qed.

Lemma step_store s q off b v :
  regs s b = v -> 0 <= v + off < 2 ^ 64 -> is_Some (mem s !! (v + off)) ->
  step s (Store q off b) = Ok (set_mem (<[v + off := regs s q]> (mem s)) s).
Proof. intros Hb Hr E. simpl. unfold ea. rewrite Hb, u64_id by done. by rewrite write_some. Qed.

Lemma step_lea s off b q v :
  regs s b = v -> 0 <= v + off < 2 ^ 64 -> step s (Lea off b q) = Ok (set_reg q (v + off) s).
Proof. intros Hb Hr. simpl. unfold ea. by rewrite Hb, u64_id by done. Qed.

Lemma exec_cons s s' i p : step s i = Ok s' -> exec s (i :: p) = exec s' p.
Proof. intros E. simpl. by rewrite E. Qed.

Lemma exec_save_point s a r :
  regs s RDI = a -> ctx_addr a -> ctx_mapped (mem s) a ->
  0 <= regs s RSP -> regs s RSP + 8 < 2 ^ 64 -> mem s !! regs s RSP = Some r ->
  exists s', exec s save_point = Ok s' /\ (forall q, q <> RCX -> regs s' q = regs s q)
    /\ regs s' RCX = a + oFPREGSMEM /\ same_fp s s'
    /\ mem s' = <[a + oFPREGS := a + oFPREGSMEM]> (<[a + oRSP := regs s RSP + 8]>
                  (<[a + oRIP := r]> (mem s))).
Proof.
  intros Ha Hr Hm Hsp0 Hsp Hret. unfold save_point.
  assert (slot oRIP /\ slot oRSP /\ slot oFPREGS) as (S1 & S2 & S3) by (split_and!; done).
  assert (Hw : forall off, slot off -> 0 <= a + off < 2 ^ 64)
    by (unfold ctx_addr, slot in *; lia).
  rewrite (exec_cons _ _ _ _ (step_load s 0 RSP RCX (regs s RSP) r eq_refl ltac:(lia)
    ltac:(by rewrite Z.add_0_r))).
  erewrite exec_cons by (apply (step_store _ _ _ _ a); [done|by apply Hw|by apply Hm]).
  erewrite exec_cons by (apply (step_lea _ _ _ _ (regs s RSP)); [done|lia]).
  erewrite exec_cons by (apply (step_store _ _ _ _ a);
    [done|by apply Hw|simpl; rewrite lookup_insert_is_Some'; right; by apply Hm]).
  erewrite exec_cons by (apply (step_lea _ _ _ _ a); [done|unfold ctx_addr, oFPREGSMEM in *; lia]).
  erewrite exec_cons by (apply (step_store _ _ _ _ a);
    [done|by apply Hw|simpl; rewrite !lookup_insert_is_Some'; right; right; by apply Hm]).
  eexists. split; [done|]. split_and!; try done.
  intros q Hq. simpl. by rewrite !decide_False.
Qed.

(** Saving: the context at [a] afterwards holds the registers as they were at
    the call, the return address and the stack pointer behind it. *)
Lemma exec_save s a r :
  regs s RDI = a -> ctx_addr a -> ctx_mapped (mem s) a ->
  0 <= regs s RSP -> regs s RSP + 8 < 2 ^ 64 -> mem s !! regs s RSP = Some r ->
  ~ in_ctx a (regs s RSP) ->
  exists s', exec s save_ctx = Ok s' /\ (forall q, q <> RCX -> regs s' q = regs s q)
    /\ regs s' RCX = a + oFPREGSMEM /\ same_fp s s' /\ ctx_saved (mem s') a (regs s) r
    /\ (forall x, ~ in_ctx a x -> mem s' !! x = mem s !! x)
    /\ (forall x, is_Some (mem s !! x) -> is_Some (mem s' !! x)).
Proof.
  intros Ha Hr Hm Hsp0 Hsp Hret Hout. unfold save_ctx. rewrite exec_app.
  rewrite (exec_stores _ _ a) by (done || apply saved_slots).
  destruct (exec_save_point (set_mem (store_all a (regs s) saved_regs (mem s)) s) a r)
    as (s' & E & Hregs & Hrcx & Hfp & Hmem); simpl regs in *; try done.
  { intros off Ho. by apply store_all_some, Hm. }
  { unfold set_mem, mem. rewrite store_all_ne by by apply saved_ne. done. }
  change (mem (set_mem ?m s)) with m in Hmem.
  exists s'. split; [done|]. split_and!; try done; rewrite Hmem.
  - split.
    + intros q off Hin. rewrite 3!lookup_insert_ne; [by apply store_all_in; [apply saved_nodup|]|..];
        apply saved_special in Hin; lia.
    + by rewrite lookup_insert_ne, lookup_insert_ne, lookup_insert_eq by (unfold oRIP, oRSP, oFPREGS; lia).
    + by rewrite lookup_insert_ne, lookup_insert_eq by (unfold oRIP, oRSP, oFPREGS; lia).
    + by rewrite lookup_insert_eq.
  - intros x Hx. rewrite 3!lookup_insert_ne by (intros <-; by apply Hx, slot_in_ctx).
    apply store_all_ne. by apply saved_ne.
  - intros x Hx. rewrite 3!lookup_insert_is_Some'. do 3 right. by apply store_all_some.
Qed.

Definition callee_saved : list reg := [RBX; RBP; R12; R13; R14; R15].

(** The machine continues where the context with registers [v] stopped. *)
Record resumed (s : machine) (v : reg -> Z) (r : Z) : Prop := {
  rs_rip : rip s = r;
  rs_rsp : regs s RSP = v RSP + 8;
  rs_rax : regs s RAX = 0;
  rs_callee : forall q, q ∈ callee_saved -> regs s q = v q;
  rs_args : forall q, q ∈ [RDI; RSI; RDX; RCX; R8; R9] -> regs s q = v q
}.

Lemma step_push s q :
  8 <= regs s RSP < 2 ^ 64 -> is_Some (mem s !! (regs s RSP - 8)) ->
  step s (Push q) =
    Ok (set_mem (<[regs s RSP - 8 := regs s q]> (mem s)) (set_reg RSP (regs s RSP - 8) s)).
Proof. intros Hr E. simpl. rewrite u64_id by lia. by rewrite write_some. Qed.

Lemma preserved_saved m b v r :
  ctx_saved m b v r -> forall q off, (q, off) ∈ preserved_regs ->
  m !! (b + off) = Some (match q with RCX => r | RSP => v RSP + 8 | _ => v q end).
Proof.
  intros [Hs Hrip Hrsp _] q off Hin. unfold preserved_regs in Hin.
  repeat (apply elem_of_cons in Hin as [[= -> ->]|Hin]; [first [done|apply Hs; set_solver]|]).
  by apply elem_of_nil in Hin.
Qed.

Lemma arg_saved m b v r :
  ctx_saved m b v r -> forall q off, (q, off) ∈ arg_regs -> m !! (b + off) = Some (v q).
Proof. intros Hs q off Hin. apply Hs. unfold arg_regs, saved_regs in *. set_solver. Qed.

Lemma ctx_saved_insert m b v r x w :
  ~ in_ctx b x -> ctx_saved m b v r -> ctx_saved (<[x := w]> m) b v r.
Proof.
  intros Hx [H1 H2 H3 H4].
  assert (Hne : forall off, slot off -> x <> b + off) by (intros off Ho ->; by apply Hx, slot_in_ctx).
  split; intros; rewrite lookup_insert_ne; auto; apply Hne; try done.
  pose proof saved_slots as Hs. rewrite Forall_forall in Hs. apply Hs.
  apply list_elem_of_fmap. by exists (q, off).
Qed.

(** Resuming: the return address is pushed on the stack of the context, the
    registers are reloaded and [ret] continues at the saved address. *)
Lemma exec_resume s b v r :
  regs s RSI = b -> ctx_addr b -> ctx_saved (mem s) b v r ->
  0 <= v RSP -> v RSP + 8 < 2 ^ 64 -> is_Some (mem s !! v RSP) -> ~ in_ctx b (v RSP) ->
  exists s', exec s resume_ctx = Ok s' /\ resumed s' v r /\ same_fp s s'
    /\ mem s' = <[v RSP := r]> (mem s).
Proof.
  intros Hb Hr Hs H0 H1 Hslot Hout. unfold resume_ctx. rewrite exec_app.
  destruct (exec_loads preserved_regs s b (fun q => match q with RCX => r | RSP => v RSP + 8 | _ => v q end))
    as (s1 & -> & Hin1 & Hout1 & Hm1 & _ & Hfp1); try done.
  { unfold preserved_regs. set_solver. }
  { repeat constructor; by vm_compute. }
  { by apply preserved_saved. }
  cbn [mbind outcome_bind]. rewrite exec_app.
  assert (Hsp1 : regs s1 RSP = v RSP + 8) by (apply (Hin1 RSP); set_solver).
  assert (Hcx1 : regs s1 RCX = r) by (apply (Hin1 RCX); set_solver).
  assert (Hsi1 : regs s1 RSI = b) by (rewrite Hout1; [done|unfold preserved_regs; set_solver]).
  rewrite (exec_cons _ _ _ _ (step_push s1 RCX ltac:(lia)
    ltac:(rewrite Hsp1, Hm1; by replace (v RSP + 8 - 8) with (v RSP) by lia))).
  rewrite Hsp1, Hcx1, Hm1. replace (v RSP + 8 - 8) with (v RSP) by lia.
  set (s2 := set_mem _ _). cbn [mbind outcome_bind exec]. rewrite exec_app.
  assert (Hs2 : ctx_saved (mem s2) b v r) by (by apply ctx_saved_insert).
  destruct (exec_loads arg_regs s2 b v) as (s3 & -> & Hin3 & Hout3 & Hm3 & _ & Hfp3); try done.
  { unfold arg_regs. set_solver. }
  { repeat constructor; by vm_compute. }
  { by eapply arg_saved. }
  cbn [mbind outcome_bind].
  rewrite (exec_cons _ _ _ _ (step_load s3 oRSI RSI RSI b (v RSI)
    ltac:(rewrite Hout3; [done|unfold arg_regs; set_solver])
    ltac:(unfold ctx_addr, oRSI in *; lia)
    ltac:(rewrite Hm3; apply (cs_regs _ _ _ _ Hs2); unfold saved_regs; set_solver))).
  assert (Hsp3 : regs s3 RSP = v RSP) by (rewrite Hout3; [done|unfold arg_regs; set_solver]).
  simpl. rewrite Hsp3. unfold read. rewrite Hm3. simpl. rewrite lookup_insert_eq. simpl.
  eexists. split; [done|]. split_and!.
  - split; simpl.
    + done.
    + by rewrite u64_id by lia.
    + done.
    + intros q Hq. rewrite !decide_False by (intros ->; unfold callee_saved in Hq; set_solver).
      rewrite Hout3 by (unfold arg_regs, callee_saved in *; set_solver).
      simpl. rewrite decide_False by (intros ->; unfold callee_saved in Hq; set_solver).
      rewrite Hin1 by (unfold preserved_regs, callee_saved in *; set_solver).
      unfold callee_saved in Hq. destruct q; set_solver.
    + intros q Hq. rewrite !(decide_False (P := q = RSP)) by (intros ->; set_solver).
      rewrite !(decide_False (P := q = RAX)) by (intros ->; set_solver).
      case_decide; [by subst|]. apply Hin3. unfold arg_regs. set_solver.
  - unfold same_fp in *. simpl in *. destruct Hfp1 as (<- & <- & <- & <-). naive_solver.
  - done.
Qed.

(** ** Switching *)

Definition fp_mapped (s : machine) (a : Z) : Prop :=
  is_Some (fenv_mem s !! (a + oFPREGSMEM)) /\ is_Some (mxcsr_mem s !! (a + oMXCSR)).

(** The floating-point state: control word, MXCSR and the save areas. *)
Definition fp_of (s : machine) : Z * Z * gmap Z Z * gmap Z Z :=
  (x87_cw s, mxcsr s, fenv_mem s, mxcsr_mem s).

(** A call of a switching routine from the context [a] (to be saved, returning
    to [ret]) to the context [b], which holds the registers [v] and continues
    at [r].  The two contexts and the two stacks do not overlap. *)
Record swap_pre (s : machine) (a b ret : Z) (v : reg -> Z) (r : Z) : Prop := {
  sp_rdi : regs s RDI = a;
  sp_rsi : regs s RSI = b;
  sp_a : ctx_addr a;
  sp_b : ctx_addr b;
  sp_disj : a + 0x1c8 <= b \/ b + 0x1c8 <= a;
  sp_mapped : ctx_mapped (mem s) a;
  sp_fpa : fp_mapped s a;
  sp_fpb : fp_mapped s b;
  sp_rsp : 0 <= regs s RSP /\ regs s RSP + 8 < 2 ^ 64;
  sp_ret : mem s !! regs s RSP = Some ret;
  sp_out : ~ in_ctx a (regs s RSP);
  sp_saved : ctx_saved (mem s) b v r;
  sp_vrsp : 0 <= v RSP /\ v RSP + 8 < 2 ^ 64;
  sp_slot : is_Some (mem s !! v RSP);
  sp_va : ~ in_ctx a (v RSP);
  sp_vb : ~ in_ctx b (v RSP)
}.

Lemma ctx_saved_frame m m' b v r :
  (forall x, in_ctx b x -> m' !! x = m !! x) -> ctx_saved m b v r -> ctx_saved m' b v r.
Proof.
  intros Hf [H1 H2 H3 H4].
  split; intros; rewrite Hf; try auto; try (by apply slot_in_ctx).
  apply slot_in_ctx. pose proof saved_slots as Hs. rewrite Forall_forall in Hs. apply Hs.
  apply list_elem_of_fmap. by exists (q, off).
Qed.

(** The part of a routine between saving and resuming: it may use [%rcx] and
    changes the floating-point state by [f]. *)
Definition mid_effect (mid : list instr) (a b : Z)
    (f : Z * Z * gmap Z Z * gmap Z Z -> Z * Z * gmap Z Z * gmap Z Z) : Prop :=
  forall s, regs s RDI = a -> regs s RSI = b -> regs s RCX = a + oFPREGSMEM ->
    ctx_addr a -> ctx_addr b -> fp_mapped s a -> fp_mapped s b ->
    mem s !! (b + oFPREGS) = Some (b + oFPREGSMEM) ->
    exists s', exec s mid = Ok s' /\ (forall q, q <> RCX -> regs s' q = regs s q)
      /\ mem s' = mem s /\ fp_of s' = f (fp_of s).

Lemma exec_swap mid f s a b ret v r :
  mid_effect mid a b f -> swap_pre s a b ret v r ->
  exists s', exec s (save_ctx ++ mid ++ resume_ctx) = Ok s' /\ resumed s' v r
    /\ ctx_saved (mem s') a (regs s) ret /\ fp_of s' = f (fp_of s)
    /\ (forall x, ~ in_ctx a x -> x <> v RSP -> mem s' !! x = mem s !! x).
Proof.
  intros Hmid Hp. destruct Hp. rewrite exec_app.
  destruct (exec_save s a ret) as (s1 & -> & Hq1 & Hcx1 & Hfp1 & Hsv1 & Hm1 & Hsome1); try done; [lia..|].
  assert (Hsv : ctx_saved (mem s1) b v r).
  { apply (ctx_saved_frame (mem s)); [|done]. intros x Hx. apply Hm1. unfold in_ctx in *. lia. }
  cbn [mbind outcome_bind]. rewrite exec_app.
  destruct Hfp1 as (E1 & E2 & E3 & E4).
  destruct (Hmid s1) as (s2 & -> & Hq2 & Hm2 & Hf2); try done;
    [by rewrite Hq1|by rewrite Hq1|by unfold fp_mapped in *; rewrite E3, E4..|apply Hsv|].
  cbn [mbind outcome_bind].
  destruct (exec_resume s2 b v r) as (s3 & -> & Hres & Hfp3 & Hm3); try done; try lia.
  - by rewrite Hq2, Hq1.
  - by rewrite Hm2.
  - rewrite Hm2. by apply Hsome1.
  - exists s3. destruct Hfp3 as (F1 & F2 & F3 & F4). split_and!; try done.
    + rewrite Hm3, Hm2. by apply ctx_saved_insert.
    + unfold fp_of in *. rewrite F1, F2, F3, F4, Hf2. by rewrite E1, E2, E3, E4.
    + intros x Hx Hne. rewrite Hm3, Hm2, lookup_insert_ne by done. by apply Hm1.
Qed.

Inductive routine : Type := ToControl | Fast | VeryFast.

Definition code_of (k : routine) : list instr :=
  match k with
  | ToControl => swapcontext_fast_to_control
  | Fast => swapcontext_fast
  | VeryFast => swapcontext_very_fast
  end.

(** What each routine does to the floating-point state. *)
Definition fp_effect (k : routine) (a b : Z) (fp : Z * Z * gmap Z Z * gmap Z Z)
  : Z * Z * gmap Z Z * gmap Z Z :=
  let '(cw, mx, fm, mm) := fp in
  match k with
  | ToControl => (Z.lor cw 63, mx, <[a + oFPREGSMEM := cw]> fm, <[a + oMXCSR := mx]> mm)
  | Fast => (default cw (fm !! (b + oFPREGSMEM)), default mx (mm !! (b + oMXCSR)), fm, mm)
  | VeryFast => (cw, mx, fm, mm)
  end.

Lemma step_fnstenv s b v :
  regs s b = v -> 0 <= v < 2 ^ 64 -> is_Some (fenv_mem s !! v) ->
  step s (Fnstenv b) =
    Ok (mk_machine (regs s) (rip s) (mem s) (Z.lor (x87_cw s) 63) (mxcsr s)
          (<[v := x87_cw s]> (fenv_mem s)) (mxcsr_mem s)).
Proof. intros Hb Hr E. simpl. unfold ea. rewrite Hb, Z.add_0_r, u64_id by done. by rewrite write_some. Qed.

Lemma step_fldenv s b v w :
  regs s b = v -> 0 <= v < 2 ^ 64 -> fenv_mem s !! v = Some w ->
  step s (Fldenv b) =
    Ok (mk_machine (regs s) (rip s) (mem s) w (mxcsr s) (fenv_mem s) (mxcsr_mem s)).
Proof. intros Hb Hr E. simpl. unfold ea, read. rewrite Hb, Z.add_0_r, u64_id by done. by rewrite E. Qed.

Lemma step_stmxcsr s off b v :
  regs s b = v -> 0 <= v + off < 2 ^ 64 -> is_Some (mxcsr_mem s !! (v + off)) ->
  step s (Stmxcsr off b) =
    Ok (mk_machine (regs s) (rip s) (mem s) (x87_cw s) (mxcsr s) (fenv_mem s)
          (<[v + off := mxcsr s]> (mxcsr_mem s))).
Proof. intros Hb Hr E. simpl. unfold ea. rewrite Hb, u64_id by done. by rewrite write_some. Qed.

Lemma step_ldmxcsr s off b v w :
  regs s b = v -> 0 <= v + off < 2 ^ 64 -> mxcsr_mem s !! (v + off) = Some w ->
  step s (Ldmxcsr off b) =
    Ok (mk_machine (regs s) (rip s) (mem s) (x87_cw s) w (fenv_mem s) (mxcsr_mem s)).
Proof. intros Hb Hr E. simpl. unfold ea, read. rewrite Hb, u64_id by done. by rewrite E. Qed.

Lemma mid_to_control a b :
  mid_effect [Fnstenv RCX; Stmxcsr oMXCSR RDI; Load oFPREGS RSI RCX] a b (fp_effect ToControl a b).
Proof.
  intros s Ha Hb Hc Hra Hrb [Hfa Hma] _ Hfb. unfold ctx_addr in *.
  erewrite exec_cons by (apply (step_fnstenv _ _ (a + oFPREGSMEM)); [done|unfold oFPREGSMEM; lia|done]).
  erewrite exec_cons by (apply (step_stmxcsr _ _ _ a); [done|unfold oMXCSR; lia|done]).
  erewrite exec_cons by (apply (step_load _ _ _ _ b (b + oFPREGSMEM)); [done|unfold oFPREGS; lia|done]).
  eexists. split_and!; [done| |done|done]. intros q Hq. simpl. by rewrite decide_False.
Qed.

Lemma mid_fast a b :
  mid_effect [Load oFPREGS RSI RCX; Fldenv RCX; Ldmxcsr oMXCSR RSI] a b (fp_effect Fast a b).
Proof.
  intros s Ha Hb Hc Hra Hrb _ [[w Hfb] [x Hmb]] Hpb. unfold ctx_addr in *.
  erewrite exec_cons by (apply (step_load _ _ _ _ b (b + oFPREGSMEM)); [done|unfold oFPREGS; lia|done]).
  erewrite exec_cons by (apply (step_fldenv _ _ (b + oFPREGSMEM) w); [done|unfold oFPREGSMEM; lia|done]).
  erewrite exec_cons by (apply (step_ldmxcsr _ _ _ b x); [done|unfold oMXCSR; lia|done]).
  eexists. split_and!; [done| |done|].
  - intros q Hq. simpl. by rewrite decide_False.
  - unfold fp_of. simpl. by rewrite Hfb, Hmb.
Qed.

Lemma mid_very_fast a b : mid_effect [Load oFPREGS RSI RCX] a b (fp_effect VeryFast a b).
Proof.
  intros s Ha Hb Hc Hra Hrb _ _ Hpb. unfold ctx_addr in *.
  rewrite (exec_cons _ _ _ _ (step_load s oFPREGS RSI RCX b (b + oFPREGSMEM) Hb
    ltac:(unfold oFPREGS; lia) Hpb)).
  eexists. split_and!; [done| |done|done]. intros q Hq. simpl. by rewrite decide_False.
Qed.

Lemma exec_routine k s a b ret v r :
  swap_pre s a b ret v r ->
  exists s', exec s (code_of k) = Ok s' /\ resumed s' v r
    /\ ctx_saved (mem s') a (regs s) ret /\ fp_of s' = fp_effect k a b (fp_of s)
    /\ (forall x, ~ in_ctx a x -> x <> v RSP -> mem s' !! x = mem s !! x).
Proof.
  intros Hp. destruct k; simpl code_of.
  - rewrite to_control_parts. by apply (exec_swap _ _ s a b ret v r (mid_to_control a b)).
  - rewrite fast_parts. by apply (exec_swap _ _ s a b ret v r (mid_fast a b)).
  - rewrite very_fast_parts. by apply (exec_swap _ _ s a b ret v r (mid_very_fast a b)).
Qed.

(** The state [s2] is about to switch back to the context [a] that [s] saved
    when it called the routine; nothing has written to that context since. *)
Record switch_back (s s1 s2 : machine) (a c ret2 : Z) : Prop := {
  sb_ctx : forall x, in_ctx a x -> mem s2 !! x = mem s1 !! x;
  sb_rdi : regs s2 RDI = c;
  sb_rsi : regs s2 RSI = a;
  sb_c : ctx_addr c;
  sb_disj : a + 0x1c8 <= c \/ c + 0x1c8 <= a;
  sb_mapped : ctx_mapped (mem s2) c;
  sb_fpa : fp_mapped s2 a;
  sb_fpc : fp_mapped s2 c;
  sb_rsp : 0 <= regs s2 RSP /\ regs s2 RSP + 8 < 2 ^ 64;
  sb_ret : mem s2 !! regs s2 RSP = Some ret2;
  sb_out : ~ in_ctx c (regs s2 RSP);
  sb_slot : is_Some (mem s2 !! regs s RSP);
  sb_slot_c : ~ in_ctx c (regs s RSP)
}.

Lemma switch_back_pre k s s1 s2 a b c ret ret2 v r :
  swap_pre s a b ret v r -> exec s (code_of k) = Ok s1 -> switch_back s s1 s2 a c ret2 ->
  swap_pre s2 c a ret2 (regs s) ret.
Proof.
  intros Hp E Hb. destruct (exec_routine k s a b ret v r Hp) as (s1' & E' & _ & Hsv & _ & _).
  ok_agree. destruct Hp, Hb. split; try done; try lia.
  by eapply ctx_saved_frame.
Qed.

End ContextSwitch.

Import ContextSwitch.

(** C7. A context switch loses nothing: whichever routine switches away from
    a context and whichever routine later switches back to it, execution
    continues at the return address of the first call, with the stack pointer
    behind it, the callee-saved and the argument registers as they were at that
    call, and zero as the result. *)
Theorem context_switch_roundtrip (k k' : routine) s a b ret v r :
  swap_pre s a b ret v r ->
  exists s1, exec s (code_of k) = Ok s1 /\ resumed s1 v r
    /\ forall s2 c ret2, switch_back s s1 s2 a c ret2 ->
         exists s3, exec s2 (code_of k') = Ok s3 /\ resumed s3 (regs s) ret.
Proof.
  intros Hp. destruct (exec_routine k _ _ _ _ _ _ Hp) as (s1 & E & Hr & _).
  exists s1. split_and!; [done|done|]. intros s2 c ret2 Hb.
  pose proof (switch_back_pre k _ _ _ _ _ _ _ _ _ _ Hp E Hb) as Hp2.
  destruct (exec_routine k' _ _ _ _ _ _ Hp2) as (s3 & E3 & Hr3 & _). by exists s3.
Qed.

(** The floating-point state across a preemption: a context that leaves
    through [swapcontext_fast_to_control] and is resumed by [swapcontext_fast]
    finds its own x87 control word and MXCSR, while the context switched to in
    between runs with the MXCSR of the one that left and with all x87
    exceptions masked. *)
Theorem preempted_fp_restored s a b ret v r :
  swap_pre s a b ret v r ->
  exists s1, exec s swapcontext_fast_to_control = Ok s1
    /\ mxcsr s1 = mxcsr s /\ x87_cw s1 = Z.lor (x87_cw s) 63
    /\ forall s2 c ret2, switch_back s s1 s2 a c ret2 ->
         fenv_mem s2 !! (a + oFPREGSMEM) = fenv_mem s1 !! (a + oFPREGSMEM) ->
         mxcsr_mem s2 !! (a + oMXCSR) = mxcsr_mem s1 !! (a + oMXCSR) ->
         exists s3, exec s2 swapcontext_fast = Ok s3
           /\ mxcsr s3 = mxcsr s /\ x87_cw s3 = x87_cw s.
Proof.
  intros Hp. destruct (exec_routine ToControl _ _ _ _ _ _ Hp) as (s1 & E & Hr & _ & Hf & _).
  unfold fp_of in Hf. simpl in Hf. injection Hf as H1 H2 H3 H4.
  exists s1. split_and!; [done..|]. intros s2 c ret2 Hb Hfe Hmx.
  pose proof (switch_back_pre ToControl _ _ _ _ _ _ _ _ _ _ Hp E Hb) as Hp2.
  destruct (exec_routine Fast _ _ _ _ _ _ Hp2) as (s3 & E3 & _ & _ & Hf3 & _).
  exists s3. unfold fp_of in Hf3. simpl in Hf3. injection Hf3 as F1 F2 _ _.
  rewrite F1, F2, Hfe, Hmx, H3, H4, !lookup_insert_eq. done.
Qed.

(** [getcontext_fast] returns zero to its caller with the callee-saved
    registers, the stack pointer and the floating-point state unchanged, and
    leaves a context that resumes at that very point. *)
Theorem getcontext_fast_correct s a ret :
  regs s RDI = a -> ctx_addr a -> ctx_mapped (mem s) a -> fp_mapped s a ->
  0 <= regs s RSP -> regs s RSP + 8 < 2 ^ 64 -> mem s !! regs s RSP = Some ret ->
  ~ in_ctx a (regs s RSP) ->
  exists s', exec s getcontext_fast = Ok s'
    /\ rip s' = ret /\ regs s' RSP = regs s RSP + 8 /\ regs s' RAX = 0
    /\ (forall q, q ∈ callee_saved -> regs s' q = regs s q)
    /\ x87_cw s' = x87_cw s /\ mxcsr s' = mxcsr s
    /\ ctx_saved (mem s') a (regs s) ret
    /\ fenv_mem s' !! (a + oFPREGSMEM) = Some (x87_cw s)
    /\ mxcsr_mem s' !! (a + oMXCSR) = Some (mxcsr s).
Proof.
  intros Ha Hr Hm [Hf Hx] H0 H1 Hret Hout. rewrite getcontext_parts, exec_app.
  destruct (exec_save s a ret) as (s1 & -> & Hq & Hc & (E1 & E2 & E3 & E4) & Hs & Hfr & _); try done.
  cbn [mbind outcome_bind]. unfold ctx_addr in Hr.
  erewrite exec_cons by (apply (step_fnstenv _ _ (a + oFPREGSMEM));
    [done|unfold oFPREGSMEM; lia|by rewrite E3]).
  erewrite exec_cons by (apply (step_fldenv _ _ (a + oFPREGSMEM) (x87_cw s1));
    [done|unfold oFPREGSMEM; lia|by simpl; rewrite lookup_insert_eq]).
  erewrite exec_cons by (apply (step_stmxcsr _ _ _ a);
    [simpl; by rewrite Hq|unfold oMXCSR; lia|simpl; by rewrite E4]).
  simpl. unfold read. rewrite Hq by done. rewrite Hfr, Hret by done. simpl.
  eexists. split; [done|]. simpl. rewrite !lookup_insert_eq, E1, E2, u64_id by lia.
  split_and!; try done. intros q Hin.
  assert (q <> RCX /\ q <> RAX /\ q <> RSP) as (? & ? & ?)
    by (unfold callee_saved in Hin; set_solver).
  rewrite !decide_False by done. by apply Hq.
Qed.

(** ** An example: two contexts at 1024 and 2048, their stacks above *)

Definition example_swap_words : gmap Z Z :=
  list_to_map ((fun i => (1024 + 8 * Z.of_nat i, 0)) <$> seq 0 320).

Definition example_saved (q : reg) : Z := match q with RSP => 3520 | _ => 7 end.

Definition example_swap_mem : gmap Z Z :=
  <[3008 := 555]> (<[2048 + oFPREGS := 2048 + oFPREGSMEM]> (<[2048 + oRSP := 3528]>
    (<[2048 + oRIP := 777]> (store_all 2048 example_saved saved_regs example_swap_words)))).

Definition example_fp : gmap Z Z := <[1448 := 895]> (<[2472 := 895]> ∅).
Definition example_mx : gmap Z Z := <[1472 := 8064]> (<[2496 := 8064]> ∅).

Definition example_machine : machine :=
  mk_machine (fun q => match q with RDI => 1024 | RSI => 2048 | RSP => 3008 | _ => 9 end) 0
    example_swap_mem 639 8100 example_fp example_mx.

(** The state that switches back from the second context to the first. *)
Definition example_back (s1 : machine) : machine :=
  mk_machine (fun q => match q with RDI => 2048 | RSI => 1024 | RSP => 3400 | _ => 3 end) 0
    (mem s1) (x87_cw s1) (mxcsr s1) (fenv_mem s1) (mxcsr_mem s1).

Lemma example_mapped x :
  1024 <= x < 3584 -> x mod 8 = 0 -> is_Some (example_swap_mem !! x).
Proof.
  intros Hx Hm. unfold example_swap_mem. rewrite 4!lookup_insert_is_Some'. do 4 right.
  apply store_all_some. apply elem_of_dom. unfold example_swap_words.
  rewrite dom_list_to_map_L, elem_of_list_to_set, <- list_fmap_compose.
  apply list_elem_of_fmap. exists (Z.to_nat ((x - 1024) / 8)). split.
  - simpl. Z.div_mod_to_equations. lia.
  - apply elem_of_seq. split; [lia|]. simpl. Z.div_mod_to_equations. lia.
Qed.

Lemma example_ctx_mapped a : a = 1024 \/ a = 2048 -> ctx_mapped example_swap_mem a.
Proof. intros Ha off [Hoff H8]. apply example_mapped; [|Z.div_mod_to_equations]; lia. Qed.

Lemma example_saved_ctx : ctx_saved example_swap_mem 2048 example_saved 777.
Proof.
  constructor; [|by vm_compute..]. intros q off Hin.
  assert (Hf : forallb (fun x => bool_decide (example_swap_mem !! (2048 + x.2) = Some (example_saved x.1)))
    saved_regs = true) by by vm_compute.
  rewrite forallb_forall in Hf. specialize (Hf (q, off)).
  apply bool_decide_eq_true in Hf; [done|]. by apply list_elem_of_In.
Qed.

Lemma example_swap_pre : swap_pre example_machine 1024 2048 555 example_saved 777.
Proof.
  constructor.
  - reflexivity.
  - reflexivity.
  - unfold ctx_addr. lia.
  - unfold ctx_addr. lia.
  - lia.
  - apply (example_ctx_mapped 1024). by left.
  - split; eexists; vm_compute; reflexivity.
  - split; eexists; vm_compute; reflexivity.
  - split; by vm_compute.
  - by vm_compute.
  - unfold in_ctx. cbn [regs example_machine]. lia.
  - apply example_saved_ctx.
  - split; by vm_compute.
  - by apply (example_mapped 3520).
  - unfold in_ctx, example_saved. lia.
  - unfold in_ctx, example_saved. lia.
Qed.

Lemma example_switch_back k s1 :
  exec example_machine (code_of k) = Ok s1 ->
  switch_back example_machine s1 (example_back s1) 1024 2048 0.
Proof.
  intros E. destruct (exec_routine k _ _ _ _ _ _ example_swap_pre) as (s' & E' & _ & _ & Hf & Hm).
  ok_agree. unfold example_back.
  assert (Hfp : fp_mapped s' 1024 /\ fp_mapped s' 2048).
  { unfold fp_of in Hf. destruct k; injection Hf as _ _ F1 F2; unfold fp_mapped;
      rewrite F1, F2; split; split; eexists; vm_compute; reflexivity. }
  constructor; cbn [regs mem]; try reflexivity; try (unfold ctx_addr, in_ctx; lia); try apply Hfp.
  - intros off Hoff. pose proof (slot_in_ctx 2048 off Hoff) as Hin.
    rewrite Hm by (unfold in_ctx in *; simpl; lia). by apply example_ctx_mapped; [right|].
  - rewrite Hm by (unfold in_ctx; simpl; lia). by vm_compute.
  - rewrite Hm by (unfold in_ctx; simpl; lia). by apply example_mapped.
  - unfold in_ctx. cbn [regs example_machine]. lia.
Qed.

Lemma context_switch_roundtrip_witness :
  exists s1 s3, exec example_machine swapcontext_very_fast = Ok s1
    /\ exec (example_back s1) swapcontext_fast_to_control = Ok s3
    /\ resumed s3 (regs example_machine) 555.
Proof.
  destruct (context_switch_roundtrip VeryFast ToControl example_machine 1024 2048 555
    example_saved 777 example_swap_pre) as (s1 & E & _ & Hback).
  destruct (Hback (example_back s1) 2048 0 (example_switch_back VeryFast s1 E)) as (s3 & E3 & Hr).
  exists s1, s3. split; [exact E|]. split; [exact E3|exact Hr].
Defined.

Lemma preempted_fp_restored_witness :
  exists s1 s3, exec example_machine swapcontext_fast_to_control = Ok s1
    /\ exec (example_back s1) swapcontext_fast = Ok s3
    /\ mxcsr s3 = 8100 /\ x87_cw s3 = 639.
Proof.
  destruct (preempted_fp_restored example_machine 1024 2048 555
    example_saved 777 example_swap_pre) as (s1 & E & _ & _ & Hback).
  destruct (Hback (example_back s1) 2048 0 (example_switch_back ToControl s1 E) eq_refl eq_refl)
    as (s3 & E3 & H1 & H2).
  exists s1, s3. split; [exact E|]. split; [exact E3|]. split; [exact H1|exact H2].
Defined.

Lemma getcontext_fast_correct_witness :
  exists s', exec example_machine getcontext_fast = Ok s'
    /\ rip s' = 555 /\ regs s' RSP = 3016 /\ ctx_saved (mem s') 1024 (regs example_machine) 555.
Proof.
  destruct (getcontext_fast_correct example_machine 1024 555)
    as (s' & E & H1 & H2 & _ & _ & _ & _ & H3 & _).
  - reflexivity.
  - unfold ctx_addr. lia.
  - apply example_ctx_mapped. by left.
  - apply (sp_fpa _ _ _ _ _ _ example_swap_pre).
  - simpl. lia.
  - simpl. lia.
  - apply (sp_ret _ _ _ _ _ _ example_swap_pre).
  - unfold in_ctx. simpl. lia.
  - exists s'. split; [exact E|]. split; [exact H1|]. split; [exact H2|exact H3].
Defined.
