(* ===== verification/Ring.v ===== *)
(** * Ring: bounded rings with free-running counters

    Shared by the receive and send rings of [UdpContext], the request queues of
    [RequestType] and the LRPC channels: an array whose length is a power of
    two, read and written at a counter masked with the length. *)
From S2P Require Import Prelude.

(** From position [tail] on the array holds [l]. *)
Record ring_holds {A} (buf : list A) (len tail : Z) (l : list A) : Prop := {
  rh_pos : 0 < len;
  rh_buf : length buf = Z.to_nat len;
  rh_len : Z.of_nat (length l) <= len;
  rh_at : forall k x, l !! k = Some x -> buf !! Z.to_nat ((tail + Z.of_nat k) mod len) = Some x
}.

(** The element at a masked 32-bit counter. *)
Lemma ring_index (k c : Z) : 0 <= k <= 32 -> Z.land (u32 c) (2 ^ k - 1) = c mod 2 ^ k.
Proof. intros Hk. rewrite land_mask by lia. by apply mod_u32. Qed.

Section ring.
Context {A : Type}.
Implicit Types (buf l : list A).

Lemma ring_empty buf len tail : 0 < len -> length buf = Z.to_nat len -> ring_holds buf len tail [].
Proof. intros Hl Hb. split; [done|done|simpl; lia|intros k x; by rewrite lookup_nil]. Qed.

Lemma ring_front buf len tail x l :
  ring_holds buf len tail (x :: l) -> buf !! Z.to_nat (tail mod len) = Some x.
Proof. intros Hr. rewrite <- (Z.add_0_r tail). by apply (rh_at _ _ _ _ Hr 0%nat). Qed.

Lemma ring_pop buf len tail x l :
  ring_holds buf len tail (x :: l) -> ring_holds buf len (tail + 1) l.
Proof.
  intros [Hp Hb Hl Ha]. split; [done|done|simpl in Hl; lia|].
  intros k y Hk. specialize (Ha (S k) y Hk).
  by replace (tail + 1 + Z.of_nat k) with (tail + Z.of_nat (S k)) by lia.
Qed.

Lemma ring_index_lt buf len c : 0 < len -> length buf = Z.to_nat len ->
  (Z.to_nat (c mod len) < length buf)%nat.
Proof. intros Hl Hb. pose proof (Z.mod_pos_bound c len). lia. Qed.

Lemma ring_push buf len tail l x :
  ring_holds buf len tail l -> Z.of_nat (length l) < len ->
  ring_holds (<[Z.to_nat ((tail + Z.of_nat (length l)) mod len) := x]> buf) len tail (l ++ [x]).
Proof.
  intros [Hp Hb Hl Ha] Hlt. split; [done|by rewrite length_insert|rewrite length_app; simpl; lia|].
  intros k y Hk. apply lookup_app_Some in Hk as [Hk|[Hge Hk]].
  - pose proof (lookup_lt_Some _ _ _ Hk) as Hlk. rewrite list_lookup_insert_ne; [by apply Ha|].
    intros Heq. apply Z2Nat.inj in Heq; [|apply Z.mod_pos_bound; lia..].
    assert (Hd : (Z.of_nat (length l) - Z.of_nat k) mod len = 0).
    { replace (Z.of_nat (length l) - Z.of_nat k)
        with ((tail + Z.of_nat (length l)) - (tail + Z.of_nat k)) by lia.
      rewrite Zminus_mod, Heq, Z.sub_diag. apply Z.mod_0_l. lia. }
    rewrite Z.mod_small in Hd by lia. lia.
  - assert (Hk0 : (k - length l)%nat = 0%nat) by (apply lookup_lt_Some in Hk; simpl in Hk; lia).
    rewrite Hk0 in Hk. injection Hk as <-. replace k with (length l) by lia.
    apply list_lookup_insert_eq. by eapply ring_index_lt.
Qed.

End ring.
