(* ===== verification/Bytes.v ===== *)
(** * Bytes: little-endian words in buffers

    A buffer is a list of bytes, each a [Z] below 256; the program reads and
    writes the 16, 32 and 64-bit words of packets and requests through cast
    pointers, on a little-endian machine and without alignment. *)
From S2P Require Import Prelude.

Definition le_word (bs : list Z) : Z := foldr (fun b acc => b + 256 * acc) 0 bs.

Fixpoint le_bytes (n : nat) (v : Z) : list Z :=
  match n with
  | O => []
  | S n => v mod 256 :: le_bytes n (v / 256)
  end.

(** [*(uintN_t * )(buf + off)] for a word of [n] bytes: outside of the buffer
    the access has no meaning. *)
Definition load (n : nat) (buf : list Z) (off : Z) : outcome Z :=
  if decide (0 <= off /\ off + Z.of_nat n <= Z.of_nat (length buf)) then
    Ok (le_word (take n (drop (Z.to_nat off) buf)))
  else UB.

Definition store (n : nat) (buf : list Z) (off v : Z) : outcome (list Z) :=
  if decide (0 <= off /\ off + Z.of_nat n <= Z.of_nat (length buf)) then
    Ok (take (Z.to_nat off) buf ++ le_bytes n v ++ drop (Z.to_nat off + n) buf)
  else UB.

(** [memcpy] and [memset] into a buffer. *)
Definition blit (buf : list Z) (off : Z) (bs : list Z) : outcome (list Z) :=
  if decide (0 <= off /\ off + Z.of_nat (length bs) <= Z.of_nat (length buf)) then
    Ok (take (Z.to_nat off) buf ++ bs ++ drop (Z.to_nat off + length bs) buf)
  else UB.

Definition byte_ok (b : Z) : Prop := 0 <= b < 256.

Lemma length_le_bytes n v : length (le_bytes n v) = n.
Proof. revert v. induction n as [|n IH]; intros v; simpl; [done|]. by rewrite IH. Qed.

Lemma le_bytes_ok n v : Forall byte_ok (le_bytes n v).
Proof.
  revert v. induction n as [|n IH]; intros v; simpl; constructor; [|done].
  unfold byte_ok. apply Z.mod_pos_bound. lia.
Qed.

Lemma le_word_bytes n v : le_word (le_bytes n v) = v mod 2 ^ (8 * Z.of_nat n).
Proof.
  revert v. induction n as [|n IH]; intros v; cbn [le_bytes le_word foldr].
  - by rewrite Z.mod_1_r.
  - fold (le_word (le_bytes n (v / 256))). rewrite IH.
    replace (8 * Z.of_nat (S n)) with (8 + 8 * Z.of_nat n) by lia.
    rewrite Z.pow_add_r by lia. rewrite Z.rem_mul_r by lia. done.
Qed.

Lemma le_word_range bs : Forall byte_ok bs -> 0 <= le_word bs < 2 ^ (8 * Z.of_nat (length bs)).
Proof.
  induction 1 as [|b bs Hb _ IH]; cbn [le_word foldr length]; [simpl; lia|].
  fold (le_word bs). unfold byte_ok in Hb.
  replace (8 * Z.of_nat (S (length bs))) with (8 + 8 * Z.of_nat (length bs)) by lia.
  rewrite Z.pow_add_r by lia. change (2 ^ 8) with 256. lia.
Qed.

Lemma le_word_app a b : le_word (a ++ b) = le_word a + 2 ^ (8 * Z.of_nat (length a)) * le_word b.
Proof.
  induction a as [|x a IH]; cbn [app le_word foldr length].
  - change (8 * Z.of_nat 0) with 0. fold (le_word b). lia.
  - fold (le_word (a ++ b)). fold (le_word a). rewrite IH.
    replace (8 * Z.of_nat (S (length a))) with (8 + 8 * Z.of_nat (length a)) by lia.
    rewrite Z.pow_add_r by lia. change (2 ^ 8) with 256. lia.
Qed.

Section access.
Context (n : nat) (buf : list Z) (off : Z).
Hypothesis Hin : 0 <= off /\ off + Z.of_nat n <= Z.of_nat (length buf).

Lemma load_bytes_Ok : load n buf off = Ok (le_word (take n (drop (Z.to_nat off) buf))).
Proof. unfold load. by rewrite decide_True. Qed.

Lemma store_Ok v :
  store n buf off v = Ok (take (Z.to_nat off) buf ++ le_bytes n v ++ drop (Z.to_nat off + n) buf).
Proof. unfold store. by rewrite decide_True. Qed.

End access.

(** What a store leaves: the length, the bytes outside, and the word itself. *)
Lemma store_inv n buf off v buf' :
  store n buf off v = Ok buf' ->
  0 <= off /\ off + Z.of_nat n <= Z.of_nat (length buf)
  /\ buf' = take (Z.to_nat off) buf ++ le_bytes n v ++ drop (Z.to_nat off + n) buf.
Proof. unfold store. case_decide as Hd; [|done]. intros [= <-]. naive_solver. Qed.

Lemma length_store n buf off v buf' : store n buf off v = Ok buf' -> length buf' = length buf.
Proof.
  intros (H1 & H2 & ->)%store_inv.
  rewrite !length_app, length_take, length_le_bytes, length_drop. lia.
Qed.

Lemma store_bytes_ok n buf off v buf' :
  store n buf off v = Ok buf' -> Forall byte_ok buf -> Forall byte_ok buf'.
Proof.
  intros (H1 & H2 & ->)%store_inv Hb.
  apply Forall_app. split; [by apply Forall_take|]. apply Forall_app.
  split; [apply le_bytes_ok|by apply Forall_drop].
Qed.

Lemma load_store_same n buf off v buf' :
  store n buf off v = Ok buf' -> load n buf' off = Ok (v mod 2 ^ (8 * Z.of_nat n)).
Proof.
  intros Hs. pose proof (length_store _ _ _ _ _ Hs) as Hl.
  apply store_inv in Hs as (H1 & H2 & ->). rewrite load_bytes_Ok by (rewrite Hl; lia). f_equal.
  rewrite drop_app_length' by (rewrite length_take; lia).
  rewrite take_app_length' by (by rewrite length_le_bytes). apply le_word_bytes.
Qed.

Lemma blit_is_Ok buf off bs :
  0 <= off -> off + Z.of_nat (length bs) <= Z.of_nat (length buf) -> exists b, blit buf off bs = Ok b.
Proof. intros H1 H2. unfold blit. rewrite decide_True by done. by eexists. Qed.

Lemma blit_inv buf off bs buf' :
  blit buf off bs = Ok buf' ->
  0 <= off /\ off + Z.of_nat (length bs) <= Z.of_nat (length buf)
  /\ buf' = take (Z.to_nat off) buf ++ bs ++ drop (Z.to_nat off + length bs) buf.
Proof. unfold blit. case_decide as Hd; [|done]. intros [= <-]. naive_solver. Qed.

Lemma length_blit buf off bs buf' : blit buf off bs = Ok buf' -> length buf' = length buf.
Proof.
  intros (H1 & H2 & ->)%blit_inv. rewrite !length_app, length_take, length_drop. lia.
Qed.

Lemma store_blit n buf off v : store n buf off v = blit buf off (le_bytes n v).
Proof. unfold store, blit. by rewrite length_le_bytes. Qed.

(** A word inside of what was copied is the word of the source. *)
Lemma load_blit_same buf off bs buf' n k :
  blit buf off bs = Ok buf' -> 0 <= k -> k + Z.of_nat n <= Z.of_nat (length bs) ->
  load n buf' (off + k) = load n bs k.
Proof.
  intros Hs Hk Hn. pose proof (length_blit _ _ _ _ Hs) as Hl. apply blit_inv in Hs as (H1 & H2 & ->).
  rewrite !load_bytes_Ok by (rewrite ?Hl; lia). do 2 f_equal. apply list_eq. intros i.
  destruct (decide (i < n)%nat) as [Hi|Hi]; [|by rewrite !lookup_take_ge by lia].
  rewrite !lookup_take_lt, !lookup_drop by done.
  rewrite lookup_app_r by (rewrite length_take; lia).
  rewrite lookup_app_l by (rewrite length_take; lia). f_equal. rewrite length_take. lia.
Qed.

Lemma load_blit_other buf off bs buf' m off' :
  blit buf off bs = Ok buf' ->
  off' + Z.of_nat m <= off \/ off + Z.of_nat (length bs) <= off' ->
  load m buf' off' = load m buf off'.
Proof.
  intros Hs Hd. pose proof (length_blit _ _ _ _ Hs) as Hl.
  unfold load. rewrite Hl. case_decide as Hin; [|done]. do 2 f_equal.
  apply blit_inv in Hs as (H1 & H2 & ->). apply list_eq. intros i.
  destruct (decide (i < m)%nat) as [Hi|Hi]; [|by rewrite !lookup_take_ge by lia].
  rewrite !lookup_take_lt, !lookup_drop by done. destruct Hd as [Hd|Hd].
  - rewrite lookup_app_l by (rewrite length_take; lia). by apply lookup_take_lt; lia.
  - rewrite lookup_app_r by (rewrite length_take; lia).
    rewrite lookup_app_r by (rewrite length_take; lia).
    rewrite lookup_drop, length_take. f_equal. lia.
Qed.

Lemma load_store_other n buf off v buf' m off' :
  store n buf off v = Ok buf' ->
  off' + Z.of_nat m <= off \/ off + Z.of_nat n <= off' ->
  load m buf' off' = load m buf off'.
Proof. rewrite store_blit. intros Hs Hd. eapply load_blit_other; [done|]. by rewrite length_le_bytes. Qed.

Lemma load_range n buf off v :
  Forall byte_ok buf -> load n buf off = Ok v -> 0 <= v < 2 ^ (8 * Z.of_nat n).
Proof.
  unfold load. case_decide as Hin; [|done]. intros Hb [= <-].
  pose proof (le_word_range (take n (drop (Z.to_nat off) buf))) as Hr.
  rewrite length_take, length_drop in Hr.
  replace (n `min` (length buf - Z.to_nat off))%nat with n in Hr by lia.
  apply Hr. by apply Forall_take, Forall_drop.
Qed.

Lemma load_is_Ok n buf off :
  0 <= off -> off + Z.of_nat n <= Z.of_nat (length buf) -> exists v, load n buf off = Ok v.
Proof. intros H1 H2. unfold load. rewrite decide_True by done. by eexists. Qed.

Lemma store_is_Ok n buf off v :
  0 <= off -> off + Z.of_nat n <= Z.of_nat (length buf) -> exists b, store n buf off v = Ok b.
Proof. intros H1 H2. unfold store. rewrite decide_True by done. by eexists. Qed.

(** A word inside of a prefix depends on the prefix only. *)
Lemma load_prefix n k (a b : list Z) off :
  take k a = take k b -> (k <= length a)%nat -> (k <= length b)%nat ->
  off + Z.of_nat n <= Z.of_nat k -> load n a off = load n b off.
Proof.
  intros He Ha Hb Hk. unfold load. destruct (decide (0 <= off)).
  - rewrite !decide_True by lia. do 2 f_equal. apply list_eq. intros i.
    destruct (decide (i < n)%nat); [|by rewrite !lookup_take_ge by lia].
    rewrite !lookup_take_lt, !lookup_drop by done.
    assert (Hi : (Z.to_nat off + i < k)%nat) by lia.
    rewrite <- (lookup_take_lt a k), <- (lookup_take_lt b k) by done. by rewrite He.
  - by rewrite !decide_False by lia.
Qed.
