(* ===== verification/Lrpc.v ===== *)
(** * Lrpc: shared-memory channels between the dispatcher and the workers

    Models [src/include/psp/libos/io/lrpc.h] and
    [src/src/c++/libos/io/lrpc/context.cc]: a ring of messages whose top command
    bit tells, by its parity, whether the slot has been filled in this lap, and
    a word through which the receiver publishes how far it has read.  Tables
    and words live in a heap, channels hold pointers to them. *)
From S2P Require Import Prelude Fail Ring.

Record lrpc_msg : Type := mk_msg { cmd : Z; payload : Z }.

Record lrpc_chan_out : Type := mk_out {
  o_tbl : Z;
  o_recv_head_wb : Z;
  send_head : Z;
  send_tail : Z;
  o_size : Z
}.

Record lrpc_chan_in : Type := mk_in {
  i_tbl : Z;
  i_recv_head_wb : Z;
  recv_head : Z;
  i_size : Z
}.

Record lheap : Type := mk_lheap { tbls : gmap Z (list lrpc_msg); wbs : gmap Z Z }.

Definition LRPC_DONE_PARITY : Z := 2 ^ 63.
Definition LRPC_CMD_MASK : Z := 2 ^ 63 - 1.
Definition LRPC_TX : Z := 0.
Definition LRPC_Q_LEN : Z := 4096.
Definition MAX_PEERS : nat := 32.

(** [is_power_of_two] on an [unsigned int]. *)
Definition is_power_of_two (x : Z) : bool :=
  negb (x =? 0) && (Z.land x (u32 (x - 1)) =? 0).

(** The bit that marks a slot as filled at the counter [head]. *)
Definition parity_of (head size : Z) : Z :=
  if negb (Z.land head size =? 0) then 0 else LRPC_DONE_PARITY.

Definition get_tbl (h : lheap) (p : Z) : outcome (list lrpc_msg) :=
  match tbls h !! p with Some t => Ok t | None => UB end.
Definition get_wb (h : lheap) (p : Z) : outcome Z :=
  match wbs h !! p with Some v => Ok v | None => UB end.

(** [dst->payload = payload; store_release(&dst->cmd, cmd)]. *)
Definition store_msg (h : lheap) (p i c v : Z) : outcome lheap :=
  t ← get_tbl h p;
  t ← arr_upd t i (fun m => mk_msg (cmd m) v);
  t ← arr_upd t i (fun m => mk_msg c (payload m));
  Ok (mk_lheap (<[p := t]> (tbls h)) (wbs h)).

Definition lrpc_send_slow (chan : lrpc_chan_out) (c v : Z) (h : lheap)
  : outcome (bool * lrpc_chan_out * lheap) :=
  _ ← PSP_TRUE EINVAL (u32 (send_head chan - send_tail chan) =? o_size chan);
  tail ← get_wb h (o_recv_head_wb chan);
  let chan := mk_out (o_tbl chan) (o_recv_head_wb chan) (send_head chan) tail (o_size chan) in
  if u32 (send_head chan - send_tail chan) =? o_size chan then Ok (false, chan, h)
  else
    let c := Z.lor c (parity_of (send_head chan) (o_size chan)) in
    h ← store_msg h (o_tbl chan) (Z.land (send_head chan) (u32 (o_size chan - 1))) c v;
    Ok (true, mk_out (o_tbl chan) (o_recv_head_wb chan) (u32 (send_head chan + 1))
                (send_tail chan) (o_size chan), h).

Definition lrpc_send (chan : lrpc_chan_out) (c v : Z) (h : lheap)
  : outcome (bool * lrpc_chan_out * lheap) :=
  _ ← PSP_TRUE EINVAL (Z.land c LRPC_DONE_PARITY =? 0);
  if o_size chan <=? u32 (send_head chan - send_tail chan) then lrpc_send_slow chan c v h
  else
    let i := Z.land (send_head chan) (u32 (o_size chan - 1)) in
    let c := Z.lor c (parity_of (send_head chan) (o_size chan)) in
    h ← store_msg h (o_tbl chan) i c v;
    Ok (true, mk_out (o_tbl chan) (o_recv_head_wb chan) (u32 (send_head chan + 1))
                (send_tail chan) (o_size chan), h).

Definition lrpc_init_out (tbl size wb : Z) : Z * option lrpc_chan_out :=
  if negb (is_power_of_two size) then (- EINVAL, None)
  else (0, Some (mk_out tbl wb 0 0 size)).

Definition lrpc_init_in (tbl size wb : Z) : Z * option lrpc_chan_in :=
  if negb (is_power_of_two size) then (- EINVAL, None)
  else (0, Some (mk_in tbl wb 0 size)).

Definition lrpc_get_cached_send_window (chan : lrpc_chan_out) : Z :=
  u32 (o_size chan - send_head chan + send_tail chan).

Definition lrpc_get_cached_length (chan : lrpc_chan_out) : Z :=
  u32 (send_head chan - send_tail chan).

Definition lrpc_poll_send_tail (chan : lrpc_chan_out) (h : lheap) : outcome (Z * lrpc_chan_out) :=
  tail ← get_wb h (o_recv_head_wb chan);
  Ok (tail, mk_out (o_tbl chan) (o_recv_head_wb chan) (send_head chan) tail (o_size chan)).

(** [lrpc_recv]: [None] is [false], [Some (cmd, payload)] the message read. *)
Definition lrpc_recv (chan : lrpc_chan_in) (h : lheap)
  : outcome (option (Z * Z) * lrpc_chan_in * lheap) :=
  t ← get_tbl h (i_tbl chan);
  m ← arr_get t (Z.land (recv_head chan) (u32 (i_size chan - 1)));
  let parity := parity_of (recv_head chan) (i_size chan) in
  if negb (Z.land (cmd m) LRPC_DONE_PARITY =? parity) then Ok (None, chan, h)
  else
    let chan := mk_in (i_tbl chan) (i_recv_head_wb chan) (u32 (recv_head chan + 1)) (i_size chan) in
    _ ← get_wb h (i_recv_head_wb chan);
    let h := mk_lheap (tbls h) (<[i_recv_head_wb chan := recv_head chan]> (wbs h)) in
    Ok (Some (Z.land (cmd m) LRPC_CMD_MASK, payload m), chan, h).

Definition lrpc_empty (chan : lrpc_chan_in) (h : lheap) : outcome bool :=
  t ← get_tbl h (i_tbl chan);
  m ← arr_get t (Z.land (recv_head chan) (u32 (i_size chan - 1)));
  let parity := parity_of (recv_head chan) (i_size chan) in
  Ok (negb (Z.land (cmd m) LRPC_DONE_PARITY =? parity)).

(** ** [LrpcContext] *)

Record LrpcContext : Type := mk_lctx { ingress : list lrpc_chan_in; egress : list lrpc_chan_out }.

Definition new_LrpcContext : LrpcContext :=
  mk_lctx (replicate MAX_PEERS (mk_in 0 0 0 0)) (replicate MAX_PEERS (mk_out 0 0 0 0 0)).

(** [LrpcContext::pop]: the return value and [*payload] when it is set. *)
Definition pop (ctx : LrpcContext) (peer_id : Z) (h : lheap)
  : outcome (Z * option Z * LrpcContext * lheap) :=
  ch ← arr_get (ingress ctx) peer_id;
  '(r, ch, h) ← lrpc_recv ch h;
  ing ← arr_set (ingress ctx) peer_id ch;
  let ctx := mk_lctx ing (egress ctx) in
  match r with
  | Some (_, v) => Ok (0, Some v, ctx, h)
  | None => Ok (EAGAIN, None, ctx, h)
  end.

Definition push (ctx : LrpcContext) (v peer_id : Z) (h : lheap)
  : outcome (Z * LrpcContext * lheap) :=
  ch ← arr_get (egress ctx) peer_id;
  '(ok, ch, h) ← lrpc_send ch LRPC_TX v h;
  egr ← arr_set (egress ctx) peer_id ch;
  let ctx := mk_lctx (ingress ctx) egr in
  if negb ok then Ok (EAGAIN, ctx, h) else Ok (0, ctx, h).

(** [generate_lrpc_buffer] with the two addresses [malloc] returned; a failed
    allocation is only logged, the buffer is cleared all the same. *)
Definition generate_lrpc_buffer (buf wb : Z) (h : lheap) : outcome (Z * Z * lheap) :=
  if (buf =? NULL) || (wb =? NULL) then UB
  else Ok (buf, wb,
           mk_lheap (<[buf := replicate (Z.to_nat LRPC_Q_LEN) (mk_msg 0 0)]> (tbls h))
             (<[wb := 0]> (wbs h))).

(** ** Parities *)

(** The parity of the [i]-th message of a channel of [2 ^ k] slots. *)
Definition parity (k i : Z) : Z := if Z.testbit i k then 0 else LRPC_DONE_PARITY.

Lemma land_pow2 x k : 0 <= k -> Z.land x (2 ^ k) = if Z.testbit x k then 2 ^ k else 0.
Proof.
  intros Hk. apply Z.bits_inj'. intros n Hn. rewrite Z.land_spec, Z.pow2_bits_eqb by lia.
  destruct (Z.eqb_spec k n) as [->|Hne].
  - rewrite andb_true_r. destruct (Z.testbit x n) eqn:E; [by rewrite Z.pow2_bits_true|by rewrite Z.bits_0].
  - rewrite andb_false_r. destruct (Z.testbit x k); [by rewrite Z.pow2_bits_false|by rewrite Z.bits_0].
Qed.

Lemma parity_of_u32 k i : 0 <= k < 32 -> parity_of (u32 i) (2 ^ k) = parity k i.
Proof.
  intros Hk. unfold parity_of, parity. rewrite land_pow2 by lia.
  unfold u32. rewrite Z.mod_pow2_bits_low by lia.
  destruct (Z.testbit i k); [|done]. rewrite (proj2 (Z.eqb_neq _ _)); [done|].
  pose proof (Z.pow_pos_nonneg 2 k). lia.
Qed.

Lemma parity_next k i : 0 <= k -> parity k (i + 2 ^ k) <> parity k i.
Proof.
  intros Hk. unfold parity. rewrite !Z.testbit_odd, !Z.shiftr_div_pow2 by lia.
  replace (i + 2 ^ k) with (i + 1 * 2 ^ k) by lia.
  rewrite Z.div_add by (pose proof (Z.pow_pos_nonneg 2 k); lia).
  rewrite Z.odd_add. by destruct (Z.odd (i / 2 ^ k)).
Qed.

Lemma parity_cases k i : parity k i = 0 \/ parity k i = LRPC_DONE_PARITY.
Proof. unfold parity. case_match; auto. Qed.

(** Command bits and parity bit do not overlap. *)
Lemma cmd_bits c p :
  0 <= c < 2 ^ 63 -> p = 0 \/ p = LRPC_DONE_PARITY ->
  Z.land (Z.lor c p) LRPC_DONE_PARITY = p /\ Z.land (Z.lor c p) LRPC_CMD_MASK = c.
Proof.
  intros Hc Hp. unfold LRPC_DONE_PARITY, LRPC_CMD_MASK in *.
  assert (Hc63 : Z.testbit c 63 = false) by (apply Z.bits_above_log2; [lia|];
    destruct (decide (c = 0)) as [->|]; [done|]; apply Z.log2_lt_pow2; lia).
  split.
  - rewrite land_pow2, Z.lor_spec, Hc63 by lia. destruct Hp as [->| ->]; [by rewrite Z.bits_0|].
    by rewrite Z.pow2_bits_true.
  - change (2 ^ 63 - 1) with (Z.ones 63). rewrite Z.land_lor_distr_l, !Z.land_ones by lia.
    rewrite (Z.mod_small c) by lia.
    destruct Hp as [->| ->]; [by rewrite Z.lor_0_r|]. by rewrite Z.mod_same, Z.lor_0_r.
Qed.

(** ** The table *)

(** A message with its parity, as the sender stores it. *)
Definition enc (k i : Z) (m : Z * Z) : lrpc_msg := mk_msg (Z.lor m.1 (parity k i)) m.2.

Definition msg_ok (m : Z * Z) : Prop := 0 <= m.1 < 2 ^ 63.

Lemma cmd_no_parity m : msg_ok m -> Z.land m.1 LRPC_DONE_PARITY = 0.
Proof.
  intros Hm. pose proof (proj1 (cmd_bits m.1 0 Hm (or_introl eq_refl))) as H0.
  by rewrite Z.lor_0_r in H0.
Qed.

(** From the [t]-th message on the table holds the messages [l]; the slots
    behind them carry the parity of the previous lap. *)
Record slots (k : Z) (tbl : list lrpc_msg) (t : Z) (l : list (Z * Z)) : Prop := {
  sl_len : length tbl = Z.to_nat (2 ^ k);
  sl_cap : Z.of_nat (length l) <= 2 ^ k;
  sl_ok : Forall msg_ok l;
  sl_msg : forall j m, l !! j = Some m ->
    tbl !! Z.to_nat ((t + Z.of_nat j) mod 2 ^ k) = Some (enc k (t + Z.of_nat j) m);
  sl_old : forall i, t + Z.of_nat (length l) <= i < t + 2 ^ k ->
    exists m, tbl !! Z.to_nat (i mod 2 ^ k) = Some m /\ Z.land (cmd m) LRPC_DONE_PARITY <> parity k i
}.

(** Two counters less than a lap apart use different slots. *)
Lemma slot_ne k i j :
  0 <= k -> i < j < i + 2 ^ k -> Z.to_nat (i mod 2 ^ k) <> Z.to_nat (j mod 2 ^ k).
Proof.
  intros Hk Hij Heq. pose proof (Z.pow_pos_nonneg 2 k).
  apply Z2Nat.inj in Heq; [|apply Z.mod_pos_bound; lia..].
  assert (Hd : (j - i) mod 2 ^ k = 0).
  { rewrite Zminus_mod, Heq, Z.sub_diag. apply Z.mod_0_l. lia. }
  rewrite Z.mod_small in Hd by lia. lia.
Qed.

Section table.
Context (k : Z) (Hk : 0 <= k < 32).

Lemma slot_lt (tbl : list lrpc_msg) i : length tbl = Z.to_nat (2 ^ k) -> (Z.to_nat (i mod 2 ^ k) < length tbl)%nat.
Proof. pose proof (Z.pow_pos_nonneg 2 k). pose proof (Z.mod_pos_bound i (2 ^ k)). lia. Qed.

Lemma slots_push tbl t l m :
  slots k tbl t l -> Z.of_nat (length l) < 2 ^ k -> msg_ok m ->
  slots k (<[Z.to_nat ((t + Z.of_nat (length l)) mod 2 ^ k) := enc k (t + Z.of_nat (length l)) m]> tbl)
    t (l ++ [m]).
Proof.
  intros [H1 H2 H3 H4 H5] Hl Hm. split.
  - by rewrite length_insert.
  - rewrite length_app. simpl. lia.
  - apply Forall_app. split; [done|by constructor].
  - intros j x Hj. apply lookup_app_Some in Hj as [Hj|[Hge Hj]].
    + pose proof (lookup_lt_Some _ _ _ Hj). rewrite list_lookup_insert_ne; [by apply H4|].
      apply not_eq_sym, slot_ne; lia.
    + assert (j = length l) as -> by (apply lookup_lt_Some in Hj; simpl in Hj; lia).
      rewrite Nat.sub_diag in Hj. injection Hj as <-. apply list_lookup_insert_eq, slot_lt, H1.
  - rewrite length_app. simpl. intros i Hi. rewrite list_lookup_insert_ne by (apply slot_ne; lia).
    apply H5. lia.
Qed.

Lemma slots_front tbl t m l :
  slots k tbl t (m :: l) -> tbl !! Z.to_nat (t mod 2 ^ k) = Some (enc k t m).
Proof. intros Hs. pose proof (sl_msg _ _ _ _ Hs 0%nat m eq_refl) as H. by rewrite Z.add_0_r in H. Qed.

Lemma slots_pop tbl t m l : slots k tbl t (m :: l) -> slots k tbl (t + 1) l.
Proof.
  intros Hs. pose proof (slots_front _ _ _ _ Hs) as Hfront. destruct Hs as [H1 H2 H3 H4 H5].
  apply Forall_cons in H3 as [Hm H3]. pose proof (Z.pow_pos_nonneg 2 k). split; try done.
  - simpl in H2. lia.
  - intros j x Hj. specialize (H4 (S j) x Hj).
    by replace (t + 1 + Z.of_nat j) with (t + Z.of_nat (S j)) by lia.
  - intros i Hi. simpl in H5. destruct (decide (i = t + 2 ^ k)) as [->|Hne]; [|apply H5; lia].
    exists (enc k t m). replace (t + 2 ^ k) with (t + 1 * 2 ^ k) at 1 by lia.
    rewrite Z.mod_add by lia. split; [done|]. unfold enc. simpl.
    rewrite (proj1 (cmd_bits m.1 (parity k t) Hm (parity_cases k t))).
    apply not_eq_sym, parity_next. lia.
Qed.

(** The receiver's test: a slot has its parity exactly when a message is there. *)
Lemma slots_test tbl t l x :
  slots k tbl t l -> tbl !! Z.to_nat (t mod 2 ^ k) = Some x ->
  Z.land (cmd x) LRPC_DONE_PARITY = parity k t <-> l <> [].
Proof.
  intros Hs Hx. destruct l as [|m l].
  - split; [|done]. destruct (sl_old _ _ _ _ Hs t) as (y & Hy & Hne).
    { pose proof (Z.pow_pos_nonneg 2 k). simpl. lia. }
    simplify_eq. done.
  - split; [done|]. intros _. rewrite (slots_front _ _ _ _ Hs) in Hx. simplify_eq. simpl.
    apply cmd_bits; [|apply parity_cases]. by apply (Forall_cons_1 _ _ _ (sl_ok _ _ _ _ Hs)).
Qed.

(** Writing a payload in a slot that holds no message. *)
Lemma slots_payload tbl t l x v :
  slots k tbl t l -> Z.of_nat (length l) < 2 ^ k ->
  tbl !! Z.to_nat ((t + Z.of_nat (length l)) mod 2 ^ k) = Some x ->
  slots k (<[Z.to_nat ((t + Z.of_nat (length l)) mod 2 ^ k) := mk_msg (cmd x) v]> tbl) t l.
Proof.
  intros [H1 H2 H3 H4 H5] Hl Hx. split; try done.
  - by rewrite length_insert.
  - intros j m Hj. pose proof (lookup_lt_Some _ _ _ Hj).
    rewrite list_lookup_insert_ne by (apply not_eq_sym, slot_ne; lia). by apply H4.
  - intros i Hi. destruct (decide (i = t + Z.of_nat (length l))) as [->|Hne].
    + destruct (H5 _ Hi) as (m & Hm & Hp). rewrite Hx in Hm. injection Hm as <-.
      exists (mk_msg (cmd x) v).
      rewrite list_lookup_insert_eq by by apply slot_lt. done.
    + rewrite list_lookup_insert_ne by (apply slot_ne; lia). by apply H5.
Qed.

Lemma slots_empty tbl :
  length tbl = Z.to_nat (2 ^ k) -> Forall (fun m => cmd m = 0) tbl -> slots k tbl 0 [].
Proof.
  intros Hl Hz. pose proof (Z.pow_pos_nonneg 2 k). split; try done.
  - simpl. lia.
  - intros i Hi. simpl in Hi. destruct (lookup_lt_is_Some_2 tbl (Z.to_nat (i mod 2 ^ k))) as [m Hm];
      [by apply slot_lt|].
    exists m. split; [done|]. rewrite (Forall_lookup_1 _ _ _ _ Hz Hm). simpl.
    unfold parity. rewrite Z.testbit_odd, Z.shiftr_div_pow2, Z.div_small by lia. done.
Qed.

End table.

(** ** A channel with both ends at rest *)

(** [t] messages have been received, [l] are in the channel, and the sender
    last saw [c] of them received. *)
Record chan_at (k : Z) (h : lheap) (out : lrpc_chan_out) (inn : lrpc_chan_in)
    (tbl : list lrpc_msg) (t c : Z) (l : list (Z * Z)) : Prop := {
  ca_k : 0 <= k < 32;
  ca_tbl : o_tbl out = i_tbl inn;
  ca_wbp : o_recv_head_wb out = i_recv_head_wb inn;
  ca_osize : o_size out = 2 ^ k;
  ca_isize : i_size inn = 2 ^ k;
  ca_get : tbls h !! o_tbl out = Some tbl;
  ca_wb : wbs h !! o_recv_head_wb out = Some (u32 t);
  ca_head : send_head out = u32 (t + Z.of_nat (length l));
  ca_recv : recv_head inn = u32 t;
  ca_tail : send_tail out = u32 c;
  ca_seen : c <= t;
  ca_lap : t + Z.of_nat (length l) - c <= 2 ^ k;
  ca_slots : slots k tbl t l
}.

Definition chan_rep (k : Z) (h : lheap) (out : lrpc_chan_out) (inn : lrpc_chan_in)
    (l : list (Z * Z)) : Prop :=
  exists tbl t c, chan_at k h out inn tbl t c l.

Lemma pow2_u32 k : 0 <= k < 32 -> 0 < 2 ^ k < 2 ^ 32.
Proof. intros Hk. split; [apply Z.pow_pos_nonneg; lia|apply Z.pow_lt_mono_r; lia]. Qed.

Lemma u32_diff a b : 0 <= a - b < 2 ^ 32 -> u32 (u32 a - u32 b) = a - b.
Proof. word_lia. Qed.

Lemma chan_index k i : 0 <= k < 32 -> Z.land (u32 i) (u32 (2 ^ k - 1)) = i mod 2 ^ k.
Proof.
  intros Hk. pose proof (pow2_u32 k Hk). rewrite (u32_id (2 ^ k - 1)) by lia.
  apply ring_index. lia.
Qed.

(** Storing the next message. *)
Lemma chan_store k h out inn tbl t c l m :
  chan_at k h out inn tbl t c l -> Z.of_nat (length l) < 2 ^ k -> msg_ok m ->
  exists tbl', store_msg h (o_tbl out) (Z.land (send_head out) (u32 (o_size out - 1)))
      (Z.lor m.1 (parity_of (send_head out) (o_size out))) m.2
    = Ok (mk_lheap (<[o_tbl out := tbl']> (tbls h)) (wbs h)) /\ slots k tbl' t (l ++ [m]).
Proof.
  intros [] Hl Hm. unfold store_msg, get_tbl. rewrite ca_get0. simpl.
  rewrite ca_head0, ca_osize0, chan_index, parity_of_u32 by done.
  set (i := t + Z.of_nat (length l)).
  destruct (lookup_lt_is_Some_2 tbl (Z.to_nat (i mod 2 ^ k))) as [x Hx].
  { apply slot_lt; [done|apply ca_slots0]. }
  pose proof (pow2_u32 k ca_k0). pose proof (Z.mod_pos_bound i (2 ^ k)).
  rewrite (arr_upd_Ok tbl _ _ x) by (lia || done). simpl.
  erewrite arr_upd_Ok; [|lia|apply list_lookup_insert_eq; by eapply lookup_lt_Some]. simpl.
  rewrite list_insert_insert_eq. eexists. split; [done|]. by apply slots_push.
Qed.

Lemma lrpc_send_room k h out inn l m :
  chan_rep k h out inn l -> Z.of_nat (length l) < 2 ^ k -> msg_ok m ->
  exists out' tbl', let h' := mk_lheap (<[o_tbl out := tbl']> (tbls h)) (wbs h) in
    lrpc_send out m.1 m.2 h = Ok (true, out', h') /\ chan_rep k h' out' inn (l ++ [m])
    /\ o_tbl out' = o_tbl out /\ o_recv_head_wb out' = o_recv_head_wb out.
Proof.
  intros (tbl & t & c & Hc) Hl Hm.
  destruct (chan_store _ _ _ _ _ _ _ _ m Hc Hl Hm) as (tbl' & E & Hs').
  pose proof (ca_k _ _ _ _ _ _ _ _ Hc) as Hk. pose proof (pow2_u32 k Hk) as Hp.
  pose proof (cmd_no_parity m Hm) as Hpar.
  assert (Hd : u32 (send_head out - send_tail out) = t + Z.of_nat (length l) - c).
  { rewrite (ca_head _ _ _ _ _ _ _ _ Hc), (ca_tail _ _ _ _ _ _ _ _ Hc). apply u32_diff.
    pose proof (ca_lap _ _ _ _ _ _ _ _ Hc). pose proof (ca_seen _ _ _ _ _ _ _ _ Hc). lia. }
  assert (Hrep : forall c', c' <= t -> t + Z.of_nat (length l) - c' < 2 ^ k ->
    chan_rep k (mk_lheap (<[o_tbl out := tbl']> (tbls h)) (wbs h))
      (mk_out (o_tbl out) (o_recv_head_wb out) (u32 (send_head out + 1)) (u32 c') (o_size out))
      inn (l ++ [m])).
  { intros c' Hc' Hlap. exists tbl', t, c'. destruct Hc. split; simpl; try done.
    - by rewrite lookup_insert_eq.
    - rewrite length_app, ca_head0. simpl. word_lia.
    - rewrite length_app. simpl. lia. }
  unfold lrpc_send. rewrite Hpar. simpl. rewrite Hd, (ca_osize _ _ _ _ _ _ _ _ Hc).
  rewrite (ca_osize _ _ _ _ _ _ _ _ Hc) in E. destruct (Z.leb_spec (2 ^ k) (t + Z.of_nat (length l) - c)).
  - unfold lrpc_send_slow. rewrite Hd, (ca_osize _ _ _ _ _ _ _ _ Hc).
    rewrite (proj2 (Z.eqb_eq _ _)) by (pose proof (ca_lap _ _ _ _ _ _ _ _ Hc); lia). simpl.
    unfold get_wb. rewrite (ca_wb _ _ _ _ _ _ _ _ Hc). simpl.
    assert (Hd2 : u32 (send_head out - u32 t) = Z.of_nat (length l))
      by (rewrite (ca_head _ _ _ _ _ _ _ _ Hc), u32_diff; lia).
    rewrite Hd2.
    rewrite (proj2 (Z.eqb_neq _ _)) by lia. rewrite E. simpl. eexists _, tbl'. split_and!; [done| |done|done].
    rewrite <- (ca_osize _ _ _ _ _ _ _ _ Hc). apply Hrep; lia.
  - rewrite E. simpl. eexists _, tbl'. split_and!; [done| |done|done].
    rewrite (ca_tail _ _ _ _ _ _ _ _ Hc), <- (ca_osize _ _ _ _ _ _ _ _ Hc).
    apply Hrep; [apply (ca_seen _ _ _ _ _ _ _ _ Hc)|lia].
Qed.

Lemma lrpc_send_full k h out inn l m :
  chan_rep k h out inn l -> Z.of_nat (length l) = 2 ^ k -> msg_ok m ->
  exists out', lrpc_send out m.1 m.2 h = Ok (false, out', h) /\ chan_rep k h out' inn l
    /\ o_tbl out' = o_tbl out /\ o_recv_head_wb out' = o_recv_head_wb out.
Proof.
  intros (tbl & t & c & Hc) Hl Hm.
  pose proof (ca_k _ _ _ _ _ _ _ _ Hc) as Hk. pose proof (pow2_u32 k Hk) as Hp.
  pose proof (ca_lap _ _ _ _ _ _ _ _ Hc). pose proof (ca_seen _ _ _ _ _ _ _ _ Hc).
  assert (c = t) as -> by lia.
  pose proof (cmd_no_parity m Hm) as Hpar.
  assert (Hd : u32 (send_head out - u32 t) = 2 ^ k).
  { rewrite (ca_head _ _ _ _ _ _ _ _ Hc). rewrite u32_diff; lia. }
  unfold lrpc_send, lrpc_send_slow. rewrite Hpar. simpl.
  rewrite (ca_tail _ _ _ _ _ _ _ _ Hc), Hd, (ca_osize _ _ _ _ _ _ _ _ Hc).
  rewrite Z.leb_refl, Z.eqb_refl. simpl. unfold get_wb. rewrite (ca_wb _ _ _ _ _ _ _ _ Hc). simpl.
  rewrite Hd, Z.eqb_refl. eexists. split_and!; [done| |done|done].
  exists tbl, t, t. by destruct Hc.
Qed.

Lemma lrpc_recv_cons k h out inn m l :
  chan_rep k h out inn (m :: l) ->
  exists inn' v, let h' := mk_lheap (tbls h) (<[o_recv_head_wb out := v]> (wbs h)) in
    lrpc_recv inn h = Ok (Some m, inn', h') /\ chan_rep k h' out inn' l
    /\ i_tbl inn' = i_tbl inn /\ i_recv_head_wb inn' = i_recv_head_wb inn.
Proof.
  intros (tbl & t & c & Hc). pose proof Hc as []. pose proof (pow2_u32 k ca_k0) as Hp.
  pose proof (slots_front _ _ _ _ _ ca_slots0) as Hf.
  assert (Hm : msg_ok m) by by apply (Forall_cons_1 _ _ _ (sl_ok _ _ _ _ ca_slots0)).
  unfold lrpc_recv, get_tbl. rewrite <- ca_tbl0, ca_get0. simpl.
  rewrite ca_recv0, ca_isize0, chan_index, parity_of_u32 by done.
  rewrite (proj2 (arr_get_Ok _ _ (enc k t m)))
    by (split; [apply Z.mod_pos_bound; lia|done]). simpl.
  destruct (cmd_bits m.1 (parity k t) Hm (parity_cases k t)) as [-> ->].
  rewrite Z.eqb_refl. simpl. unfold get_wb. rewrite <- ca_wbp0, ca_wb0. simpl.
  eexists _, (u32 (u32 t + 1)). split_and!; [by destruct m| |done|done].
  exists tbl, (t + 1), c. split; simpl; try done.
  - rewrite lookup_insert_eq. f_equal. word_lia.
  - rewrite ca_head0. simpl. f_equal. lia.
  - word_lia.
  - lia.
  - simpl in ca_lap0. lia.
  - by eapply slots_pop.
Qed.

Lemma lrpc_recv_nil k h out inn :
  chan_rep k h out inn [] -> lrpc_recv inn h = Ok (None, inn, h).
Proof.
  intros (tbl & t & c & Hc). destruct Hc. pose proof (pow2_u32 k ca_k0) as Hp.
  destruct (lookup_lt_is_Some_2 tbl (Z.to_nat (t mod 2 ^ k))) as [x Hx].
  { apply slot_lt; [done|apply ca_slots0]. }
  unfold lrpc_recv, get_tbl. rewrite <- ca_tbl0, ca_get0. simpl.
  rewrite ca_recv0, ca_isize0, chan_index, parity_of_u32 by done.
  rewrite (proj2 (arr_get_Ok _ _ x)) by (split; [apply Z.mod_pos_bound; lia|done]). simpl.
  rewrite (proj2 (Z.eqb_neq _ _)); [done|].
  intros Heq. by apply (slots_test k ca_k0 _ _ _ _ ca_slots0 Hx) in Heq.
Qed.

(** ** Refinement: a channel is a bounded queue *)

Inductive cop : Type := CSend (c v : Z) | CRecv.
Inductive cres : Type := RSent (ok : bool) | RRecv (r : option (Z * Z)).

Definition cstate : Type := lheap * lrpc_chan_out * lrpc_chan_in.

Definition chan_step (s : cstate) (o : cop) : outcome (cstate * cres) :=
  let '(h, out, inn) := s in
  match o with
  | CSend c v => '(ok, out, h) ← lrpc_send out c v h; Ok ((h, out, inn), RSent ok)
  | CRecv => '(r, inn, h) ← lrpc_recv inn h; Ok ((h, out, inn), RRecv r)
  end.

Definition queue_step (size : Z) (l : list (Z * Z)) (o : cop) : list (Z * Z) * cres :=
  match o with
  | CSend c v => if Z.of_nat (length l) <? size then (l ++ [(c, v)], RSent true) else (l, RSent false)
  | CRecv => match l with [] => ([], RRecv None) | m :: l => (l, RRecv (Some m)) end
  end.

Fixpoint chan_run (s : cstate) (os : list cop) : outcome (cstate * list cres) :=
  match os with
  | [] => Ok (s, [])
  | o :: os => '(s, r) ← chan_step s o; '(s, rs) ← chan_run s os; Ok (s, r :: rs)
  end.

Fixpoint queue_run (size : Z) (l : list (Z * Z)) (os : list cop) : list (Z * Z) * list cres :=
  match os with
  | [] => (l, [])
  | o :: os =>
    let '(l, r) := queue_step size l o in
    let '(l, rs) := queue_run size l os in (l, r :: rs)
  end.

Definition cop_ok (o : cop) : Prop := match o with CSend c v => 0 <= c < 2 ^ 63 | CRecv => True end.

Lemma chan_step_sim k h out inn l o :
  chan_rep k h out inn l -> cop_ok o ->
  exists h' out' inn' l' r, chan_step (h, out, inn) o = Ok ((h', out', inn'), r)
    /\ queue_step (2 ^ k) l o = (l', r) /\ chan_rep k h' out' inn' l'.
Proof.
  intros Hc Ho. destruct o as [c v|]; simpl.
  - assert (Hcap : Z.of_nat (length l) <= 2 ^ k)
      by (destruct Hc as (tbl & t & c' & Hc'); apply (sl_cap _ _ _ _ (ca_slots _ _ _ _ _ _ _ _ Hc'))).
    destruct (Z.ltb_spec (Z.of_nat (length l)) (2 ^ k)).
    + destruct (lrpc_send_room k h out inn l (c, v) Hc) as (out' & tbl' & E & Hc' & _); [lia|done|].
      simpl in E. rewrite E. simpl. eexists _, _, _, _, _. split_and!; [done|done|done].
    + destruct (lrpc_send_full k h out inn l (c, v) Hc) as (out' & E & Hc' & _); [lia|done|].
      simpl in E. rewrite E. simpl. eexists _, _, _, _, _. split_and!; [done|done|done].
  - destruct l as [|m l].
    + rewrite (lrpc_recv_nil k h out inn) by done. simpl. eexists _, _, _, _, _. split_and!; done.
    + destruct (lrpc_recv_cons k h out inn m l Hc) as (inn' & v & E & Hc' & _). rewrite E. simpl.
      eexists _, _, _, _, _. split_and!; done.
Qed.

(** C10. An LRPC channel is a bounded first-in first-out queue: any sequence of
    sends and receives gives exactly the results of the queue - a send fails
    only when the channel is full, a receive only when it is empty, messages
    come out complete and in order - however often the 32-bit counters wrap. *)
Theorem lrpc_refines_queue k h out inn l os :
  chan_rep k h out inn l -> Forall cop_ok os ->
  exists h' out' inn', chan_run (h, out, inn) os
      = Ok ((h', out', inn'), (queue_run (2 ^ k) l os).2)
    /\ chan_rep k h' out' inn' (queue_run (2 ^ k) l os).1.
Proof.
  revert h out inn l. induction os as [|o os IH]; intros h out inn l Hc Ho; cbn [chan_run queue_run].
  { by exists h, out, inn. }
  apply Forall_cons in Ho as [Ho Hos].
  destruct (chan_step_sim k h out inn l o Hc Ho) as (h1 & out1 & inn1 & l1 & r & E & Eq & Hc1).
  rewrite E, Eq. simpl. destruct (IH h1 out1 inn1 l1 Hc1 Hos) as (h2 & out2 & inn2 & E2 & Hc2).
  rewrite E2. simpl. destruct (queue_run (2 ^ k) l1 os) as [l2 rs]. by exists h2, out2, inn2.
Qed.

(** A channel of two slots whose counters are about to wrap. *)
Definition example_chan : cstate :=
  (mk_lheap (<[64 := [mk_msg 0 0; mk_msg LRPC_DONE_PARITY 0]]> ∅) (<[128 := 2 ^ 32 - 1]> ∅),
   mk_out 64 128 (2 ^ 32 - 1) (2 ^ 32 - 1) 2, mk_in 64 128 (2 ^ 32 - 1) 2).

Lemma example_chan_rep : chan_rep 1 example_chan.1.1 example_chan.1.2 example_chan.2 [].
Proof.
  exists [mk_msg 0 0; mk_msg LRPC_DONE_PARITY 0], (2 ^ 32 - 1), (2 ^ 32 - 1).
  split; try done; try lia. split; try done.
  intros i Hi. simpl length in Hi. change (2 ^ 1) with 2 in *.
  assert (i = 2 ^ 32 - 1 \/ i = 2 ^ 32) as [-> | ->] by lia;
    (eexists; split; [vm_compute; reflexivity|vm_compute; discriminate]).
Qed.

Lemma lrpc_refines_queue_witness :
  exists h' out' inn',
    chan_run example_chan [CSend 5 50; CSend 6 60; CSend 7 70; CRecv; CSend 8 80; CRecv; CRecv; CRecv]
    = Ok ((h', out', inn'),
          [RSent true; RSent true; RSent false; RRecv (Some (5, 50)); RSent true;
           RRecv (Some (6, 60)); RRecv (Some (8, 80)); RRecv None])
    /\ chan_rep 1 h' out' inn' [].
Proof.
  apply (lrpc_refines_queue 1 example_chan.1.1 example_chan.1.2 example_chan.2 []
    [CSend 5 50; CSend 6 60; CSend 7 70; CRecv; CSend 8 80; CRecv; CRecv; CRecv]).
  - apply example_chan_rep.
  - repeat constructor; simpl; lia.
Defined.
