(* ===== verification/LrpcConc.v ===== *)
(** * LrpcConc: the two ends of a channel running at the same time

    The sender and the receiver of an LRPC channel run on different cores.
    Here [lrpc_send] and [lrpc_recv] of [src/include/psp/libos/io/lrpc.h] are
    cut at every access to shared memory - the acquire load of the receiver's
    position, the store of the payload, the release store of the command, the
    acquire load of the command, the load of the payload and the release store
    of the position - and the accesses of the two sides are interleaved in any
    order.  The counters [send_head], [send_tail] and [recv_head] are private
    to one side, so their updates are part of the neighbouring access. *)
From S2P Require Import Prelude Fail Ring Lrpc.

(** Where the sender is: between calls, about to load [recv_head_wb], about to
    store the payload of [m] in slot [i], about to release its command [c]. *)
Inductive spc : Type :=
  | SIdle | SSlow (m : Z * Z) | SStore (i c : Z) (m : Z * Z) | SRelease (i c : Z) (m : Z * Z).

(** Where the receiver is: between calls, about to load the payload of slot
    [i] whose command it has read, about to publish its position. *)
Inductive rpc : Type := RIdle | RGot (i c : Z) | RWb.

(** [c_sent] and [c_rcvd] record the messages released and received so far. *)
Record conc : Type := mk_conc {
  c_heap : lheap;
  c_out : lrpc_chan_out;
  c_in : lrpc_chan_in;
  c_spc : spc;
  c_rpc : rpc;
  c_sent : list (Z * Z);
  c_rcvd : list (Z * Z)
}.

Definition upd_slot (h : lheap) (p i : Z) (f : lrpc_msg -> lrpc_msg) : outcome lheap :=
  t ← get_tbl h p;
  t ← arr_upd t i f;
  Ok (mk_lheap (<[p := t]> (tbls h)) (wbs h)).

(** The slot index, the command with its parity, and the counter moved on. *)
Definition claim_slot (out : lrpc_chan_out) (m : Z * Z) : spc * lrpc_chan_out :=
  (SStore (Z.land (send_head out) (u32 (o_size out - 1)))
     (Z.lor m.1 (parity_of (send_head out) (o_size out))) m,
   mk_out (o_tbl out) (o_recv_head_wb out) (u32 (send_head out + 1)) (send_tail out) (o_size out)).

(** One step of the sender; between calls it starts to send [m]. *)
Definition sender_step (m : Z * Z) (s : conc) : outcome conc :=
  let '(mk_conc h out inn sp rp sent rcvd) := s in
  match sp with
  | SIdle =>
    _ ← PSP_TRUE EINVAL (Z.land m.1 LRPC_DONE_PARITY =? 0);
    if o_size out <=? u32 (send_head out - send_tail out) then
      _ ← PSP_TRUE EINVAL (u32 (send_head out - send_tail out) =? o_size out);
      Ok (mk_conc h out inn (SSlow m) rp sent rcvd)
    else
      let '(sp, out) := claim_slot out m in
      Ok (mk_conc h out inn sp rp sent rcvd)
  | SSlow m =>
    '(_, out) ← lrpc_poll_send_tail out h;
    if u32 (send_head out - send_tail out) =? o_size out then
      Ok (mk_conc h out inn SIdle rp sent rcvd)
    else
      let '(sp, out) := claim_slot out m in
      Ok (mk_conc h out inn sp rp sent rcvd)
  | SStore i c m =>
    h ← upd_slot h (o_tbl out) i (fun x => mk_msg (cmd x) m.2);
    Ok (mk_conc h out inn (SRelease i c m) rp sent rcvd)
  | SRelease i c m =>
    h ← upd_slot h (o_tbl out) i (fun x => mk_msg c (payload x));
    Ok (mk_conc h out inn SIdle rp (sent ++ [m]) rcvd)
  end.

(** One step of the receiver, which polls for ever. *)
Definition receiver_step (s : conc) : outcome conc :=
  let '(mk_conc h out inn sp rp sent rcvd) := s in
  match rp with
  | RIdle =>
    t ← get_tbl h (i_tbl inn);
    let i := Z.land (recv_head inn) (u32 (i_size inn - 1)) in
    m ← arr_get t i;
    if negb (Z.land (cmd m) LRPC_DONE_PARITY =? parity_of (recv_head inn) (i_size inn)) then Ok s
    else
      let inn := mk_in (i_tbl inn) (i_recv_head_wb inn) (u32 (recv_head inn + 1)) (i_size inn) in
      Ok (mk_conc h out inn sp (RGot i (cmd m)) sent rcvd)
  | RGot i c =>
    t ← get_tbl h (i_tbl inn);
    m ← arr_get t i;
    Ok (mk_conc h out inn sp RWb sent (rcvd ++ [(Z.land c LRPC_CMD_MASK, payload m)]))
  | RWb =>
    _ ← get_wb h (i_recv_head_wb inn);
    let h := mk_lheap (tbls h) (<[i_recv_head_wb inn := recv_head inn]> (wbs h)) in
    Ok (mk_conc h out inn sp RIdle sent rcvd)
  end.

(** A schedule: [Some m] is a step of the sender, who sends [m] next, [None] a
    step of the receiver. *)
Definition conc_step (s : conc) (a : option (Z * Z)) : outcome conc :=
  match a with Some m => sender_step m s | None => receiver_step s end.

Fixpoint conc_run (s : conc) (sched : list (option (Z * Z))) : outcome conc :=
  match sched with
  | [] => Ok s
  | a :: sched => s ← conc_step s a; conc_run s sched
  end.

Definition conc_start (h : lheap) (out : lrpc_chan_out) (inn : lrpc_chan_in) : conc :=
  mk_conc h out inn SIdle RIdle [] [].

(** The sender never stores in the slot the receiver is reading. *)
Definition race_free (s : conc) : Prop :=
  match c_spc s, c_rpc s with
  | SStore i _ _, RGot j _ | SRelease i _ _, RGot j _ => i <> j
  | _, _ => True
  end.

(** ** The invariant *)

Definition r_busy (rp : rpc) : Z := match rp with RIdle => 0 | _ => 1 end.
Definition r_reading (rp : rpc) : Z := match rp with RGot _ _ => 1 | _ => 0 end.
Definition s_claimed (sp : spc) : Z := match sp with SStore _ _ _ | SRelease _ _ _ => 1 | _ => 0 end.

(** [b] counts the messages before the run, [w] those published as received,
    [c] those the sender has seen published. *)
Record conc_inv (k b : Z) (s : conc) (tbl : list lrpc_msg) (w c : Z) : Prop := {
  cv_k : 0 <= k < 32;
  cv_tbl : o_tbl (c_out s) = i_tbl (c_in s);
  cv_wbp : o_recv_head_wb (c_out s) = i_recv_head_wb (c_in s);
  cv_osize : o_size (c_out s) = 2 ^ k;
  cv_isize : i_size (c_in s) = 2 ^ k;
  cv_get : tbls (c_heap s) !! o_tbl (c_out s) = Some tbl;
  cv_wb : wbs (c_heap s) !! o_recv_head_wb (c_out s) = Some (u32 w);
  cv_head : send_head (c_out s) = u32 (b + Z.of_nat (length (c_sent s)) + s_claimed (c_spc s));
  cv_tail : send_tail (c_out s) = u32 c;
  cv_rhead : recv_head (c_in s) = u32 (w + r_busy (c_rpc s));
  cv_rcvd : w + r_busy (c_rpc s) = b + Z.of_nat (length (c_rcvd s)) + r_reading (c_rpc s);
  cv_seen : c <= w;
  cv_lap : b + Z.of_nat (length (c_sent s)) + s_claimed (c_spc s) - c <= 2 ^ k;
  cv_slots : exists l, c_sent s = c_rcvd s ++ l
    /\ slots k tbl (b + Z.of_nat (length (c_rcvd s))) l
    /\ match c_rpc s with
       | RGot i x => i = (b + Z.of_nat (length (c_rcvd s))) mod 2 ^ k
                     /\ exists m l', l = m :: l' /\ x = cmd (enc k (b + Z.of_nat (length (c_rcvd s))) m)
       | _ => True
       end;
  cv_spc : let hs := b + Z.of_nat (length (c_sent s)) in
    match c_spc s with
    | SIdle => True
    | SSlow m => msg_ok m /\ hs - c = 2 ^ k
    | SStore i x m => msg_ok m /\ i = hs mod 2 ^ k /\ x = cmd (enc k hs m)
    | SRelease i x m => msg_ok m /\ i = hs mod 2 ^ k /\ x = cmd (enc k hs m)
        /\ exists y, tbl !! Z.to_nat i = Some y /\ payload y = m.2
    end
}.

(** What a sender step starts from. *)
Lemma inv_head k b s tbl w c :
  conc_inv k b s tbl w c -> c_spc s = SIdle \/ (exists m, c_spc s = SSlow m) ->
  u32 (send_head (c_out s) - send_tail (c_out s)) = b + Z.of_nat (length (c_sent s)) - c.
Proof.
  intros [] Hs. pose proof (pow2_u32 k cv_k0). rewrite cv_head0, cv_tail0, u32_diff.
  - destruct Hs as [E|[m E]]; rewrite E; simpl; lia.
  - destruct cv_slots0 as (l & El & _). apply (f_equal length) in El. rewrite length_app in El.
    assert (r_reading (c_rpc s) <= r_busy (c_rpc s)) by (destruct (c_rpc s); simpl; lia).
    destruct (c_rpc s) eqn:Er; simpl in *; destruct Hs as [E|[m E]]; rewrite E in *; simpl in *; lia.
Qed.

Lemma inv_claim k b h out inn rp sent rcvd tbl w c m :
  conc_inv k b (mk_conc h out inn SIdle rp sent rcvd) tbl w c ->
  b + Z.of_nat (length sent) - c < 2 ^ k -> msg_ok m ->
  conc_inv k b (mk_conc h (claim_slot out m).2 inn (claim_slot out m).1 rp sent rcvd) tbl w c.
Proof.
  intros [] Hlt Hm. simpl in *. rewrite Z.add_0_r in *. split; try done; simpl.
  - rewrite cv_head0. word_lia.
  - lia.
  - rewrite cv_head0, cv_osize0, chan_index, parity_of_u32 by done. done.
Qed.

Lemma inv_poll k b h out inn rp sent rcvd tbl w c m :
  conc_inv k b (mk_conc h out inn (SSlow m) rp sent rcvd) tbl w c ->
  lrpc_poll_send_tail out h
    = Ok (u32 w, mk_out (o_tbl out) (o_recv_head_wb out) (send_head out) (u32 w) (o_size out))
  /\ conc_inv k b (mk_conc h (mk_out (o_tbl out) (o_recv_head_wb out) (send_head out) (u32 w) (o_size out))
      inn SIdle rp sent rcvd) tbl w w.
Proof.
  intros []. simpl in *. unfold lrpc_poll_send_tail, get_wb. rewrite cv_wb0. split; [done|].
  split; try done; simpl; lia.
Qed.

Lemma sent_count k b s tbl w c :
  conc_inv k b s tbl w c -> w <= b + Z.of_nat (length (c_rcvd s)) <= b + Z.of_nat (length (c_sent s)).
Proof.
  intros []. destruct cv_slots0 as (l & -> & _). rewrite length_app.
  destruct (c_rpc s); simpl in *; lia.
Qed.

(** Storing the payload: the slot holds no message, so none is disturbed. *)
Lemma inv_payload k b h out inn rp sent rcvd tbl w c i x m :
  conc_inv k b (mk_conc h out inn (SStore i x m) rp sent rcvd) tbl w c ->
  exists h' tbl', upd_slot h (o_tbl out) i (fun y => mk_msg (cmd y) m.2) = Ok h'
    /\ conc_inv k b (mk_conc h' out inn (SRelease i x m) rp sent rcvd) tbl' w c.
Proof.
  intros Hinv. pose proof (sent_count _ _ _ _ _ _ Hinv) as Hcnt. destruct Hinv. simpl in *.
  destruct cv_spc0 as (Hm & -> & ->). destruct cv_slots0 as (l & El & Hs & Hr). subst sent.
  rewrite length_app in *. pose proof (pow2_u32 k cv_k0).
  set (hs := b + Z.of_nat (length rcvd + length l)) in *.
  assert (Ehs : b + Z.of_nat (length rcvd) + Z.of_nat (length l) = hs) by (unfold hs; lia).
  destruct (lookup_lt_is_Some_2 tbl (Z.to_nat (hs mod 2 ^ k))) as [y Hy];
    [apply slot_lt; [done|apply Hs]|].
  unfold upd_slot, get_tbl. rewrite cv_get0. simpl.
  pose proof (Z.mod_pos_bound hs (2 ^ k)).
  rewrite (arr_upd_Ok tbl _ _ y) by (lia || done). simpl. eexists _, _. split; [done|].
  assert (Hp : slots k (<[Z.to_nat (hs mod 2 ^ k) := mk_msg (cmd y) m.2]> tbl) (b + Z.of_nat (length rcvd)) l).
  { rewrite <- Ehs in Hy |- *. apply slots_payload; try done. lia. }
  split; simpl; try done; rewrite ?length_app; try done.
  - apply lookup_insert_eq.
  - exists l. split_and!; done.
  - split_and!; [done|done|done|]. eexists.
    split; [apply list_lookup_insert_eq; by eapply lookup_lt_Some|done].
Qed.

(** Releasing the command: the message appears at the end of the channel. *)
Lemma inv_release k b h out inn rp sent rcvd tbl w c i x m :
  conc_inv k b (mk_conc h out inn (SRelease i x m) rp sent rcvd) tbl w c ->
  exists h' tbl', upd_slot h (o_tbl out) i (fun y => mk_msg x (payload y)) = Ok h'
    /\ conc_inv k b (mk_conc h' out inn SIdle rp (sent ++ [m]) rcvd) tbl' w c.
Proof.
  intros Hinv. pose proof (sent_count _ _ _ _ _ _ Hinv) as Hcnt. destruct Hinv. simpl in *.
  destruct cv_spc0 as (Hm & -> & -> & y & Hy & Hv). destruct cv_slots0 as (l & El & Hs & Hr). subst sent.
  rewrite length_app in *. pose proof (pow2_u32 k cv_k0).
  set (hs := b + Z.of_nat (length rcvd + length l)) in *.
  assert (Ehs : b + Z.of_nat (length rcvd) + Z.of_nat (length l) = hs) by (unfold hs; lia).
  unfold upd_slot, get_tbl. rewrite cv_get0. simpl. pose proof (Z.mod_pos_bound hs (2 ^ k)).
  rewrite (arr_upd_Ok tbl _ _ y) by (lia || done). simpl. rewrite Hv. eexists _, _. split; [done|].
  split; simpl; try done; rewrite ?length_app; simpl.
  - apply lookup_insert_eq.
  - rewrite cv_head0. f_equal. unfold hs. lia.
  - unfold hs in *. lia.
  - exists (l ++ [m]). rewrite app_assoc. split; [done|]. split.
    + rewrite <- Ehs. apply slots_push; try done. lia.
    + destruct rp; try done. destruct Hr as (-> & m' & l' & -> & ->). eauto 6.
Qed.

Lemma sender_inv k b s tbl w c m :
  conc_inv k b s tbl w c -> msg_ok m ->
  exists s' tbl' c', sender_step m s = Ok s' /\ conc_inv k b s' tbl' w c'.
Proof.
  intros Hinv Hm. destruct s as [h out inn sp rp sent rcvd]. destruct sp as [|m'|i x m'|i x m'].
  - pose proof (inv_head _ _ _ _ _ _ Hinv (or_introl eq_refl)) as Hd. simpl in *.
    pose proof (cv_osize _ _ _ _ _ _ Hinv) as Ho. pose proof (cv_lap _ _ _ _ _ _ Hinv) as Hlap.
    simpl in Ho, Hlap. rewrite Hd, Ho. rewrite (cmd_no_parity m Hm). simpl.
    destruct (Z.leb_spec (2 ^ k) (b + Z.of_nat (length sent) - c)).
    + rewrite (proj2 (Z.eqb_eq _ _)) by lia. simpl. eexists _, _, _. split; [done|].
      destruct Hinv. split; try done. simpl. split; [done|lia].
    + apply (inv_claim _ _ _ _ _ _ _ _ _ _ _ m) in Hinv; [|done|done]. simpl in Hinv. rewrite Ho in Hinv. eauto.
  - destruct (inv_poll _ _ _ _ _ _ _ _ _ _ _ _ Hinv) as [E Hinv']. simpl. rewrite E. simpl.
    destruct (cv_spc _ _ _ _ _ _ Hinv) as [Hm' _].
    pose proof (inv_head _ _ _ _ _ _ Hinv' (or_introl eq_refl)) as Hd. simpl in Hd. rewrite Hd.
    pose proof (cv_osize _ _ _ _ _ _ Hinv) as Ho. pose proof (cv_lap _ _ _ _ _ _ Hinv') as Hlap.
    simpl in Ho, Hlap. rewrite Ho in Hinv' |- *.
    destruct (Z.eqb_spec (b + Z.of_nat (length sent) - w) (2 ^ k)); [by eauto|].
    apply (inv_claim _ _ _ _ _ _ _ _ _ _ _ m') in Hinv'; [|lia|done]. simpl in Hinv'. eauto.
  - destruct (inv_payload _ _ _ _ _ _ _ _ _ _ _ _ _ _ Hinv) as (h' & tbl' & E & Hinv').
    simpl. rewrite E. eauto 6.
  - destruct (inv_release _ _ _ _ _ _ _ _ _ _ _ _ _ _ Hinv) as (h' & tbl' & E & Hinv').
    simpl. rewrite E. eauto 6.
Qed.

(** The receiver finds a command with the parity of its lap exactly when a
    message has been released. *)
Lemma inv_take k b h out inn sp sent rcvd tbl w c m l :
  conc_inv k b (mk_conc h out inn sp RIdle sent rcvd) tbl w c -> sent = rcvd ++ m :: l ->
  conc_inv k b (mk_conc h out
      (mk_in (i_tbl inn) (i_recv_head_wb inn) (u32 (recv_head inn + 1)) (i_size inn)) sp
      (RGot ((b + Z.of_nat (length rcvd)) mod 2 ^ k) (cmd (enc k (b + Z.of_nat (length rcvd)) m))) sent rcvd)
    tbl w c.
Proof.
  intros [] El. simpl in *. split; simpl; try done.
  - rewrite cv_rhead0. word_lia.
  - lia.
  - destruct cv_slots0 as (l0 & El0 & Hs & _). assert (l0 = m :: l) as ->.
    { rewrite El in El0. by apply app_inv_head in El0. }
    exists (m :: l). split_and!; eauto.
Qed.

Lemma receiver_inv k b s tbl w c :
  conc_inv k b s tbl w c ->
  exists s' w', receiver_step s = Ok s' /\ conc_inv k b s' tbl w' c.
Proof.
  intros Hinv. destruct s as [h out inn sp rp sent rcvd].
  assert (Hg : get_tbl h (i_tbl inn) = Ok tbl).
  { unfold get_tbl. destruct Hinv. simpl in *. by rewrite <- cv_tbl0, cv_get0. }
  pose proof (cv_k _ _ _ _ _ _ Hinv) as Hk. pose proof (pow2_u32 k Hk).
  pose proof (cv_slots _ _ _ _ _ _ Hinv) as (l & El & Hs & Hr). simpl in El, Hs, Hr.
  set (t := b + Z.of_nat (length rcvd)) in *. pose proof (Z.mod_pos_bound t (2 ^ k)).
  destruct (lookup_lt_is_Some_2 tbl (Z.to_nat (t mod 2 ^ k))) as [y Hy];
    [apply slot_lt; [done|apply Hs]|].
  assert (Ha : arr_get tbl (t mod 2 ^ k) = Ok y) by (apply arr_get_Ok; split; [lia|done]).
  destruct rp as [|i x|]; unfold receiver_step.
  - assert (Ei : recv_head inn = u32 t)
      by (destruct Hinv; simpl in *; rewrite cv_rhead0; f_equal; unfold t; lia).
    pose proof (cv_isize _ _ _ _ _ _ Hinv) as Es. simpl in Es.
    rewrite Hg. simpl. rewrite Ei, Es, chan_index, parity_of_u32, Ha by done. simpl.
    destruct (Z.eqb_spec (Z.land (cmd y) LRPC_DONE_PARITY) (parity k t)) as [E|E]; simpl; [|by eauto].
    apply (slots_test k Hk _ _ _ _ Hs Hy) in E. destruct l as [|m l]; [done|].
    rewrite (slots_front k _ _ _ _ Hs) in Hy. injection Hy as <-.
    pose proof (inv_take _ _ _ _ _ _ _ _ _ _ _ _ _ Hinv El) as Hi. rewrite Ei, Es in Hi. eauto.
  - destruct Hr as (-> & m & l' & -> & ->). rewrite Hg. simpl. rewrite Ha. simpl.
    rewrite (slots_front k _ _ _ _ Hs) in Hy. injection Hy as <-. simpl.
    assert (Hm : msg_ok m) by apply (Forall_cons_1 _ _ _ (sl_ok _ _ _ _ Hs)).
    rewrite (proj2 (cmd_bits m.1 _ Hm (parity_cases k t))), <- surjective_pairing.
    eexists _, w. split; [done|]. destruct Hinv. simpl in *. split; simpl; rewrite ?length_app; try done; simpl.
    + lia.
    + exists l'. rewrite <- app_assoc. split_and!; [done| |done]. apply slots_pop in Hs; [|done].
      by replace (b + Z.of_nat (length rcvd + 1)) with (t + 1) by (unfold t; lia).
  - destruct Hinv. simpl in *. unfold get_wb. rewrite <- cv_wbp0, cv_wb0. simpl.
    eexists _, (w + 1). split; [done|]. split; simpl; try done.
    + rewrite cv_rhead0, lookup_insert_eq. done.
    + rewrite cv_rhead0. f_equal. lia.
    + lia.
    + lia.
Qed.

(** ** Runs *)

Definition pending (sp : spc) : list (Z * Z) :=
  match sp with SIdle => [] | SSlow m | SStore _ _ m | SRelease _ _ m => [m] end.

Definition inv (k b : Z) (s : conc) : Prop := exists tbl w c, conc_inv k b s tbl w c.

Lemma conc_step_inv k b s a :
  inv k b s -> (forall m, a = Some m -> msg_ok m) -> exists s', conc_step s a = Ok s' /\ inv k b s'.
Proof.
  intros (tbl & w & c & Hinv) Ha. destruct a as [m|]; simpl.
  - destruct (sender_inv _ _ _ _ _ _ m Hinv) as (s' & tbl' & c' & E & Hi); [by apply Ha|].
    exists s'. split; [done|]. by exists tbl', w, c'.
  - destruct (receiver_inv _ _ _ _ _ _ Hinv) as (s' & w' & E & Hi).
    exists s'. split; [done|]. by exists tbl, w', c.
Qed.

Lemma conc_run_inv k b sched s :
  inv k b s -> Forall msg_ok (omap id sched) -> exists s', conc_run s sched = Ok s' /\ inv k b s'.
Proof.
  revert s. induction sched as [|a sched IH]; intros s Hi Hm; [by exists s|]. simpl.
  destruct (conc_step_inv k b s a Hi) as (s1 & E & H1).
  { intros m ->. by apply Forall_cons_1 in Hm as [? _]. }
  rewrite E. simpl. apply IH; [done|]. destruct a; [by apply Forall_cons_1 in Hm as [_ ?]|done].
Qed.

Lemma conc_start_inv k h out inn :
  chan_rep k h out inn [] -> exists b, inv k b (conc_start h out inn).
Proof.
  intros (tbl & t & c & []). exists t, tbl, t, c. simpl in *.
  split; simpl; try done; rewrite ?Z.add_0_r in *; try done. by exists [].
Qed.

(** The messages released or under way were handed to the sender, in order. *)
Lemma conc_step_sent s a s' l :
  conc_step s a = Ok s' -> c_sent s ++ pending (c_spc s) `sublist_of` l ->
  c_sent s' ++ pending (c_spc s') `sublist_of` l ++ omap id [a].
Proof.
  destruct s as [h out inn sp rp sent rcvd]. intros E Hl.
  assert (Hk : sent ++ pending sp `sublist_of` l ++ omap id [a]) by by apply sublist_inserts_r.
  destruct a as [m|]; simpl in *.
  - destruct sp as [|m'|i x m'|i x m']; simpl in *; ok_inv E; simpl; rewrite ?app_nil_r in *; try done.
    + by apply sublist_app.
    + by apply sublist_app.
    + etrans; [by apply sublist_inserts_r|exact Hk].
  - destruct rp; simpl in *; ok_inv E; simpl; done.
Qed.

Lemma conc_run_sent sched s s' l :
  conc_run s sched = Ok s' -> c_sent s ++ pending (c_spc s) `sublist_of` l ->
  c_sent s' ++ pending (c_spc s') `sublist_of` l ++ omap id sched.
Proof.
  revert s l. induction sched as [|a sched IH]; intros s l E Hl; simpl in E.
  { injection E as ->. by rewrite app_nil_r. }
  apply bind_Ok_inv in E as (s1 & E1 & E). pose proof (conc_step_sent _ _ _ _ E1 Hl) as H1.
  specialize (IH _ _ E H1). rewrite <- app_assoc in IH. by destruct a.
Qed.

Lemma inv_race_free k b s : inv k b s -> race_free s.
Proof.
  intros (tbl & w & c & Hinv). pose proof (sent_count _ _ _ _ _ _ Hinv) as Hcnt.
  destruct Hinv, s as [h out inn sp rp sent rcvd]. unfold race_free. simpl in *.
  destruct cv_slots0 as (l & El & Hs & Hr). pose proof (Z.pow_pos_nonneg 2 k).
  assert (Hlap : forall i, rp = RGot ((b + Z.of_nat (length rcvd)) mod 2 ^ k) i -> s_claimed sp = 1 ->
    (b + Z.of_nat (length sent)) mod 2 ^ k <> (b + Z.of_nat (length rcvd)) mod 2 ^ k).
  { intros i -> Hc Heq. destruct Hr as (_ & m & l' & -> & _).
    apply (slot_ne k (b + Z.of_nat (length rcvd)) (b + Z.of_nat (length sent))); [lia| |by rewrite Heq].
    rewrite El, length_app in *. simpl in *. lia. }
  destruct sp as [|m|i x m|i x m]; try done; destruct rp as [|j y|]; try done;
    destruct Hr as (-> & _); destruct cv_spc0 as (_ & -> & _); by eapply Hlap.
Qed.

(** C5. Two ends running at the same time: however the shared-memory accesses
    of a sender and of a receiver are interleaved, every call is defined, what
    has been received is a prefix of what has been released, in order and
    without tearing, what has been released was handed to the sender in that
    order, at most a channelful is under way, and the sender never writes the
    slot the receiver is reading. *)
Theorem lrpc_concurrent_safe k h out inn sched :
  chan_rep k h out inn [] -> Forall msg_ok (omap id sched) ->
  exists s, conc_run (conc_start h out inn) sched = Ok s
    /\ c_sent s `sublist_of` omap id sched
    /\ (exists l, c_sent s = c_rcvd s ++ l /\ Z.of_nat (length l) <= 2 ^ k)
    /\ race_free s.
Proof.
  intros Hc Hm. destruct (conc_start_inv _ _ _ _ Hc) as [b Hi].
  destruct (conc_run_inv k b sched _ Hi Hm) as (s & E & Hs). exists s. split; [done|]. split_and!.
  - etrans; [by apply sublist_inserts_r|]. by apply (conc_run_sent _ _ _ [] E).
  - destruct Hs as (tbl & w & c & []). destruct cv_slots0 as (l & El & Hsl & _).
    exists l. split; [done|]. apply Hsl.
  - by eapply inv_race_free.
Qed.

Lemma lrpc_concurrent_safe_witness :
  exists s, conc_run (conc_start example_chan.1.1 example_chan.1.2 example_chan.2)
      [Some (5, 50); None; Some (6, 60); Some (6, 60); None; Some (6, 60); None] = Ok s
    /\ c_sent s `sublist_of` [(5, 50); (6, 60); (6, 60); (6, 60)]
    /\ (exists l, c_sent s = c_rcvd s ++ l /\ Z.of_nat (length l) <= 2 ^ 1)
    /\ race_free s.
Proof.
  apply (lrpc_concurrent_safe 1 example_chan.1.1 example_chan.1.2 example_chan.2
    [Some (5, 50); None; Some (6, 60); Some (6, 60); None; Some (6, 60); None]).
  - apply example_chan_rep.
  - repeat constructor; simpl; lia.
Defined.

(** What the receiver has left to do. *)
Definition backlog (s : conc) : Z :=
  3 * Z.of_nat (length (c_sent s) - length (c_rcvd s)) + (r_busy (c_rpc s) - 2 * r_reading (c_rpc s)).

Lemma inv_prefix k b s : inv k b s -> exists l, c_sent s = c_rcvd s ++ l
  /\ (r_reading (c_rpc s) = 1 -> l <> []).
Proof.
  intros (tbl & w & c & []). destruct cv_slots0 as (l & El & _ & Hr). exists l. split; [done|].
  destruct (c_rpc s); simpl; try lia. by destruct Hr as (_ & m & l' & -> & _).
Qed.

Lemma inv_found k b h out inn sp sent rcvd m l :
  inv k b (mk_conc h out inn sp RIdle sent rcvd) -> sent = rcvd ++ m :: l ->
  exists s', receiver_step (mk_conc h out inn sp RIdle sent rcvd) = Ok s'
    /\ r_reading (c_rpc s') = 1 /\ c_sent s' = sent /\ c_rcvd s' = rcvd.
Proof.
  intros (tbl & w & c & Hinv) El. destruct Hinv. simpl in *. destruct cv_slots0 as (l0 & El0 & Hs & _).
  assert (l0 = m :: l) as -> by (rewrite El in El0; by apply app_inv_head in El0).
  pose proof (slots_front _ _ _ _ _ Hs) as Hf.
  unfold get_tbl. rewrite <- cv_tbl0, cv_get0. simpl. pose proof (pow2_u32 k cv_k0).
  rewrite cv_rhead0, cv_isize0, chan_index, parity_of_u32 by done.
  replace (w + 0) with (b + Z.of_nat (length rcvd)) by lia.
  pose proof (Z.mod_pos_bound (b + Z.of_nat (length rcvd)) (2 ^ k)).
  rewrite (proj2 (arr_get_Ok _ _ _)) by (split; [lia|exact Hf]). simpl.
  pose proof (proj2 (slots_test k cv_k0 _ _ _ _ Hs Hf) (fun E => ltac:(discriminate E))) as Ht.
  simpl in Ht. rewrite Ht, Z.eqb_refl. simpl. eexists. split; done.
Qed.

Lemma receiver_progress k b s :
  inv k b s -> exists s', receiver_step s = Ok s' /\ inv k b s' /\ c_sent s' = c_sent s
    /\ 0 <= backlog s' <= Z.max 0 (backlog s - 1).
Proof.
  intros Hi. destruct (conc_step_inv k b s None Hi) as (s' & E & Hi'); [done|]. exists s'. simpl in E.
  destruct (inv_prefix _ _ _ Hi) as (l & El & Hl). destruct (inv_prefix _ _ _ Hi') as (l' & El' & Hl').
  assert (Hge : 0 <= backlog s').
  { unfold backlog. rewrite El', length_app. destruct (c_rpc s') as [|? ?|] eqn:Er; simpl in *; try lia.
    destruct l'; [by destruct (Hl' eq_refl)|simpl; lia]. }
  split_and!; try done; clear El' Hl' Hge; destruct s as [h out inn sp rp sent rcvd]; simpl in El.
  - clear -E. destruct rp; simpl in E; ok_inv E; done.
  - destruct rp as [|i x|].
    + destruct l as [|m l].
      * assert (El2 : length sent = length rcvd) by (by rewrite El, app_nil_r).
        clear -E El2 Hi'. destruct (inv_prefix _ _ _ Hi') as (l' & El' & Hl').
        simpl in E. ok_inv E; unfold backlog in *; simpl in *.
        -- lia.
        -- destruct l'; [by destruct (Hl' eq_refl)|]. rewrite El', length_app in El2. simpl in El2. lia.
      * destruct (inv_found _ _ _ _ _ _ _ _ _ _ Hi El) as (s2 & E2 & Hr & Hs2 & Hr2).
        rewrite E2 in E. injection E as ->. unfold backlog. rewrite Hs2, Hr2, Hr.
        simpl. rewrite El, length_app. simpl. destruct (c_rpc s'); simpl in *; lia.
    + destruct l; [by destruct (Hl eq_refl)|]. clear -E El. simpl in E. ok_inv E.
      unfold backlog. simpl. rewrite !length_app. simpl. lia.
    + clear -E. simpl in E. ok_inv E. unfold backlog. simpl. lia.
Qed.

Lemma receiver_catches_up k b n s :
  inv k b s -> backlog s <= Z.of_nat n ->
  exists s', conc_run s (replicate n None) = Ok s' /\ c_rcvd s' = c_sent s.
Proof.
  revert s. induction n as [|n IH]; intros s Hi Hn; cbn [replicate conc_run].
  - exists s. split; [done|]. destruct (inv_prefix _ _ _ Hi) as (l & El & Hl). unfold backlog in Hn.
    rewrite El, length_app in Hn. destruct (c_rpc s); simpl in *; destruct l as [|? [|? ?]]; simpl in *;
      try (rewrite app_nil_r in El; done); try lia; by destruct Hl.
  - destruct (receiver_progress _ _ _ Hi) as (s1 & E & Hi1 & <- & Hb). simpl. rewrite E.
    apply IH; [done|lia].
Qed.

(** C18. Nothing gets stuck: whatever the sender is doing, a receiver that
    polls three times for every message released and not yet received, and
    once more, has received every released message. *)
Theorem lrpc_concurrent_delivers k h out inn sched n :
  chan_rep k h out inn [] -> Forall msg_ok (omap id sched) ->
  exists s, conc_run (conc_start h out inn) sched = Ok s
    /\ ((3 * (length (c_sent s) - length (c_rcvd s)) < n)%nat ->
        exists s', conc_run s (replicate n None) = Ok s' /\ c_rcvd s' = c_sent s).
Proof.
  intros Hc Hm. destruct (conc_start_inv _ _ _ _ Hc) as [b Hi].
  destruct (conc_run_inv k b sched _ Hi Hm) as (s & E & Hs). exists s. split; [done|].
  intros Hn. apply (receiver_catches_up k b); [done|]. unfold backlog.
  destruct (c_rpc s); simpl; lia.
Qed.

Lemma lrpc_concurrent_delivers_witness :
  exists s, conc_run (conc_start example_chan.1.1 example_chan.1.2 example_chan.2)
      [Some (5, 50); Some (5, 50); None; Some (5, 50); None; Some (6, 60)] = Ok s
    /\ ((3 * (length (c_sent s) - length (c_rcvd s)) < 4)%nat ->
        exists s', conc_run s (replicate 4 None) = Ok s' /\ c_rcvd s' = c_sent s).
Proof.
  apply (lrpc_concurrent_delivers 1 example_chan.1.1 example_chan.1.2 example_chan.2
    [Some (5, 50); Some (5, 50); None; Some (5, 50); None; Some (6, 60)] 4).
  - apply example_chan_rep.
  - repeat constructor; simpl; lia.
Defined.

(** ** The steps are the calls *)

Lemma store_steps h p i c v h' :
  store_msg h p i c v = Ok h' ->
  exists h1, upd_slot h p i (fun x => mk_msg (cmd x) v) = Ok h1
    /\ upd_slot h1 p i (fun x => mk_msg c (payload x)) = Ok h'.
Proof.
  unfold store_msg, upd_slot. intros E. ok_inv E. rewrite E0. simpl. rewrite E1. simpl.
  eexists. split; [done|]. unfold get_tbl. simpl. rewrite lookup_insert_eq. simpl. rewrite E2. simpl.
  by rewrite insert_insert_eq.
Qed.

Lemma claim_steps h out inn rp sent rcvd m h' :
  store_msg h (o_tbl out) (Z.land (send_head out) (u32 (o_size out - 1)))
    (Z.lor m.1 (parity_of (send_head out) (o_size out))) m.2 = Ok h' ->
  conc_run (mk_conc h (claim_slot out m).2 inn (claim_slot out m).1 rp sent rcvd) [Some m; Some m]
  = Ok (mk_conc h' (claim_slot out m).2 inn SIdle rp (sent ++ [m]) rcvd).
Proof.
  intros E. apply store_steps in E as (h1 & E1 & E2). simpl. rewrite E1. simpl. by rewrite E2.
Qed.

(** C29. The interleaved steps are [lrpc_send] and [lrpc_recv]: a sender, or a
    receiver, that runs undisturbed until it is between calls again has done
    what the call does. *)
Theorem lrpc_calls_are_steps h out inn :
  (forall m ok out' h' rp sent rcvd, lrpc_send out m.1 m.2 h = Ok (ok, out', h') ->
    exists n, conc_run (mk_conc h out inn SIdle rp sent rcvd) (replicate n (Some m))
      = Ok (mk_conc h' out' inn SIdle rp (sent ++ (if ok then [m] else [])) rcvd))
  /\ (forall r inn' h' sp sent rcvd, lrpc_recv inn h = Ok (r, inn', h') ->
    exists n, conc_run (mk_conc h out inn sp RIdle sent rcvd) (replicate (S n) None)
      = Ok (mk_conc h' out inn' sp RIdle sent (rcvd ++ option_list r))).
Proof.
  split.
  - intros m ok out' h' rp sent rcvd E. unfold lrpc_send in E.
    apply bind_Ok_inv in E as ([] & Ep & E). destruct (o_size out <=? _) eqn:Ef.
    + unfold lrpc_send_slow in E. apply bind_Ok_inv in E as ([] & Ep2 & E).
      apply bind_Ok_inv in E as (tl & Etl & E). cbn [send_head send_tail o_size o_tbl o_recv_head_wb] in E.
      destruct (u32 (send_head out - tl) =? o_size out) eqn:Eq.
      * injection E as <- <- <-. exists 2%nat. simpl. rewrite Ep, Ef. simpl. rewrite Ep2. simpl.
        unfold lrpc_poll_send_tail. rewrite Etl. simpl. by rewrite Eq, app_nil_r.
      * apply bind_Ok_inv in E as (h1 & E1 & E). injection E as <- <- <-. exists 4%nat.
        apply (claim_steps h (mk_out (o_tbl out) (o_recv_head_wb out) (send_head out) tl (o_size out))
                 inn rp sent rcvd m) in E1.
        simpl in E1 |- *. rewrite Ep, Ef. simpl. rewrite Ep2. simpl.
        unfold lrpc_poll_send_tail. rewrite Etl. simpl. rewrite Eq. exact E1.
    + apply bind_Ok_inv in E as (h1 & E1 & E). injection E as <- <- <-. exists 3%nat.
      apply (claim_steps h out inn rp sent rcvd m) in E1. simpl in E1 |- *. rewrite Ep, Ef. exact E1.
  - intros r inn' h' sp sent rcvd E. unfold lrpc_recv in E.
    apply bind_Ok_inv in E as (t & Et & E). apply bind_Ok_inv in E as (m & Em & E).
    destruct (negb _) eqn:Ef.
    + injection E as <- <- <-. exists 0%nat. simpl. rewrite Et. simpl. rewrite Em. simpl.
      by rewrite Ef, app_nil_r.
    + apply bind_Ok_inv in E as (w & Ew & E). injection E as <- <- <-. exists 2%nat.
      simpl in *. rewrite Et. simpl. rewrite Em. simpl. rewrite Ef. simpl. rewrite Et. simpl.
      rewrite Em. simpl. by rewrite Ew.
Qed.

Lemma lrpc_calls_are_steps_witness :
  exists n, conc_run (conc_start example_chan.1.1 example_chan.1.2 example_chan.2) (replicate n (Some (5, 50)))
    = Ok (mk_conc (mk_lheap (<[64 := [mk_msg 0 0; mk_msg 5 50]]> ∅) (<[128 := 2 ^ 32 - 1]> ∅))
            (mk_out 64 128 0 (2 ^ 32 - 1) 2) example_chan.2 SIdle RIdle [(5, 50)] []).
Proof.
  destruct (lrpc_calls_are_steps example_chan.1.1 example_chan.1.2 example_chan.2) as [H _].
  refine (H (5, 50) true (mk_out 64 128 0 (2 ^ 32 - 1) 2)
    (mk_lheap (<[64 := [mk_msg 0 0; mk_msg 5 50]]> ∅) (<[128 := 2 ^ 32 - 1]> ∅)) RIdle [] [] _).
  vm_compute. reflexivity.
Defined.
