(* ===== verification/Peers.v ===== *)
(** * Peers: the LRPC wiring between a worker and its dispatcher

    Models [Worker::register_dpt] of [src/src/c++/libos/common/Worker.cc]: two
    channels are allocated, one for each direction, and their ends are placed
    in the [LrpcContext] of the worker (slot 0) and of the dispatcher (the slot
    of the worker's id, less one). *)
From S2P Require Import Prelude Fail Ring Lrpc.

(** The fields of [Worker] the wiring uses. *)
Record peer : Type := mk_peer {
  p_worker_id : Z;
  dpt_id : Z;
  lrpc_ctx : LrpcContext;
  n_peers : Z;
  peer_ids : list Z
}.

Definition new_peer (id : Z) : peer := mk_peer id (-1) new_LrpcContext 0 (replicate MAX_PEERS 0).

(** [lrpc_init_in(&ctx.ingress[i], ...)]: a refused size leaves the channel as
    it is, and the return value is not looked at. *)
Definition set_ingress (ctx : LrpcContext) (i tbl wb : Z) : outcome LrpcContext :=
  old ← arr_get (ingress ctx) i;
  ing ← arr_set (ingress ctx) i (default old (lrpc_init_in tbl LRPC_Q_LEN wb).2);
  Ok (mk_lctx ing (egress ctx)).

Definition set_egress (ctx : LrpcContext) (i tbl wb : Z) : outcome LrpcContext :=
  old ← arr_get (egress ctx) i;
  egr ← arr_set (egress ctx) i (default old (lrpc_init_out tbl LRPC_Q_LEN wb).2);
  Ok (mk_lctx (ingress ctx) egr).

(** [peer_ids[n_peers++] = id]. *)
Definition add_peer (ids : list Z) (n id : Z) : outcome (list Z * Z) :=
  ids ← arr_set ids n id; Ok (ids, u64 (n + 1)).

(** [register_dpt] of the worker [a] with the dispatcher [b]; [pa] and [pb] are
    the addresses of the table and the word of the two channels. *)
Definition register_dpt (a b : peer) (pa pb : Z * Z) (h : lheap)
  : outcome (Z * peer * peer * lheap) :=
  '(abuf, awb, h) ← generate_lrpc_buffer pa.1 pa.2 h;
  '(bbuf, bwb, h) ← generate_lrpc_buffer pb.1 pb.2 h;
  actx ← set_ingress (lrpc_ctx a) 0 abuf awb;
  actx ← set_egress actx 0 bbuf bwb;
  bctx ← set_ingress (lrpc_ctx b) (i32 (p_worker_id a - 1)) bbuf bwb;
  bctx ← set_egress bctx (i32 (p_worker_id a - 1)) abuf awb;
  '(aids, an) ← add_peer (peer_ids a) (n_peers a) (p_worker_id b);
  '(bids, bn) ← add_peer (peer_ids b) (n_peers b) (i32 (p_worker_id a - 1));
  Ok (0, mk_peer (p_worker_id a) (p_worker_id b) actx an aids,
      mk_peer (p_worker_id b) (dpt_id b) bctx bn bids, h).

(** ** Connections *)

(** The worker [a] and the dispatcher [b] share two channels that have no
    memory in common: [up] is what the worker has sent, [down] what the
    dispatcher has. *)
Definition connected (h : lheap) (a b : peer) (up down : list (Z * Z)) : Prop :=
  exists oa ia ob ib,
    egress (lrpc_ctx a) !! 0%nat = Some oa /\ ingress (lrpc_ctx a) !! 0%nat = Some ia
    /\ egress (lrpc_ctx b) !! Z.to_nat (p_worker_id a - 1) = Some ob
    /\ ingress (lrpc_ctx b) !! Z.to_nat (p_worker_id a - 1) = Some ib
    /\ chan_rep 12 h oa ib up /\ chan_rep 12 h ob ia down
    /\ o_tbl oa <> o_tbl ob /\ o_recv_head_wb oa <> o_recv_head_wb ob.

Definition with_ctx (p : peer) (c : LrpcContext) : peer :=
  mk_peer (p_worker_id p) (dpt_id p) c (n_peers p) (peer_ids p).

Lemma fresh_chan h tbl wb :
  tbls h !! tbl = Some (replicate (Z.to_nat LRPC_Q_LEN) (mk_msg 0 0)) -> wbs h !! wb = Some 0 ->
  chan_rep 12 h (mk_out tbl wb 0 0 LRPC_Q_LEN) (mk_in tbl wb 0 LRPC_Q_LEN) [].
Proof.
  assert (Hl : length (replicate (Z.to_nat LRPC_Q_LEN) (mk_msg 0 0)) = Z.to_nat (2 ^ 12))
    by apply length_replicate.
  assert (Hz : Forall (fun m => cmd m = 0) (replicate (Z.to_nat LRPC_Q_LEN) (mk_msg 0 0)))
    by by apply Forall_replicate.
  revert Hl Hz. generalize (replicate (Z.to_nat LRPC_Q_LEN) (mk_msg 0 0)). intros t Hl Hz Ht Hw.
  exists t, 0, 0. split; simpl; try done; try lia. by apply slots_empty.
Qed.

(** A channel is not touched by writes to other tables and words. *)
Lemma chan_frame k h h' out inn l :
  chan_rep k h out inn l -> tbls h' !! o_tbl out = tbls h !! o_tbl out ->
  wbs h' !! o_recv_head_wb out = wbs h !! o_recv_head_wb out -> chan_rep k h' out inn l.
Proof.
  intros (tb & t0 & c & []) H1 H2. exists tb, t0, c. split; try done; by rewrite ?H1, ?H2.
Qed.

Lemma chan_mapped k h out inn l :
  chan_rep k h out inn l -> is_Some (tbls h !! o_tbl out) /\ is_Some (wbs h !! o_recv_head_wb out).
Proof.
  intros (tb & t0 & c & Hc). rewrite (ca_get _ _ _ _ _ _ _ _ Hc), (ca_wb _ _ _ _ _ _ _ _ Hc). eauto.
Qed.

Lemma set_ingress_Ok ctx i tbl wb :
  0 <= i < Z.of_nat (length (ingress ctx)) ->
  set_ingress ctx i tbl wb
  = Ok (mk_lctx (<[Z.to_nat i := mk_in tbl wb 0 LRPC_Q_LEN]> (ingress ctx)) (egress ctx)).
Proof.
  intros Hi. unfold set_ingress. destruct (arr_get_lt (ingress ctx) i Hi) as [x ->]. simpl.
  by rewrite (arr_set_Ok _ _ _ Hi).
Qed.

Lemma set_egress_Ok ctx i tbl wb :
  0 <= i < Z.of_nat (length (egress ctx)) ->
  set_egress ctx i tbl wb
  = Ok (mk_lctx (ingress ctx) (<[Z.to_nat i := mk_out tbl wb 0 0 LRPC_Q_LEN]> (egress ctx))).
Proof.
  intros Hi. unfold set_egress. destruct (arr_get_lt (egress ctx) i Hi) as [x ->]. simpl.
  by rewrite (arr_set_Ok _ _ _ Hi).
Qed.

(** ** One end of a channel at a time, and what it leaves alone *)

Lemma chan_send h out inn l v :
  chan_rep 12 h out inn l ->
  exists out' h', lrpc_send out LRPC_TX v h = Ok (Z.of_nat (length l) <? LRPC_Q_LEN, out', h')
    /\ chan_rep 12 h' out' inn (if Z.of_nat (length l) <? LRPC_Q_LEN then l ++ [(LRPC_TX, v)] else l)
    /\ o_tbl out' = o_tbl out /\ o_recv_head_wb out' = o_recv_head_wb out
    /\ (forall p, p <> o_tbl out -> tbls h' !! p = tbls h !! p) /\ wbs h' = wbs h.
Proof.
  intros Hc. assert (Hm : msg_ok (LRPC_TX, v)) by (unfold msg_ok, LRPC_TX; simpl; lia).
  assert (Hcap : Z.of_nat (length l) <= 2 ^ 12)
    by (destruct Hc as (tbl & t & c' & Hc'); apply (sl_cap _ _ _ _ (ca_slots _ _ _ _ _ _ _ _ Hc'))).
  destruct (Z.ltb_spec (Z.of_nat (length l)) LRPC_Q_LEN) as [Hlt|Hge]; unfold LRPC_Q_LEN in *.
  - destruct (lrpc_send_room _ _ _ _ _ _ Hc Hlt Hm) as (out' & tbl' & E & Hc' & H1 & H2).
    eexists _, _. split_and!; [exact E|exact Hc'|done|done| |done].
    intros p Hp. simpl. by rewrite lookup_insert_ne.
  - destruct (lrpc_send_full 12 _ _ _ _ _ Hc ltac:(lia) Hm) as (out' & E & Hc' & H1 & H2).
    eexists _, _. split_and!; [exact E|exact Hc'|done..].
Qed.

Lemma chan_recv h out inn l :
  chan_rep 12 h out inn l ->
  exists inn' h', lrpc_recv inn h = Ok (head l, inn', h')
    /\ chan_rep 12 h' out inn' (tail l)
    /\ i_tbl inn' = i_tbl inn /\ i_recv_head_wb inn' = i_recv_head_wb inn
    /\ tbls h' = tbls h /\ (forall p, p <> o_recv_head_wb out -> wbs h' !! p = wbs h !! p).
Proof.
  intros Hc. destruct l as [|m l]; simpl.
  - rewrite (lrpc_recv_nil _ _ _ _ Hc). by eexists _, _.
  - destruct (lrpc_recv_cons _ _ _ _ _ _ Hc) as (inn' & v & E & Hc' & H1 & H2).
    eexists _, _. split_and!; [exact E|exact Hc'|done|done|done|].
    intros p Hp. simpl. by rewrite lookup_insert_ne.
Qed.

(** [push] and [pop] in terms of the channel they use. *)
Lemma push_chan ctx i v h out ok out' h' :
  egress ctx !! i = Some out -> lrpc_send out LRPC_TX v h = Ok (ok, out', h') ->
  push ctx v (Z.of_nat i) h
  = Ok (if ok then 0 else EAGAIN, mk_lctx (ingress ctx) (<[i := out']> (egress ctx)), h').
Proof.
  intros Ho E. unfold push. rewrite (proj2 (arr_get_Ok _ _ out)) by (rewrite Nat2Z.id; split; [lia|done]).
  simpl. rewrite E. simpl. rewrite arr_set_Ok, Nat2Z.id by (apply lookup_lt_Some in Ho; lia). by destruct ok.
Qed.

Lemma pop_chan ctx i h inn r inn' h' :
  ingress ctx !! i = Some inn -> lrpc_recv inn h = Ok (r, inn', h') ->
  pop ctx (Z.of_nat i) h
  = Ok (match r with Some _ => 0 | None => EAGAIN end, snd <$> r,
        mk_lctx (<[i := inn']> (ingress ctx)) (egress ctx), h').
Proof.
  intros Ho E. unfold pop. rewrite (proj2 (arr_get_Ok _ _ inn)) by (rewrite Nat2Z.id; split; [lia|done]).
  simpl. rewrite E. simpl. rewrite arr_set_Ok, Nat2Z.id by (apply lookup_lt_Some in Ho; lia).
  by destruct r as [[c v]|].
Qed.

Record peer_ok (p : peer) : Prop := {
  pk_in : length (ingress (lrpc_ctx p)) = MAX_PEERS;
  pk_out : length (egress (lrpc_ctx p)) = MAX_PEERS;
  pk_ids : length (peer_ids p) = MAX_PEERS;
  pk_n : 0 <= n_peers p
}.

Lemma add_peer_Ok ids n id :
  0 <= n < Z.of_nat (length ids) -> length ids = MAX_PEERS ->
  add_peer ids n id = Ok (<[Z.to_nat n := id]> ids, n + 1).
Proof.
  intros Hn Hl. unfold add_peer. rewrite arr_set_Ok by done. simpl. rewrite Hl in Hn.
  unfold MAX_PEERS in Hn. by rewrite u64_id by lia.
Qed.

(** What [register_dpt] does: the new connection, and what it leaves alone. *)
Lemma register_dpt_ok a b pa pb h :
  peer_ok a -> peer_ok b -> 1 <= p_worker_id a <= 32 -> n_peers a < 32 -> n_peers b < 32 ->
  pa.1 <> NULL -> pa.2 <> NULL -> pb.1 <> NULL -> pb.2 <> NULL -> pa.1 <> pb.1 -> pa.2 <> pb.2 ->
  tbls h !! pa.1 = None -> tbls h !! pb.1 = None -> wbs h !! pa.2 = None -> wbs h !! pb.2 = None ->
  exists a' b' h', register_dpt a b pa pb h = Ok (0, a', b', h')
    /\ connected h' a' b' [] [] /\ dpt_id a' = p_worker_id b /\ peer_ok a' /\ peer_ok b'
    /\ peer_ids b' !! Z.to_nat (n_peers b) = Some (p_worker_id a - 1) /\ n_peers b' = n_peers b + 1
    /\ (forall a2 up down, 1 <= p_worker_id a2 -> p_worker_id a2 <> p_worker_id a ->
         connected h a2 b up down -> connected h' a2 b' up down)
    /\ p_worker_id a' = p_worker_id a /\ p_worker_id b' = p_worker_id b
    /\ (forall p, p <> pa.1 -> p <> pb.1 -> tbls h' !! p = tbls h !! p)
    /\ (forall p, p <> pa.2 -> p <> pb.2 -> wbs h' !! p = wbs h !! p).
Proof.
  intros Ha Hb Hid Hna Hnb Hn1 Hn2 Hn3 Hn4 Hd1 Hd2 Hf1 Hf2 Hf3 Hf4.
  destruct Ha as [A1 A2 A3 A4], Hb as [B1 B2 B3 B4]. unfold MAX_PEERS in *.
  unfold register_dpt, generate_lrpc_buffer.
  rewrite !(proj2 (Z.eqb_neq _ _)) by done. simpl orb.
  generalize (fresh_chan (mk_lheap
    (<[pb.1 := replicate (Z.to_nat LRPC_Q_LEN) (mk_msg 0 0)]>
      (<[pa.1 := replicate (Z.to_nat LRPC_Q_LEN) (mk_msg 0 0)]> (tbls h)))
    (<[pb.2 := 0]> (<[pa.2 := 0]> (wbs h))))).
  generalize (replicate (Z.to_nat LRPC_Q_LEN) (mk_msg 0 0)). intros t Hfresh. simpl in Hfresh.
  assert (Ei : i32 (p_worker_id a - 1) = p_worker_id a - 1) by (clear -Hid; word_lia). rewrite Ei.
  cbn [mbind outcome_bind]. rewrite set_ingress_Ok by lia. cbn [mbind outcome_bind].
  rewrite set_egress_Ok by (simpl; lia). cbn [mbind outcome_bind].
  rewrite set_ingress_Ok by lia. cbn [mbind outcome_bind].
  rewrite set_egress_Ok by (simpl; lia). cbn [mbind outcome_bind].
  rewrite !add_peer_Ok by (unfold MAX_PEERS; lia || done). simpl.
  eexists _, _, _. split; [done|]. split_and!; simpl.
  - eexists _, _, _, _. simpl. rewrite !list_lookup_insert_eq by lia.
    do 4 (split; [done|]). split_and!; simpl; [apply Hfresh|apply Hfresh|done|done];
      rewrite ?lookup_insert_eq; try done; by rewrite lookup_insert_ne, lookup_insert_eq.
  - done.
  - split; simpl; rewrite ?length_insert; unfold MAX_PEERS; lia.
  - split; simpl; rewrite ?length_insert; unfold MAX_PEERS; lia.
  - apply list_lookup_insert_eq. lia.
  - done.
  - intros a2 up down Hid2 Hne (oa & ia & ob & ib & E1 & E2 & E3 & E4 & C1 & C2 & S1 & S2).
    exists oa, ia, ob, ib. simpl. rewrite !list_lookup_insert_ne by lia.
    assert (Hframe : forall out inn l, chan_rep 12 h out inn l -> chan_rep 12
      (mk_lheap (<[pb.1 := t]> (<[pa.1 := t]> (tbls h))) (<[pb.2 := 0]> (<[pa.2 := 0]> (wbs h)))) out inn l).
    { intros out inn l C. destruct (chan_mapped _ _ _ _ _ C) as [[? Ht] [? Hw]].
      eapply chan_frame; [exact C|..]; simpl; rewrite !lookup_insert_ne; congruence. }
    split_and!; eauto.
  - done.
  - done.
  - intros p Hp1 Hp2. by rewrite !lookup_insert_ne.
  - intros p Hp1 Hp2. by rewrite !lookup_insert_ne.
Qed.

(** Registering a worker with the dispatcher connects the two by an empty
    channel in each direction, whose ends are the worker's slot 0 and the
    dispatcher's slot for that worker, and leaves the connections of the
    workers registered before as they were. *)
Theorem register_dpt_connects a b pa pb h :
  peer_ok a -> peer_ok b -> 1 <= p_worker_id a <= 32 -> n_peers a < 32 -> n_peers b < 32 ->
  pa.1 <> NULL -> pa.2 <> NULL -> pb.1 <> NULL -> pb.2 <> NULL -> pa.1 <> pb.1 -> pa.2 <> pb.2 ->
  tbls h !! pa.1 = None -> tbls h !! pb.1 = None -> wbs h !! pa.2 = None -> wbs h !! pb.2 = None ->
  exists a' b' h', register_dpt a b pa pb h = Ok (0, a', b', h')
    /\ connected h' a' b' [] [] /\ dpt_id a' = p_worker_id b /\ peer_ok a' /\ peer_ok b'
    /\ peer_ids b' !! Z.to_nat (n_peers b) = Some (p_worker_id a - 1) /\ n_peers b' = n_peers b + 1
    /\ forall a2 up down, 1 <= p_worker_id a2 -> p_worker_id a2 <> p_worker_id a ->
         connected h a2 b up down -> connected h' a2 b' up down.
Proof.
  intros. destruct (register_dpt_ok a b pa pb h) as (a' & b' & h' & E & Hr); try done.
  exists a', b', h'. naive_solver.
Qed.

Lemma new_peer_ok id : peer_ok (new_peer id).
Proof. by split. Qed.

Lemma register_dpt_connects_witness :
  exists a' b' h', register_dpt (new_peer 1) (new_peer 0) (64, 128) (192, 256) (mk_lheap ∅ ∅) = Ok (0, a', b', h')
    /\ connected h' a' b' [] [] /\ dpt_id a' = 0 /\ peer_ok a' /\ peer_ok b'
    /\ peer_ids b' !! 0%nat = Some 0 /\ n_peers b' = 1
    /\ forall a2 up down, 1 <= p_worker_id a2 -> p_worker_id a2 <> 1 ->
         connected (mk_lheap ∅ ∅) a2 (new_peer 0) up down -> connected h' a2 b' up down.
Proof.
  apply (register_dpt_connects (new_peer 1) (new_peer 0) (64, 128) (192, 256) (mk_lheap ∅ ∅));
    first [apply new_peer_ok | reflexivity | discriminate | simpl; lia].
Defined.

(** The worker's end of a connection. *)
Lemma worker_pop h a b up down :
  connected h a b up down ->
  exists c h', pop (lrpc_ctx a) 0 h
      = Ok (match down with [] => EAGAIN | _ => 0 end, snd <$> head down, c, h')
    /\ connected h' (with_ctx a c) b up (tail down).
Proof.
  intros (oa & ia & ob & ib & E1 & E2 & E3 & E4 & C1 & C2 & S1 & S2).
  assert (Hka := lookup_lt_Some _ _ _ E2).
  assert (Hwa : o_recv_head_wb oa = i_recv_head_wb ib) by (destruct C1 as (? & ? & ? & []); done).
  destruct (chan_recv _ _ _ _ C2) as (ia' & h' & E & C2' & T1 & T2 & F1 & F2).
  pose proof (pop_chan _ 0 _ _ _ _ _ E2 E) as Ep. change (Z.of_nat 0) with 0 in Ep. rewrite Ep. eexists _, _.
  split; [by destruct down|]. exists oa, ia', ob, ib. simpl. rewrite list_lookup_insert_eq by done.
  split_and!; try done. apply (chan_frame _ h); [done|by rewrite F1|by apply F2].
Qed.

Lemma worker_push h a b up down v :
  connected h a b up down ->
  exists c h', push (lrpc_ctx a) v 0 h
      = Ok (if Z.of_nat (length up) <? LRPC_Q_LEN then 0 else EAGAIN, c, h')
    /\ connected h' (with_ctx a c) b
         (if Z.of_nat (length up) <? LRPC_Q_LEN then up ++ [(LRPC_TX, v)] else up) down.
Proof.
  intros (oa & ia & ob & ib & E1 & E2 & E3 & E4 & C1 & C2 & S1 & S2).
  assert (Hla := lookup_lt_Some _ _ _ E1).
  destruct (chan_send _ _ _ _ v C1) as (oa' & h' & E & C1' & T1 & T2 & F1 & F2).
  pose proof (push_chan _ 0 _ _ _ _ _ _ E1 E) as Ep. change (Z.of_nat 0) with 0 in Ep. rewrite Ep. eexists _, _.
  split; [done|]. exists oa', ia, ob, ib. simpl. rewrite list_lookup_insert_eq by done.
  rewrite T1, T2. split_and!; try done. apply (chan_frame _ h); [done|by apply F1, not_eq_sym|by rewrite F2].
Qed.

(** The dispatcher's end. *)
Lemma dispatcher_push h a b up down v :
  1 <= p_worker_id a -> connected h a b up down ->
  exists c h', push (lrpc_ctx b) v (p_worker_id a - 1) h
      = Ok (if Z.of_nat (length down) <? LRPC_Q_LEN then 0 else EAGAIN, c, h')
    /\ connected h' a (with_ctx b c) up
         (if Z.of_nat (length down) <? LRPC_Q_LEN then down ++ [(LRPC_TX, v)] else down).
Proof.
  intros Hid (oa & ia & ob & ib & E1 & E2 & E3 & E4 & C1 & C2 & S1 & S2).
  assert (Hi : p_worker_id a - 1 = Z.of_nat (Z.to_nat (p_worker_id a - 1))) by lia.
  assert (Hlb := lookup_lt_Some _ _ _ E3).
  assert (Hwa : o_recv_head_wb oa = i_recv_head_wb ib) by (destruct C1 as (? & ? & ? & []); done).
  destruct (chan_send _ _ _ _ v C2) as (ob' & h' & E & C2' & T1 & T2 & F1 & F2).
  rewrite Hi, (push_chan _ _ _ _ _ _ _ _ E3 E). eexists _, _. split; [done|].
  exists oa, ia, ob', ib. simpl. rewrite list_lookup_insert_eq by done. rewrite T1, T2.
  split_and!; try done. apply (chan_frame _ h); [done|by apply F1|by rewrite F2].
Qed.

Lemma dispatcher_pop h a b up down :
  1 <= p_worker_id a -> connected h a b up down ->
  exists c h', pop (lrpc_ctx b) (p_worker_id a - 1) h
      = Ok (match up with [] => EAGAIN | _ => 0 end, snd <$> head up, c, h')
    /\ connected h' a (with_ctx b c) (tail up) down.
Proof.
  intros Hid (oa & ia & ob & ib & E1 & E2 & E3 & E4 & C1 & C2 & S1 & S2).
  assert (Hi : p_worker_id a - 1 = Z.of_nat (Z.to_nat (p_worker_id a - 1))) by lia.
  assert (Hkb := lookup_lt_Some _ _ _ E4).
  destruct (chan_recv _ _ _ _ C1) as (ib' & h' & E & C1' & T1 & T2 & F1 & F2).
  rewrite Hi, (pop_chan _ _ _ _ _ _ _ E4 E). eexists _, _. split; [by destruct up|].
  exists oa, ia, ob, ib'. simpl. rewrite list_lookup_insert_eq by done.
  split_and!; try done. apply (chan_frame _ h); [done|by rewrite F1|by apply F2, not_eq_sym].
Qed.

(** Over a connection, both sides exchange messages through the two
    channels independently: a push returns 0 and appends the message when the
    channel has room and returns [EAGAIN] otherwise, a pop returns the oldest
    message of its own direction or [EAGAIN], and the other direction is
    untouched. *)
Theorem peers_exchange h a b up down v :
  1 <= p_worker_id a <= 32 -> connected h a b up down ->
  let i := p_worker_id a - 1 in
  (exists c h', push (lrpc_ctx b) v i h
      = Ok (if Z.of_nat (length down) <? LRPC_Q_LEN then 0 else EAGAIN, c, h')
    /\ connected h' a (with_ctx b c) up
         (if Z.of_nat (length down) <? LRPC_Q_LEN then down ++ [(LRPC_TX, v)] else down))
  /\ (exists c h', pop (lrpc_ctx a) 0 h
      = Ok (match down with [] => EAGAIN | _ => 0 end, snd <$> head down, c, h')
    /\ connected h' (with_ctx a c) b up (tail down))
  /\ (exists c h', push (lrpc_ctx a) v 0 h
      = Ok (if Z.of_nat (length up) <? LRPC_Q_LEN then 0 else EAGAIN, c, h')
    /\ connected h' (with_ctx a c) b
         (if Z.of_nat (length up) <? LRPC_Q_LEN then up ++ [(LRPC_TX, v)] else up) down)
  /\ (exists c h', pop (lrpc_ctx b) i h
      = Ok (match up with [] => EAGAIN | _ => 0 end, snd <$> head up, c, h')
    /\ connected h' a (with_ctx b c) (tail up) down).
Proof.
  intros Hid Hc i. split_and!;
    [apply dispatcher_push|apply worker_pop|apply worker_push|apply dispatcher_pop]; (done || lia).
Qed.

(** A worker and a dispatcher connected by two empty channels. *)
Definition example_lheap : lheap :=
  mk_lheap
    (<[64 := replicate (Z.to_nat LRPC_Q_LEN) (mk_msg 0 0)]>
      (<[192 := replicate (Z.to_nat LRPC_Q_LEN) (mk_msg 0 0)]> ∅))
    (<[128 := 0]> (<[256 := 0]> ∅)).
Definition example_worker : peer :=
  mk_peer 1 0 (mk_lctx [mk_in 64 128 0 LRPC_Q_LEN] [mk_out 192 256 0 0 LRPC_Q_LEN]) 1 [0].
Definition example_dispatcher : peer :=
  mk_peer 0 (-1) (mk_lctx [mk_in 192 256 0 LRPC_Q_LEN] [mk_out 64 128 0 0 LRPC_Q_LEN]) 1 [0].

Lemma example_connected : connected example_lheap example_worker example_dispatcher [] [].
Proof.
  unfold example_lheap. generalize (fresh_chan example_lheap). unfold example_lheap.
  generalize (replicate (Z.to_nat LRPC_Q_LEN) (mk_msg 0 0)). intros t Hf.
  eexists _, _, _, _. do 4 (split; [reflexivity|]).
  split_and!; [apply Hf|apply Hf|done|done]; reflexivity.
Qed.

Lemma peers_exchange_witness :
  1 <= p_worker_id example_worker <= 32
  /\ (exists c h', push (lrpc_ctx example_dispatcher) 7 0 example_lheap = Ok (0, c, h')
    /\ connected h' example_worker (with_ctx example_dispatcher c) [] [(LRPC_TX, 7)])
  /\ (exists c h', pop (lrpc_ctx example_worker) 0 example_lheap = Ok (EAGAIN, None, c, h')
    /\ connected h' (with_ctx example_worker c) example_dispatcher [] []).
Proof.
  assert (H1 : 1 <= p_worker_id example_worker <= 32) by (simpl; lia).
  destruct (peers_exchange example_lheap example_worker example_dispatcher [] [] 7 H1 example_connected)
    as (Hpush & Hpop & _).
  split; [exact H1|]. split; [exact Hpush|exact Hpop].
Defined.
