(* ===== verification/Requests.v ===== *)
(** * Requests: request types, their names and their queues

    Models [src/include/psp/libos/Request.hh], the dispatch modes of
    [src/include/psp/libos/su/DispatchSu.hh], [Dispatcher::push_to_rqueue] of
    [src/src/c++/libos/su/dispatch_su.cc] and the registration of request types
    in [Psp::Psp] of [src/src/c++/libos/common/persephone.cc]. *)
From Stdlib Require Import Sorted.
From stdpp Require Import strings.
From S2P Require Import Prelude Fail Ring.
Open Scope Z_scope.

(** ** Names *)

Inductive ReqType : Type :=
  | UNKNOWN | SHORT | LONG | PAGE | REGEX | NEW_ORDER | PAYMENT | DELIVERY
  | ORDER_STATUS | STOCK_LEVEL | GET | SCAN.

(** The enumeration value, and the number [LAST] of types. *)
Definition req_num (t : ReqType) : Z :=
  match t with
  | UNKNOWN => 0 | SHORT => 1 | LONG => 2 | PAGE => 3 | REGEX => 4 | NEW_ORDER => 5
  | PAYMENT => 6 | DELIVERY => 7 | ORDER_STATUS => 8 | STOCK_LEVEL => 9 | GET => 10 | SCAN => 11
  end.
Definition LAST : Z := 12.

#[export] Instance ReqType_eq_dec : EqDecision ReqType.
Proof. solve_decision. Defined.

Definition req_type_str : list string :=
  ["UNKNOWN"; "SHORT"; "LONG"; "PAGE"; "REGEX"; "NewOrder"; "Payment"; "Delivery";
   "OrderStatus"; "StockLevel"; "GET"; "SCAN"]%string.

Definition str_to_type (s : string) : ReqType :=
  if decide (s = "REGEX"%string) then REGEX
  else if decide (s = "PAGE"%string) then PAGE
  else if decide (s = "Payment"%string) then PAYMENT
  else if decide (s = "NewOrder"%string) then NEW_ORDER
  else if decide (s = "Delivery"%string) then DELIVERY
  else if decide (s = "StockLevel"%string) then STOCK_LEVEL
  else if decide (s = "OrderStatus"%string) then ORDER_STATUS
  else if decide (s = "SHORT"%string) then SHORT
  else if decide (s = "LONG"%string) then LONG
  else if decide (s = "GET"%string) then GET
  else if decide (s = "SCAN"%string) then SCAN
  else UNKNOWN.

Inductive dispatch_mode : Type := DFCFS | CFCFS | SJF | DARC | EDF | DP_UNKNOWN.

#[export] Instance dispatch_mode_eq_dec : EqDecision dispatch_mode.
Proof. solve_decision. Defined.

Definition dp_num (d : dispatch_mode) : Z :=
  match d with DFCFS => 0 | CFCFS => 1 | SJF => 2 | DARC => 3 | EDF => 4 | DP_UNKNOWN => 5 end.

Definition dp_str : list string := ["DFCFS"; "CFCFS"; "SJF"; "DARC"; "EDF"; "UNKNOWN"]%string.

Definition str_to_dp (s : string) : dispatch_mode :=
  if decide (s = "CFCFS"%string) then CFCFS
  else if decide (s = "DFCFS"%string) then DFCFS
  else if decide (s = "SJF"%string) then SJF
  else if decide (s = "DARC"%string) then DARC
  else if decide (s = "EDF"%string) then EDF
  else DP_UNKNOWN.

(** [fast_atoi]: the byte is read before the position is compared with [end]. *)
Fixpoint atoi_loop (fuel : nat) (buf : list Z) (str stop val : Z) : outcome Z :=
  c ← arr_get buf str;
  if negb (c =? 32) && (str <? stop) then
    match fuel with
    | O => UB
    | S fuel =>
      v ← int_result (val * 10);
      v ← int_result (v + (c - 48));
      atoi_loop fuel buf (str + 1) stop v
    end
  else Ok val.

Definition fast_atoi (buf : list Z) (str stop : Z) : outcome Z :=
  atoi_loop (Z.to_nat (stop - str)) buf str stop 0.

(** ** Request queues *)

Definition RQUEUE_LEN : Z := 4096.

Record RequestType : Type := mk_rtype {
  rt_type : ReqType;
  mean_ns : Z;
  deadline : Z;
  rqueue : list Z;
  rqueue_tail : Z;
  rqueue_head : Z;
  tsqueue : list Z;
  windows_mean_ns : Z;
  windows_count : Z
}.

(** The constructor; [tsqueue] is not initialised. *)
Definition new_RequestType (junk : list Z) (t : ReqType) (mean dl : Z) : RequestType :=
  mk_rtype t mean dl (replicate (Z.to_nat RQUEUE_LEN) 0) 0 0 junk 0 0.

Definition push_to_rqueue (rt : RequestType) (req tsc : Z) : outcome (Z * RequestType) :=
  if u32 (rqueue_head rt - rqueue_tail rt) =? RQUEUE_LEN then Ok (EXFULL, rt)
  else
    ts ← arr_set (tsqueue rt) (Z.land (rqueue_head rt) (RQUEUE_LEN - 1)) tsc;
    rq ← arr_set (rqueue rt) (Z.land (rqueue_head rt) (RQUEUE_LEN - 1)) req;
    Ok (0, mk_rtype (rt_type rt) (mean_ns rt) (deadline rt) rq (rqueue_tail rt)
             (u32 (rqueue_head rt + 1)) ts (windows_mean_ns rt) (windows_count rt)).

(** ** Properties of the names *)

(** Names and enumeration agree: every request type and every dispatch
    mode that has a name in the table of names is what the name parses to, and
    any other name parses to the unknown type or mode. *)
Theorem request_names_roundtrip :
  (forall t, exists s, req_type_str !! Z.to_nat (req_num t) = Some s /\ str_to_type s = t)
  /\ (forall s, str_to_type s <> UNKNOWN -> req_type_str !! Z.to_nat (req_num (str_to_type s)) = Some s)
  /\ (forall d, exists s, dp_str !! Z.to_nat (dp_num d) = Some s /\ str_to_dp s = d)
  /\ (forall s, str_to_dp s <> DP_UNKNOWN -> dp_str !! Z.to_nat (dp_num (str_to_dp s)) = Some s).
Proof.
  split_and!.
  - intros []; eexists; (split; [reflexivity|vm_compute; reflexivity]).
  - intros s. unfold str_to_type. repeat case_decide; by subst.
  - intros []; eexists; (split; [reflexivity|vm_compute; reflexivity]).
  - intros s. unfold str_to_dp. repeat case_decide; by subst.
Qed.

(** The number a string of digits denotes. *)
Fixpoint decimal (ds : list Z) : Z :=
  match ds with [] => 0 | d :: ds => (d - 48) * 10 ^ Z.of_nat (length ds) + decimal ds end.

Definition digit (d : Z) : Prop := 48 <= d <= 57.

Lemma decimal_nonneg ds : Forall digit ds -> 0 <= decimal ds.
Proof.
  induction 1 as [|d ds Hd _ IH]; simpl; [lia|]. unfold digit in Hd.
  pose proof (Z.pow_pos_nonneg 10 (Z.of_nat (length ds))). nia.
Qed.

Lemma atoi_loop_digits pre ds c post stop fuel val :
  Forall digit ds -> 0 <= val -> val * 10 ^ Z.of_nat (length ds) + decimal ds <= INT_MAX ->
  (c = 32 /\ Z.of_nat (length (pre ++ ds)) <= stop) \/ stop = Z.of_nat (length (pre ++ ds)) ->
  (length ds <= fuel)%nat ->
  atoi_loop fuel (pre ++ ds ++ c :: post) (Z.of_nat (length pre)) stop val
  = Ok (val * 10 ^ Z.of_nat (length ds) + decimal ds).
Proof.
  intros Hd. revert pre fuel val. induction Hd as [|d ds Hd Hds IH]; intros pre fuel val Hv Hmax Hstop Hf.
  - assert (Hg : arr_get (pre ++ [] ++ c :: post) (Z.of_nat (length pre)) = Ok c).
    { apply arr_get_Ok. rewrite Nat2Z.id. simpl. split; [lia|by apply list_lookup_middle]. }
    rewrite app_nil_r in Hstop. simpl decimal. simpl length. rewrite Z.mul_1_r, Z.add_0_r.
    destruct fuel; cbn [atoi_loop]; rewrite Hg; simpl; destruct (Z.eqb_spec c 32), (Z.ltb_spec (Z.of_nat (length pre)) stop);
      simpl; try done; lia.
  - destruct fuel as [|fuel]; simpl in Hf; [lia|]. rewrite length_app in Hstop. simpl length in *.
    assert (Hg : arr_get (pre ++ (d :: ds) ++ c :: post) (Z.of_nat (length pre)) = Ok d).
    { apply arr_get_Ok. rewrite Nat2Z.id. simpl. split; [lia|by apply list_lookup_middle]. }
    unfold digit in Hd. cbn [atoi_loop]. rewrite Hg. cbn [mbind outcome_bind].
    rewrite (proj2 (Z.eqb_neq d 32)), (proj2 (Z.ltb_lt _ _)) by lia. cbn [negb andb].
    pose proof (Z.pow_pos_nonneg 10 (Z.of_nat (length ds))). pose proof (decimal_nonneg ds Hds).
    rewrite Nat2Z.inj_succ, Z.pow_succ_r in * by lia. cbn [decimal] in *. unfold INT_MAX in *.
    assert (val * 10 + (d - 48) <= 2 ^ 31 - 1) by nia.
    do 2 (rewrite int_result_Ok by (unfold INT_MIN, INT_MAX; lia); cbn [mbind outcome_bind app]).
    specialize (IH (pre ++ [d]) fuel (val * 10 + (d - 48))). rewrite <- !app_assoc in IH.
    rewrite !length_app in IH. simpl in IH.
    replace (Z.of_nat (length pre + 1)) with (Z.of_nat (length pre) + 1) in IH by lia.
    rewrite IH; [f_equal; lia|lia|lia|lia|lia].
Qed.

(** Without a byte after the digits the loop reads out of the buffer. *)
Lemma atoi_loop_past pre ds fuel val :
  Forall digit ds ->
  atoi_loop fuel (pre ++ ds) (Z.of_nat (length pre)) (Z.of_nat (length (pre ++ ds))) val = UB.
Proof.
  intros Hd. revert pre fuel val. induction Hd as [|d ds Hd Hds IH]; intros pre fuel val.
  - rewrite app_nil_r. assert (Hg : arr_get pre (Z.of_nat (length pre)) = UB).
    { unfold arr_get. rewrite decide_True, Nat2Z.id, lookup_ge_None_2 by lia. done. }
    destruct fuel; cbn [atoi_loop]; by rewrite Hg.
  - assert (Hg : arr_get (pre ++ d :: ds) (Z.of_nat (length pre)) = Ok d).
    { apply arr_get_Ok. rewrite Nat2Z.id. split; [lia|by apply list_lookup_middle]. }
    unfold digit in Hd.
    destruct fuel as [|fuel]; cbn [atoi_loop]; rewrite Hg; cbn [mbind outcome_bind];
      rewrite (proj2 (Z.eqb_neq d 32)), (proj2 (Z.ltb_lt _ _)) by (rewrite ?length_app; simpl; lia); cbn [negb andb]; [done|].
    unfold int_result. destruct (decide (INT_MIN <= val * 10 <= INT_MAX)); [|done].
    cbn [mbind outcome_bind]. destruct (decide (INT_MIN <= _ <= INT_MAX)); [|done]. cbn [mbind outcome_bind].
    specialize (IH (pre ++ [d]) fuel (val * 10 + (d - 48))). rewrite <- app_assoc in IH.
    rewrite (length_app pre [d]) in IH. simpl in IH.
    by replace (Z.of_nat (length pre + 1)) with (Z.of_nat (length pre) + 1) in IH by lia.
Qed.

(** [fast_atoi] reads a decimal number: on digits that end at a space or at
    [end] it returns the number they denote, as long as that fits an [int];
    the byte at the end of the digits must be readable, also when it is past
    [end]. *)
Theorem fast_atoi_decimal pre ds c post stop :
  Forall digit ds -> decimal ds <= INT_MAX ->
  (c = 32 /\ Z.of_nat (length (pre ++ ds)) <= stop) \/ stop = Z.of_nat (length (pre ++ ds)) ->
  fast_atoi (pre ++ ds ++ c :: post) (Z.of_nat (length pre)) stop = Ok (decimal ds)
  /\ (stop = Z.of_nat (length (pre ++ ds)) -> fast_atoi (pre ++ ds) (Z.of_nat (length pre)) stop = UB).
Proof.
  intros Hd Hm Hs. split.
  - unfold fast_atoi. rewrite (atoi_loop_digits pre ds c post stop); [done|done|lia|lia|done|].
    rewrite length_app in Hs. lia.
  - intros ->. by apply atoi_loop_past.
Qed.

Lemma fast_atoi_decimal_witness :
  fast_atoi ([120] ++ [52; 50] ++ 32 :: [57]) (Z.of_nat (length [120])) 5 = Ok 42
  /\ (5 = Z.of_nat (length ([120] ++ [52; 50])) ->
      fast_atoi ([120] ++ [52; 50]) (Z.of_nat (length [120])) 5 = UB).
Proof.
  apply (fast_atoi_decimal [120] [52; 50] 32 [57] 5).
  - repeat constructor; unfold digit; lia.
  - vm_compute. discriminate.
  - left. split; [reflexivity|vm_compute; discriminate].
Defined.

(** ** The queue of a request type is a bounded list *)

Record rq_at (rt : RequestType) (t : Z) (l : list (Z * Z)) : Prop := {
  rq_head : rqueue_head rt = u32 (t + Z.of_nat (length l));
  rq_tail : rqueue_tail rt = u32 t;
  rq_reqs : ring_holds (rqueue rt) RQUEUE_LEN t l.*1;
  rq_tscs : ring_holds (tsqueue rt) RQUEUE_LEN t l.*2
}.

Definition rq_rep (rt : RequestType) (l : list (Z * Z)) : Prop := exists t, rq_at rt t l.

Lemma rq_new junk t m d :
  length junk = Z.to_nat RQUEUE_LEN -> rq_rep (new_RequestType junk t m d) [].
Proof.
  intros Hj. exists 0. split; [done|done|apply ring_empty; [done|apply length_replicate]|by apply ring_empty].
Qed.

Lemma rq_index c : Z.land (u32 c) (RQUEUE_LEN - 1) = c mod RQUEUE_LEN.
Proof. apply (ring_index 12). lia. Qed.

Lemma rq_pending rt t l : rq_at rt t l -> u32 (rqueue_head rt - rqueue_tail rt) = Z.of_nat (length l).
Proof.
  intros []. pose proof (rh_len _ _ _ _ rq_reqs0) as Hl. rewrite length_fmap in Hl. unfold RQUEUE_LEN in Hl.
  rewrite rq_head0, rq_tail0. rewrite Z.add_comm, u32_sub_cancel. apply u32_id. lia.
Qed.

Lemma push_to_rqueue_room rt l req tsc :
  rq_rep rt l -> Z.of_nat (length l) < RQUEUE_LEN ->
  exists rt', push_to_rqueue rt req tsc = Ok (0, rt') /\ rq_rep rt' (l ++ [(req, tsc)]).
Proof.
  intros (t & Hr) Hl. pose proof (rq_pending _ _ _ Hr) as Hp. destruct Hr.
  unfold push_to_rqueue. rewrite Hp, (proj2 (Z.eqb_neq _ _)) by lia.
  rewrite rq_head0, rq_index. set (i := t + Z.of_nat (length l)).
  assert (Hi : forall A (buf : list A), length buf = Z.to_nat RQUEUE_LEN ->
    0 <= i mod RQUEUE_LEN < Z.of_nat (length buf)).
  { intros A buf Hb. rewrite Hb. unfold RQUEUE_LEN. pose proof (Z.mod_pos_bound i 4096). lia. }
  rewrite (arr_set_Ok (tsqueue rt)) by apply Hi, rq_tscs0. simpl.
  rewrite (arr_set_Ok (rqueue rt)) by apply Hi, rq_reqs0. simpl.
  eexists. split; [done|]. exists t. split; simpl.
  - rewrite length_app. unfold i. simpl. word_lia.
  - done.
  - rewrite fmap_app. pose proof (ring_push _ _ _ _ req rq_reqs0) as Hpu.
    rewrite length_fmap in Hpu. by apply Hpu.
  - rewrite fmap_app. pose proof (ring_push _ _ _ _ tsc rq_tscs0) as Hpu.
    rewrite length_fmap in Hpu. by apply Hpu.
Qed.

Lemma push_to_rqueue_full rt l req tsc :
  rq_rep rt l -> Z.of_nat (length l) = RQUEUE_LEN -> push_to_rqueue rt req tsc = Ok (EXFULL, rt).
Proof.
  intros (t & Hr) Hl. unfold push_to_rqueue. by rewrite (rq_pending _ _ _ Hr), Hl, Z.eqb_refl.
Qed.

(** ** Registration of request types *)

(** One entry of the list [requests] of the configuration: the name, and the
    mean service time and the deadline where they are given. *)
Record req_entry : Type := mk_entry { en_type : string; en_meta : option (Z * Z) }.

(** [std::map<uint64_t, RequestType *>]: sorted by key, a second value for a
    key replaces the first. *)
Fixpoint map_set {A} (m : list (Z * A)) (k : Z) (v : A) : list (Z * A) :=
  match m with
  | [] => [(k, v)]
  | (k', v') :: m' =>
    if k <? k' then (k, v) :: m else if k =? k' then (k, v) :: m' else (k', v') :: map_set m' k v
  end.

Fixpoint register_entries (junk : list Z) (i : Z) (es : list req_entry) (m : list (Z * RequestType))
  : list (Z * RequestType) :=
  match es with
  | [] => m
  | e :: es =>
    let m := match en_meta e with
             | Some (mean, dl) => map_set m mean (new_RequestType junk (str_to_type (en_type e)) mean dl)
             | None => map_set m i (new_RequestType junk (str_to_type (en_type e)) (i + 1) 0)
             end in
    register_entries junk (i + 1) es m
  end.

(** The tables of the dispatcher. *)
Record dtypes : Type := mk_dtypes {
  rtypes : list (option RequestType);
  n_rtypes : Z;
  type_to_nsorder : list Z
}.

Fixpoint fill_types (i : Z) (rts : list RequestType) (d : dtypes) : outcome (Z * dtypes) :=
  match rts with
  | [] => Ok (i, d)
  | rt :: rts =>
    r ← arr_set (rtypes d) i (Some rt);
    o ← arr_set (type_to_nsorder d) (req_num (rt_type rt)) i;
    fill_types (i + 1) rts (mk_dtypes r (n_rtypes d) o)
  end.

(** The body of the registration; more entries than types end the program. *)
Definition register_types (junk : list Z) (dp : dispatch_mode) (es : list req_entry) (d : dtypes)
  : outcome dtypes :=
  if LAST <? Z.of_nat (length es) then Panic EINVAL
  else
    let m := register_entries junk 0 es [] in
    '(i, d) ← (if decide (dp = CFCFS) then Ok (0, d) else fill_types 0 m.*2 d);
    r ← arr_set (rtypes d) i (Some (new_RequestType junk UNKNOWN 0 0));
    o ← arr_set (type_to_nsorder d) (req_num UNKNOWN) i;
    Ok (mk_dtypes r i o).

(** The queue requests of type [t] go to. *)
Definition queue_of (d : dtypes) (t : ReqType) : option RequestType :=
  o ← type_to_nsorder d !! Z.to_nat (req_num t); x ← rtypes d !! Z.to_nat o; x.

Lemma req_num_range t : 0 <= req_num t < LAST.
Proof. unfold LAST. destruct t; simpl; lia. Qed.

Lemma req_num_inj t t' : req_num t = req_num t' -> t = t'.
Proof. destruct t, t'; simpl; congruence. Qed.

Record dtypes_ok (d : dtypes) : Prop := {
  dk_types : length (rtypes d) = Z.to_nat LAST;
  dk_order : length (type_to_nsorder d) = Z.to_nat LAST
}.

Lemma fill_step d i rt :
  dtypes_ok d -> 0 <= i < LAST ->
  exists d', arr_set (rtypes d) i (Some rt) = Ok (rtypes d')
    /\ arr_set (type_to_nsorder d) (req_num (rt_type rt)) i = Ok (type_to_nsorder d')
    /\ n_rtypes d' = n_rtypes d /\ dtypes_ok d'
    /\ rtypes d' = <[Z.to_nat i := Some rt]> (rtypes d)
    /\ type_to_nsorder d' = <[Z.to_nat (req_num (rt_type rt)) := i]> (type_to_nsorder d).
Proof.
  intros [H1 H2] Hi. pose proof (req_num_range (rt_type rt)) as Hr. unfold LAST in *.
  exists (mk_dtypes (<[Z.to_nat i := Some rt]> (rtypes d)) (n_rtypes d)
            (<[Z.to_nat (req_num (rt_type rt)) := i]> (type_to_nsorder d))).
  simpl. split_and!; try done; [apply arr_set_Ok; lia|apply arr_set_Ok; lia|].
  split; simpl; by rewrite length_insert.
Qed.

Lemma fill_types_ok rts i d :
  dtypes_ok d -> 0 <= i -> i + Z.of_nat (length rts) <= LAST ->
  exists d', fill_types i rts d = Ok (i + Z.of_nat (length rts), d') /\ dtypes_ok d'
    /\ (forall j rt, rts !! j = Some rt -> rtypes d' !! (Z.to_nat i + j)%nat = Some (Some rt))
    /\ (forall j, (j < Z.to_nat i)%nat -> rtypes d' !! j = rtypes d !! j)
    /\ (forall t, t ∈ rt_type <$> rts -> exists j rt, rts !! j = Some rt /\ rt_type rt = t
          /\ type_to_nsorder d' !! Z.to_nat (req_num t) = Some (i + Z.of_nat j))
    /\ (forall t, t ∉ rt_type <$> rts ->
          type_to_nsorder d' !! Z.to_nat (req_num t) = type_to_nsorder d !! Z.to_nat (req_num t)).
Proof.
  revert i d. induction rts as [|rt rts IH]; intros i d Hd Hi Hl.
  { exists d. simpl. rewrite Z.add_0_r. split_and!; try done. intros t Ht. by apply not_elem_of_nil in Ht. }
  simpl in Hl. destruct (fill_step d i rt Hd) as (d1 & E1 & E2 & En & Hd1 & Er & Eo); [lia|].
  destruct (IH (i + 1) d1 Hd1) as (d' & E & Hd' & Hall & Hold & Hin & Hout); [lia|lia|].
  exists d'. cbn [fill_types]. rewrite E1. simpl. rewrite E2. simpl. rewrite <- En.
  replace (mk_dtypes (rtypes d1) (n_rtypes d1) (type_to_nsorder d1)) with d1 by by destruct d1.
  rewrite E. split; [f_equal; f_equal; lia|]. split; [done|]. destruct Hd as [L1 L2]. unfold LAST in *.
  pose proof (req_num_range (rt_type rt)) as Hr. unfold LAST in Hr. split_and!.
  - intros [|j] x Hx; simpl in Hx.
    + injection Hx as <-. rewrite Nat.add_0_r, Hold, Er by lia. apply list_lookup_insert_eq. lia.
    + rewrite <- (Hall j x Hx). f_equal. lia.
  - intros j Hj. rewrite Hold, Er by lia. apply list_lookup_insert_ne. lia.
  - intros t Ht. destruct (decide (t ∈ rt_type <$> rts)) as [Hin'|Hout'].
    + destruct (Hin t Hin') as (j & x & Hx & Htx & Ho). exists (S j), x. split_and!; try done.
      rewrite Ho. f_equal. lia.
    + apply elem_of_cons in Ht as [->|Ht]; [|done]. exists 0%nat, rt. split_and!; try done.
      rewrite Hout, Eo, list_lookup_insert_eq by (done || lia). f_equal. lia.
  - intros t Ht. apply not_elem_of_cons in Ht as [Hne Ht]. rewrite Hout, Eo by done.
    apply list_lookup_insert_ne. intros Heq. apply Hne, req_num_inj.
    pose proof (req_num_range t). apply Z2Nat.inj; lia.
Qed.

(** ** The sorted map *)

Section map.
Context {A : Type}.
Implicit Types m : list (Z * A).

Lemma map_set_Forall (P : Z * A -> Prop) m k v : Forall P m -> P (k, v) -> Forall P (map_set m k v).
Proof.
  induction m as [|[k' v'] m IH]; simpl; intros Hm Hk; [by constructor|].
  apply Forall_cons in Hm as [H1 H2]. repeat case_match; repeat constructor; auto.
Qed.

Lemma map_set_sorted m k v :
  StronglySorted Z.lt m.*1 -> StronglySorted Z.lt (map_set m k v).*1.
Proof.
  induction m as [|[k' v'] m IH]; simpl; intros Hs; [by repeat constructor|].
  apply StronglySorted_inv in Hs as [Hs Hf].
  destruct (Z.ltb_spec k k'); [|destruct (Z.eqb_spec k k') as [->|]]; simpl.
  - repeat constructor; try done. eapply Forall_impl; [exact Hf|]. simpl. lia.
  - by constructor.
  - constructor; [by apply IH|]. apply Forall_fmap, map_set_Forall; [by apply Forall_fmap|simpl; lia].
Qed.

Lemma map_set_length m k v : (length (map_set m k v) <= S (length m))%nat.
Proof. induction m as [|[k' v'] m IH]; simpl; repeat case_match; simpl; lia. Qed.

End map.

Lemma register_entries_inv junk es i m (P : Z * RequestType -> Prop) :
  StronglySorted Z.lt m.*1 -> Forall P m ->
  (forall j e, es !! j = Some e -> P match en_meta e with
    | Some (mean, dl) => (mean, new_RequestType junk (str_to_type (en_type e)) mean dl)
    | None => (i + Z.of_nat j, new_RequestType junk (str_to_type (en_type e)) (i + Z.of_nat j + 1) 0)
    end) ->
  StronglySorted Z.lt (register_entries junk i es m).*1 /\ Forall P (register_entries junk i es m)
  /\ (length (register_entries junk i es m) <= length m + length es)%nat.
Proof.
  revert i m. induction es as [|e es IH]; intros i m Hs Hm He; simpl; [split_and!; [done|done|lia]|].
  set (m1 := match en_meta e with Some (mean, dl) => _ | None => _ end).
  assert (H1 : StronglySorted Z.lt m1.*1 /\ Forall P m1 /\ (length m1 <= S (length m))%nat).
  { specialize (He 0%nat e eq_refl). rewrite Z.add_0_r in He.
    unfold m1. destruct (en_meta e) as [[mean dl]|];
      (split_and!; [by apply map_set_sorted|by apply map_set_Forall|apply map_set_length]). }
  destruct H1 as (H1 & H2 & H3). destruct (IH (i + 1) m1 H1 H2) as (G1 & G2 & G3).
  { intros j e' Hj. specialize (He (S j) e' Hj).
    by replace (i + Z.of_nat (S j)) with (i + 1 + Z.of_nat j) in He by lia. }
  split_and!; [done|done|lia].
Qed.

(** What the loop over the map goes through. *)
Lemma rts_facts junk dp es :
  length junk = Z.to_nat RQUEUE_LEN ->
  let rts := if decide (dp = CFCFS) then [] else (register_entries junk 0 es []).*2 in
  (length rts <= length es)%nat /\ Forall (fun rt => rq_rep rt []) rts
  /\ (Forall (fun e => is_Some (en_meta e)) es -> StronglySorted Z.lt (mean_ns <$> rts)).
Proof.
  intros Hj rts. unfold rts. case_decide; [simpl; split_and!; [lia|done|constructor]|].
  destruct (register_entries_inv junk es 0 [] (fun x => rq_rep x.2 [])) as (Hs & Hq & Hl);
    [constructor|done| |].
  { intros j e _. destruct (en_meta e) as [[mean dl]|]; by apply rq_new. }
  rewrite length_fmap. split_and!; [simpl in Hl; lia|by apply Forall_fmap|].
  intros Hmeta.
  destruct (register_entries_inv junk es 0 [] (fun x => mean_ns x.2 = x.1)) as (_ & Hk & _);
    [constructor|done| |].
  { intros j e He. destruct (Forall_lookup_1 _ _ _ _ Hmeta He) as [[mean dl] ->]. done. }
  replace (mean_ns <$> (register_entries junk 0 es []).*2) with (register_entries junk 0 es []).*1; [done|].
  clear -Hk. induction Hk as [|x m Hx _ IH]; simpl; [done|]. f_equal; [by rewrite Hx|exact IH].
Qed.


(** Two types, out of order, and one the program does not know. *)
Definition example_entries : list req_entry :=
  [mk_entry "LONG" (Some (100, 1000)); mk_entry "SHORT" (Some (5, 50)); mk_entry "OTHER" (Some (7, 70))].
Definition example_dtypes : dtypes :=
  mk_dtypes (replicate (Z.to_nat LAST) None) 0 (replicate (Z.to_nat LAST) 0).

