(* ===== verification/DispatchQueue.v ===== *)
(** * DispatchQueue: the dispatcher's request queues over LRPC

    Models [Dispatcher::enqueue], [drain_queue] and [signal_free_worker] of
    [src/src/c++/libos/su/dispatch_su.cc]: requests wait in the queue of their
    type, are sent over LRPC to the free workers, one each, and a worker that
    has finished becomes free again. *)
From S2P Require Import Prelude Fail Ring Lrpc Peers Requests.

Record ldisp : Type := mk_ldisp {
  free_peers : Z;
  l_types : dtypes;
  num_dped : Z;
  peer_dpt_tsc : list Z;
  l_ctx : LrpcContext
}.

(** [__builtin_ctz]: the position of the lowest set bit. *)
Definition ctz (x : Z) : nat :=
  match filter (fun i => Z.testbit x (Z.of_nat i) = true) (seq 0 32) with i :: _ => i | [] => 32 end.

(** [enqueue]: every request goes to the queue of the unknown type. *)
Definition enqueue (d : ldisp) (req cur_tsc : Z) : outcome (Z * ldisp) :=
  o ← arr_get (type_to_nsorder (l_types d)) (req_num UNKNOWN);
  x ← arr_get (rtypes (l_types d)) o;
  match x with
  | None => UB
  | Some rt =>
    '(r, rt) ← push_to_rqueue rt req cur_tsc;
    rts ← arr_set (rtypes (l_types d)) o (Some rt);
    Ok (r, mk_ldisp (free_peers d)
             (mk_dtypes rts (n_rtypes (l_types d)) (type_to_nsorder (l_types d)))
             (num_dped d) (peer_dpt_tsc d) (l_ctx d))
  end.

(** The loop of [drain_queue] on the queue [rt]; [None] is a loop that has not
    ended after [fuel] iterations. *)
Fixpoint drain_loop (fuel : nat) (cur_tsc : Z) (d : ldisp) (rt : RequestType) (h : lheap)
  : outcome (option (ldisp * RequestType * lheap)) :=
  if (rqueue_tail rt <? rqueue_head rt) && (0 <? free_peers d) then
    match fuel with
    | O => Ok None
    | S fuel =>
      req ← arr_get (rqueue rt) (Z.land (rqueue_tail rt) (RQUEUE_LEN - 1));
      let peer_id := Z.of_nat (ctz (free_peers d)) in
      '(r, ctx, h) ← push (l_ctx d) req peer_id h;
      if r =? 0 then
        tsc ← arr_set (peer_dpt_tsc d) peer_id cur_tsc;
        drain_loop fuel cur_tsc
          (mk_ldisp (Z.lxor (free_peers d) (2 ^ peer_id)) (l_types d) (u32 (num_dped d + 1)) tsc ctx)
          (mk_rtype (rt_type rt) (mean_ns rt) (deadline rt) (rqueue rt) (u32 (rqueue_tail rt + 1))
             (rqueue_head rt) (tsqueue rt) (windows_mean_ns rt) (windows_count rt)) h
      else
        drain_loop fuel cur_tsc
          (mk_ldisp (free_peers d) (l_types d) (num_dped d) (peer_dpt_tsc d) ctx) rt h
    end
  else Ok (Some (d, rt, h)).

(** [signal_free_worker]: [notif] carries the type in its four top bits and the
    completion time below. *)
Definition signal_free_worker (d : ldisp) (peer_id notif : Z) : outcome (Z * ldisp) :=
  let type := Z.shiftr notif 60 in
  o ← arr_get (type_to_nsorder (l_types d)) type;
  x ← arr_get (rtypes (l_types d)) o;
  match x with
  | None => UB
  | Some rt =>
    let cplt_tsc := Z.land notif (2 ^ 60 - 1) in
    dpt ← arr_get (peer_dpt_tsc d) peer_id;
    let service_time := u64 (cplt_tsc - dpt) in
    let count := u64 (windows_count rt + 1) in
    if count =? 0 then UB
    else
      let mean := u64 (service_time + u64 (windows_mean_ns rt * windows_count rt)) / count in
      let rt := mk_rtype (rt_type rt) (mean_ns rt) (deadline rt) (rqueue rt) (rqueue_tail rt)
                  (rqueue_head rt) (tsqueue rt) mean count in
      rts ← arr_set (rtypes (l_types d)) o (Some rt);
      Ok (0, mk_ldisp (Z.lor (free_peers d) (2 ^ peer_id))
               (mk_dtypes rts (n_rtypes (l_types d)) (type_to_nsorder (l_types d)))
               (num_dped d) (peer_dpt_tsc d) (l_ctx d))
  end.

(** ** The set of free workers *)

Definition peers_of (free : Z) : list nat :=
  filter (fun i => Z.testbit free (Z.of_nat i) = true) (seq 0 32).

Lemma ctz_head free p ps : peers_of free = p :: ps -> ctz free = p.
Proof. unfold ctz, peers_of. by intros ->. Qed.

Lemma filter_agree {A} (P Q : A -> Prop) `{!forall x, Decision (P x), !forall x, Decision (Q x)} (l : list A) :
  (forall x, x ∈ l -> Q x <-> P x) -> filter Q l = filter P l.
Proof.
  induction l as [|x l IH]; intros HQ; [done|]. rewrite !filter_cons, IH by (intros; apply HQ; by constructor).
  pose proof (HQ x ltac:(by constructor)). destruct (decide (P x)), (decide (Q x)); tauto.
Qed.

Lemma filter_tail {A} (P Q : A -> Prop) `{!forall x, Decision (P x), !forall x, Decision (Q x)} (l : list A) p ps :
  NoDup l -> filter P l = p :: ps -> (forall x, x ∈ l -> Q x <-> P x /\ x <> p) -> filter Q l = ps.
Proof.
  intros Hnd. revert p ps. induction Hnd as [|x l Hx Hnd IH]; intros p ps Hf HQ; [done|].
  assert (HQl : forall y, y ∈ l -> Q y <-> P y /\ y <> p) by (intros; apply HQ; by constructor).
  pose proof (HQ x ltac:(by constructor)) as HQx. rewrite filter_cons in Hf |- *.
  destruct (decide (P x)) as [HP|HP].
  - injection Hf as -> <-. rewrite decide_False by tauto.
    apply filter_agree. intros y Hy. rewrite HQl by done.
    split; [tauto|]. intros HPy. split; [done|]. by intros ->.
  - rewrite decide_False by tauto. by eapply IH.
Qed.

Lemma peers_take free p ps : peers_of free = p :: ps -> peers_of (Z.lxor free (2 ^ Z.of_nat p)) = ps.
Proof.
  intros Hp. assert (Hin : p ∈ peers_of free) by (rewrite Hp; by constructor).
  apply list_elem_of_filter in Hin as [Hb _].
  eapply filter_tail; [apply NoDup_seq|exact Hp|]. intros x _.
  rewrite Z.lxor_spec, Z.pow2_bits_eqb by lia. destruct (Z.eqb_spec (Z.of_nat p) (Z.of_nat x)).
  - assert (x = p) as -> by lia. rewrite Hb. naive_solver.
  - rewrite xorb_false_r. split; [|naive_solver]. intros; split; [done|lia].
Qed.

Lemma peers_pos free : 0 <= free < 2 ^ 32 -> 0 < free <-> peers_of free <> [].
Proof.
  intros Hf. split.
  - intros Hpos Hnil. assert (Hlog : Z.testbit free (Z.log2 free) = true) by by apply Z.bit_log2.
    assert (Hin : Z.to_nat (Z.log2 free) ∈ peers_of free).
    { apply list_elem_of_filter. pose proof (Z.log2_nonneg free). rewrite Z2Nat.id by done. split; [done|].
      apply elem_of_seq. assert (Z.log2 free < 32) by (apply Z.log2_lt_pow2; lia). lia. }
    rewrite Hnil in Hin. by apply not_elem_of_nil in Hin.
  - intros Hne. destruct (decide (free = 0)) as [->|]; [|lia]. by destruct Hne.
Qed.

Lemma lxor_u32 free p : 0 <= free < 2 ^ 32 -> p ∈ peers_of free -> 0 <= Z.lxor free (2 ^ Z.of_nat p) < 2 ^ 32.
Proof.
  intros Hf [Hb Hin]%list_elem_of_filter. apply elem_of_seq in Hin.
  assert (Hn : 0 <= Z.lxor free (2 ^ Z.of_nat p)) by (apply Z.lxor_nonneg; lia).
  split; [done|]. destruct (decide (Z.lxor free (2 ^ Z.of_nat p) = 0)) as [->|Hne]; [done|].
  apply Z.log2_lt_pow2; [lia|]. apply Z.le_lt_trans with (Z.max (Z.log2 free) (Z.log2 (2 ^ Z.of_nat p))).
  - apply Z.log2_lxor; lia.
  - rewrite Z.log2_pow2 by lia. destruct (decide (free = 0)) as [->|]; [simpl; lia|].
    assert (Z.log2 free < 32) by (apply Z.log2_lt_pow2; lia). lia.
Qed.

(** ** The channels of the dispatcher *)

(** The channel to each worker of [ps] ends at [inns] and holds [ls]; no two
    share memory. *)
Record chans (ps : list nat) (h : lheap) (egr : list lrpc_chan_out)
    (inns : nat -> lrpc_chan_in) (ls : nat -> list (Z * Z)) : Prop := {
  ch_rep : forall i, i ∈ ps -> exists out, egr !! i = Some out /\ chan_rep 12 h out (inns i) (ls i);
  ch_sep : forall i j oi oj, i ∈ ps -> j ∈ ps -> i <> j -> egr !! i = Some oi -> egr !! j = Some oj ->
    o_tbl oi <> o_tbl oj /\ o_recv_head_wb oi <> o_recv_head_wb oj
}.

Definition fupd (ls : nat -> list (Z * Z)) (i : nat) (l : list (Z * Z)) : nat -> list (Z * Z) :=
  fun j => if decide (j = i) then l else ls j.

Lemma chans_push ps h ctx inns ls i v :
  chans ps h (egress ctx) inns ls -> i ∈ ps -> Z.of_nat (length (ls i)) < LRPC_Q_LEN ->
  exists ctx' h', push ctx v (Z.of_nat i) h = Ok (0, ctx', h')
    /\ chans ps h' (egress ctx') inns (fupd ls i (ls i ++ [(LRPC_TX, v)])).
Proof.
  intros [Hrep Hsep] Hi Hl. destruct (Hrep i Hi) as (out & Eo & Hc).
  destruct (chan_send _ _ _ _ v Hc) as (out' & h' & E & Hc' & T1 & T2 & F1 & F2).
  rewrite (proj2 (Z.ltb_lt _ _) Hl) in E, Hc'. rewrite (push_chan _ _ _ _ _ _ _ _ Eo E).
  eexists _, _. split; [done|]. simpl. pose proof (lookup_lt_Some _ _ _ Eo) as Hlt.
  split.
  - intros j Hj. unfold fupd. destruct (decide (j = i)) as [->|Hne].
    + exists out'. by rewrite list_lookup_insert_eq.
    + destruct (Hrep j Hj) as (oj & Ej & Hcj). exists oj. rewrite list_lookup_insert_ne by done.
      split; [done|]. destruct (Hsep i j out oj Hi Hj ltac:(done) Eo Ej) as [S1 _].
      apply (chan_frame _ h); [done|by apply F1|by rewrite F2].
  - intros j1 j2 o1 o2 H1 H2 Hne E1 E2.
    assert (Hpick : forall j o, (<[i := out']> (egress ctx)) !! j = Some o ->
      exists o0, egress ctx !! j = Some o0 /\ o_tbl o = o_tbl o0 /\ o_recv_head_wb o = o_recv_head_wb o0).
    { intros j o Hjo. destruct (decide (j = i)) as [->|].
      - rewrite list_lookup_insert_eq in Hjo by done. injection Hjo as <-. eauto.
      - rewrite list_lookup_insert_ne in Hjo by done. eauto. }
    destruct (Hpick _ _ E1) as (? & G1 & -> & ->), (Hpick _ _ E2) as (? & G2 & -> & ->).
    by eapply (Hsep j1 j2).
Qed.

(** The requests of [q] go to the workers of [fs], in order, one each. *)
Fixpoint deliver (fs : list nat) (q : list (Z * Z)) (ls : nat -> list (Z * Z)) : nat -> list (Z * Z) :=
  match fs, q with
  | f :: fs, r :: q => deliver fs q (fupd ls f (ls f ++ [(LRPC_TX, r.1)]))
  | _, _ => ls
  end.

Lemma rq_front rt t r q :
  rq_at rt t (r :: q) -> 0 <= t -> t + Z.of_nat (S (length q)) < 2 ^ 32 ->
  rqueue_tail rt < rqueue_head rt
  /\ arr_get (rqueue rt) (Z.land (rqueue_tail rt) (RQUEUE_LEN - 1)) = Ok r.1
  /\ rq_at (mk_rtype (rt_type rt) (mean_ns rt) (deadline rt) (rqueue rt) (u32 (rqueue_tail rt + 1))
       (rqueue_head rt) (tsqueue rt) (windows_mean_ns rt) (windows_count rt)) (t + 1) q.
Proof.
  intros [Hh Htl Hr1 Hr2] Ht Hmax. simpl length in *. rewrite Htl, rq_index. split_and!.
  - rewrite Hh, !u32_id by lia. lia.
  - apply arr_get_Ok. unfold RQUEUE_LEN. pose proof (Z.mod_pos_bound t 4096). split; [lia|].
    by eapply (ring_front _ 4096).
  - split; simpl.
    + rewrite Hh. f_equal. lia.
    + word_lia.
    + by eapply ring_pop.
    + by eapply ring_pop.
Qed.

Lemma rq_nothing rt t : rq_at rt t [] -> (rqueue_tail rt <? rqueue_head rt) = false.
Proof. intros [Hh Htl _ _]. rewrite Hh, Htl. simpl. rewrite Z.add_0_r. apply Z.ltb_irrefl. Qed.

Lemma drain_loop_ok ps inns fs fuel tsc d rt h t q ls :
  chans ps h (egress (l_ctx d)) inns ls -> rq_at rt t q -> 0 <= t -> t + Z.of_nat (length q) < 2 ^ 32 ->
  0 <= free_peers d < 2 ^ 32 -> peers_of (free_peers d) = fs -> length (peer_dpt_tsc d) = 32%nat ->
  NoDup fs -> Forall (fun i => i ∈ ps /\ Z.of_nat (length (ls i)) < LRPC_Q_LEN) fs ->
  (length q `min` length fs <= fuel)%nat ->
  exists d' rt' h', drain_loop fuel tsc d rt h = Ok (Some (d', rt', h'))
    /\ rq_at rt' (t + Z.of_nat (length q `min` length fs)) (drop (length q `min` length fs) q)
    /\ peers_of (free_peers d') = drop (length q `min` length fs) fs
    /\ chans ps h' (egress (l_ctx d')) inns (deliver fs q ls).
Proof.
  revert fuel d rt h t q ls.
  induction fs as [|f fs IH]; intros fuel d rt h t q ls Hc Hq Ht Hm Hf Hp Hl Hnd Hroom Hfuel.
  { assert (Hz : (0 <? free_peers d) = false).
    { apply Z.ltb_ge. destruct (Z.lt_ge_cases 0 (free_peers d)) as [Hlt|]; [|done].
      by apply peers_pos in Hlt. }
    rewrite Nat.min_0_r, Z.add_0_r. exists d, rt, h. destruct fuel; simpl; rewrite Hz, andb_false_r; by destruct q. }
  destruct q as [|r q].
  { simpl. rewrite Z.add_0_r. exists d, rt, h.
    destruct fuel; simpl; by rewrite (rq_nothing _ _ Hq). }
  destruct fuel as [|fuel]; [simpl in Hfuel; lia|].
  apply Forall_cons in Hroom as [[Hfp Hfl] Hroom]. apply NoDup_cons in Hnd as [Hnin Hnd].
  simpl length in Hm. destruct (rq_front _ _ _ _ Hq Ht ltac:(lia)) as (Hlt & Hget & Hq').
  assert (Hpos : 0 < free_peers d) by (apply peers_pos; [done|by rewrite Hp]).
  assert (Hin : f ∈ peers_of (free_peers d)) by (rewrite Hp; by constructor).
  destruct (chans_push _ _ _ _ _ _ r.1 Hc Hfp Hfl) as (ctx' & h' & Epush & Hc').
  cbn [drain_loop]. rewrite (proj2 (Z.ltb_lt _ _) Hlt), (proj2 (Z.ltb_lt _ _) Hpos). cbn [andb].
  rewrite Hget. cbn [mbind outcome_bind]. rewrite (ctz_head _ _ _ Hp), Epush. cbn [mbind outcome_bind Z.eqb].
  assert (Hf32 : (f < 32)%nat) by (apply list_elem_of_filter in Hin as [_ Hin]; apply elem_of_seq in Hin; lia).
  rewrite arr_set_Ok by lia. cbn [mbind outcome_bind].
  edestruct (IH fuel (mk_ldisp (Z.lxor (free_peers d) (2 ^ Z.of_nat f)) (l_types d) (u32 (num_dped d + 1))
      (<[Z.to_nat (Z.of_nat f) := tsc]> (peer_dpt_tsc d)) ctx')) as (d' & rt' & h2 & E & G1 & G2 & G3);
    [exact Hc'|exact Hq'|lia|lia|by apply lxor_u32|by apply peers_take|cbn; by rewrite length_insert|done| |simpl in Hfuel; lia|].
  { apply Forall_forall. intros j Hj. pose proof (proj1 (Forall_forall _ _) Hroom j Hj) as [? ?].
    split; [done|]. unfold fupd. rewrite decide_False by (by intros ->). done. }
  exists d', rt', h2. split; [exact E|]. simpl length. rewrite Nat.min_comm. simpl Nat.min. rewrite Nat.min_comm.
  simpl drop. replace (t + Z.of_nat (S (length q `min` length fs)))
    with (t + 1 + Z.of_nat (length q `min` length fs)) by lia. done.
Qed.

Lemma peers_nodup free : NoDup (peers_of free).
Proof. apply NoDup_filter, NoDup_seq. Qed.


(** One worker with an empty channel, two requests waiting. *)
Definition example_ldisp : ldisp :=
  mk_ldisp 1 example_dtypes 0 (replicate 32 0) (lrpc_ctx example_dispatcher).
Definition example_rtype : RequestType :=
  mk_rtype UNKNOWN 0 0 (71 :: 72 :: replicate 4094 0) 0 2 (replicate 4096 0) 0 0.

Lemma example_chans : chans [0%nat] example_lheap (egress (l_ctx example_ldisp))
  (fun _ => mk_in 64 128 0 LRPC_Q_LEN) (fun _ => []).
Proof.
  split.
  - intros i ->%list_elem_of_singleton. eexists. split; [reflexivity|].
    unfold example_lheap. generalize (fresh_chan example_lheap). unfold example_lheap.
    generalize (replicate (Z.to_nat LRPC_Q_LEN) (mk_msg 0 0)). intros m Hf. apply Hf; reflexivity.
  - intros i j oi oj ->%list_elem_of_singleton ->%list_elem_of_singleton. done.
Qed.

Lemma example_rtype_rep : rq_at example_rtype 0 [(71, 0); (72, 0)].
Proof.
  split; [done|done|..]; (split; [done|vm_compute; reflexivity|vm_compute; discriminate|]);
    intros [|[|k]] x Hx; simpl in Hx; simplify_eq; reflexivity.
Qed.


Lemma chans_push_full ps h ctx inns ls i v :
  chans ps h (egress ctx) inns ls -> i ∈ ps -> LRPC_Q_LEN <= Z.of_nat (length (ls i)) ->
  exists ctx' h', push ctx v (Z.of_nat i) h = Ok (EAGAIN, ctx', h')
    /\ chans [i] h' (egress ctx') inns ls.
Proof.
  intros [Hrep Hsep] Hi Hl. destruct (Hrep i Hi) as (out & Eo & Hc).
  destruct (chan_send _ _ _ _ v Hc) as (out' & h' & E & Hc' & T1 & T2 & F1 & F2).
  rewrite (proj2 (Z.ltb_ge _ _) Hl) in E, Hc'. rewrite (push_chan _ _ _ _ _ _ _ _ Eo E).
  eexists _, _. split; [done|]. simpl. pose proof (lookup_lt_Some _ _ _ Eo) as Hlt. split.
  - intros j ->%list_elem_of_singleton. exists out'. by rewrite list_lookup_insert_eq.
  - intros j1 j2 o1 o2 ->%list_elem_of_singleton ->%list_elem_of_singleton. done.
Qed.

(** When draining does not make progress: if the channel of the lowest free
    worker is full the loop goes round for ever, and requests queued across the
    point where the 32-bit counter wraps are not sent at all. *)
Theorem drain_queue_stalls ps inns fuel tsc d rt h t r q ls :
  chans ps h (egress (l_ctx d)) inns ls -> rq_at rt t (r :: q) -> 0 <= t < 2 ^ 32 ->
  0 <= free_peers d < 2 ^ 32 ->
  (t + Z.of_nat (S (length q)) < 2 ^ 32 ->
    forall f fs, peers_of (free_peers d) = f :: fs -> f ∈ ps ->
    LRPC_Q_LEN <= Z.of_nat (length (ls f)) -> drain_loop fuel tsc d rt h = Ok None)
  /\ (2 ^ 32 <= t + Z.of_nat (S (length q)) -> drain_loop fuel tsc d rt h = Ok (Some (d, rt, h))).
Proof.
  intros Hc Hq Ht Hf. split.
  - intros Hm f fs Hp Hfp Hfull. revert d h ps Hc Hf Hp Hfp.
    assert (Hpos : forall d, 0 <= free_peers d < 2 ^ 32 -> peers_of (free_peers d) = f :: fs -> 0 < free_peers d)
      by (intros d Hd Hp; apply peers_pos; [done|by rewrite Hp]).
    destruct (rq_front _ _ _ _ Hq) as (Hlt & Hget & _); [lia|lia|].
    induction fuel as [|fuel IH]; intros d h ps Hc Hf Hp Hfp; cbn [drain_loop];
      rewrite (proj2 (Z.ltb_lt _ _) Hlt), (proj2 (Z.ltb_lt _ _) (Hpos d Hf Hp)); cbn [andb]; [done|].
    destruct (chans_push_full _ _ _ _ _ _ r.1 Hc Hfp Hfull) as (ctx' & h' & E & Hc').
    rewrite Hget. cbn [mbind outcome_bind]. rewrite (ctz_head _ _ _ Hp), E. cbn [mbind outcome_bind].
    apply (IH _ _ [f]); [done|done|done|by constructor].
  - intros Hm. pose proof (rh_len _ _ _ _ (rq_reqs _ _ _ Hq)) as Hl. rewrite length_fmap in Hl.
    simpl length in Hl. unfold RQUEUE_LEN in Hl.
    assert (Hw : (rqueue_tail rt <? rqueue_head rt) = false).
    { apply Z.ltb_ge. rewrite (rq_head _ _ _ Hq), (rq_tail _ _ _ Hq). simpl length. word_lia. }
    destruct fuel; cbn [drain_loop]; by rewrite Hw.
Qed.

(** Two requests queued just before the counter wraps. *)
Definition example_wrapped : RequestType :=
  mk_rtype UNKNOWN 0 0 (72 :: replicate 4094 0 ++ [71]) (2 ^ 32 - 1) 1 (replicate 4096 0) 0 0.

Lemma example_wrapped_rep : rq_at example_wrapped (2 ^ 32 - 1) [(71, 0); (72, 0)].
Proof.
  split; [done|done|..]; (split; [done|vm_compute; reflexivity|vm_compute; discriminate|]);
    intros [|[|k]] x Hx; simpl in Hx; simplify_eq; vm_compute; reflexivity.
Qed.

Lemma drain_queue_stalls_witness :
  drain_loop 3 5 example_ldisp example_wrapped example_lheap
  = Ok (Some (example_ldisp, example_wrapped, example_lheap)).
Proof.
  apply (drain_queue_stalls [0%nat] (fun _ => mk_in 64 128 0 LRPC_Q_LEN) 3 5 example_ldisp example_wrapped
    example_lheap (2 ^ 32 - 1) (71, 0) [(72, 0)] (fun _ => [])).
  - exact example_chans.
  - exact example_wrapped_rep.
  - split; [discriminate|reflexivity].
  - split; [discriminate|reflexivity].
  - discriminate.
Defined.

(** ** Completion notices *)

(** The notice a worker sends, from [Worker::app_work]: the type of the request
    in the top bits, the time in the others. *)
Definition notice (type tsc : Z) : Z := Z.lxor (u64 (Z.shiftl type 60)) tsc.

Lemma notice_decode type tsc :
  0 <= type < 16 -> 0 <= tsc < 2 ^ 60 ->
  Z.shiftr (notice type tsc) 60 = type /\ Z.land (notice type tsc) (2 ^ 60 - 1) = tsc.
Proof.
  intros Ht Hs. unfold notice.
  assert (E : u64 (Z.shiftl type 60) = Z.shiftl type 60)
    by (rewrite Z.shiftl_mul_pow2 by lia; apply u64_id; lia).
  rewrite E. split.
  - rewrite Z.shiftr_lxor, Z.shiftr_shiftl_l, (Z.shiftr_div_pow2 tsc), Z.div_small by lia.
    by rewrite Z.lxor_0_r, Z.shiftl_0_r.
  - change (2 ^ 60 - 1) with (Z.ones 60). rewrite Z.land_ones by lia.
    apply Z.bits_inj'. intros n Hn. destruct (Z.lt_ge_cases n 60).
    + rewrite Z.mod_pow2_bits_low, Z.lxor_spec, Z.shiftl_spec_low by lia. by destruct (Z.testbit tsc n).
    + rewrite Z.mod_pow2_bits_high by lia. symmetry. destruct (decide (tsc = 0)) as [->|]; [apply Z.bits_0|].
      apply Z.bits_above_log2; [lia|]. assert (Z.log2 tsc < 60) by (apply Z.log2_lt_pow2; lia). lia.
Qed.

(** A completion notice makes the worker free again and is accounted to the
    type of its request: the notice carries type and time intact, the mean
    service time of that type becomes the mean over one more request, and the
    queues are as they were; a notice with a type the program does not have
    reads past the table. *)
Theorem signal_free_worker_correct d type tsc peer dpt :
  dtypes_ok (l_types d) -> 0 <= type < 16 -> 0 <= tsc < 2 ^ 60 -> 0 <= peer < 32 ->
  peer_dpt_tsc d !! Z.to_nat peer = Some dpt -> 0 <= dpt <= tsc ->
  (forall o rt, type_to_nsorder (l_types d) !! Z.to_nat type = Some o -> 0 <= o ->
    rtypes (l_types d) !! Z.to_nat o = Some (Some rt) -> 0 <= windows_count rt -> 0 <= windows_mean_ns rt ->
    windows_mean_ns rt * windows_count rt + tsc < 2 ^ 64 -> windows_count rt + 1 < 2 ^ 64 ->
    exists d' rt', signal_free_worker d peer (notice type tsc) = Ok (0, d')
      /\ Z.to_nat peer ∈ peers_of (free_peers d')
      /\ (forall i, i ∈ peers_of (free_peers d) -> i ∈ peers_of (free_peers d'))
      /\ rtypes (l_types d') = <[Z.to_nat o := Some rt']> (rtypes (l_types d))
      /\ windows_count rt' = windows_count rt + 1
      /\ windows_mean_ns rt' = ((tsc - dpt) + windows_mean_ns rt * windows_count rt) / (windows_count rt + 1)
      /\ forall q, rq_rep rt q -> rq_rep rt' q)
  /\ (LAST <= type -> signal_free_worker d peer (notice type tsc) = UB).
Proof.
  intros [L1 L2] Hty Hts Hp Hd Hdp. destruct (notice_decode type tsc Hty Hts) as [N1 N2].
  unfold signal_free_worker. rewrite N1, N2. split.
  - intros o rt Ho Ho0 Hrt Hc Hm Hov Hov2.
    rewrite (proj2 (arr_get_Ok (type_to_nsorder (l_types d)) _ o)) by (split; [lia|done]). simpl.
    rewrite (proj2 (arr_get_Ok (rtypes (l_types d)) _ (Some rt))) by (split; [lia|done]). simpl.
    rewrite (proj2 (arr_get_Ok _ _ dpt)) by (split; [lia|done]). simpl.
    rewrite (u64_id (windows_count rt + 1)), (u64_id (tsc - dpt)),
      (u64_id (windows_mean_ns rt * windows_count rt)), (u64_id (_ + _)) by nia.
    rewrite (proj2 (Z.eqb_neq _ _)) by lia.
    rewrite arr_set_Ok by (apply lookup_lt_Some in Hrt; lia). simpl.
    eexists _, _. split; [done|]. simpl. split_and!; [| |done|done|done|].
    + apply list_elem_of_filter. split; [|apply elem_of_seq; lia].
      rewrite Z2Nat.id, Z.lor_spec, Z.pow2_bits_true by lia. by rewrite orb_true_r.
    + intros i [Hb Hi]%list_elem_of_filter. apply list_elem_of_filter. split; [|done].
      by rewrite Z.lor_spec, Hb.
    + intros q (t & [H1 H2 H3 H4]). exists t. by split.
  - intros Hl. unfold LAST in Hl, L2.
    by rewrite (arr_get_UB (type_to_nsorder (l_types d))) by lia.
Qed.

(** The type SHORT is the only one registered; worker 1 was given a request of
    it at time 100. *)
Definition example_signal : ldisp :=
  mk_ldisp 1 (mk_dtypes (Some example_rtype :: replicate 11 None) 1 (replicate 12 0)) 1
    (0 :: 100 :: replicate 30 0) (lrpc_ctx example_dispatcher).

Lemma signal_free_worker_correct_witness :
  exists d' rt', signal_free_worker example_signal 1 (notice 1 130) = Ok (0, d')
    /\ 1%nat ∈ peers_of (free_peers d') /\ windows_mean_ns rt' = 30
    /\ rtypes (l_types d') = Some rt' :: replicate 11 None.
Proof.
  destruct (signal_free_worker_correct example_signal 1 130 1 100) as [H _];
    [split; reflexivity|split; [discriminate|reflexivity]|split; [discriminate|reflexivity]
    |split; [discriminate|reflexivity]|reflexivity|split; discriminate|].
  destruct (H 0 example_rtype) as (d' & rt' & E & H1 & _ & H2 & _ & H3 & _);
    [reflexivity|discriminate|reflexivity|discriminate|discriminate|reflexivity|reflexivity|].
  exists d', rt'. split; [exact E|]. split; [exact H1|]. split; [rewrite H3; reflexivity|].
  rewrite H2. reflexivity.
Defined.
