(* ===== verification/Dispatcher.v ===== *)
(** * Dispatcher: mailboxes and the dispatch pass

    Models [src/include/psp/dispatch.h] and the preemptive part of
    [src/src/c++/libos/su/dispatch_su.cc]: one mailbox per worker in each
    direction, the queue of waiting tasks, and [Dispatcher::dispatch], which
    collects what the workers returned and hands out the next tasks.  Generic
    in the task queue and in the contexts ([Interfaces]). *)
From S2P Require Import Prelude Interfaces.

Definition WAITING : Z := 0.
Definition ACTIVE : Z := 1.

Definition RUNNING : Z := 0.
Definition FINISHED : Z := 1.
Definition PREEMPTED : Z := 2.
Definition PROCESSED : Z := 3.

Definition NOCONTENT : Z := 0.
Definition PACKET : Z := 1.
Definition CONTEXT : Z := 2.

Definition MAX_WORKERS : nat := 32.

Record worker_response : Type := mk_resp {
  wr_flag : Z;
  wr_rnbl : Z;
  wr_mbuf : Z;
  wr_timestamp : Z;
  wr_type : Z;
  wr_category : Z
}.

Record dispatcher_request : Type := mk_req {
  dr_flag : Z;
  dr_rnbl : Z;
  dr_mbuf : Z;
  dr_type : Z;
  dr_category : Z;
  dr_timestamp : Z
}.

Definition wr_set_flag (f : Z) (w : worker_response) : worker_response :=
  mk_resp f (wr_rnbl w) (wr_mbuf w) (wr_timestamp w) (wr_type w) (wr_category w).

Definition dr_set_flag (f : Z) (r : dispatcher_request) : dispatcher_request :=
  mk_req f (dr_rnbl r) (dr_mbuf r) (dr_type r) (dr_category r) (dr_timestamp r).

(** The content of a request, the flag left as it is. *)
Definition dr_fill (x : task_info) (r : dispatcher_request) : dispatcher_request :=
  mk_req (dr_flag r) (ti_runnable x) (ti_mbuf x) (ti_type x) (ti_category x) (ti_timestamp x).

(** The globals of [dispatch_su.cc].  [freed] lists the packet buffers given
    back with [rte_pktmbuf_free], the last one at the end. *)
Record dstate (Q C : Type) : Type := mk_dstate {
  responses : list worker_response;
  requests : list dispatcher_request;
  timestamps : list Z;
  preempt_check : list Z;
  tskq : Q;
  ctxm : C;
  freed : list Z
}.
Arguments mk_dstate {Q C} _ _ _ _ _ _ _.
Arguments responses {Q C} _.
Arguments requests {Q C} _.
Arguments timestamps {Q C} _.
Arguments preempt_check {Q C} _.
Arguments tskq {Q C} _.
Arguments ctxm {Q C} _.
Arguments freed {Q C} _.

Section operations.
Context {Q C : Type} `{TaskQueueOps Q} `{ContextOps C}.

Definition dispatch_request (i cur_time : Z) (d : dstate Q C) : outcome (dstate Q C) :=
  '(q, ret) ← tq_dequeue (tskq d);
  match ret with
  | None => Ok (mk_dstate (responses d) (requests d) (timestamps d) (preempt_check d) q (ctxm d) (freed d))
  | Some x =>
    rs ← arr_upd (responses d) i (wr_set_flag RUNNING);
    rq ← arr_upd (requests d) i (dr_fill x);
    ts ← arr_set (timestamps d) i cur_time;
    pc ← arr_set (preempt_check d) i 1;
    rq ← arr_upd rq i (dr_set_flag ACTIVE);
    Ok (mk_dstate rs rq ts pc q (ctxm d) (freed d))
  end.

Definition handle_finished (i : Z) (d : dstate Q C) : outcome (dstate Q C) :=
  w ← arr_get (responses d) i;
  c ← ctx_free (ctxm d) (wr_rnbl w);
  pc ← arr_set (preempt_check d) i 0;
  rs ← arr_upd (responses d) i (wr_set_flag PROCESSED);
  Ok (mk_dstate rs (requests d) (timestamps d) pc (tskq d) c (freed d ++ [wr_mbuf w])).

Definition handle_preempted (i : Z) (d : dstate Q C) : outcome (dstate Q C) :=
  w ← arr_get (responses d) i;
  q ← tq_enqueue_tail (tskq d)
        (mk_info (wr_rnbl w) (wr_mbuf w) (wr_type w) (wr_category w) (wr_timestamp w));
  pc ← arr_set (preempt_check d) i 0;
  rs ← arr_upd (responses d) i (wr_set_flag PROCESSED);
  Ok (mk_dstate rs (requests d) (timestamps d) pc q (ctxm d) (freed d)).

(** The body of the loop of [Dispatcher::dispatch] for the worker [i]. *)
Definition dispatch_one (i cur_tsc : Z) (d : dstate Q C) : outcome (dstate Q C) :=
  w ← arr_get (responses d) i;
  if negb (wr_flag w =? RUNNING) then
    d ← (if wr_flag w =? FINISHED then handle_finished i d
         else if wr_flag w =? PREEMPTED then handle_preempted i d
         else Ok d);
    dispatch_request i cur_tsc d
  else Ok d.

Fixpoint dispatch_loop (n : nat) (i cur_tsc : Z) (d : dstate Q C) : outcome (dstate Q C) :=
  match n with
  | O => Ok d
  | S n' => d ← dispatch_one i cur_tsc d; dispatch_loop n' (i + 1) cur_tsc d
  end.

(** [Dispatcher::dispatch]: workers [1 .. n_peers]. *)
Definition dispatch (n_peers : nat) (cur_tsc : Z) (d : dstate Q C) : outcome (Z * dstate Q C) :=
  d ← dispatch_loop n_peers 1 cur_tsc d;
  Ok (0, d).

End operations.
