(* ===== verification/Worker.v ===== *)
(** * Worker: the worker threads

    Models the worker side of [src/src/c++/libos/common/Worker.cc]: the request
    handler [simple_generic_work], which runs on a context of its own and
    yields to the worker's loop, the two ways of entering it, and the body of
    the worker's loop.  A suspended handler is a value of [coro], kept per
    context: [ContextSwitch] shows that the switching routines resume it
    exactly where it left. *)
From S2P Require Import Prelude Interfaces Dispatcher.

(** Where a handler stands: set up by [makecontext] with its argument, inside
    of the loop at the switch to the worker with the values of [i] and [k], or
    at the switch after its last statement. *)
Inductive coro : Type :=
| CoStart (req : Z)
| CoYield (req i k : Z)
| CoEnd.

(** The thread-local variables [cont] and [finished] of a worker. *)
Record thread : Type := mk_thread { cont : Z; finished : bool }.

(** The benchmark variables. *)
Record stats : Type := mk_stats {
  TEST_START_TIME : Z;
  TEST_END_TIME : Z;
  TEST_RCVD_SMALL_PACKETS : Z;
  TEST_RCVD_BIG_PACKETS : Z;
  TEST_TOTAL_PACKETS_COUNTER : Z;
  TEST_FINISHED : bool;
  IS_FIRST_PACKET : bool
}.

Definition BENCHMARK_STOP_AT_PACKET : Z := 100.
Definition NET_HDR_SIZE : Z := 42.

(** [enum DB_REQ_TYPE]. *)
Definition DB_PUT : Z := 0.
Definition DB_GET : Z := 1.
Definition DB_DELETE : Z := 2.
Definition DB_ITERATOR : Z := 3.
Definition DB_SEEK : Z := 4.
Definition DB_CUSTOM : Z := 5.

(** The memory the workers share: [db] holds the [type] field of the request
    at each payload address. *)
Record world (Q C : Type) : Type := mk_world {
  dst : dstate Q C;
  coros : gmap Z coro;
  threads : list thread;
  db : gmap Z Z;
  bench : stats
}.
Arguments mk_world {Q C} _ _ _ _ _.
Arguments dst {Q C} _.
Arguments coros {Q C} _.
Arguments threads {Q C} _.
Arguments db {Q C} _.
Arguments bench {Q C} _.

(** The loop of [simple_generic_work] with [n] iterations left: [Some (i, k)]
    when it switches to the worker in iteration [i], [None] when it ends. *)
Fixpoint work_loop (n : nat) (i k : Z) : option (Z * Z) :=
  match n with
  | O => None
  | S n' => if k =? 2 then Some (i, k) else work_loop n' (i + 1) (k + 1)
  end.

(** What follows the loop of [simple_generic_work], up to the last switch. *)
Definition work_end (now type : Z) (b : stats) : stats :=
  let total := u64 (TEST_TOTAL_PACKETS_COUNTER b + 1) in
  let stop := total =? BENCHMARK_STOP_AT_PACKET in
  let small := (type =? DB_GET) || (type =? DB_PUT) in
  mk_stats (TEST_START_TIME b)
    (if stop then now else TEST_END_TIME b)
    (if small then u64 (TEST_RCVD_SMALL_PACKETS b + 1) else TEST_RCVD_SMALL_PACKETS b)
    (if small then TEST_RCVD_BIG_PACKETS b else u64 (TEST_RCVD_BIG_PACKETS b + 1))
    total
    (if stop then true else TEST_FINISHED b)
    (IS_FIRST_PACKET b).

(** The first packet starts the clock of the benchmark. *)
Definition first_packet (now : Z) (b : stats) : stats :=
  if negb (IS_FIRST_PACKET b) then
    mk_stats now (TEST_END_TIME b) (TEST_RCVD_SMALL_PACKETS b) (TEST_RCVD_BIG_PACKETS b)
      (TEST_TOTAL_PACKETS_COUNTER b) (TEST_FINISHED b) true
  else b.

Section operations.
Context {Q C : Type} `{TaskQueueOps Q} `{ContextOps C}.

(** The data address of a packet buffer ([rte_pktmbuf_mtod]) and the contexts
    [&uctx_main] of the workers. *)
Variable mtod : Z -> Z.
Variable uctx_main : Z -> Z.

Definition set_dst (d : dstate Q C) (w : world Q C) : world Q C :=
  mk_world d (coros w) (threads w) (db w) (bench w).
Definition set_coro (c : Z) (x : coro) (w : world Q C) : world Q C :=
  mk_world (dst w) (<[c := x]> (coros w)) (threads w) (db w) (bench w).
Definition set_thread (id : Z) (t : thread) (w : world Q C) : outcome (world Q C) :=
  ts ← arr_set (threads w) id t;
  Ok (mk_world (dst w) (coros w) ts (db w) (bench w)).
Definition set_bench (b : stats) (w : world Q C) : world Q C :=
  mk_world (dst w) (coros w) (threads w) (db w) b.

(** [simple_generic_work] on the context [c] of the worker [id], from the loop
    with [n] iterations left up to its next switch to the worker. *)
Definition run_handler (id now c req : Z) (n : nat) (i k : Z) (w : world Q C)
  : outcome (world Q C) :=
  match work_loop n i k with
  | Some (i, k) => Ok (set_coro c (CoYield req i k) w)
  | None =>
    match db w !! req with
    | None => UB
    | Some type =>
      t ← arr_get (threads w) id;
      w ← set_thread id (mk_thread (cont t) true) (set_bench (work_end now type (bench w)) w);
      Ok (set_coro c CoEnd w)
    end
  end.

(** Switching to the context [c]: the handler runs until it switches back. *)
Definition swap_to (id now c : Z) (w : world Q C) : outcome (world Q C) :=
  match coros w !! c with
  | Some (CoStart req) => run_handler id now c req 4 0 0 w
  | Some (CoYield req i k) => run_handler id now c req (Z.to_nat (4 - (i + 1))) (i + 1) (k + 1) w
  | Some CoEnd | None => UB
  end.

Definition set_link (c link : Z) (w : world Q C) : outcome (world Q C) :=
  let d := dst w in
  cm ← ctx_link (ctxm d) c link;
  Ok (set_dst (mk_dstate (responses d) (requests d) (timestamps d) (preempt_check d)
                 (tskq d) cm (freed d)) w).

Definition handle_fake_new_packet (id now : Z) (w : world Q C) : outcome (world Q C) :=
  rq ← arr_get (requests (dst w)) id;
  let req := mtod (dr_mbuf rq) + NET_HDR_SIZE in
  let c := dr_rnbl rq in
  w ← set_link c (uctx_main id) w;
  let w := set_coro c (CoStart req) w in
  w ← set_thread id (mk_thread c false) w;
  swap_to id now c w.

Definition handle_context (id now : Z) (w : world Q C) : outcome (world Q C) :=
  rq ← arr_get (requests (dst w)) id;
  let c := dr_rnbl rq in
  w ← set_thread id (mk_thread c false) w;
  w ← set_link c (uctx_main id) w;
  swap_to id now c w.

Definition finish_request (id : Z) (w : world Q C) : outcome (world Q C) :=
  let d := dst w in
  rq ← arr_get (requests d) id;
  t ← arr_get (threads w) id;
  rs ← arr_upd (responses d) id (fun r =>
         mk_resp (wr_flag r) (cont t) (dr_mbuf rq) (dr_timestamp rq) (dr_type rq) CONTEXT);
  rs ← arr_upd rs id (wr_set_flag (if finished t then FINISHED else PREEMPTED));
  Ok (set_dst (mk_dstate rs (requests d) (timestamps d) (preempt_check d)
                 (tskq d) (ctxm d) (freed d)) w).

(** The body of the worker's loop in [Worker::main_loop], once its request is
    no longer [WAITING]. *)
Definition worker_iter (id now : Z) (w : world Q C) : outcome (world Q C) :=
  let d := dst w in
  rqs ← arr_upd (requests d) id (dr_set_flag WAITING);
  let w := set_dst (mk_dstate (responses d) rqs (timestamps d) (preempt_check d)
                      (tskq d) (ctxm d) (freed d)) w in
  rq ← arr_get (requests (dst w)) id;
  w ← (if dr_category rq =? PACKET then
         let w := set_bench (first_packet now (bench w)) w in
         handle_fake_new_packet id now w
       else handle_context id now w);
  finish_request id w.

(** [Worker::init_worker]: the index is the constant 1. *)
Definition init_worker (id : Z) (d : dstate Q C) : outcome (dstate Q C) :=
  rs ← arr_upd (responses d) 1 (wr_set_flag PROCESSED);
  Ok (mk_dstate rs (requests d) (timestamps d) (preempt_check d) (tskq d) (ctxm d) (freed d)).

End operations.
