(* ===== verification/NetWorker.v ===== *)
(** * NetWorker: the thread that receives packets and runs the dispatcher

    Models [src/src/c++/libos/su/net_su.cc]: [NetWorker::work], which runs a
    dispatch pass and turns received packets into tasks, and
    [NetWorker::sent_fake_packet], the packet generator of the benchmark.  The
    receive ring is that of [UdpContext]. *)
From S2P Require Import Prelude Fail Interfaces Dispatcher Worker.

Definition INBOUND_Q_LEN : Z := 128.
Definition MAX_RX_BURST : Z := 8.
Definition BENCHMARK_DURATION_US : Z := 1000000 * 60.

(** The receive ring of [UdpContext]: free-running 32-bit counters. *)
Record rxq : Type := mk_rxq {
  inbound_queue : list Z;
  pop_tail : Z;
  pop_head : Z
}.

Record net (Q C : Type) : Type := mk_net {
  wld : world Q C;
  rx : rxq;
  n_rcvd : Z;
  n_batchs_rcvd : Z
}.
Arguments mk_net {Q C} _ _ _ _.
Arguments wld {Q C} _.
Arguments rx {Q C} _.
Arguments n_rcvd {Q C} _.
Arguments n_batchs_rcvd {Q C} _.

Section operations.
Context {Q C : Type} `{TaskQueueOps Q} `{ContextOps C}.
Variable mtod : Z -> Z.

(** One pass through the loop of [NetWorker::work]: [None] when its condition
    fails, otherwise the state and the new [batch_dequeued]. *)
Definition rx_one (cur_tsc : Z) (w : world Q C) (r : rxq) (batch_dequeued : Z)
  : outcome (option (world Q C * rxq * Z)) :=
  if (pop_tail r <? pop_head r) && (batch_dequeued <? MAX_RX_BURST) then
    req ← arr_get (inbound_queue r) (Z.land (pop_tail r) (INBOUND_Q_LEN - 1));
    let mbuf := req in
    let d := dst w in
    '(cm, ret) ← ctx_alloc (ctxm d);
    match ret with
    | None =>
      (* "Cannot allocate context", continue *)
      let d := mk_dstate (responses d) (requests d) (timestamps d) (preempt_check d)
                 (tskq d) cm (freed d) in
      Ok (Some (set_dst d w, r, batch_dequeued))
    | Some cont =>
      q ← tq_enqueue_tail (tskq d) (mk_info cont mbuf 1 1 cur_tsc);
      let d := mk_dstate (responses d) (requests d) (timestamps d) (preempt_check d)
                 q cm (freed d) in
      Ok (Some (set_dst d w,
                mk_rxq (inbound_queue r) (u32 (pop_tail r + 1)) (pop_head r),
                u64 (batch_dequeued + 1)))
    end
  else Ok None.

(** The loop, at most [fuel] passes: [None] when it is still running. *)
Fixpoint rx_loop (fuel : nat) (cur_tsc : Z) (w : world Q C) (r : rxq) (batch_dequeued : Z)
  : outcome (option (world Q C * rxq * Z)) :=
  match fuel with
  | O => Ok None
  | S fuel' =>
    res ← rx_one cur_tsc w r batch_dequeued;
    match res with
    | None => Ok (Some (w, r, batch_dequeued))
    | Some (w, r, b) => rx_loop fuel' cur_tsc w r b
    end
  end.

(** [NetWorker::work]: the result is the return value and the new state, [None]
    when the receive loop has not ended after [fuel] passes.  [now] is
    [get_us()], [tsc0] and [tsc1] are the two time stamps read. *)
Definition work (fuel n_peers : nat) (now tsc0 tsc1 : Z) (s : net Q C)
  : outcome (option (Z * net Q C)) :=
  let b := bench (wld s) in
  if IS_FIRST_PACKET b
     && (TEST_FINISHED b || (BENCHMARK_DURATION_US <? u64 (now - TEST_START_TIME b)))
  then Ok (Some (1, s))
  else
    '(ret, d) ← dispatch n_peers tsc0 (dst (wld s));
    _ ← PSP_OK ret;
    let w := set_dst d (wld s) in
    let n_batchs := u64 (n_batchs_rcvd s + 1) in
    res ← rx_loop fuel tsc1 w (rx s) 0;
    match res with
    | None => Ok None
    | Some (w, r, b) => Ok (Some (0, mk_net w r (u32 (n_rcvd s + b)) n_batchs))
    end.

(** [NetWorker::sent_fake_packet]: [mbuf] is what [rte_pktmbuf_alloc] returned
    and [rnd] what [rand] returned.  The request type is written through [mbuf]
    before [mbuf] is tested. *)
Definition sent_fake_packet (mbuf rnd : Z) (s : net Q C) : outcome (Z * net Q C) :=
  if mbuf =? NULL then UB
  else
    let payload := mtod mbuf + 14 + 20 + 8 in
    let type := if negb (rnd mod 2 =? 0) then DB_GET else DB_ITERATOR in
    let w := wld s in
    let w := mk_world (dst w) (coros w) (threads w) (<[payload := type]> (db w)) (bench w) in
    let r := rx s in
    q ← arr_set (inbound_queue r) (Z.land (pop_head r) (INBOUND_Q_LEN - 1)) mbuf;
    Ok (0, mk_net w (mk_rxq q (pop_tail r) (u32 (pop_head r + 1))) (n_rcvd s) (n_batchs_rcvd s)).

End operations.
