(* ===== verification/SystemSpec.v ===== *)
(** * SystemSpec: what the program promises about its requests

    The abstract system that [System] proves the code to implement: requests
    are in the receive ring, in the queue of waiting tasks, at a worker, or
    answered.  Every request runs in two slices.  Invariants and progress of
    the whole system are proved here, on lists. *)
From S2P Require Import Prelude Interfaces.

(** A request that has a context; [t_run]: its first slice is done. *)
Record treq : Type := mk_treq { t_ctx : Z; t_mbuf : Z; t_ts : Z; t_run : bool }.

Definition started (t : treq) : treq := mk_treq (t_ctx t) (t_mbuf t) (t_ts t) true.

(** A worker's mailbox: never initialised, free, holding a task for the
    worker, or holding the task the worker returned. *)
Inductive slot : Type :=
| Dead
| Idle
| Assigned (t : treq)
| Returned (t : treq) (fin : bool).

Record sys : Type := mk_sys {
  s_sent : list Z;
  s_ring : list Z;
  s_queue : list treq;
  s_slots : list slot;
  s_ended : nat;
  s_freed : list Z
}.

Definition slot_task (x : slot) : list treq :=
  match x with Assigned t | Returned t _ => [t] | _ => [] end.

Definition slot_tasks (l : list slot) : list treq := l ≫= slot_task.

(** The requests that hold a context. *)
Definition tasks_of (s : sys) : list treq := s_queue s ++ slot_tasks (s_slots s).

(** ** Operations *)

Definition sp_send (m : Z) (s : sys) : sys :=
  mk_sys (s_sent s ++ [m]) (s_ring s ++ [m]) (s_queue s) (s_slots s) (s_ended s) (s_freed s).

(** Take the oldest packet from the ring; it gets the context [c]. *)
Definition sp_rx (c ts : Z) (s : sys) : sys :=
  match s_ring s with
  | [] => s
  | m :: r => mk_sys (s_sent s) r (s_queue s ++ [mk_treq c m ts false]) (s_slots s) (s_ended s) (s_freed s)
  end.

Definition sp_assign (i : nat) (s : sys) : sys :=
  match s_queue s with
  | [] => s
  | t :: q => mk_sys (s_sent s) (s_ring s) q (<[i := Assigned t]> (s_slots s)) (s_ended s) (s_freed s)
  end.

(** Collect what the worker [i] returned. *)
Definition sp_collect (i : nat) (s : sys) : sys :=
  match s_slots s !! i with
  | Some (Returned t true) =>
    mk_sys (s_sent s) (s_ring s) (s_queue s) (<[i := Idle]> (s_slots s)) (s_ended s)
      (s_freed s ++ [t_mbuf t])
  | Some (Returned t false) =>
    mk_sys (s_sent s) (s_ring s) (s_queue s ++ [t]) (<[i := Idle]> (s_slots s)) (s_ended s) (s_freed s)
  | _ => s
  end.

Definition sp_dispatch (i : nat) (s : sys) : sys :=
  match s_slots s !! i with
  | Some Idle | Some (Returned _ _) => sp_assign i (sp_collect i s)
  | _ => s
  end.

(** The worker [i] runs one slice: the first one is preempted, the second one
    ends the request. *)
Definition sp_slice (i : nat) (s : sys) : sys :=
  match s_slots s !! i with
  | Some (Assigned t) =>
    mk_sys (s_sent s) (s_ring s) (s_queue s)
      (<[i := Returned (started t) (t_run t)]> (s_slots s))
      (if t_run t then S (s_ended s) else s_ended s) (s_freed s)
  | _ => s
  end.

(** One step of the system: [nmax] contexts exist. *)
Inductive sp_step (nmax : nat) : sys -> sys -> Prop :=
| sp_step_send m s : sp_step nmax s (sp_send m s)
| sp_step_rx c ts s :
    c ∉ t_ctx <$> tasks_of s -> (length (tasks_of s) < nmax)%nat -> sp_step nmax s (sp_rx c ts s)
| sp_step_dispatch i s : sp_step nmax s (sp_dispatch i s)
| sp_step_slice i s : sp_step nmax s (sp_slice i s).

(** ** Lists of slots *)

Lemma slot_tasks_split (l : list slot) i x :
  l !! i = Some x ->
  exists rest, slot_tasks l ≡ₚ slot_task x ++ rest
    /\ forall y, slot_tasks (<[i := y]> l) ≡ₚ slot_task y ++ rest.
Proof.
  intros Hi. exists (slot_tasks (take i l) ++ slot_tasks (drop (S i) l)).
  assert (Hsplit : forall y, slot_tasks (take i l ++ y :: drop (S i) l)
    ≡ₚ slot_task y ++ slot_tasks (take i l) ++ slot_tasks (drop (S i) l)).
  { intros y. unfold slot_tasks. rewrite bind_app. csimpl. by rewrite Permutation_app_swap_app. }
  split.
  - rewrite <- Hsplit. by rewrite (take_drop_middle _ _ _ Hi).
  - intros y. rewrite insert_take_drop by by eapply lookup_lt_Some. apply Hsplit.
Qed.

(** ** Invariant *)

Definition ended_in (x : slot) : nat := match x with Returned _ true => 1 | _ => 0 end.

Definition sum_slots (f : slot -> nat) (l : list slot) : nat := sum_list_with f l.

Lemma sum_slots_insert f (l : list slot) i x y :
  l !! i = Some x -> (sum_slots f (<[i := y]> l) + f x = sum_slots f l + f y)%nat.
Proof.
  revert i. induction l as [|z l IH]; intros [|i] Hi; simplify_eq/=; [lia|].
  specialize (IH _ Hi). unfold sum_slots in *. simpl. lia.
Qed.

Definition returned_run (x : slot) : Prop :=
  match x with Returned t _ => t_run t = true | _ => True end.

(** Every packet sent is in the ring, with a task or answered, exactly once;
    tasks have contexts of their own; the requests that ended are those
    answered and those about to be. *)
Record sp_inv (nmax : nat) (s : sys) : Prop := {
  si_conserve : s_sent s ≡ₚ s_ring s ++ (t_mbuf <$> tasks_of s) ++ s_freed s;
  si_ctx : NoDup (t_ctx <$> tasks_of s);
  si_cap : (length (tasks_of s) <= nmax)%nat;
  si_ended : s_ended s = (length (s_freed s) + sum_slots ended_in (s_slots s))%nat;
  si_run : Forall returned_run (s_slots s)
}.

Lemma sp_inv_perm nmax s s' :
  sp_inv nmax s -> s_sent s' = s_sent s -> s_ring s' = s_ring s -> s_freed s' = s_freed s ->
  t_mbuf <$> tasks_of s' ≡ₚ t_mbuf <$> tasks_of s ->
  t_ctx <$> tasks_of s' ≡ₚ t_ctx <$> tasks_of s ->
  s_ended s' = (length (s_freed s') + sum_slots ended_in (s_slots s'))%nat ->
  Forall returned_run (s_slots s') -> sp_inv nmax s'.
Proof.
  intros [H1 H2 H3 H4 H5] E1 E2 E3 Hm Hc He Hr. split; try done.
  - by rewrite E1, E2, E3, Hm.
  - by rewrite Hc.
  - rewrite <- (length_fmap t_ctx), Hc, length_fmap. done.
Qed.

Lemma sp_inv_assign nmax i s :
  sp_inv nmax s -> s_slots s !! i = Some Idle -> sp_inv nmax (sp_assign i s).
Proof.
  intros Hi Hs. unfold sp_assign. destruct (s_queue s) as [|t q] eqn:Eq; [done|].
  destruct (slot_tasks_split _ _ _ Hs) as (rest & Hold & Hnew).
  assert (Hp : tasks_of (mk_sys (s_sent s) (s_ring s) q (<[i := Assigned t]> (s_slots s))
    (s_ended s) (s_freed s)) ≡ₚ tasks_of s).
  { unfold tasks_of. simpl. rewrite Hnew, Hold, Eq. simpl. by rewrite <- Permutation_middle. }
  apply (sp_inv_perm nmax s); try done; simpl; try (by rewrite Hp).
  - pose proof (sum_slots_insert ended_in _ _ _ (Assigned t) Hs). simpl in *.
    rewrite (si_ended _ _ Hi). lia.
  - apply Forall_insert; [apply Hi|done].
Qed.

Lemma sp_inv_collect nmax i s : sp_inv nmax s -> sp_inv nmax (sp_collect i s).
Proof.
  intros Hi. unfold sp_collect. destruct (s_slots s !! i) as [[| |t|t [|]]|] eqn:Hs; try done.
  all: destruct (slot_tasks_split _ _ _ Hs) as (rest & Hold & Hnew); simpl in Hold.
  all: pose proof (sum_slots_insert ended_in _ _ _ Idle Hs) as Hsum; simpl in Hsum.
  - destruct Hi as [H1 H2 H3 H4 H5]. unfold tasks_of in *.
    assert (Hp : t_mbuf <$> s_queue s ++ slot_tasks (s_slots s)
      ≡ₚ t_mbuf t :: (t_mbuf <$> s_queue s ++ rest)).
    { rewrite Hold. simpl. rewrite <- Permutation_middle. done. }
    split; unfold tasks_of; simpl; rewrite ?Hnew; simpl.
    + rewrite H1, Hp. simpl. apply Permutation_app; [done|].
      by rewrite app_assoc, <- Permutation_cons_append.
    + rewrite Hold in H2. rewrite fmap_app in *. simpl in *.
      rewrite <- Permutation_middle in H2. by apply NoDup_cons in H2 as [_ H2].
    + rewrite Hold, length_app in H3. rewrite length_app. simpl in H3. lia.
    + rewrite length_app. simpl. lia.
    + by apply Forall_insert.
  - assert (Hp : tasks_of (mk_sys (s_sent s) (s_ring s) (s_queue s ++ [t]) (<[i := Idle]> (s_slots s))
      (s_ended s) (s_freed s)) ≡ₚ tasks_of s).
    { unfold tasks_of. simpl. rewrite Hnew, Hold. simpl. by rewrite <- app_assoc. }
    apply (sp_inv_perm nmax s); try done; simpl; try (by rewrite Hp).
    + rewrite (si_ended _ _ Hi). lia.
    + apply Forall_insert; [apply Hi|done].
Qed.

Lemma sp_inv_dispatch nmax i s : sp_inv nmax s -> sp_inv nmax (sp_dispatch i s).
Proof.
  intros Hi. unfold sp_dispatch. destruct (s_slots s !! i) as [x|] eqn:Hs; [|done].
  destruct x as [| |t|t fin]; try done; apply sp_inv_assign; try by apply sp_inv_collect.
  - unfold sp_collect. by rewrite Hs.
  - unfold sp_collect. rewrite Hs. destruct fin; simpl; apply list_lookup_insert_eq;
      by eapply lookup_lt_Some.
Qed.

Lemma sp_inv_slice nmax i s : sp_inv nmax s -> sp_inv nmax (sp_slice i s).
Proof.
  intros Hi. unfold sp_slice. destruct (s_slots s !! i) as [[| |t|t fin]|] eqn:Hs; try done.
  destruct (slot_tasks_split _ _ _ Hs) as (rest & Hold & Hnew); simpl in Hold.
  pose proof (sum_slots_insert ended_in _ _ _ (Returned (started t) (t_run t)) Hs) as Hsum.
  apply (sp_inv_perm nmax s); try done; unfold tasks_of; simpl.
  - rewrite Hnew, Hold. by rewrite !fmap_app.
  - rewrite Hnew, Hold. by rewrite !fmap_app.
  - rewrite (si_ended _ _ Hi). simpl in Hsum. destruct (t_run t); lia.
  - apply Forall_insert; [apply Hi|done].
Qed.

Lemma sp_inv_rx nmax c ts s :
  sp_inv nmax s -> c ∉ t_ctx <$> tasks_of s -> (length (tasks_of s) < nmax)%nat ->
  sp_inv nmax (sp_rx c ts s).
Proof.
  intros [H1 H2 H3 H4 H5] Hc Hl. unfold sp_rx. destruct (s_ring s) as [|m r] eqn:Er; [by split; rewrite ?Er|].
  assert (Hp : tasks_of (mk_sys (s_sent s) r (s_queue s ++ [mk_treq c m ts false]) (s_slots s)
    (s_ended s) (s_freed s)) ≡ₚ mk_treq c m ts false :: tasks_of s).
  { unfold tasks_of. simpl. rewrite <- app_assoc. simpl. by rewrite <- Permutation_middle. }
  split; try done; rewrite ?Hp; simpl.
  - rewrite H1. simpl. by rewrite Permutation_middle.
  - by apply NoDup_cons.
  - lia.
Qed.

Lemma sp_inv_send nmax m s : sp_inv nmax s -> sp_inv nmax (sp_send m s).
Proof.
  intros [H1 H2 H3 H4 H5]. split; try done. simpl. unfold tasks_of in *. simpl.
  rewrite H1, <- !app_assoc. apply Permutation_app; [done|].
  rewrite app_assoc. apply Permutation_app_comm.
Qed.

Lemma sp_step_inv nmax s s' : sp_step nmax s s' -> sp_inv nmax s -> sp_inv nmax s'.
Proof.
  intros [m t|c ts t Hc Hl|i t|i t] Hi.
  - by apply sp_inv_send.
  - by apply sp_inv_rx.
  - by apply sp_inv_dispatch.
  - by apply sp_inv_slice.
Qed.

(** ** Progress *)

(** How many steps a request still has to go. *)
Definition queue_weight (t : treq) : nat := if t_run t then 3 else 6.

Definition slot_weight (x : slot) : nat :=
  match x with
  | Dead | Idle => 0
  | Assigned t => if t_run t then 2 else 5
  | Returned _ fin => if fin then 1 else 4
  end.

Definition weight (s : sys) : nat :=
  7 * length (s_ring s) + sum_list_with queue_weight (s_queue s)
  + sum_slots slot_weight (s_slots s).

Lemma weight_assign i s :
  s_slots s !! i = Some Idle ->
  (weight (sp_assign i s) + (if decide (s_queue s = []) then 0 else 1) = weight s)%nat.
Proof.
  intros Hs. unfold sp_assign, weight. destruct (s_queue s) as [|t q] eqn:Eq; simpl.
  - rewrite Eq. simpl. lia.
  - pose proof (sum_slots_insert slot_weight _ _ _ (Assigned t) Hs) as Hw. simpl in Hw.
    rewrite ?decide_False by done. unfold queue_weight. destruct (t_run t); lia.
Qed.

Lemma weight_collect nmax i s t fin :
  sp_inv nmax s -> s_slots s !! i = Some (Returned t fin) ->
  S (weight (sp_collect i s)) = weight s /\ s_slots (sp_collect i s) !! i = Some Idle.
Proof.
  intros Hi Hs. unfold sp_collect, weight. rewrite Hs.
  pose proof (sum_slots_insert slot_weight _ _ _ Idle Hs) as Hw. simpl in Hw.
  pose proof (Forall_lookup_1 _ _ _ _ (si_run _ _ Hi) Hs) as Hrun. simpl in Hrun.
  pose proof (lookup_lt_Some _ _ _ Hs).
  destruct fin; simpl; (split; [|by apply list_lookup_insert_eq]); [lia|].
  rewrite sum_list_with_app. simpl. unfold queue_weight at 2. rewrite Hrun. lia.
Qed.

(** A step of the net worker or of a worker that does something. *)
Inductive sp_prod (nmax : nat) : sys -> sys -> Prop :=
| prod_rx c ts s :
    s_ring s <> [] -> c ∉ t_ctx <$> tasks_of s -> (length (tasks_of s) < nmax)%nat ->
    sp_prod nmax s (sp_rx c ts s)
| prod_assign i s : s_slots s !! i = Some Idle -> s_queue s <> [] -> sp_prod nmax s (sp_dispatch i s)
| prod_collect i t fin s : s_slots s !! i = Some (Returned t fin) -> sp_prod nmax s (sp_dispatch i s)
| prod_slice i t s : s_slots s !! i = Some (Assigned t) -> sp_prod nmax s (sp_slice i s).

Lemma sp_prod_step nmax s s' : sp_prod nmax s s' -> sp_step nmax s s'.
Proof. by destruct 1; constructor. Qed.

Lemma weight_dispatch_le nmax i s :
  sp_inv nmax s -> (weight (sp_dispatch i s) <= weight s)%nat.
Proof.
  intros Hi. unfold sp_dispatch. destruct (s_slots s !! i) as [[| |t|t fin]|] eqn:Hs; try lia.
  - unfold sp_collect. rewrite Hs. pose proof (weight_assign i s Hs). lia.
  - destruct (weight_collect nmax i s t fin) as [Hw Hidle]; [done..|].
    pose proof (weight_assign i (sp_collect i s) Hidle). lia.
Qed.

Lemma weight_slice_le i s : (weight (sp_slice i s) <= weight s)%nat.
Proof.
  unfold sp_slice. destruct (s_slots s !! i) as [[| |t|t fin]|] eqn:Hs; try lia.
  pose proof (sum_slots_insert slot_weight _ _ _ (Returned (started t) (t_run t)) Hs) as Hw.
  unfold weight. simpl in *. destruct (t_run t); simpl in *; lia.
Qed.

Lemma weight_prod nmax s s' : sp_inv nmax s -> sp_prod nmax s s' -> (weight s' < weight s)%nat.
Proof.
  intros Hi Hp. revert Hi. destruct Hp as [c ts t Hr _ _|i t Hs Hq|i t fin u Hs|i t u Hs]; intros Hi.
  - unfold sp_rx, weight. destruct (s_ring t) as [|m r]; [done|]. simpl.
    rewrite sum_list_with_app. simpl. change (queue_weight (mk_treq c m ts false)) with 6%nat. lia.
  - unfold sp_dispatch, sp_collect. rewrite Hs. pose proof (weight_assign i t Hs) as Hw.
    rewrite decide_False in Hw by done. lia.
  - unfold sp_dispatch. rewrite Hs. destruct (weight_collect nmax i u t fin) as [Hw Hidle]; [done..|].
    pose proof (weight_assign i (sp_collect i u) Hidle). lia.
  - unfold sp_slice. rewrite Hs.
    pose proof (sum_slots_insert slot_weight _ _ _ (Returned (started t) (t_run t)) Hs) as Hw.
    unfold weight. simpl in *. destruct (t_run t); simpl in *; lia.
Qed.

Definition all_dead (s : sys) : Prop := Forall (fun x => x = Dead) (s_slots s).

Lemma slots_cases (l : list slot) :
  (exists i t, l !! i = Some (Assigned t)) \/ (exists i t fin, l !! i = Some (Returned t fin))
  \/ (slot_tasks l = [] /\ (Forall (fun x => x = Dead) l \/ exists i, l !! i = Some Idle)).
Proof.
  induction l as [|x l [(i & t & Hi)|[(i & t & fin & Hi)|(Hn & Hd)]]].
  - right; right. split; [done|]. by left.
  - left. by exists (S i), t.
  - right; left. by exists (S i), t, fin.
  - destruct x as [| |t|t fin].
    + right; right. split; [done|]. destruct Hd as [Hd|[i Hi]]; [left; by constructor|right; by exists (S i)].
    + right; right. split; [done|]. right. by exists 0%nat.
    + left. by exists 0%nat, t.
    + right; left. by exists 0%nat, t, fin.
Qed.

(** While a request is unanswered and a worker is alive, some step does
    something. *)
Lemma sp_progress nmax s :
  sp_inv nmax s -> (0 < nmax)%nat -> ~ all_dead s ->
  s_ring s ++ (t_mbuf <$> tasks_of s) <> [] -> exists s', sp_prod nmax s s'.
Proof.
  intros Hi Hn Hd Hne. destruct (slots_cases (s_slots s)) as [(i & t & Hs)|[(i & t & fin & Hs)|(He & [H|[i Hs]])]].
  - eexists. by eapply prod_slice.
  - eexists. by eapply prod_collect.
  - done.
  - destruct (s_queue s) as [|t q] eqn:Eq.
    + assert (Ht : tasks_of s = []) by (unfold tasks_of; by rewrite Eq, He).
      rewrite Ht, app_nil_r in Hne. exists (sp_rx 0 0 s).
      apply prod_rx; [done|rewrite Ht; set_solver|rewrite Ht; simpl; lia].
    + eexists. eapply prod_assign; [done|]. by rewrite Eq.
Qed.

(** ** Passes over all workers *)

Lemma sp_collect_idle s i t fin :
  s_slots s !! i = Some (Returned t fin) -> s_slots (sp_collect i s) !! i = Some Idle.
Proof.
  intros Hs. unfold sp_collect. rewrite Hs.
  destruct fin; simpl; apply list_lookup_insert_eq; by eapply lookup_lt_Some.
Qed.

Lemma dispatch_frame i s :
  s_ring (sp_dispatch i s) = s_ring s /\ s_ended (sp_dispatch i s) = s_ended s
  /\ s_sent (sp_dispatch i s) = s_sent s /\ length (s_slots (sp_dispatch i s)) = length (s_slots s)
  /\ (forall t, t ∈ tasks_of (sp_dispatch i s) -> t ∈ tasks_of s).
Proof.
  assert (Ha : forall s, s_slots s !! i = Some Idle ->
    s_ring (sp_assign i s) = s_ring s /\ s_ended (sp_assign i s) = s_ended s
    /\ s_sent (sp_assign i s) = s_sent s /\ length (s_slots (sp_assign i s)) = length (s_slots s)
    /\ (forall t, t ∈ tasks_of (sp_assign i s) -> t ∈ tasks_of s)).
  { clear s. intros s Hs. destruct (slot_tasks_split _ _ _ Hs) as (rest & Hold & Hnew).
    unfold sp_assign, tasks_of in *. destruct (s_queue s) as [|t q] eqn:Eq; simpl.
    - rewrite Eq. done.
    - rewrite length_insert. split_and!; try done. intros u. rewrite Hnew, Hold. set_solver. }
  unfold sp_dispatch. destruct (s_slots s !! i) as [x|] eqn:Hs; [|done].
  destruct (slot_tasks_split _ _ _ Hs) as (rest & Hold & Hnew).
  assert (Hc : s_ring (sp_collect i s) = s_ring s /\ s_ended (sp_collect i s) = s_ended s
    /\ s_sent (sp_collect i s) = s_sent s /\ length (s_slots (sp_collect i s)) = length (s_slots s)
    /\ (forall t, t ∈ tasks_of (sp_collect i s) -> t ∈ tasks_of s)).
  { unfold sp_collect, tasks_of. rewrite Hs. destruct x as [| |t|t [|]]; simpl; try done;
      rewrite length_insert; (split_and!; try done); intros u; rewrite Hnew, Hold; set_solver. }
  destruct x as [| |t|t fin]; try done.
  - unfold sp_collect. rewrite Hs. by apply Ha.
  - destruct (Ha (sp_collect i s)) as (A1 & A2 & A3 & A4 & A5); [by eapply sp_collect_idle|].
    destruct Hc as (C1 & C2 & C3 & C4 & C5). rewrite A1, A2, A3, A4, C1, C2, C3, C4. naive_solver.
Qed.

Fixpoint sp_dispatch_all (n i : nat) (s : sys) : sys :=
  match n with
  | O => s
  | S n' => sp_dispatch_all n' (S i) (sp_dispatch i s)
  end.

Lemma dispatch_all_frame n i s :
  s_ring (sp_dispatch_all n i s) = s_ring s
  /\ s_ended (sp_dispatch_all n i s) = s_ended s
  /\ s_sent (sp_dispatch_all n i s) = s_sent s
  /\ length (s_slots (sp_dispatch_all n i s)) = length (s_slots s).
Proof.
  revert i s. induction n as [|n IH]; intros i s; simpl; [done|].
  destruct (IH (S i) (sp_dispatch i s)) as (-> & -> & -> & ->).
  by destruct (dispatch_frame i s) as (-> & -> & -> & -> & _).
Qed.

(** Every worker with a task runs one slice. *)
Fixpoint sp_slice_all (n i : nat) (s : sys) : sys :=
  match n with
  | O => s
  | S n' => sp_slice_all n' (S i) (sp_slice i s)
  end.

(** [k] packets are taken from the ring. *)
Inductive rx_steps (ts : Z) : nat -> sys -> sys -> Prop :=
| rx_steps_0 s : rx_steps ts 0 s s
| rx_steps_S k c s s' :
    s_ring s <> [] -> c ∉ t_ctx <$> tasks_of s -> rx_steps ts k (sp_rx c ts s) s' ->
    rx_steps ts (S k) s s'.

Lemma sp_rx_frame c ts s m l :
  s_ring s = m :: l ->
  s_ring (sp_rx c ts s) = l /\ length (tasks_of (sp_rx c ts s)) = S (length (tasks_of s)).
Proof.
  intros Hr. unfold sp_rx, tasks_of. rewrite Hr. simpl. split; [done|].
  rewrite !length_app. simpl. lia.
Qed.

Lemma sp_inv_dispatch_all nmax n i s : sp_inv nmax s -> sp_inv nmax (sp_dispatch_all n i s).
Proof.
  revert i s. induction n as [|n IH]; intros i s Hi; simpl; [done|]. by apply IH, sp_inv_dispatch.
Qed.

Lemma weight_dispatch_all_le nmax n i s :
  sp_inv nmax s -> (weight (sp_dispatch_all n i s) <= weight s)%nat.
Proof.
  revert i s. induction n as [|n IH]; intros i s Hi; simpl; [done|].
  etrans; [by apply IH, sp_inv_dispatch|]. by eapply weight_dispatch_le.
Qed.

(** A dispatch that keeps the weight had nothing to do. *)
Lemma dispatch_idle nmax i s :
  sp_inv nmax s -> weight (sp_dispatch i s) = weight s ->
  sp_dispatch i s = s /\ (forall t fin, s_slots s !! i <> Some (Returned t fin))
  /\ (s_slots s !! i = Some Idle -> s_queue s = []).
Proof.
  intros Hi Hw. unfold sp_dispatch in *. destruct (s_slots s !! i) as [[| |t|t fin]|] eqn:Hs; try done.
  - unfold sp_collect in *. rewrite Hs in *. pose proof (weight_assign i s Hs) as Hwa.
    case_decide as Hq; [|lia]. unfold sp_assign. rewrite Hq. done.
  - destruct (weight_collect nmax i s t fin) as [Hwc Hidle]; [done..|].
    pose proof (weight_assign i (sp_collect i s) Hidle). lia.
Qed.

Lemma dispatch_all_idle nmax n i s :
  sp_inv nmax s -> weight (sp_dispatch_all n i s) = weight s ->
  sp_dispatch_all n i s = s /\ forall j, (i <= j < i + n)%nat ->
    (forall t fin, s_slots s !! j <> Some (Returned t fin))
    /\ (s_slots s !! j = Some Idle -> s_queue s = []).
Proof.
  revert i s. induction n as [|n IH]; intros i s Hi Hw; simpl in *; [split; [done|lia]|].
  pose proof (weight_dispatch_le nmax i s Hi) as H1.
  pose proof (weight_dispatch_all_le nmax n (S i) _ (sp_inv_dispatch nmax i s Hi)) as H2.
  destruct (dispatch_idle nmax i s Hi) as (E & Hr & Hq); [lia|]. rewrite E in *.
  destruct (IH (S i) s Hi) as [E2 Hall]; [lia|]. split; [done|]. intros j Hj.
  destruct (decide (j = i)) as [->|Hne]; [done|]. apply Hall. lia.
Qed.

Lemma weight_rx_steps ts k s s' : rx_steps ts k s s' -> (weight s' + k = weight s)%nat.
Proof.
  induction 1 as [s|k c s s' Hr Hc _ IH]; [lia|].
  assert (S (weight (sp_rx c ts s)) = weight s); [|lia].
  unfold sp_rx, weight. destruct (s_ring s) as [|m l]; [done|]. simpl.
  rewrite sum_list_with_app. simpl. change (queue_weight (mk_treq c m ts false)) with 6%nat. lia.
Qed.

Lemma slice_frame i s :
  s_ring (sp_slice i s) = s_ring s /\ s_queue (sp_slice i s) = s_queue s
  /\ s_sent (sp_slice i s) = s_sent s /\ s_freed (sp_slice i s) = s_freed s
  /\ length (s_slots (sp_slice i s)) = length (s_slots s)
  /\ (forall j, j <> i -> s_slots (sp_slice i s) !! j = s_slots s !! j).
Proof.
  unfold sp_slice. destruct (s_slots s !! i) as [[| |t|t fin]|]; try done. simpl.
  rewrite length_insert. split_and!; try done. intros j Hj. by rewrite list_lookup_insert_ne.
Qed.

Lemma slice_all_frame n i s :
  s_ring (sp_slice_all n i s) = s_ring s /\ s_queue (sp_slice_all n i s) = s_queue s
  /\ s_sent (sp_slice_all n i s) = s_sent s /\ s_freed (sp_slice_all n i s) = s_freed s
  /\ length (s_slots (sp_slice_all n i s)) = length (s_slots s)
  /\ (forall j, (j < i \/ i + n <= j)%nat -> s_slots (sp_slice_all n i s) !! j = s_slots s !! j).
Proof.
  revert i s. induction n as [|n IH]; intros i s; simpl; [done|].
  destruct (IH (S i) (sp_slice i s)) as (-> & -> & -> & -> & -> & Hj).
  destruct (slice_frame i s) as (-> & -> & -> & -> & -> & Hj2). split_and!; try done.
  intros j Hcase. rewrite Hj by lia. apply Hj2. lia.
Qed.

Lemma weight_slice_all_le n i s : (weight (sp_slice_all n i s) <= weight s)%nat.
Proof.
  revert i s. induction n as [|n IH]; intros i s; simpl; [done|].
  etrans; [apply IH|apply weight_slice_le].
Qed.

Lemma slice_all_strict n i s j t :
  s_slots s !! j = Some (Assigned t) -> (i <= j < i + n)%nat ->
  (weight (sp_slice_all n i s) < weight s)%nat.
Proof.
  revert i s. induction n as [|n IH]; intros i s Hs Hj; simpl; [lia|].
  pose proof (weight_slice_le i s) as H1. destruct (decide (j = i)) as [->|Hne].
  - pose proof (weight_slice_all_le n (S i) (sp_slice i s)).
    enough (weight (sp_slice i s) < weight s)%nat by lia. unfold sp_slice. rewrite Hs.
    pose proof (sum_slots_insert slot_weight _ _ _ (Returned (started t) (t_run t)) Hs) as Hw.
    unfold weight. simpl in *. destruct (t_run t); simpl in *; lia.
  - specialize (IH (S i) (sp_slice i s)). destruct (slice_frame i s) as (_ & _ & _ & _ & _ & Hf).
    rewrite Hf in IH by done. specialize (IH Hs). lia.
Qed.

(** The first worker is alive and only the workers [1 .. n] have tasks. *)
Record workers_ok (n : nat) (s : sys) : Prop := {
  wo_alive : exists x, s_slots s !! 1%nat = Some x /\ x <> Dead;
  wo_range : forall j x, s_slots s !! j = Some x -> ~ (1 <= j <= n)%nat -> slot_task x = []
}.

Lemma workers_ok_update n s s' i :
  workers_ok n s -> (1 <= i <= n)%nat ->
  (forall j, j <> i -> s_slots s' !! j = s_slots s !! j) ->
  (forall x, s_slots s !! i = Some x -> x <> Dead -> exists y, s_slots s' !! i = Some y /\ y <> Dead) ->
  workers_ok n s'.
Proof.
  intros [(x & Hx & Hd) Hr] Hi Hj Hs. split.
  - destruct (decide (i = 1%nat)) as [->|Hne]; [by apply (Hs x)|]. exists x. by rewrite Hj.
  - intros j y Hy Hn. apply (Hr j y); [|done]. rewrite <- Hj; [done|]. intros ->. lia.
Qed.

Lemma dispatch_slots i s :
  (forall j, j <> i -> s_slots (sp_dispatch i s) !! j = s_slots s !! j)
  /\ (forall x, s_slots s !! i = Some x -> x <> Dead ->
      exists y, s_slots (sp_dispatch i s) !! i = Some y /\ y <> Dead).
Proof.
  assert (Ha : forall s, s_slots s !! i = Some Idle ->
    (forall j, j <> i -> s_slots (sp_assign i s) !! j = s_slots s !! j)
    /\ exists y, s_slots (sp_assign i s) !! i = Some y /\ y <> Dead).
  { clear s. intros s Hs. unfold sp_assign. destruct (s_queue s) as [|t q]; [split; [done|]; by exists Idle|].
    simpl. split; [intros j Hj; by rewrite list_lookup_insert_ne|].
    exists (Assigned t). rewrite list_lookup_insert_eq by by eapply lookup_lt_Some. done. }
  unfold sp_dispatch. destruct (s_slots s !! i) as [x|] eqn:Hs; [|done].
  destruct x as [| |t|t fin].
  - split; [done|]. by intros x [= <-].
  - unfold sp_collect. rewrite Hs. destruct (Ha s Hs) as [H1 H2]. split; [done|]. by intros.
  - split; [done|]. intros x [= <-] _. by exists (Assigned t).
  - destruct (Ha (sp_collect i s)) as [H1 H2]; [by eapply sp_collect_idle|]. split; [|by intros].
    intros j Hj. rewrite H1 by done. unfold sp_collect. rewrite Hs.
    destruct fin; simpl; by rewrite list_lookup_insert_ne.
Qed.

Lemma workers_ok_dispatch n i s :
  workers_ok n s -> (1 <= i <= n)%nat -> workers_ok n (sp_dispatch i s).
Proof.
  intros Hw Hi. destruct (dispatch_slots i s) as [H1 H2]. by apply (workers_ok_update n s _ i).
Qed.

Lemma workers_ok_slice n i s :
  workers_ok n s -> (1 <= i <= n)%nat -> workers_ok n (sp_slice i s).
Proof.
  intros Hw Hi. apply (workers_ok_update n s _ i); [done|done|apply slice_frame|].
  intros x Hx Hd. unfold sp_slice. rewrite Hx. destruct x as [| |t|t fin]; eauto. simpl.
  rewrite list_lookup_insert_eq by by eapply lookup_lt_Some. by eauto.
Qed.

Lemma workers_ok_dispatch_all n k i s :
  workers_ok n s -> (1 <= i)%nat -> (i + k <= S n)%nat -> workers_ok n (sp_dispatch_all k i s).
Proof.
  revert i s. induction k as [|k IH]; intros i s Hw Hi Hk; simpl; [done|].
  apply IH; [apply workers_ok_dispatch; [done|lia]|lia|lia].
Qed.

Lemma workers_ok_slice_all n k i s :
  workers_ok n s -> (1 <= i)%nat -> (i + k <= S n)%nat -> workers_ok n (sp_slice_all k i s).
Proof.
  revert i s. induction k as [|k IH]; intros i s Hw Hi Hk; simpl; [done|].
  apply IH; [apply workers_ok_slice; [done|lia]|lia|lia].
Qed.

Lemma rx_steps_slots ts k s s' : rx_steps ts k s s' ->
  s_slots s' = s_slots s /\ s_sent s' = s_sent s /\ s_freed s' = s_freed s /\ s_ended s' = s_ended s.
Proof.
  induction 1 as [s|k c s s' Hr Hc _ IH]; [done|]. destruct IH as (-> & -> & -> & ->).
  unfold sp_rx. by destruct (s_ring s).
Qed.

(** One round of the program: a dispatch pass over the workers [1 .. n], [k]
    packets received, then a slice of every worker that has a task. *)
Definition sp_round (n k : nat) (ts : Z) (s s' : sys) : Prop :=
  exists s2, rx_steps ts k (sp_dispatch_all n 1 s) s2 /\ s' = sp_slice_all n 1 s2.

Lemma slot_weight_0 (l : list slot) :
  (forall j x, l !! j = Some x -> slot_task x = []) -> sum_slots slot_weight l = 0%nat.
Proof.
  induction l as [|x l IH]; intros Hl; [done|]. unfold sum_slots in *. simpl.
  rewrite IH by (intros j y Hj; by apply (Hl (S j))).
  specialize (Hl 0%nat x eq_refl). by destruct x.
Qed.

(** Each round brings the requests closer to their end. *)
Lemma round_decreases nmax n k ts s s' :
  sp_inv nmax s -> workers_ok n s -> (1 <= n)%nat -> sp_round n k ts s s' ->
  (s_ring s <> [] -> (0 < k)%nat) -> (weight s' < weight s)%nat \/ weight s = 0%nat.
Proof.
  intros Hi Hw Hn (s2 & Hrx & ->) Hk.
  pose proof (weight_dispatch_all_le nmax n 1 s Hi) as H1.
  pose proof (weight_rx_steps _ _ _ _ Hrx) as H2.
  pose proof (weight_slice_all_le n 1 s2) as H3.
  destruct (decide (weight (sp_slice_all n 1 s2) < weight s)%nat) as [|Hge]; [by left|right].
  destruct (dispatch_all_idle nmax n 1 s Hi) as [E Hidle]; [lia|]. rewrite E in *.
  assert (k = 0%nat) as -> by lia. inversion Hrx; subst s2.
  assert (Hring : s_ring s = []) by (destruct (s_ring s); [done|]; specialize (Hk ltac:(done)); lia).
  assert (Hna : forall j t, s_slots s !! j <> Some (Assigned t)).
  { intros j t Hj. destruct (decide (1 <= j <= n)%nat) as [Hr|Hr].
    - pose proof (slice_all_strict n 1 s j t Hj ltac:(lia)). lia.
    - by pose proof (wo_range _ _ Hw _ _ Hj Hr). }
  assert (Hall : forall j x, s_slots s !! j = Some x -> slot_task x = []).
  { intros j x Hj. destruct (decide (1 <= j <= n)%nat) as [Hr|Hr]; [|by apply (wo_range _ _ Hw j)].
    destruct x as [| |t|t fin]; [done|done|by apply Hna in Hj|].
    by apply (proj1 (Hidle j ltac:(lia))) in Hj. }
  destruct (wo_alive _ _ Hw) as (x & Hx & Hd).
  assert (Hq : s_queue s = []).
  { apply (Hidle 1%nat); [lia|]. rewrite Hx. specialize (Hall _ _ Hx). by destruct x. }
  unfold weight. by rewrite Hring, Hq, slot_weight_0.
Qed.

Lemma weight_0_done nmax s : sp_inv nmax s -> weight s = 0%nat -> s_sent s ≡ₚ s_freed s /\ s_ring s = [].
Proof.
  intros Hi Hw. unfold weight in Hw.
  assert (Hr : s_ring s = []) by (destruct (s_ring s); [done|simpl in Hw; lia]).
  assert (Hq : s_queue s = []).
  { destruct (s_queue s) as [|t q]; [done|]. simpl in Hw. unfold queue_weight in Hw.
    destruct (t_run t); lia. }
  assert (Hs : slot_tasks (s_slots s) = []).
  { assert (Hz : sum_slots slot_weight (s_slots s) = 0%nat) by lia. clear -Hz.
    induction (s_slots s) as [|x l IH]; [done|]. unfold sum_slots, slot_tasks in *. csimpl in *.
    rewrite IH by lia. destruct x as [| |t|t fin]; csimpl in *; try done;
      [destruct (t_run t)|destruct fin]; lia. }
  split; [|done]. rewrite (si_conserve _ _ Hi). unfold tasks_of. by rewrite Hr, Hq, Hs.
Qed.

Lemma ended_in_le (l : list slot) : (sum_slots ended_in l <= length (slot_tasks l))%nat.
Proof.
  induction l as [|x l IH]; [done|]. unfold sum_slots, slot_tasks in *. csimpl.
  rewrite length_app. destruct x as [| |t|t [|]]; simpl; lia.
Qed.

Lemma ended_le_sent nmax s : sp_inv nmax s -> (s_ended s <= length (s_sent s))%nat.
Proof.
  intros Hi. rewrite (si_ended _ _ Hi), (si_conserve _ _ Hi), !length_app, length_fmap.
  unfold tasks_of. rewrite length_app. pose proof (ended_in_le (s_slots s)). lia.
Qed.

(** When all have ended, what is not answered is at the workers. *)
Lemma all_ended nmax s :
  sp_inv nmax s -> s_ended s = length (s_sent s) -> s_ring s = [] /\ s_queue s = [].
Proof.
  intros Hi He. rewrite (si_ended _ _ Hi), (si_conserve _ _ Hi), !length_app, length_fmap in He.
  unfold tasks_of in He. rewrite length_app in He. pose proof (ended_in_le (s_slots s)).
  split; apply nil_length_inv; lia.
Qed.

Lemma tasks_le_sent nmax s :
  sp_inv nmax s -> (length (tasks_of s) + length (s_ring s) <= length (s_sent s))%nat.
Proof. intros Hi. rewrite (si_conserve _ _ Hi), !length_app, length_fmap. lia. Qed.

(** The steps of a round keep the invariant. *)
Lemma sp_inv_rx_steps nmax ts k s s' :
  rx_steps ts k s s' -> sp_inv nmax s -> (length (tasks_of s) + k <= nmax)%nat -> sp_inv nmax s'.
Proof.
  induction 1 as [s|k c s s' Hr Hc _ IH]; intros Hi Hk; [done|].
  destruct (s_ring s) as [|m l] eqn:Er; [done|].
  destruct (sp_rx_frame c ts s m l Er) as [_ E]. apply IH; [|lia].
  apply sp_inv_rx; [done|done|lia].
Qed.

Lemma workers_ok_slots n s s' : s_slots s' = s_slots s -> workers_ok n s -> workers_ok n s'.
Proof. intros E [Ha Hr]. split; by rewrite E. Qed.

Lemma sp_round_frame nmax n k ts s s' :
  sp_inv nmax s -> workers_ok n s -> sp_round n k ts s s' ->
  s_sent s' = s_sent s /\ workers_ok n s' /\ (weight s' <= weight s)%nat.
Proof.
  intros Hi Hw (s2 & Hrx & ->).
  destruct (rx_steps_slots _ _ _ _ Hrx) as (Esl & Ese & _).
  destruct (slice_all_frame n 1 s2) as (_ & _ & -> & _).
  destruct (dispatch_all_frame n 1 s) as (_ & _ & Es & _).
  pose proof (weight_dispatch_all_le nmax n 1 s Hi).
  pose proof (weight_rx_steps _ _ _ _ Hrx). pose proof (weight_slice_all_le n 1 s2).
  split_and!; [congruence| |lia].
  apply workers_ok_slice_all; [|lia|lia]. eapply workers_ok_slots; [done|].
  apply workers_ok_dispatch_all; [done|lia|lia].
Qed.

(** What a round answers had ended before it. *)
Lemma sp_round_freed nmax n k ts s s' :
  sp_inv nmax s -> sp_round n k ts s s' -> (length (s_freed s') <= s_ended s)%nat.
Proof.
  intros Hi (s2 & Hrx & ->). destruct (slice_all_frame n 1 s2) as (_ & _ & _ & -> & _).
  destruct (rx_steps_slots _ _ _ _ Hrx) as (_ & _ & -> & _).
  destruct (dispatch_all_frame n 1 s) as (_ & <- & _).
  pose proof (si_ended _ _ (sp_inv_dispatch_all nmax n 1 s Hi)). lia.
Qed.

Lemma weight_0_ended nmax s :
  sp_inv nmax s -> weight s = 0%nat -> s_ended s = length (s_sent s).
Proof.
  intros Hi Hw. destruct (weight_0_done _ _ Hi Hw) as [Hp _].
  rewrite (si_ended _ _ Hi), Hp. enough (sum_slots ended_in (s_slots s) = 0)%nat by lia.
  assert (Hz : sum_slots slot_weight (s_slots s) = 0%nat) by (unfold weight in Hw; lia). clear -Hz.
  induction (s_slots s) as [|x l IH]; [done|]. unfold sum_slots in *. simpl in *.
  rewrite IH by lia. destruct x as [| |t|t [|]]; simpl in *; lia.
Qed.

(** A mailbox that was never initialised stays so. *)
Lemma dead_step nmax s s' j :
  sp_step nmax s s' -> s_slots s !! j = Some Dead -> s_slots s' !! j = Some Dead.
Proof.
  intros Hs Hj. destruct Hs as [m t|c ts t _ _|i t|i t]; try done.
  - unfold sp_rx. by destruct (s_ring t).
  - destruct (decide (j = i)) as [->|Hne].
    + unfold sp_dispatch. by rewrite Hj.
    + destruct (dispatch_slots i t) as [Hd _]. by rewrite Hd.
  - destruct (decide (j = i)) as [->|Hne].
    + unfold sp_slice. by rewrite Hj.
    + destruct (slice_frame i t) as (_ & _ & _ & _ & _ & Hd). by rewrite Hd.
Qed.

Lemma weight_le_sent nmax s : sp_inv nmax s -> (weight s <= 7 * length (s_sent s))%nat.
Proof.
  intros Hi. rewrite (si_conserve _ _ Hi), !length_app, length_fmap. unfold weight, tasks_of.
  rewrite length_app.
  assert (sum_list_with queue_weight (s_queue s) <= 6 * length (s_queue s))%nat.
  { induction (s_queue s) as [|t q IH]; simpl; [lia|]. unfold queue_weight at 1.
    destruct (t_run t); lia. }
  assert (sum_slots slot_weight (s_slots s) <= 5 * length (slot_tasks (s_slots s)))%nat.
  { induction (s_slots s) as [|x l IH]; simpl; [done|]. unfold sum_slots, slot_tasks in *. csimpl.
    rewrite length_app. destruct x as [| |t|t fin]; simpl; [lia|lia|destruct (t_run t)|destruct fin]; lia. }
  lia.
Qed.

Lemma weight_0_tasks nmax s : sp_inv nmax s -> weight s = 0%nat -> tasks_of s = [].
Proof.
  intros Hi Hw. destruct (weight_0_done _ _ Hi Hw) as [Hp Hr].
  pose proof (si_conserve _ _ Hi) as Hc. rewrite Hr, Hp in Hc. apply Permutation_length in Hc.
  rewrite !length_app, length_fmap in Hc. simpl in Hc. apply nil_length_inv. lia.
Qed.
