(* ===== verification/System.v ===== *)
(** * System: the program implements the abstract system

    The dispatcher, the worker threads and the net worker together, generic in
    the task queue and in the contexts.  A relation ties the mailboxes, the
    queue, the contexts, the suspended handlers and the receive ring to a state
    of [SystemSpec]; every step of every thread is shown to be defined and to
    match a step there. *)
From S2P Require Import Prelude Fail Interfaces Ring Dispatcher Worker NetWorker SystemSpec.

(** What the mailboxes and the queue hold for a task. *)
Definition info_of (t : treq) : task_info :=
  mk_info (t_ctx t) (t_mbuf t) 1 (if t_run t then CONTEXT else PACKET) (t_ts t).

Definition slot_rel (wr : worker_response) (rq : dispatcher_request) (x : slot) : Prop :=
  match x with
  | Dead => wr_flag wr = RUNNING /\ dr_flag rq = WAITING
  | Idle => wr_flag wr = PROCESSED /\ dr_flag rq = WAITING
  | Assigned t =>
    wr_flag wr = RUNNING
    /\ rq = mk_req ACTIVE (t_ctx t) (t_mbuf t) 1 (if t_run t then CONTEXT else PACKET) (t_ts t)
  | Returned t fin =>
    wr = mk_resp (if fin then FINISHED else PREEMPTED) (t_ctx t) (t_mbuf t) (t_ts t) 1 CONTEXT
    /\ dr_flag rq = WAITING
  end.

Definition slots_rel (rs : list worker_response) (rq : list dispatcher_request) (l : list slot) : Prop :=
  forall i x, l !! i = Some x ->
    exists wr r, rs !! i = Some wr /\ rq !! i = Some r /\ slot_rel wr r x.

Lemma slots_rel_insert rs rq l i wr r x :
  (i < length rs)%nat -> (i < length rq)%nat -> slots_rel rs rq l -> slot_rel wr r x ->
  slots_rel (<[i := wr]> rs) (<[i := r]> rq) (<[i := x]> l).
Proof.
  intros Hr Hq Hl Hx j y Hj. destruct (decide (i = j)) as [<-|Hne].
  - exists wr, r. rewrite !list_lookup_insert_eq by done. split_and!; [done..|].
    rewrite list_lookup_insert_eq in Hj by (apply lookup_lt_Some in Hj; by rewrite length_insert in Hj).
    by injection Hj as <-.
  - rewrite list_lookup_insert_ne in Hj by done. rewrite !list_lookup_insert_ne by done. by apply Hl.
Qed.

Lemma slots_rel_insert_resp rs rq l i wr r x :
  (i < length rs)%nat -> rq !! i = Some r -> slots_rel rs rq l -> slot_rel wr r x ->
  slots_rel (<[i := wr]> rs) rq (<[i := x]> l).
Proof.
  intros Hr Hq Hl Hx. rewrite <- (list_insert_id rq i r) by done.
  apply slots_rel_insert; try done. by eapply lookup_lt_Some.
Qed.

Section system.
Context {Q C : Type} {QO : TaskQueueOps Q} {QL : TaskQueueLaws Q} {CO : ContextOps C} {CL : ContextLaws C}.

(** The dispatcher's globals hold the state [s]. *)
Record drel (d : dstate Q C) (s : sys) : Prop := {
  dr_resp : length (responses d) = MAX_WORKERS;
  dr_req : length (requests d) = MAX_WORKERS;
  dr_ts : length (timestamps d) = MAX_WORKERS;
  dr_pc : length (preempt_check d) = MAX_WORKERS;
  dr_len : length (s_slots s) = MAX_WORKERS;
  dr_slots : slots_rel (responses d) (requests d) (s_slots s);
  dr_queue : tq_model (tskq d) (info_of <$> s_queue s);
  dr_ctx : ctx_model (ctxm d) (list_to_set (t_ctx <$> tasks_of s));
  dr_caps : (ctx_cap (ctxm d) <= tq_cap (tskq d))%nat;
  dr_freed : freed d = s_freed s;
  dr_inv : sp_inv (ctx_cap (ctxm d)) s
}.

Lemma drel_at d s (i : Z) x :
  drel d s -> s_slots s !! Z.to_nat i = Some x ->
  exists wr rq, responses d !! Z.to_nat i = Some wr /\ requests d !! Z.to_nat i = Some rq
    /\ slot_rel wr rq x /\ (Z.to_nat i < MAX_WORKERS)%nat.
Proof.
  intros Hd Hx. destruct (dr_slots _ _ Hd _ _ Hx) as (wr & rq & H1 & H2 & H3).
  exists wr, rq. split_and!; try done. rewrite <- (dr_resp _ _ Hd). by eapply lookup_lt_Some.
Qed.

Lemma dispatch_request_sim d s (i cur : Z) :
  0 <= i -> drel d s -> s_slots s !! Z.to_nat i = Some Idle ->
  exists d', dispatch_request i cur d = Ok d' /\ drel d' (sp_assign (Z.to_nat i) s)
    /\ ctx_cap (ctxm d') = ctx_cap (ctxm d).
Proof.
  intros Hi Hd Hs. destruct (drel_at _ _ _ _ Hd Hs) as (wr & rq & Hwr & Hrq & Hrel & Hlt).
  pose proof (sp_inv_assign _ _ _ (dr_inv _ _ Hd) Hs) as Hinv.
  destruct (slot_tasks_split _ _ _ Hs) as (rest & Hold & Hnew). simpl in Hold.
  unfold dispatch_request, sp_assign in *. pose proof (dr_queue _ _ Hd) as Hq.
  destruct (s_queue s) as [|t q] eqn:Eq; simpl in Hq.
  - rewrite tq_dequeue_nil by done. simpl. eexists. split; [done|]. split; [|done].
    destruct Hd; split; try done.
  - destruct (tq_dequeue_cons _ _ _ Hq) as (q' & -> & Hcap & Hq'). simpl.
    rewrite (arr_upd_Ok _ _ _ wr) by done. simpl. rewrite (arr_upd_Ok _ _ _ rq) by done. simpl.
    rewrite (arr_set_Ok (timestamps d)) by (rewrite (dr_ts _ _ Hd); lia). simpl.
    rewrite (arr_set_Ok (preempt_check d)) by (rewrite (dr_pc _ _ Hd); lia). simpl.
    rewrite (arr_upd_Ok _ _ _ (dr_fill (info_of t) rq))
      by (done || (apply list_lookup_insert_eq; rewrite (dr_req _ _ Hd); lia)). simpl.
    rewrite list_insert_insert_eq. eexists. split; [done|]. split; [|done].
    destruct Hd as [Hd1 Hd2 Hd3 Hd4 Hd5 Hd6 Hd7 Hd8 Hd9 Hd10 Hd11].
    split; simpl; rewrite ?length_insert; try done.
    + apply slots_rel_insert; [lia|lia|done|]. done.
    + unfold tasks_of in *. simpl. rewrite Eq in Hd8.
      rewrite (list_to_set_perm_L (C := gset Z) (t_ctx <$> q ++ slot_tasks (<[Z.to_nat i := Assigned t]> (s_slots s)))
        (t_ctx <$> (t :: q) ++ slot_tasks (s_slots s))); [done|].
      rewrite Hnew, Hold. csimpl. rewrite !fmap_app. csimpl. by rewrite <- Permutation_middle.
    + lia.
Qed.

Lemma handle_finished_sim d s (i : Z) t :
  0 <= i -> drel d s -> s_slots s !! Z.to_nat i = Some (Returned t true) ->
  exists d', handle_finished i d = Ok d' /\ drel d' (sp_collect (Z.to_nat i) s)
    /\ ctx_cap (ctxm d') = ctx_cap (ctxm d).
Proof.
  intros Hi Hd Hs. destruct (drel_at _ _ _ _ Hd Hs) as (wr & rq & Hwr & Hrq & [-> Hw] & Hlt).
  pose proof (sp_inv_collect _ (Z.to_nat i) _ (dr_inv _ _ Hd)) as Hinv.
  destruct (slot_tasks_split _ _ _ Hs) as (rest & Hold & Hnew). simpl in Hold.
  assert (Hperm : t_ctx <$> tasks_of s ≡ₚ t_ctx t :: (t_ctx <$> s_queue s ++ rest)).
  { unfold tasks_of. rewrite Hold. csimpl. rewrite !fmap_app. csimpl. by rewrite <- Permutation_middle. }
  unfold handle_finished, sp_collect in *. rewrite Hs in *.
  rewrite (proj2 (arr_get_Ok _ _ _)) by done. simpl.
  destruct (ctx_free_live _ _ (t_ctx t) (dr_ctx _ _ Hd)) as (c & -> & Hcap & Hc).
  { apply elem_of_list_to_set. rewrite Hperm. set_solver. }
  simpl. rewrite arr_set_Ok by (rewrite (dr_pc _ _ Hd); lia). simpl.
  rewrite (arr_upd_Ok _ _ _ _ Hi Hwr). simpl. eexists. split; [done|]. split; [|done].
  pose proof (si_ctx _ _ (dr_inv _ _ Hd)) as Hnd. rewrite Hperm in Hnd.
  apply NoDup_cons in Hnd as [Hnin _].
  destruct Hd as [Hd1 Hd2 Hd3 Hd4 Hd5 Hd6 Hd7 Hd8 Hd9 Hd10 Hd11].
  split; simpl; rewrite ?length_insert; try done.
  - eapply slots_rel_insert_resp; [lia|done|done|]. done.
  - unfold tasks_of at 1. simpl.
    rewrite (list_to_set_perm_L (C := gset Z) _ (t_ctx <$> s_queue s ++ rest)) by (by rewrite Hnew).
    rewrite (list_to_set_perm_L (C := gset Z) _ _ Hperm) in Hc. simpl in Hc.
    rewrite difference_union_distr_l_L, difference_diag_L, union_empty_l_L in Hc.
    by rewrite difference_disjoint_L in Hc by set_solver.
  - lia.
  - by rewrite Hd10.
  - by rewrite Hcap.
Qed.

Lemma handle_preempted_sim d s (i : Z) t :
  0 <= i -> drel d s -> s_slots s !! Z.to_nat i = Some (Returned t false) ->
  exists d', handle_preempted i d = Ok d' /\ drel d' (sp_collect (Z.to_nat i) s)
    /\ ctx_cap (ctxm d') = ctx_cap (ctxm d).
Proof.
  intros Hi Hd Hs. destruct (drel_at _ _ _ _ Hd Hs) as (wr & rq & Hwr & Hrq & [-> Hw] & Hlt).
  pose proof (sp_inv_collect _ (Z.to_nat i) _ (dr_inv _ _ Hd)) as Hinv.
  destruct (slot_tasks_split _ _ _ Hs) as (rest & Hold & Hnew). simpl in Hold.
  pose proof (Forall_lookup_1 _ _ _ _ (si_run _ _ (dr_inv _ _ Hd)) Hs) as Hrun. simpl in Hrun.
  assert (Hlen : (length (info_of <$> s_queue s) < tq_cap (tskq d))%nat).
  { rewrite length_fmap. pose proof (si_cap _ _ (dr_inv _ _ Hd)) as Hcap. unfold tasks_of in Hcap.
    rewrite Hold, length_app in Hcap. simpl in Hcap. pose proof (dr_caps _ _ Hd). lia. }
  unfold handle_preempted, sp_collect in *. rewrite Hs in *.
  rewrite (proj2 (arr_get_Ok _ _ _)) by done. simpl.
  replace (mk_info (t_ctx t) (t_mbuf t) 1 CONTEXT (t_ts t)) with (info_of t)
    by (unfold info_of; by rewrite Hrun).
  destruct (tq_enqueue_room _ _ (info_of t) (dr_queue _ _ Hd) Hlen) as (q & -> & Hcap & Hq).
  simpl. rewrite arr_set_Ok by (rewrite (dr_pc _ _ Hd); lia). simpl.
  rewrite (arr_upd_Ok _ _ _ _ Hi Hwr). simpl. eexists. split; [done|]. split; [|done].
  destruct Hd as [Hd1 Hd2 Hd3 Hd4 Hd5 Hd6 Hd7 Hd8 Hd9 Hd10 Hd11].
  split; simpl; rewrite ?length_insert; try done.
  - eapply slots_rel_insert_resp; [lia|done|done|]. done.
  - by rewrite fmap_app.
  - unfold tasks_of in *. simpl.
    rewrite (list_to_set_perm_L (C := gset Z) _ (t_ctx <$> s_queue s ++ slot_tasks (s_slots s))); [done|].
    rewrite Hnew, Hold. csimpl. by rewrite <- app_assoc.
  - lia.
Qed.

Lemma dispatch_one_sim d s (i cur : Z) :
  0 <= i < Z.of_nat MAX_WORKERS -> drel d s ->
  exists d', dispatch_one i cur d = Ok d' /\ drel d' (sp_dispatch (Z.to_nat i) s)
    /\ ctx_cap (ctxm d') = ctx_cap (ctxm d).
Proof.
  intros Hi Hd. destruct (lookup_lt_is_Some_2 (s_slots s) (Z.to_nat i)) as [x Hs].
  { rewrite (dr_len _ _ Hd). lia. }
  destruct (drel_at _ _ _ _ Hd Hs) as (wr & rq & Hwr & Hrq & Hrel & Hlt).
  unfold dispatch_one, sp_dispatch. rewrite Hs.
  rewrite (proj2 (arr_get_Ok _ _ wr)) by (split; [lia|done]). simpl.
  destruct x as [| |t|t fin]; simpl in Hrel.
  - destruct Hrel as [-> _]. simpl. by exists d.
  - destruct Hrel as [-> _]. simpl. unfold sp_collect. rewrite Hs.
    apply dispatch_request_sim; [lia|done|done].
  - destruct Hrel as [-> _]. simpl. by exists d.
  - destruct Hrel as [-> _]. destruct fin; simpl.
    + destruct (handle_finished_sim d s i t) as (d1 & -> & Hd1 & Hc1); [lia|done|done|]. simpl.
      destruct (dispatch_request_sim d1 (sp_collect (Z.to_nat i) s) i cur)
        as (d2 & -> & Hd2 & Hc2); [lia|done|by eapply sp_collect_idle|].
      exists d2. split_and!; [done|done|congruence].
    + destruct (handle_preempted_sim d s i t) as (d1 & -> & Hd1 & Hc1); [lia|done|done|]. simpl.
      destruct (dispatch_request_sim d1 (sp_collect (Z.to_nat i) s) i cur)
        as (d2 & -> & Hd2 & Hc2); [lia|done|by eapply sp_collect_idle|].
      exists d2. split_and!; [done|done|congruence].
Qed.

(** ** Worker threads *)

(** The data address of a packet buffer. *)
Variable mtod : Z -> Z.

(** The handler of a started request is suspended in its first switch. *)
Definition live_handler (co : gmap Z coro) (t : treq) : Prop :=
  t_run t = true -> co !! t_ctx t = Some (CoYield (mtod (t_mbuf t) + NET_HDR_SIZE) 2 2).

Definition slot_handler (co : gmap Z coro) (x : slot) : Prop :=
  match x with Assigned t | Returned t false => live_handler co t | _ => True end.

Definition has_type (db : gmap Z Z) (m : Z) : Prop := is_Some (db !! (mtod m + NET_HDR_SIZE)).

Record wrel (w : world Q C) (s : sys) : Prop := {
  wl_d : drel (dst w) s;
  wl_thr : length (threads w) = MAX_WORKERS;
  wl_queue : Forall (live_handler (coros w)) (s_queue s);
  wl_slots : Forall (slot_handler (coros w)) (s_slots s);
  wl_db : Forall (has_type (db w)) (s_ring s ++ (t_mbuf <$> tasks_of s));
  wl_total : TEST_TOTAL_PACKETS_COUNTER (bench w) = u64 (Z.of_nat (s_ended s));
  wl_fin : TEST_FINISHED (bench w) = true -> BENCHMARK_STOP_AT_PACKET <= Z.of_nat (s_ended s)
}.

(** The clock of the benchmark is started once, by a first slice. *)
Definition clock_started (now : Z) (b b' : stats) : Prop :=
  IS_FIRST_PACKET b' = true ->
  IS_FIRST_PACKET b = true /\ TEST_START_TIME b' = TEST_START_TIME b \/ TEST_START_TIME b' = now.

(** The world after a slice of the task [t] on the worker [i]. *)
Definition after_slice (i : Z) (t : treq) (w : world Q C) (rq : dispatcher_request)
    (cm : C) (b : stats) : world Q C :=
  let d := dst w in
  let req := mtod (t_mbuf t) + NET_HDR_SIZE in
  mk_world
    (mk_dstate (<[Z.to_nat i := mk_resp (if t_run t then FINISHED else PREEMPTED)
                                  (t_ctx t) (t_mbuf t) (t_ts t) 1 CONTEXT]> (responses d))
       (<[Z.to_nat i := dr_set_flag WAITING rq]> (requests d))
       (timestamps d) (preempt_check d) (tskq d) cm (freed d))
    (if t_run t then <[t_ctx t := CoEnd]> (coros w)
     else <[t_ctx t := CoYield req 2 2]> (coros w))
    (<[Z.to_nat i := mk_thread (t_ctx t) (t_run t)]> (threads w)) (db w) b.

Lemma finish_request_run (w : world Q C) (i : Z) rq th wr :
  0 <= i -> requests (dst w) !! Z.to_nat i = Some rq -> threads w !! Z.to_nat i = Some th ->
  responses (dst w) !! Z.to_nat i = Some wr ->
  finish_request i w = Ok (set_dst (mk_dstate
    (<[Z.to_nat i := mk_resp (if finished th then FINISHED else PREEMPTED) (cont th)
         (dr_mbuf rq) (dr_timestamp rq) (dr_type rq) CONTEXT]> (responses (dst w)))
    (requests (dst w)) (timestamps (dst w)) (preempt_check (dst w)) (tskq (dst w))
    (ctxm (dst w)) (freed (dst w))) w).
Proof.
  intros Hi Hrq Hth Hwr. unfold finish_request.
  rewrite (proj2 (arr_get_Ok _ i rq)) by done. simpl.
  rewrite (proj2 (arr_get_Ok _ i th)) by done. simpl.
  rewrite (arr_upd_Ok _ _ _ wr) by done. simpl.
  erewrite (arr_upd_Ok _ i _); [|done|apply list_lookup_insert_eq; by eapply lookup_lt_Some].
  simpl. by rewrite list_insert_insert_eq.
Qed.

(** The first slice: up to the switch in the third iteration. *)
Lemma handle_fake_new_packet_run (uctx_main : Z -> Z) (w : world Q C) (i now : Z) rq cm :
  0 <= i -> requests (dst w) !! Z.to_nat i = Some rq -> (Z.to_nat i < length (threads w))%nat ->
  ctx_link (ctxm (dst w)) (dr_rnbl rq) (uctx_main i) = Ok cm ->
  let d := dst w in
  handle_fake_new_packet mtod uctx_main i now w = Ok (mk_world
    (mk_dstate (responses d) (requests d) (timestamps d) (preempt_check d) (tskq d) cm (freed d))
    (<[dr_rnbl rq := CoYield (mtod (dr_mbuf rq) + NET_HDR_SIZE) 2 2]> (coros w))
    (<[Z.to_nat i := mk_thread (dr_rnbl rq) false]> (threads w)) (db w) (bench w)).
Proof.
  intros Hi Hrq Hth Hl d. unfold handle_fake_new_packet.
  rewrite (proj2 (arr_get_Ok _ i rq)) by done. simpl.
  unfold set_link. rewrite Hl. simpl. unfold set_thread. simpl.
  rewrite arr_set_Ok by lia. simpl. unfold swap_to. simpl. rewrite lookup_insert_eq.
  unfold run_handler, set_coro. simpl. by rewrite insert_insert_eq.
Qed.

(** The second slice: from that switch to the end of the handler. *)
Lemma handle_context_run (uctx_main : Z -> Z) (w : world Q C) (i now : Z) rq cm req type :
  0 <= i -> requests (dst w) !! Z.to_nat i = Some rq -> (Z.to_nat i < length (threads w))%nat ->
  ctx_link (ctxm (dst w)) (dr_rnbl rq) (uctx_main i) = Ok cm ->
  coros w !! dr_rnbl rq = Some (CoYield req 2 2) -> db w !! req = Some type ->
  let d := dst w in
  handle_context uctx_main i now w = Ok (mk_world
    (mk_dstate (responses d) (requests d) (timestamps d) (preempt_check d) (tskq d) cm (freed d))
    (<[dr_rnbl rq := CoEnd]> (coros w))
    (<[Z.to_nat i := mk_thread (dr_rnbl rq) true]> (threads w)) (db w)
    (work_end now type (bench w))).
Proof.
  intros Hi Hrq Hth Hl Hco Hty d. unfold handle_context.
  rewrite (proj2 (arr_get_Ok _ i rq)) by done. simpl. unfold set_thread at 1. simpl.
  rewrite arr_set_Ok by lia. simpl. unfold set_link. simpl. rewrite Hl. simpl.
  unfold swap_to. simpl. rewrite Hco. unfold run_handler. simpl. rewrite Hty.
  rewrite (proj2 (arr_get_Ok _ i (mk_thread (dr_rnbl rq) false)))
    by (split; [done|by apply list_lookup_insert_eq]).
  simpl. unfold set_thread. simpl. rewrite arr_set_Ok by (rewrite length_insert; lia). simpl.
  by rewrite list_insert_insert_eq.
Qed.

Lemma worker_iter_run (uctx_main : Z -> Z) w s (i now : Z) t :
  0 <= i -> wrel w s -> s_slots s !! Z.to_nat i = Some (Assigned t) ->
  exists rq cm b, worker_iter mtod uctx_main i now w = Ok (after_slice i t w rq cm b)
    /\ requests (dst w) !! Z.to_nat i = Some rq
    /\ ctx_cap cm = ctx_cap (ctxm (dst w))
    /\ ctx_model cm (list_to_set (t_ctx <$> tasks_of s))
    /\ TEST_TOTAL_PACKETS_COUNTER b =
         (if t_run t then u64 (TEST_TOTAL_PACKETS_COUNTER (bench w) + 1)
          else TEST_TOTAL_PACKETS_COUNTER (bench w))
    /\ (TEST_FINISHED b = true -> TEST_FINISHED (bench w) = true
        \/ t_run t = true
           /\ u64 (TEST_TOTAL_PACKETS_COUNTER (bench w) + 1) = BENCHMARK_STOP_AT_PACKET)
    /\ clock_started now (bench w) b.
Proof.
  intros Hi Hw Hs. pose proof (wl_d _ _ Hw) as Hd.
  destruct (drel_at _ _ _ _ Hd Hs) as (wr & rq & Hwr & Hrq & [Hrun ->] & Hlt).
  destruct (slot_tasks_split _ _ _ Hs) as (rest & Hold & _). simpl in Hold.
  assert (Ht : t ∈ tasks_of s) by (unfold tasks_of; rewrite Hold; set_solver).
  destruct (ctx_link_live _ _ (t_ctx t) (uctx_main i) (dr_ctx _ _ Hd)) as (cm & Elink & Hcap & Hm).
  { apply elem_of_list_to_set. apply list_elem_of_fmap. eauto. }
  set (rq := mk_req ACTIVE _ _ _ _ _) in Hrq.
  assert (Hrq' : <[Z.to_nat i := dr_set_flag WAITING rq]> (requests (dst w)) !! Z.to_nat i
    = Some (dr_set_flag WAITING rq)) by (apply list_lookup_insert_eq; rewrite (dr_req _ _ Hd); lia).
  assert (Hth : (Z.to_nat i < length (threads w))%nat) by (rewrite (wl_thr _ _ Hw); lia).
  assert (Hthi : forall x, <[Z.to_nat i := x]> (threads w) !! Z.to_nat i = Some x)
    by (intros x; by apply list_lookup_insert_eq).
  unfold worker_iter, after_slice. rewrite (arr_upd_Ok _ _ _ _ Hi Hrq). cbn [mbind outcome_bind].
  cbn [dst set_dst requests]. rewrite (proj2 (arr_get_Ok _ i (dr_set_flag WAITING rq))) by done.
  cbn [mbind outcome_bind]. exists rq, cm. destruct (t_run t) eqn:Er.
  - pose proof (Forall_lookup_1 _ _ _ _ (wl_slots _ _ Hw) Hs Er) as Hco.
    assert (has_type (db w) (t_mbuf t)) as [type Hty].
    { eapply Forall_forall; [apply (wl_db _ _ Hw)|]. apply elem_of_app. right.
      apply list_elem_of_fmap. eauto. }
    cbn [dr_category dr_set_flag rq]. change (CONTEXT =? PACKET) with false. cbv iota.
    erewrite (handle_context_run uctx_main _ i now (dr_set_flag WAITING rq)); try done.
    cbn [mbind outcome_bind]. erewrite finish_request_run; try done; [|apply Hthi].
    eexists. split_and!; try done; [simpl|intros Hf; by left].
    destruct (Z.eqb_spec (u64 (TEST_TOTAL_PACKETS_COUNTER (bench w) + 1)) BENCHMARK_STOP_AT_PACKET); auto.
  - cbn [dr_category dr_set_flag rq]. change (PACKET =? PACKET) with true. cbv iota.
    erewrite (handle_fake_new_packet_run uctx_main _ i now (dr_set_flag WAITING rq)); try done.
    cbn [mbind outcome_bind]. erewrite finish_request_run; try done; [|apply Hthi].
    eexists. split_and!; [done|done|done|done|..]; unfold clock_started; simpl;
      unfold first_packet; destruct (IS_FIRST_PACKET (bench w)) eqn:Ef; simpl; auto.
Qed.

Lemma elem_slot_tasks l (j : nat) x t : l !! j = Some x -> t ∈ slot_task x -> t ∈ slot_tasks l.
Proof.
  intros Hj Ht. unfold slot_tasks. apply list_elem_of_bind. exists x. split; [done|].
  by eapply list_elem_of_lookup_2.
Qed.

(** The context of a task at a worker belongs to no other task. *)
Lemma ctx_other nmax s i x t :
  sp_inv nmax s -> s_slots s !! i = Some x -> slot_task x = [t] ->
  (forall u, u ∈ s_queue s -> t_ctx u <> t_ctx t)
  /\ (forall j y u, j <> i -> s_slots s !! j = Some y -> u ∈ slot_task y -> t_ctx u <> t_ctx t).
Proof.
  intros Hi Hs Hx. destruct (slot_tasks_split _ _ _ Hs) as (rest & Hold & Hnew).
  pose proof (si_ctx _ _ Hi) as Hnd. unfold tasks_of in Hnd. rewrite Hold, Hx, fmap_app in Hnd.
  csimpl in Hnd. rewrite <- Permutation_middle in Hnd. apply NoDup_cons in Hnd as [Hnin _].
  rewrite elem_of_app in Hnin. split.
  - intros u Hu Heq. apply Hnin. left. rewrite <- Heq. apply list_elem_of_fmap. eauto.
  - intros j y u Hj Hy Hu Heq. apply Hnin. right. rewrite <- Heq. apply list_elem_of_fmap.
    exists u. split; [done|]. specialize (Hnew Idle). simpl in Hnew. rewrite <- Hnew.
    apply (elem_slot_tasks _ j y); [by rewrite list_lookup_insert_ne|done].
Qed.

Lemma live_handler_insert co t c x :
  t_ctx t <> c -> live_handler co t -> live_handler (<[c := x]> co) t.
Proof. intros Hne Hl Hr. rewrite lookup_insert_ne by done. by apply Hl. Qed.

Lemma slot_handler_insert co y c x :
  (forall u, u ∈ slot_task y -> t_ctx u <> c) -> slot_handler co y -> slot_handler (<[c := x]> co) y.
Proof.
  intros Hne Hl. destruct y as [| |u|u [|]]; simpl in *; try done;
    (apply live_handler_insert; [apply Hne; set_solver|done]).
Qed.

Lemma slice_perm {A} (f : treq -> A) s i t :
  (forall u, f (started u) = f u) -> s_slots s !! i = Some (Assigned t) ->
  f <$> tasks_of (sp_slice i s) ≡ₚ f <$> tasks_of s.
Proof.
  intros Hf Hs. destruct (slot_tasks_split _ _ _ Hs) as (rest & Hold & Hnew). simpl in Hold.
  unfold sp_slice, tasks_of. rewrite Hs. simpl. rewrite Hnew, Hold. rewrite !fmap_app. csimpl.
  by rewrite Hf.
Qed.

Lemma drel_slice d s (i : Z) t rq cm :
  drel d s -> s_slots s !! Z.to_nat i = Some (Assigned t) -> requests d !! Z.to_nat i = Some rq ->
  ctx_cap cm = ctx_cap (ctxm d) -> ctx_model cm (list_to_set (t_ctx <$> tasks_of s)) ->
  drel (mk_dstate (<[Z.to_nat i := mk_resp (if t_run t then FINISHED else PREEMPTED)
                                  (t_ctx t) (t_mbuf t) (t_ts t) 1 CONTEXT]> (responses d))
       (<[Z.to_nat i := dr_set_flag WAITING rq]> (requests d))
       (timestamps d) (preempt_check d) (tskq d) cm (freed d)) (sp_slice (Z.to_nat i) s).
Proof.
  intros Hd Hs Hrq Hcap Hm. pose proof (lookup_lt_Some _ _ _ Hs) as Hlt.
  pose proof (sp_inv_slice _ (Z.to_nat i) _ (dr_inv _ _ Hd)) as Hinv.
  pose proof (slice_perm t_ctx s (Z.to_nat i) t (fun _ => eq_refl) Hs) as Hperm.
  destruct Hd as [Hd1 Hd2 Hd3 Hd4 Hd5 Hd6 Hd7 Hd8 Hd9 Hd10 Hd11].
  assert (Hsl : s_slots (sp_slice (Z.to_nat i) s) = <[Z.to_nat i := Returned (started t) (t_run t)]> (s_slots s)
    /\ s_queue (sp_slice (Z.to_nat i) s) = s_queue s /\ s_freed (sp_slice (Z.to_nat i) s) = s_freed s)
    by (unfold sp_slice; by rewrite Hs).
  destruct Hsl as (E1 & E2 & E3).
  split; simpl; rewrite ?length_insert, ?E1, ?E2, ?E3, ?length_insert; try done.
  - apply slots_rel_insert; [lia|lia|done|]. done.
  - by rewrite (list_to_set_perm_L (C := gset Z) _ _ Hperm).
  - by rewrite Hcap.
  - by rewrite Hcap.
Qed.

Lemma worker_iter_sim (uctx_main : Z -> Z) w s (i now : Z) t :
  0 <= i -> wrel w s -> s_slots s !! Z.to_nat i = Some (Assigned t) ->
  exists w', worker_iter mtod uctx_main i now w = Ok w' /\ wrel w' (sp_slice (Z.to_nat i) s)
    /\ ctx_cap (ctxm (dst w')) = ctx_cap (ctxm (dst w)) /\ clock_started now (bench w) (bench w').
Proof.
  intros Hi Hw Hs.
  destruct (worker_iter_run uctx_main w s i now t Hi Hw Hs) as (rq & cm & b & -> & Hrq & Hcap & Hm & Hb & Hbf & Hclk).
  eexists. split; [done|]. split; [|done].
  destruct (ctx_other _ _ _ _ t (dr_inv _ _ (wl_d _ _ Hw)) Hs eq_refl) as [Hoq Hos].
  pose proof (slice_perm t_mbuf s (Z.to_nat i) t (fun _ => eq_refl) Hs) as Hperm.
  unfold after_slice. destruct Hw as [Hd Hthr Hq Hsl Hdb Htot Hfin].
  split; simpl.
  - by apply drel_slice.
  - by rewrite length_insert.
  - unfold sp_slice. rewrite Hs. simpl. rewrite Forall_forall in *. intros u Hu.
    destruct (t_run t); apply live_handler_insert; auto.
  - unfold sp_slice. rewrite Hs. simpl. apply Forall_lookup_2. intros j y Hj.
    destruct (decide (j = Z.to_nat i)) as [->|Hne].
    + rewrite list_lookup_insert_eq in Hj by by eapply lookup_lt_Some. injection Hj as <-.
      destruct (t_run t) eqn:Er; simpl; [done|]. intros _. by rewrite lookup_insert_eq.
    + rewrite list_lookup_insert_ne in Hj by done.
      pose proof (Forall_lookup_1 _ _ _ _ Hsl Hj) as Hy.
      destruct (t_run t); apply slot_handler_insert; eauto.
  - replace (s_ring (sp_slice (Z.to_nat i) s)) with (s_ring s) by (unfold sp_slice; by rewrite Hs).
    by rewrite Hperm.
  - rewrite Hb, Htot. unfold sp_slice. rewrite Hs. simpl. destruct (t_run t); [|done].
    word_lia.
  - intros Hf. unfold sp_slice. rewrite Hs. simpl. destruct (Hbf Hf) as [Hold|[-> Hstop]].
    + specialize (Hfin Hold). destruct (t_run t); lia.
    + rewrite Htot in Hstop. unfold BENCHMARK_STOP_AT_PACKET in *. word_lia.
Qed.

(** ** The dispatch pass *)

Lemma handlers_collect co i s :
  Forall (live_handler co) (s_queue s) -> Forall (slot_handler co) (s_slots s) ->
  Forall (live_handler co) (s_queue (sp_collect i s))
  /\ Forall (slot_handler co) (s_slots (sp_collect i s)).
Proof.
  intros Hq Hs. unfold sp_collect. destruct (s_slots s !! i) as [[| |t|t [|]]|] eqn:Hi; try done; simpl.
  - split; [done|]. by apply Forall_insert.
  - split; [|by apply Forall_insert]. apply Forall_app. split; [done|]. constructor; [|done].
    apply (Forall_lookup_1 _ _ _ _ Hs Hi).
Qed.

Lemma handlers_assign co i s :
  Forall (live_handler co) (s_queue s) -> Forall (slot_handler co) (s_slots s) ->
  Forall (live_handler co) (s_queue (sp_assign i s))
  /\ Forall (slot_handler co) (s_slots (sp_assign i s)).
Proof.
  intros Hq Hs. unfold sp_assign. destruct (s_queue s) as [|t q] eqn:Eq; simpl; [by rewrite Eq|].
  apply Forall_cons in Hq as [Ht Hq]. split; [done|]. by apply Forall_insert.
Qed.

Lemma wrel_dispatch w s (i cur : Z) :
  0 <= i < Z.of_nat MAX_WORKERS -> wrel w s ->
  exists d', dispatch_one i cur (dst w) = Ok d' /\ wrel (set_dst d' w) (sp_dispatch (Z.to_nat i) s)
    /\ ctx_cap (ctxm d') = ctx_cap (ctxm (dst w)).
Proof.
  intros Hi [Hd Hthr Hq Hsl Hdb Htot Hfin].
  destruct (dispatch_one_sim _ _ i cur Hi Hd) as (d' & E & Hd' & Hcap).
  exists d'. split_and!; [done| |done].
  destruct (dispatch_frame (Z.to_nat i) s) as (E1 & E2 & _ & _ & Hin).
  assert (Hh : Forall (live_handler (coros w)) (s_queue (sp_dispatch (Z.to_nat i) s))
    /\ Forall (slot_handler (coros w)) (s_slots (sp_dispatch (Z.to_nat i) s))).
  { unfold sp_dispatch. destruct (s_slots s !! Z.to_nat i) as [[| |t|t fin]|]; try done;
      apply handlers_assign; by apply handlers_collect. }
  destruct Hh as [Hh1 Hh2]. split; simpl; try done.
  - rewrite E1. rewrite Forall_app in *. destruct Hdb as [H1 H2]. split; [done|].
    rewrite Forall_forall in *. intros m Hm. apply list_elem_of_fmap in Hm as (t & -> & Ht).
    apply H2, list_elem_of_fmap. eauto.
  - by rewrite E2.
  - by rewrite E2.
Qed.

Lemma dispatch_loop_sim n (i cur : Z) w s :
  0 <= i -> i + Z.of_nat n <= Z.of_nat MAX_WORKERS -> wrel w s ->
  exists d', dispatch_loop n i cur (dst w) = Ok d'
    /\ wrel (set_dst d' w) (sp_dispatch_all n (Z.to_nat i) s)
    /\ ctx_cap (ctxm d') = ctx_cap (ctxm (dst w)).
Proof.
  revert i w s. induction n as [|n IH]; intros i w s Hi Hn Hw; simpl.
  - exists (dst w). split_and!; [done| |done]. by destruct w.
  - destruct (wrel_dispatch w s i cur) as (d1 & -> & Hw1 & Hc1); [lia|done|]. simpl.
    destruct (IH (i + 1) (set_dst d1 w) (sp_dispatch (Z.to_nat i) s)) as (d2 & E & Hw2 & Hc2);
      [lia|lia|done|].
    simpl in *. exists d2. rewrite E. replace (S (Z.to_nat i)) with (Z.to_nat (i + 1)) by lia.
    split_and!; [done|done|congruence].
Qed.

(** ** The receive loop *)

Record rrel (r : rxq) (l : list Z) : Prop := {
  rr_ring : ring_holds (inbound_queue r) INBOUND_Q_LEN (pop_tail r) l;
  rr_tail : 0 <= pop_tail r;
  rr_head : pop_head r = pop_tail r + Z.of_nat (length l);
  rr_bound : pop_head r < 2 ^ 32
}.

Lemma rx_one_stop cur w r l b :
  rrel r l -> l = [] \/ MAX_RX_BURST <= b -> rx_one cur w r b = Ok None.
Proof.
  intros [_ Ht Hh _] Hs. unfold rx_one. destruct Hs as [->|Hb].
  - simpl in Hh. by rewrite (proj2 (Z.ltb_ge _ _)) by lia.
  - rewrite (proj2 (Z.ltb_ge b _)) by done. by rewrite andb_false_r.
Qed.

Lemma rx_one_enter cur w r m l b :
  rrel r (m :: l) -> b < MAX_RX_BURST ->
  rx_one cur w r b =
    (let d := dst w in
     '(cm, ret) ← ctx_alloc (ctxm d);
     match ret with
     | None => Ok (Some (set_dst (mk_dstate (responses d) (requests d) (timestamps d)
                  (preempt_check d) (tskq d) cm (freed d)) w, r, b))
     | Some c =>
       q ← tq_enqueue_tail (tskq d) (mk_info c m 1 1 cur);
       Ok (Some (set_dst (mk_dstate (responses d) (requests d) (timestamps d)
                    (preempt_check d) q cm (freed d)) w,
                 mk_rxq (inbound_queue r) (u32 (pop_tail r + 1)) (pop_head r), u64 (b + 1)))
     end).
Proof.
  intros [Hr Ht Hh Hb] Hlt. unfold rx_one. simpl in Hh.
  rewrite (proj2 (Z.ltb_lt _ _)) by lia. rewrite (proj2 (Z.ltb_lt b _)) by done. simpl.
  rewrite (proj2 (arr_get_Ok _ _ m)); [done|].
  change (INBOUND_Q_LEN - 1) with (2 ^ 7 - 1). rewrite land_mask by lia. split.
  - apply Z.mod_pos_bound. lia.
  - change (2 ^ 7) with INBOUND_Q_LEN. by eapply ring_front.
Qed.

Lemma size_tasks nmax s :
  sp_inv nmax s -> size (list_to_set (t_ctx <$> tasks_of s) : gset Z) = length (tasks_of s).
Proof. intros Hi. rewrite size_list_to_set by apply Hi. apply length_fmap. Qed.

Lemma drel_rx d s c m l ts q cm :
  drel d s -> s_ring s = m :: l -> c ∉ t_ctx <$> tasks_of s ->
  (length (tasks_of s) < ctx_cap (ctxm d))%nat ->
  ctx_cap cm = ctx_cap (ctxm d) ->
  ctx_model cm ({[c]} ∪ list_to_set (t_ctx <$> tasks_of s)) ->
  tq_cap q = tq_cap (tskq d) ->
  tq_model q ((info_of <$> s_queue s) ++ [mk_info c m 1 1 ts]) ->
  drel (mk_dstate (responses d) (requests d) (timestamps d) (preempt_check d) q cm (freed d))
    (sp_rx c ts s).
Proof.
  intros Hd Hr Hc Hl Hcc Hcm Hqc Hqm.
  pose proof (sp_inv_rx _ c ts s (dr_inv _ _ Hd) Hc Hl) as Hinv.
  unfold sp_rx in *. rewrite Hr in *.
  destruct Hd as [Hd1 Hd2 Hd3 Hd4 Hd5 Hd6 Hd7 Hd8 Hd9 Hd10 Hd11]. split; simpl; try done.
  - by rewrite fmap_app.
  - rewrite (list_to_set_perm_L (C := gset Z) _ (c :: (t_ctx <$> tasks_of s))); [done|].
    unfold tasks_of. simpl. rewrite <- app_assoc, !fmap_app. csimpl.
    by rewrite <- Permutation_middle.
  - by rewrite Hcc, Hqc.
  - by rewrite Hcc.
Qed.

Lemma rx_one_room cur w r s m l b :
  wrel w s -> s_ring s = m :: l -> rrel r (m :: l) -> 0 <= b < MAX_RX_BURST ->
  (length (tasks_of s) < ctx_cap (ctxm (dst w)))%nat ->
  exists c w' r', rx_one cur w r b = Ok (Some (w', r', b + 1))
    /\ c ∉ t_ctx <$> tasks_of s /\ wrel w' (sp_rx c cur s) /\ rrel r' l
    /\ ctx_cap (ctxm (dst w')) = ctx_cap (ctxm (dst w)) /\ bench w' = bench w.
Proof.
  intros Hw Hring Hr Hb Hl. rewrite (rx_one_enter cur w r m l b) by (done || lia).
  pose proof (wl_d _ _ Hw) as Hd.
  destruct (ctx_alloc_room _ _ (dr_ctx _ _ Hd)) as (cm & c & Ec & Hnc & Hcc & Hcm).
  { by rewrite (size_tasks _ _ (dr_inv _ _ Hd)). }
  rewrite elem_of_list_to_set in Hnc.
  destruct (tq_enqueue_room _ _ (mk_info c m 1 1 cur) (dr_queue _ _ Hd)) as (q & Eq & Hqc & Hqm).
  { rewrite length_fmap. pose proof (dr_caps _ _ Hd). unfold tasks_of in Hl.
    rewrite length_app in Hl. lia. }
  simpl. rewrite Ec. simpl. rewrite Eq. simpl. rewrite u64_id by (unfold MAX_RX_BURST in Hb; lia).
  eexists c, _, _. split_and!; [done|done| | |done|done].
  - pose proof (drel_rx _ _ _ _ _ cur _ _ Hd Hring Hnc Hl Hcc Hcm Hqc Hqm) as Hd'.
    destruct Hw as [_ Hthr Hq Hsl Hdb Htot Hfin]. unfold sp_rx in *. rewrite Hring in *.
    split; simpl; try done.
    + apply Forall_app. split; [done|]. by constructor.
    + rewrite Forall_app in *. destruct Hdb as [[Hm Hdb]%Forall_cons Hdb2]. split; [done|].
      unfold tasks_of in *. simpl. rewrite <- app_assoc, !fmap_app in *. csimpl.
      rewrite Forall_app in *. destruct Hdb2. split; [done|]. by constructor.
  - destruct Hr as [Hr Ht Hh Hbd]. simpl in Hh. split; simpl.
    + rewrite u32_id by lia. by eapply ring_pop.
    + rewrite u32_id; lia.
    + rewrite u32_id; lia.
    + done.
Qed.

Lemma rx_one_full cur w r s m l b :
  wrel w s -> s_ring s = m :: l -> rrel r (m :: l) -> b < MAX_RX_BURST ->
  length (tasks_of s) = ctx_cap (ctxm (dst w)) ->
  exists w', rx_one cur w r b = Ok (Some (w', r, b)) /\ wrel w' s
    /\ ctx_cap (ctxm (dst w')) = ctx_cap (ctxm (dst w)).
Proof.
  intros Hw Hring Hr Hb Hl. rewrite (rx_one_enter cur w r m l b) by done.
  destruct Hw as [Hd Hthr Hq Hsl Hdb Htot Hfin].
  destruct (ctx_alloc_full _ _ (dr_ctx _ _ Hd)) as (cm & Ec & Hcc & Hcm).
  { by rewrite (size_tasks _ _ (dr_inv _ _ Hd)). }
  simpl. rewrite Ec. simpl. eexists. split_and!; [done| |done]. split; simpl; try done.
  destruct Hd as [Hd1 Hd2 Hd3 Hd4 Hd5 Hd6 Hd7 Hd8 Hd9 Hd10 Hd11]. split; simpl; try done.
  - by rewrite Hcc.
  - by rewrite Hcc.
Qed.

(** How many packets one call of [NetWorker::work] takes from the ring. *)
Definition rx_need (b : Z) (l : list Z) : nat := Z.to_nat (MAX_RX_BURST - b) `min` length l.

Lemma rx_loop_ok cur need fuel w r s b :
  need = rx_need b (s_ring s) -> (need < fuel)%nat -> wrel w s -> rrel r (s_ring s) ->
  0 <= b <= MAX_RX_BURST -> (length (tasks_of s) + need <= ctx_cap (ctxm (dst w)))%nat ->
  exists w' r' s', rx_loop fuel cur w r b = Ok (Some (w', r', b + Z.of_nat need))
    /\ rx_steps cur need s s' /\ wrel w' s' /\ rrel r' (s_ring s')
    /\ ctx_cap (ctxm (dst w')) = ctx_cap (ctxm (dst w)) /\ bench w' = bench w.
Proof.
  revert fuel w r s b. induction need as [|need IH]; intros fuel w r s b Hn Hf Hw Hr Hb Hcap;
    (destruct fuel as [|fuel]; [lia|]); simpl; unfold rx_need in Hn.
  - rewrite (rx_one_stop cur w r (s_ring s) b); [|done|].
    + simpl. exists w, r, s. rewrite Z.add_0_r. split_and!; try done. constructor.
    + destruct (s_ring s); [by left|right]. simpl in Hn. lia.
  - destruct (s_ring s) as [|m l] eqn:Er; [simpl in Hn; lia|]. simpl in Hn.
    destruct (rx_one_room cur w r s m l b) as (c & w1 & r1 & -> & Hc & Hw1 & Hr1 & Hc1 & Hb1);
      [done..|lia|lia|].
    destruct (sp_rx_frame c cur s m l Er) as [E1 E2]. simpl.
    destruct (IH fuel w1 r1 (sp_rx c cur s) (b + 1)) as (w2 & r2 & s2 & E & Hs & Hw2 & Hr2 & Hc2 & Hb2).
    + unfold rx_need. rewrite E1. lia.
    + lia.
    + done.
    + by rewrite E1.
    + lia.
    + rewrite E2, Hc1. lia.
    + exists w2, r2, s2. rewrite E.
      replace (b + 1 + Z.of_nat need) with (b + Z.of_nat (S need)) by lia.
      split_and!; [done| |done|done|congruence|congruence].
      eapply rx_steps_S; [by rewrite Er|done|done].
Qed.

Lemma rx_loop_stuck cur fuel w r s b :
  wrel w s -> rrel r (s_ring s) -> 0 <= b <= MAX_RX_BURST ->
  (ctx_cap (ctxm (dst w)) < length (tasks_of s) + rx_need b (s_ring s))%nat ->
  rx_loop fuel cur w r b = Ok None.
Proof.
  revert w r s b. induction fuel as [|fuel IH]; intros w r s b Hw Hr Hb Hcap; simpl; [done|].
  pose proof (si_cap _ _ (dr_inv _ _ (wl_d _ _ Hw))) as Hle. unfold rx_need in Hcap.
  destruct (s_ring s) as [|m l] eqn:Er; [simpl in Hcap; lia|]. cbn [length] in Hcap.
  destruct (decide (length (tasks_of s) = ctx_cap (ctxm (dst w)))) as [He|He].
  - destruct (rx_one_full cur w r s m l b) as (w1 & -> & Hw1 & Hc1); [done..|lia|done|]. simpl.
    apply (IH _ _ s); [done|by rewrite Er|done|]. rewrite Hc1, Er. unfold rx_need. simpl. lia.
  - destruct (rx_one_room cur w r s m l b) as (c & w1 & r1 & -> & Hc & Hw1 & Hr1 & Hc1 & Hb1);
      [done..|lia|lia|].
    destruct (sp_rx_frame c cur s m l Er) as [E1 E2]. simpl.
    apply (IH _ _ (sp_rx c cur s)); [done|by rewrite E1|lia|].
    rewrite Hc1, E1, E2. unfold rx_need. lia.
Qed.

(** ** The whole program *)

Record nrel (n : net Q C) (s : sys) : Prop := {
  nl_w : wrel (wld n) s;
  nl_rx : rrel (rx n) (s_ring s)
}.

Definition n_cap (n : net Q C) : nat := ctx_cap (ctxm (dst (wld n))).

Lemma sent_fake_packet_sim n s (mbuf rnd : Z) :
  nrel n s -> mbuf <> NULL -> (length (s_ring s) < 128)%nat -> pop_head (rx n) + 1 < 2 ^ 32 ->
  exists n', sent_fake_packet mtod mbuf rnd n = Ok (0, n') /\ nrel n' (sp_send mbuf s)
    /\ n_cap n' = n_cap n.
Proof.
  intros [Hw [Hr Ht Hh Hb]] Hm Hl Hbd. unfold sent_fake_packet.
  rewrite (proj2 (Z.eqb_neq _ _)) by done.
  assert (Hidx : Z.land (pop_head (rx n)) (INBOUND_Q_LEN - 1)
    = (pop_tail (rx n) + Z.of_nat (length (s_ring s))) mod INBOUND_Q_LEN).
  { change (INBOUND_Q_LEN - 1) with (2 ^ 7 - 1). rewrite land_mask by lia. by rewrite Hh. }
  rewrite Hidx. pose proof (ring_index_lt (inbound_queue (rx n)) INBOUND_Q_LEN
    (pop_tail (rx n) + Z.of_nat (length (s_ring s))) ltac:(done) (rh_buf _ _ _ _ Hr)) as Hlt.
  rewrite arr_set_Ok by (pose proof (Z.mod_pos_bound (pop_tail (rx n) + Z.of_nat (length (s_ring s)))
    INBOUND_Q_LEN); unfold INBOUND_Q_LEN in *; lia).
  simpl. eexists. split_and!; [done| |done]. split.
  - destruct Hw as [Hd Hthr Hq Hsl Hdb Htot Hfin]. split; simpl; try done.
    + destruct Hd as [Hd1 Hd2 Hd3 Hd4 Hd5 Hd6 Hd7 Hd8 Hd9 Hd10 Hd11]. split; try done.
      by apply sp_inv_send.
    + replace (mtod mbuf + 14 + 20 + 8) with (mtod mbuf + NET_HDR_SIZE) by (unfold NET_HDR_SIZE; lia).
      assert (Hins : forall m, has_type (db (wld n)) m \/ m = mbuf ->
        has_type (<[mtod mbuf + NET_HDR_SIZE := if negb (rnd mod 2 =? 0) then DB_GET else DB_ITERATOR]>
          (db (wld n))) m).
      { intros m Hcase. unfold has_type in *. rewrite lookup_insert_is_Some'. destruct Hcase as [?| ->]; auto. }
      rewrite !Forall_app in *. destruct Hdb as [H1 H2].
      split_and!; [eapply Forall_impl; [exact H1|by auto]|constructor; by auto|eapply Forall_impl; [exact H2|by auto]].
  - split; simpl; rewrite ?u32_id by lia; try done.
    + apply ring_push; [done|unfold INBOUND_Q_LEN; lia].
    + rewrite length_app. simpl. lia.
Qed.

Lemma work_sim fuel n_peers now tsc0 tsc1 n s :
  nrel n s -> (n_peers < MAX_WORKERS)%nat -> (8 < fuel)%nat ->
  IS_FIRST_PACKET (bench (wld n)) = false
    \/ TEST_FINISHED (bench (wld n)) = false
       /\ u64 (now - TEST_START_TIME (bench (wld n))) <= BENCHMARK_DURATION_US ->
  let s1 := sp_dispatch_all n_peers 1 s in
  let need := rx_need 0 (s_ring s) in
  (length (tasks_of s1) + need <= n_cap n)%nat ->
  exists n' s', work fuel n_peers now tsc0 tsc1 n = Ok (Some (0, n'))
    /\ rx_steps tsc1 need s1 s' /\ nrel n' s' /\ n_cap n' = n_cap n
    /\ bench (wld n') = bench (wld n).
Proof.
  intros [Hw Hr] Hp Hf Hrun s1 need Hcap. unfold work.
  replace (IS_FIRST_PACKET (bench (wld n))
    && (TEST_FINISHED (bench (wld n))
        || (BENCHMARK_DURATION_US <? u64 (now - TEST_START_TIME (bench (wld n)))))) with false.
  2: { destruct Hrun as [->|[-> Ht]]; [done|]. rewrite (proj2 (Z.ltb_ge _ _)) by done.
       by rewrite andb_false_r. }
  unfold dispatch. unfold MAX_WORKERS in *.
  destruct (dispatch_loop_sim n_peers 1 tsc0 (wld n) s) as (d & -> & Hd & Hc); [lia|unfold MAX_WORKERS; lia|done|].
  cbn [mbind outcome_bind]. change (PSP_OK 0) with (Ok tt). cbn [mbind outcome_bind].
  destruct (dispatch_all_frame n_peers 1 s) as (E1 & _).
  change (Z.to_nat 1) with 1%nat in Hd. fold s1 in Hd, E1.
  destruct (rx_loop_ok tsc1 need fuel (set_dst d (wld n)) (rx n) s1 0)
    as (w' & r' & s' & E & Hs & Hw' & Hr' & Hc' & Hb'); try done.
  - unfold need. by rewrite E1.
  - unfold need, rx_need, MAX_RX_BURST. lia.
  - by rewrite E1.
  - unfold n_cap in Hcap. simpl. by rewrite Hc.
  - rewrite E. cbn [mbind outcome_bind]. eexists _, s'. split_and!; [done|done|done| |].
    + unfold n_cap. simpl. rewrite Hc'. simpl. by rewrite Hc.
    + done.
Qed.

End system.
