(* ===== verification/Program.v ===== *)
(** * Program: every run of the threads

    The steps of the benchmark's threads as a relation on the state of the
    program, interleaved in any order, and a fair schedule of them as a
    function.  The theorems about whole runs: nothing undefined, no request
    lost or answered twice, every request answered. *)
From S2P Require Import Prelude Fail Interfaces Mempool TaskQueue Context.
From S2P Require Import Ring Dispatcher Worker NetWorker SystemSpec System.

Section program.
Context {Q C : Type} {QO : TaskQueueOps Q} {QL : TaskQueueLaws Q} {CO : ContextOps C} {CL : ContextLaws C}.
Variable mtod : Z -> Z.
Variable uctx_main : Z -> Z.

Definition set_wld (w : world Q C) (n : net Q C) : net Q C :=
  mk_net w (rx n) (n_rcvd n) (n_batchs_rcvd n).

(** One step of a thread: the main thread sends a packet (while the ring has
    room), the net worker handles one worker of its dispatch pass or one packet
    of its receive loop, or a worker runs its request.  The second component
    lists the packets sent. *)
Inductive prog_step (n_peers : nat) : net Q C * list Z -> net Q C * list Z -> Prop :=
| PSend mbuf rnd n n' sent :
    mbuf <> NULL -> pop_head (rx n) - pop_tail (rx n) < INBOUND_Q_LEN ->
    pop_head (rx n) + 1 < 2 ^ 32 ->
    sent_fake_packet mtod mbuf rnd n = Ok (0, n') ->
    prog_step n_peers (n, sent) (n', sent ++ [mbuf])
| PDispatch i cur n d sent :
    1 <= i <= Z.of_nat n_peers -> dispatch_one i cur (dst (wld n)) = Ok d ->
    prog_step n_peers (n, sent) (set_wld (set_dst d (wld n)) n, sent)
| PRx cur b b' n w r sent :
    0 <= b -> rx_one cur (wld n) (rx n) b = Ok (Some (w, r, b')) ->
    prog_step n_peers (n, sent) (mk_net w r (n_rcvd n) (n_batchs_rcvd n), sent)
| PSlice i now rq n w sent :
    1 <= i <= Z.of_nat n_peers -> requests (dst (wld n)) !! Z.to_nat i = Some rq ->
    dr_flag rq <> WAITING -> worker_iter mtod uctx_main i now (wld n) = Ok w ->
    prog_step n_peers (n, sent) (set_wld w n, sent).

(** A worker whose request is not [WAITING] has a task. *)
Lemma active_assigned w s (i : Z) rq :
  wrel mtod w s -> 0 <= i < Z.of_nat MAX_WORKERS -> requests (dst w) !! Z.to_nat i = Some rq ->
  dr_flag rq <> WAITING -> exists t, s_slots s !! Z.to_nat i = Some (Assigned t).
Proof.
  intros Hw Hi Hrq Hf. pose proof (wl_d _ _ _ Hw) as Hd.
  destruct (lookup_lt_is_Some_2 (s_slots s) (Z.to_nat i)) as [x Hx]; [rewrite (dr_len _ _ Hd); lia|].
  destruct (dr_slots _ _ Hd _ _ Hx) as (wr & rq' & _ & Hrq' & Hrel). simplify_eq.
  destruct x as [| |t|t fin]; simpl in Hrel; destruct Hrel as [_ Hr]; try done. by exists t.
Qed.

Lemma rx_one_sim n s cur b :
  nrel mtod n s -> 0 <= b ->
  rx_one cur (wld n) (rx n) b = Ok None
  \/ exists c w r b' s', rx_one cur (wld n) (rx n) b = Ok (Some (w, r, b'))
     /\ (s' = s \/ s' = sp_rx c cur s /\ c ∉ t_ctx <$> tasks_of s
                   /\ (length (tasks_of s) < n_cap n)%nat)
     /\ wrel mtod w s' /\ rrel r (s_ring s') /\ ctx_cap (ctxm (dst w)) = n_cap n.
Proof.
  intros [Hw Hr] Hb. destruct (s_ring s) as [|m l] eqn:Er.
  { left. by apply (rx_one_stop cur (wld n) (rx n) []); [|left]. }
  destruct (decide (MAX_RX_BURST <= b)) as [Hge|Hlt].
  { left. by apply (rx_one_stop cur (wld n) (rx n) (m :: l)); [|right]. }
  right. pose proof (si_cap _ _ (dr_inv _ _ (wl_d _ _ _ Hw))) as Hle.
  destruct (decide (length (tasks_of s) = ctx_cap (ctxm (dst (wld n))))) as [He|He].
  - destruct (rx_one_full mtod cur (wld n) (rx n) s m l b) as (w' & E & Hw' & Hc); [done..|lia|done|].
    exists 0, w', (rx n), b, s. rewrite Er. split_and!; auto.
  - destruct (rx_one_room mtod cur (wld n) (rx n) s m l b)
      as (c & w' & r' & E & Hc & Hw' & Hr' & Hcap & _); [done..|lia|lia|].
    destruct (sp_rx_frame c cur s m l Er) as [Ering _].
    exists c, w', r', (b + 1), (sp_rx c cur s). rewrite Ering. split_and!; try done.
    right. split_and!; try done. unfold n_cap. lia.
Qed.

(** Every step of a thread is a step of the abstract system. *)
Lemma prog_step_sim n_peers n s sent n' sent' :
  (n_peers < MAX_WORKERS)%nat -> nrel mtod n s -> s_sent s = sent ->
  prog_step n_peers (n, sent) (n', sent') ->
  exists s', rtc (sp_step (n_cap n)) s s' /\ nrel mtod n' s' /\ s_sent s' = sent'
    /\ n_cap n' = n_cap n /\ (workers_ok n_peers s -> workers_ok n_peers s').
Proof.
  intros Hp Hn Hsent Hstep. inversion Hstep; subst; clear Hstep.
  - match goal with H : sent_fake_packet _ _ _ _ = _ |- _ => rename H into E end.
    destruct Hn as [Hw Hr] eqn:EHn. pose proof (rr_head _ _ Hr) as Hh.
    destruct (sent_fake_packet_sim mtod n s mbuf rnd) as (n2 & E2 & Hn2 & Hc2);
      [done|done|unfold INBOUND_Q_LEN in *; lia|done|].
    ok_agree. simplify_eq. exists (sp_send mbuf s). split_and!; try done; [|by apply workers_ok_slots].
    apply rtc_once. constructor.
  - destruct Hn as [Hw Hr].
    destruct (wrel_dispatch mtod (wld n) s i cur) as (d2 & E2 & Hw2 & Hc2); [lia|done|].
    ok_agree. destruct (dispatch_frame (Z.to_nat i) s) as (Er & _ & Es & _).
    exists (sp_dispatch (Z.to_nat i) s). split_and!; [apply rtc_once; constructor| |done|done|].
    + split; simpl; [done|by rewrite Er].
    + intros Hwo. apply workers_ok_dispatch; [done|lia].
  - destruct (rx_one_sim n s cur b Hn) as [E|(c & w2 & r2 & b2 & s2 & E & Hs2 & Hw2 & Hr2 & Hc2)];
      [done|congruence|].
    ok_agree. simplify_eq. exists s2. split_and!; [|by split|..|done|].
    + destruct Hs2 as [->|(-> & Hc & Hl)]; [done|]. apply rtc_once. by constructor.
    + destruct Hs2 as [->|(-> & _)]; [done|]. unfold sp_rx. by destruct (s_ring s).
    + apply workers_ok_slots. destruct Hs2 as [->|(-> & _)]; [done|]. unfold sp_rx. by destruct (s_ring s).
  - destruct (active_assigned (wld n) s i rq) as [t Ht]; [apply Hn|lia|done|done|].
    destruct Hn as [Hw Hr].
    destruct (worker_iter_sim mtod uctx_main (wld n) s i now t) as (w2 & E2 & Hw2 & Hc2 & _); [lia|done|done|].
    ok_agree. destruct (slice_frame (Z.to_nat i) s) as (Er & _ & Es & _).
    exists (sp_slice (Z.to_nat i) s). split_and!; [apply rtc_once; constructor| |done|done|].
    + split; simpl; [done|by rewrite Er].
    + intros Hwo. apply workers_ok_slice; [done|lia].
Qed.

(** ** Nothing undefined *)

(** Every step a thread can take next returns. *)
Record threads_defined (n_peers : nat) (n : net Q C) : Prop := {
  td_dispatch : forall i cur, 1 <= i <= Z.of_nat n_peers -> is_Ok (dispatch_one i cur (dst (wld n)));
  td_rx : forall cur b, 0 <= b -> is_Ok (rx_one cur (wld n) (rx n) b);
  td_slice : forall i now rq, 1 <= i <= Z.of_nat n_peers ->
    requests (dst (wld n)) !! Z.to_nat i = Some rq -> dr_flag rq <> WAITING ->
    is_Ok (worker_iter mtod uctx_main i now (wld n))
}.

Lemma nrel_defined n_peers n s :
  (n_peers < MAX_WORKERS)%nat -> nrel mtod n s -> threads_defined n_peers n.
Proof.
  intros Hp Hn. split.
  - intros i cur Hi. destruct Hn as [Hw _].
    destruct (wrel_dispatch mtod (wld n) s i cur) as (d & -> & _); [lia|done|done].
  - intros cur b Hb. destruct (rx_one_sim n s cur b Hn Hb) as [->|(c & w & r & b' & s' & -> & _)]; done.
  - intros i now rq Hi Hrq Hf. destruct (active_assigned (wld n) s i rq) as [t Ht]; [apply Hn|lia|done|done|].
    destruct Hn as [Hw _].
    destruct (worker_iter_sim mtod uctx_main (wld n) s i now t) as (w & -> & _); [lia|done..].
Qed.

Lemma prog_run_sim n_peers n s sent n' sent' :
  (n_peers < MAX_WORKERS)%nat -> nrel mtod n s -> s_sent s = sent ->
  rtc (prog_step n_peers) (n, sent) (n', sent') ->
  exists s', rtc (sp_step (n_cap n)) s s' /\ nrel mtod n' s' /\ s_sent s' = sent'
    /\ n_cap n' = n_cap n /\ (workers_ok n_peers s -> workers_ok n_peers s').
Proof.
  intros Hp Hn Hs Hr. remember (n, sent) as x eqn:Ex. remember (n', sent') as y eqn:Ey.
  revert n s sent Hn Hs Ex. induction Hr as [x|x [n1 sent1] z Hxy _ IH]; intros n s sent Hn Hs ->.
  - simplify_eq. exists s. split_and!; done.
  - destruct (prog_step_sim _ _ _ _ _ _ Hp Hn Hs Hxy) as (s1 & Hr1 & Hn1 & Hs1 & Hc1 & Ho1).
    destruct (IH Ey n1 s1 sent1 Hn1 Hs1 eq_refl) as (s2 & Hr2 & Hn2 & Hs2 & Hc2 & Ho2).
    exists s2. rewrite Hc1 in Hr2, Hc2. split_and!; try done; [by etrans|by auto].
Qed.

(** ** The schedule that lets every thread run in turn *)

(** Every worker that has a request runs it; the others keep spinning. *)
Fixpoint workers_pass (k : nat) (i now : Z) (w : world Q C) : outcome (world Q C) :=
  match k with
  | O => Ok w
  | S k' =>
    rq ← arr_get (requests (dst w)) i;
    w ← (if dr_flag rq =? WAITING then Ok w else worker_iter mtod uctx_main i now w);
    workers_pass k' (i + 1) now w
  end.

(** One call of [NetWorker::work], then every worker; [None] when the net
    worker has left its loop or is stuck in it. *)
Definition round (n_peers : nat) (now : Z) (n : net Q C) : outcome (option (net Q C)) :=
  r ← work 9 n_peers now now now n;
  match r with
  | Some (ret, n) =>
    if ret =? 0 then w ← workers_pass n_peers 1 now (wld n); Ok (Some (set_wld w n))
    else Ok None
  | None => Ok None
  end.

Fixpoint rounds (n_peers : nat) (nows : list Z) (n : net Q C) : outcome (option (net Q C)) :=
  match nows with
  | [] => Ok (Some n)
  | now :: nows =>
    r ← round n_peers now n;
    match r with
    | Some n => rounds n_peers nows n
    | None => Ok None
    end
  end.

Lemma clock_trans now b1 b2 b3 :
  clock_started now b1 b2 -> clock_started now b2 b3 -> clock_started now b1 b3.
Proof.
  intros H1 H2 Hf. destruct (H2 Hf) as [[Hf2 E]|E]; [|by right]. rewrite E. by apply H1.
Qed.

Lemma workers_pass_sim k (i now : Z) w s :
  0 <= i -> i + Z.of_nat k <= Z.of_nat MAX_WORKERS -> wrel mtod w s ->
  exists w', workers_pass k i now w = Ok w' /\ wrel mtod w' (sp_slice_all k (Z.to_nat i) s)
    /\ ctx_cap (ctxm (dst w')) = ctx_cap (ctxm (dst w)) /\ clock_started now (bench w) (bench w').
Proof.
  revert i w s. induction k as [|k IH]; intros i w s Hi Hk Hw; simpl.
  { exists w. split_and!; try done. intros Hf. by left. }
  pose proof (wl_d _ _ _ Hw) as Hd.
  destruct (lookup_lt_is_Some_2 (s_slots s) (Z.to_nat i)) as [x Hx]; [rewrite (dr_len _ _ Hd); lia|].
  destruct (dr_slots _ _ Hd _ _ Hx) as (wr & rq & _ & Hrq & Hrel).
  rewrite (proj2 (arr_get_Ok _ i rq)) by done. simpl.
  assert (exists w1, (if dr_flag rq =? WAITING then Ok w else worker_iter mtod uctx_main i now w) = Ok w1
    /\ wrel mtod w1 (sp_slice (Z.to_nat i) s) /\ ctx_cap (ctxm (dst w1)) = ctx_cap (ctxm (dst w))
    /\ clock_started now (bench w) (bench w1)) as (w1 & -> & Hw1 & Hc1 & Hk1).
  { destruct x as [| |t|t fin]; simpl in Hrel; destruct Hrel as [Hr1 Hr2].
    1,2,4: rewrite Hr2; exists w; unfold sp_slice; rewrite Hx; (split_and!; try done); intros Hf; by left.
    subst rq. simpl. by apply (worker_iter_sim mtod uctx_main w s i now t). }
  simpl. destruct (IH (i + 1) w1 (sp_slice (Z.to_nat i) s)) as (w2 & E & Hw2 & Hc2 & Hk2); [lia|lia|done|].
  exists w2. replace (S (Z.to_nat i)) with (Z.to_nat (i + 1)) by lia.
  split_and!; [done|done|congruence|by eapply clock_trans].
Qed.

(** The benchmark's limits are not reached at the time [now]. *)
Definition in_time (now : Z) (b : stats) : Prop :=
  IS_FIRST_PACKET b = true ->
  0 <= TEST_START_TIME b <= now /\ now - TEST_START_TIME b <= BENCHMARK_DURATION_US.

Lemma in_time_runs now n s :
  nrel mtod n s -> (s_ended s < 100)%nat -> in_time now (bench (wld n)) ->
  IS_FIRST_PACKET (bench (wld n)) = false
  \/ TEST_FINISHED (bench (wld n)) = false
     /\ u64 (now - TEST_START_TIME (bench (wld n))) <= BENCHMARK_DURATION_US.
Proof.
  intros Hn Hend Htime. destruct (IS_FIRST_PACKET (bench (wld n))) eqn:Ef; [right|by left]. split.
  - destruct (TEST_FINISHED (bench (wld n))) eqn:Efin; [|done].
    apply (wl_fin _ _ _ (nl_w _ _ _ Hn)) in Efin. unfold BENCHMARK_STOP_AT_PACKET in Efin. lia.
  - destruct (Htime Ef) as [H1 H2]. unfold BENCHMARK_DURATION_US in *. rewrite u64_id; lia.
Qed.

Lemma round_sim n_peers (now : Z) n s :
  nrel mtod n s -> workers_ok n_peers s -> (1 <= n_peers < MAX_WORKERS)%nat ->
  (s_ended s < 100)%nat -> (length (s_sent s) <= n_cap n)%nat -> in_time now (bench (wld n)) ->
  exists n' s', round n_peers now n = Ok (Some n')
    /\ sp_round n_peers (rx_need 0 (s_ring s)) now s s' /\ nrel mtod n' s'
    /\ n_cap n' = n_cap n /\ clock_started now (bench (wld n)) (bench (wld n')).
Proof.
  intros Hn Hwo Hp Hend Hcap Htime. unfold round. pose proof (nl_w _ _ _ Hn) as Hw.
  pose proof (dr_inv _ _ (wl_d _ _ _ Hw)) as Hi.
  pose proof (sp_inv_dispatch_all _ n_peers 1 _ Hi) as Hi1.
  pose proof (tasks_le_sent _ _ Hi1) as Htl.
  destruct (dispatch_all_frame n_peers 1 s) as (Er & _ & Es & _). rewrite Er, Es in Htl.
  destruct (work_sim mtod 9 n_peers now now now n s) as (n1 & s1 & -> & Hrx & Hn1 & Hc1 & Hb1).
  - done.
  - lia.
  - lia.
  - by apply (in_time_runs now n s).
  - unfold rx_need in *. lia.
  - cbn [mbind outcome_bind]. simpl (0 =? 0).
    destruct (workers_pass_sim n_peers 1 now (wld n1) s1) as (w2 & -> & Hw2 & Hc2 & Hk2);
      [lia|lia|apply Hn1|].
    cbn [mbind outcome_bind]. change (Z.to_nat 1) with 1%nat in Hw2.
    exists (set_wld w2 n1), (sp_slice_all n_peers 1 s1). split_and!; try done.
    + exists s1. done.
    + destruct Hn1 as [_ Hr1]. split; [done|]. simpl.
      destruct (slice_all_frame n_peers 1 s1) as (-> & _). done.
    + unfold n_cap in *. simpl. congruence.
    + by rewrite <- Hb1.
Qed.

(** Rounds at the times [nows], in order, inside of the benchmark's duration. *)
Fixpoint clocked (t0 last : Z) (nows : list Z) : Prop :=
  match nows with
  | [] => True
  | now :: nows => t0 <= last <= now /\ now - t0 <= BENCHMARK_DURATION_US /\ clocked t0 now nows
  end.

Lemma rounds_sim n_peers nows t0 last n s :
  nrel mtod n s -> workers_ok n_peers s -> (1 <= n_peers < MAX_WORKERS)%nat ->
  (length (s_sent s) < 100)%nat -> (length (s_sent s) <= n_cap n)%nat ->
  0 <= t0 -> clocked t0 last nows ->
  (IS_FIRST_PACKET (bench (wld n)) = true -> t0 <= TEST_START_TIME (bench (wld n)) <= last) ->
  exists n' s', rounds n_peers nows n = Ok (Some n') /\ nrel mtod n' s' /\ n_cap n' = n_cap n
    /\ s_sent s' = s_sent s /\ workers_ok n_peers s'
    /\ (weight s' + length nows <= weight s \/ weight s' = 0)%nat.
Proof.
  revert last n s. induction nows as [|now nows IH];
    intros last n s Hn Hwo Hp Hsent Hcap H0 Hclk Hst; simpl.
  { exists n, s. split_and!; try done. lia. }
  destruct Hclk as (Hl & Hd & Hclk).
  pose proof (dr_inv _ _ (wl_d _ _ _ (nl_w _ _ _ Hn))) as Hi. pose proof (ended_le_sent _ _ Hi) as Hend.
  destruct (round_sim n_peers now n s) as (n1 & s1 & -> & Hrnd & Hn1 & Hc1 & Hk1); try done; [lia| |].
  { intros Hf. specialize (Hst Hf). lia. }
  simpl.
  assert (Hdec : (weight s1 < weight s)%nat \/ weight s = 0%nat).
  { eapply round_decreases; [done|done|lia|done|]. unfold rx_need, MAX_RX_BURST.
    destruct (s_ring s); simpl; [done|lia]. }
  destruct (sp_round_frame _ _ _ _ _ _ Hi Hwo Hrnd) as (Es & Hwo1 & Hle).
  destruct (IH now n1 s1) as (n2 & s2 & E & Hn2 & Hc2 & Es2 & Hwo2 & Hw2); try done.
  - by rewrite Es.
  - by rewrite Es, Hc1.
  - intros Hf. destruct (Hk1 Hf) as [[Hf0 ->]| ->]; [specialize (Hst Hf0); lia|lia].
  - exists n2, s2. split_and!; [done|done|congruence|congruence|done|]. lia.
Qed.

End program.

(** ** Start *)

Section boot.
Context {Q C : Type} {QO : TaskQueueOps Q} {QL : TaskQueueLaws Q} {CO : ContextOps C} {CL : ContextLaws C}.

(** The globals are zero before the threads start. *)
Definition boot_dst (q : Q) (c : C) : dstate Q C :=
  mk_dstate (replicate MAX_WORKERS (mk_resp 0 0 0 0 0 0)) (replicate MAX_WORKERS (mk_req 0 0 0 0 0 0))
    (replicate MAX_WORKERS 0) (replicate MAX_WORKERS 0) q c [].

(** Every thread calls [init_worker] when it starts. *)
Fixpoint init_all (ids : list Z) (d : dstate Q C) : outcome (dstate Q C) :=
  match ids with
  | [] => Ok d
  | id :: ids => d ← init_worker id d; init_all ids d
  end.

(** The state behind that; the ring is not initialised. *)
Definition boot (inb : list Z) (d : dstate Q C) : net Q C :=
  mk_net (mk_world d ∅ (replicate MAX_WORKERS (mk_thread 0 false)) ∅ (mk_stats 0 0 0 0 0 false false))
    (mk_rxq inb 0 0) 0 0.

Definition booted (n0 : net Q C) : Prop :=
  exists inb q c ids d, tq_model q [] /\ ctx_model c ∅ /\ (ctx_cap c <= tq_cap q)%nat
    /\ length inb = Z.to_nat INBOUND_Q_LEN /\ ids <> []
    /\ init_all ids (boot_dst q c) = Ok d /\ n0 = boot inb d.

Definition boot_slots : list slot := [Dead; Idle] ++ replicate 30 Dead.
Definition boot_sys : sys := mk_sys [] [] [] boot_slots 0 [].

Definition boot_resp : list worker_response :=
  <[1%nat := mk_resp PROCESSED 0 0 0 0 0]> (replicate MAX_WORKERS (mk_resp 0 0 0 0 0 0)).

Lemma init_worker_run id (d : dstate Q C) wr :
  responses d !! 1%nat = Some wr ->
  init_worker id d = Ok (mk_dstate (<[1%nat := wr_set_flag PROCESSED wr]> (responses d)) (requests d)
    (timestamps d) (preempt_check d) (tskq d) (ctxm d) (freed d)).
Proof. intros Hwr. unfold init_worker. by rewrite (arr_upd_Ok _ 1 _ wr). Qed.

Lemma init_all_id ids (d : dstate Q C) wr :
  responses d !! 1%nat = Some wr -> wr_flag wr = PROCESSED -> init_all ids d = Ok d.
Proof.
  intros Hwr Hf. induction ids as [|id ids IH]; cbn [init_all]; [done|].
  rewrite (init_worker_run id d wr) by done.
  replace (wr_set_flag PROCESSED wr) with wr by (destruct wr; unfold wr_set_flag; by simplify_eq/=).
  rewrite list_insert_id by done. by destruct d.
Qed.

Lemma init_all_boot ids q c :
  ids <> [] -> init_all ids (boot_dst q c) =
    Ok (mk_dstate boot_resp (requests (boot_dst q c)) (timestamps (boot_dst q c))
          (preempt_check (boot_dst q c)) q c []).
Proof.
  destruct ids as [|id ids]; [done|]. intros _. cbn [init_all].
  rewrite (init_worker_run id _ (mk_resp 0 0 0 0 0 0)) by done. cbn [mbind outcome_bind].
  by erewrite init_all_id.
Qed.

Lemma boot_slots_rel : slots_rel boot_resp (replicate MAX_WORKERS (mk_req 0 0 0 0 0 0)) boot_slots.
Proof.
  intros i x Hi. pose proof (lookup_lt_Some _ _ _ Hi) as Hlt. simpl in Hlt.
  destruct i as [|[|i]]; simplify_eq/=; [by eexists _, _|by eexists _, _|].
  do 30 (destruct i as [|i]; [simplify_eq/=; by eexists _, _|]). lia.
Qed.

Lemma booted_nrel mtod n0 :
  booted n0 -> nrel mtod n0 boot_sys.
Proof.
  intros (inb & q & c & ids & d & Hq & Hc & Hcap & Hinb & Hids & E & ->).
  rewrite init_all_boot in E by done. injection E as <-. split.
  - split; simpl; try done.
    + split; try done.
      * apply boot_slots_rel.
      * split; simpl; [done|constructor|lia|done|]. repeat (constructor; [done|]). constructor.
    + repeat (constructor; [done|]). constructor.
  - split; simpl; [by apply ring_empty|lia|lia|lia].
Qed.

Lemma boot_workers_ok n_peers : workers_ok n_peers boot_sys.
Proof.
  split; [by exists Idle|]. intros j x Hj _. simpl in Hj.
  do 32 (destruct j as [|j]; [simplify_eq/=; done|]). done.
Qed.

End boot.

(** ** Runs of the program *)

Section runs.
Context {Q C : Type} {QO : TaskQueueOps Q} {QL : TaskQueueLaws Q} {CO : ContextOps C} {CL : ContextLaws C}.

(** The state of every run from the start is accounted for. *)
Lemma booted_run mtod uctx_main n_peers (n0 n : net Q C) sent :
  booted n0 -> (n_peers < MAX_WORKERS)%nat ->
  rtc (prog_step mtod uctx_main n_peers) (n0, []) (n, sent) ->
  exists s, rtc (sp_step (n_cap n0)) boot_sys s /\ nrel mtod n s /\ s_sent s = sent
    /\ n_cap n = n_cap n0 /\ workers_ok n_peers s.
Proof.
  intros Hb Hp Hr.
  destruct (prog_run_sim mtod uctx_main n_peers n0 boot_sys [] n sent) as (s & ? & ? & ? & ? & Hwo);
    [done|by apply booted_nrel|done|done|].
  exists s. split_and!; try done. apply Hwo, boot_workers_ok.
Qed.




(** C23. [init_worker] only ever enables the worker 1: whatever the threads do,
    the mailboxes of all other workers stay [RUNNING] for the dispatcher and
    [WAITING] for the worker, so these workers never get a request. *)
Theorem only_first_worker_runs mtod uctx_main n_peers (n0 n : net Q C) sent (j : nat) :
  booted n0 -> (n_peers < MAX_WORKERS)%nat ->
  rtc (prog_step mtod uctx_main n_peers) (n0, []) (n, sent) ->
  (j < MAX_WORKERS)%nat -> j <> 1%nat ->
  exists wr rq, responses (dst (wld n)) !! j = Some wr /\ requests (dst (wld n)) !! j = Some rq
    /\ wr_flag wr = RUNNING /\ dr_flag rq = WAITING.
Proof.
  intros Hb Hp Hr Hj Hne. destruct (booted_run _ _ _ _ _ _ Hb Hp Hr) as (s & Hrun & Hn & _).
  assert (Hdead : s_slots s !! j = Some Dead).
  { assert (H0 : s_slots boot_sys !! j = Some Dead).
    { destruct j as [|[|j]]; [done|done|].
      apply (lookup_replicate_2 30 Dead j). unfold MAX_WORKERS in Hj. lia. }
    revert H0. clear -Hrun. induction Hrun as [|x y z Hxy _ IH]; [done|].
    intros H0. apply IH. by eapply dead_step. }
  destruct (dr_slots _ _ (wl_d _ _ _ (nl_w _ _ _ Hn)) _ _ Hdead) as (wr & rq & H1 & H2 & H3).
  exists wr, rq. by destruct H3.
Qed.

(** C19. The receive loop of [NetWorker::work] ends exactly when there is a
    context for every packet it takes (at most eight): with that many contexts
    nine passes are enough and all of these packets become tasks, with fewer it
    retries the same packet for ever. *)
Theorem rx_loop_terminates_iff mtod cur w r s :
  wrel (Q := Q) (C := C) mtod w s -> rrel r (s_ring s) ->
  (exists fuel res, rx_loop fuel cur w r 0 = Ok (Some res))
  <-> (length (tasks_of s) + (8 `min` length (s_ring s)) <= ctx_cap (ctxm (dst w)))%nat.
Proof.
  intros Hw Hr. change (8 `min` length (s_ring s))%nat with (rx_need 0 (s_ring s)). split.
  - intros (fuel & res & E). destruct (decide (length (tasks_of s) + rx_need 0 (s_ring s)
      <= ctx_cap (ctxm (dst w)))%nat) as [|Hgt]; [done|].
    rewrite (rx_loop_stuck mtod cur fuel w r s 0) in E; [done|done|done|done|lia].
  - intros Hle. destruct (rx_loop_ok mtod cur (rx_need 0 (s_ring s)) 9 w r s 0)
      as (w' & r' & s' & E & _); try done; [unfold rx_need, MAX_RX_BURST; lia|]. by eauto.
Qed.

End runs.

(** [NetWorker::work] takes no other steps than those of the relation. *)
Section work_steps.
Context {Q C : Type} {QO : TaskQueueOps Q} {CO : ContextOps C}.
Variable mtod uctx_main : Z -> Z.

Lemma dispatch_loop_steps n_peers k (i cur : Z) (n : net Q C) sent d :
  1 <= i -> i + Z.of_nat k <= Z.of_nat n_peers + 1 ->
  dispatch_loop k i cur (dst (wld n)) = Ok d ->
  rtc (prog_step mtod uctx_main n_peers) (n, sent) (set_wld (set_dst d (wld n)) n, sent).
Proof.
  revert i n. induction k as [|k IH]; intros i n Hi Hk; simpl.
  - intros [= <-]. destruct n as [[] ? ? ?]. constructor.
  - destruct (dispatch_one i cur (dst (wld n))) as [d1| |] eqn:E1; simpl; [|done|done].
    intros E. eapply rtc_l; [apply (PDispatch _ _ _ i cur n d1); [lia|done]|].
    apply (IH (i + 1) (set_wld (set_dst d1 (wld n)) n)); [lia|lia|done].
Qed.

Lemma rx_one_nonneg cur (w : world Q C) r b w' r' b' :
  0 <= b -> rx_one cur w r b = Ok (Some (w', r', b')) -> 0 <= b'.
Proof.
  intros Hb. unfold rx_one. case_match; [|done].
  destruct (arr_get _ _); simpl; [|done|done].
  destruct (ctx_alloc _) as [[cm [c|]]| |]; simpl; [|by intros [= _ _ <-]|done|done].
  destruct (tq_enqueue_tail _ _); simpl; [|done|done]. intros [= _ _ <-]. apply u64_range.
Qed.

Lemma rx_loop_steps n_peers fuel cur (n : net Q C) sent b w r b' :
  0 <= b -> rx_loop fuel cur (wld n) (rx n) b = Ok (Some (w, r, b')) ->
  rtc (prog_step mtod uctx_main n_peers) (n, sent) (mk_net w r (n_rcvd n) (n_batchs_rcvd n), sent).
Proof.
  revert n b. induction fuel as [|fuel IH]; intros n b Hb; simpl; [done|].
  destruct (rx_one cur (wld n) (rx n) b) as [[[[w1 r1] b1]|]| |] eqn:E1; simpl; [| |done|done].
  - intros E. eapply rtc_l; [by apply (PRx _ _ _ cur b b1)|].
    apply (IH (mk_net w1 r1 (n_rcvd n) (n_batchs_rcvd n)) b1); [|done].
    by eapply rx_one_nonneg.
  - intros [= <- <- _]. destruct n. constructor.
Qed.

End work_steps.


(** ** An example: two contexts, two queue nodes, two packets *)

Definition ex_queue : Type := tmem Mempool.mempool * task_queue.
Definition ex_ctx : Type := cmem Mempool.mempool.

Definition example_boot : net ex_queue ex_ctx :=
  boot (replicate 128 0)
    (mk_dstate boot_resp (replicate MAX_WORKERS (mk_req 0 0 0 0 0 0)) (replicate MAX_WORKERS 0)
       (replicate MAX_WORKERS 0) example_queue example_cmem []).

Lemma example_booted : booted example_boot.
Proof.
  exists (replicate 128 0), example_queue, example_cmem, [0; 1; 2]. eexists. split_and!.
  - apply example_queue_empty.
  - apply example_cmem_rep.
  - change (context_capacity example_cmem <= tq_capacity example_queue)%nat.
    rewrite example_cmem_cap, example_queue_cap. done.
  - by rewrite length_replicate.
  - done.
  - by apply init_all_boot.
  - done.
Qed.

Lemma example_boot_cap : n_cap example_boot = 2%nat.
Proof. apply example_cmem_cap. Qed.

Lemma example_sent :
  exists n, rtc (prog_step (fun m => m) (fun _ => 0) 2) (example_boot, []) (n, [5000; 7000])
    /\ IS_FIRST_PACKET (bench (wld n)) = false.
Proof.
  pose proof (booted_nrel (fun m => m) _ example_booted) as Hn0.
  destruct (sent_fake_packet_sim (fun m => m) example_boot boot_sys 5000 0) as (n1 & E1 & Hn1 & _);
    [done..|simpl; lia|done|].
  destruct (sent_fake_packet_sim (fun m => m) n1 (sp_send 5000 boot_sys) 7000 1) as (n2 & E2 & Hn2 & _);
    [done|done|simpl; lia| |].
  { unfold sent_fake_packet in E1. simpl in E1. injection E1 as <-. done. }
  assert (pop_head (rx n1) = 1 /\ pop_tail (rx n1) = 0 /\ IS_FIRST_PACKET (bench (wld n1)) = false)
    as (Hh & Ht & Hf) by (unfold sent_fake_packet in E1; simpl in E1; by injection E1 as <-).
  exists n2. split.
  - eapply rtc_l; [eapply (PSend _ _ _ 5000 0); [done|by vm_compute|by vm_compute|exact E1]|].
    eapply rtc_l; [eapply (PSend _ _ _ 7000 1); [done|rewrite Hh, Ht; by vm_compute| |exact E2]|].
    + rewrite Hh. by vm_compute.
    + apply rtc_refl.
  - revert E2. unfold sent_fake_packet. simpl. destruct (arr_set _ _ _); simpl; [|done|done].
    by intros [= <-].
Qed.




Lemma only_first_worker_runs_witness :
  exists n wr rq, rtc (prog_step (fun m => m) (fun _ => 0) 2) (example_boot, []) (n, [5000; 7000])
    /\ responses (dst (wld n)) !! 2%nat = Some wr /\ requests (dst (wld n)) !! 2%nat = Some rq
    /\ wr_flag wr = RUNNING /\ dr_flag rq = WAITING.
Proof.
  destruct example_sent as (n & Hr & _).
  destruct (only_first_worker_runs (fun m => m) (fun _ => 0) 2 example_boot n [5000; 7000] 2
    example_booted) as (wr & rq & H).
  - unfold MAX_WORKERS. lia.
  - exact Hr.
  - unfold MAX_WORKERS. lia.
  - discriminate.
  - exists n, wr, rq. split; [exact Hr|exact H].
Defined.

Lemma rx_loop_terminates_iff_witness :
  exists fuel res, rx_loop fuel 7 (wld example_boot) (rx example_boot) 0 = Ok (Some res).
Proof.
  pose proof (booted_nrel (fun m => m) _ example_booted) as Hn.
  apply (rx_loop_terminates_iff (fun m => m) 7 (wld example_boot) (rx example_boot) boot_sys).
  - apply Hn.
  - apply Hn.
  - simpl. lia.
Defined.

