(* ===== verification/Startup.v ===== *)
(** * Startup: from [taskqueue_init] to the first step of the threads

    Puts the concrete components together: the pools that [taskqueue_init]
    creates ([Context], [Mempool]), the linked task queue over the task pool
    ([TaskQueue]) and the contexts over the other two pools are a start state
    of the program ([Program]), so that its theorems hold for the code with
    the capacities it is compiled with. *)
From S2P Require Import Prelude Fail Interfaces Mempool TaskQueue Context Ring.
From S2P Require Import Dispatcher Worker NetWorker SystemSpec System Program.

(** The memory behind the pools: every block of the task pool is a node, every
    block of the context pool a context and every stack block is mapped. *)
Record mapped (g : pools) (tasks : gmap Z task) (ctxs : gmap Z ucontext) (words : gmap Z Z) : Prop := {
  mp_tasks : dom tasks = list_to_set (Mempool.items (Context.task_mempool g));
  mp_ctxs : dom ctxs = list_to_set (Mempool.items (p_context_pool g));
  mp_words : forall b k, b ∈ Mempool.items (p_stack_pool g) -> 0 <= k < STACK_SIZE / 8 ->
    is_Some (words !! (b + 8 * k))
}.

(** The globals of the dispatcher over these pools, the queue empty. *)
Definition start_queue (g : pools) (tasks : gmap Z task) : tmem Mempool.mempool * task_queue :=
  (mk_tmem tasks (Context.task_mempool g), mk_queue NULL NULL).

Definition start_ctx (g : pools) (ctxs : gmap Z ucontext) (words : gmap Z Z) : cmem Mempool.mempool :=
  mk_cmem ctxs words (p_context_pool g) (p_stack_pool g).

Lemma start_queue_ok b n e tasks g :
  0 < b -> 0 < n < 2 ^ 63 -> 0 < e -> Context.task_mempool g = fresh_pool b n e ->
  dom tasks = list_to_set (Mempool.items (Context.task_mempool g)) ->
  tq_contents (start_queue g tasks) [] /\ tq_capacity (start_queue g tasks) = Z.to_nat n.
Proof.
  intros Hb Hn He Eg Hdom. split.
  - exists []. split; [|done]. split; simpl; try done; [constructor|].
    rewrite Eg. by apply fresh_pool_ok.
  - unfold tq_capacity. simpl. rewrite Eg. by apply (Mempool.size_items (fresh_pool b n e)).
Qed.

Lemma start_ctx_ok bc bs n e ctxs words g :
  0 < bc -> 0 < bs -> 0 < n < 2 ^ 31 -> 0 < e ->
  bs mod 8 = 0 -> bs + n * STACK_SIZE <= 2 ^ 63 ->
  p_context_pool g = fresh_pool bc n e -> p_stack_pool g = fresh_pool bs n STACK_SIZE ->
  dom ctxs = list_to_set (Mempool.items (p_context_pool g)) ->
  (forall b k, b ∈ Mempool.items (p_stack_pool g) -> 0 <= k < STACK_SIZE / 8 ->
    is_Some (words !! (b + 8 * k))) ->
  ctx_rep (start_ctx g ctxs words) ∅ /\ context_capacity (start_ctx g ctxs words) = Z.to_nat n.
Proof.
  intros Hbc Hbs Hn He Hal Hmax Ec Es Hdom Hw. split.
  - constructor; simpl.
    + rewrite Ec. apply fresh_pool_ok; lia.
    + rewrite Es. apply fresh_pool_ok; unfold STACK_SIZE; lia.
    + done.
    + intros c d u v Hc. set_solver.
    + intros c u Hc. set_solver.
    + intros b Hb. apply elem_of_list_to_set in Hb. rewrite Es in Hb. unfold Mempool.items in Hb.
      simpl in Hb. apply Mempool.elem_init in Hb as (i & Hi & ->). unfold STACK_SIZE in *.
      split; [nia|]. replace (bs + Z.of_nat i * 2048) with (bs + (Z.of_nat i * 256) * 8) by lia.
      by rewrite Z.mod_add by lia.
    + intros b k Hb. apply Hw. by apply elem_of_list_to_set in Hb.
  - unfold context_capacity. simpl. rewrite Ec, Es.
    rewrite (Mempool.size_items (fresh_pool bc n e)) by done.
    rewrite (Mempool.size_items (fresh_pool bs n STACK_SIZE)) by done. simpl. lia.
Qed.

Lemma start_booted bt bc bs n et ec g tasks ctxs words inb ids :
  0 < bt -> 0 < bc -> 0 < bs -> 0 < n < 2 ^ 31 -> 0 < et -> 0 < ec ->
  bs mod 8 = 0 -> bs + n * STACK_SIZE <= 2 ^ 63 ->
  Context.task_mempool g = fresh_pool bt n et ->
  p_context_pool g = fresh_pool bc n ec -> p_stack_pool g = fresh_pool bs n STACK_SIZE ->
  mapped g tasks ctxs words -> length inb = Z.to_nat INBOUND_Q_LEN -> ids <> [] ->
  exists d, init_all ids (boot_dst (start_queue g tasks) (start_ctx g ctxs words)) = Ok d
    /\ booted (boot inb d) /\ Z.of_nat (n_cap (boot inb d)) = n.
Proof.
  intros Hbt Hbc Hbs Hn Het Hec Hal Hmax Et Ec Es [Ht Hc Hw] Hinb Hids.
  destruct (start_queue_ok bt n et tasks g) as [Hq Hqc]; [done|lia|done|done|done|].
  destruct (start_ctx_ok bc bs n ec ctxs words g) as [Hx Hxc]; [done..|].
  eexists. split; [by apply init_all_boot|]. split.
  - exists inb, (start_queue g tasks), (start_ctx g ctxs words), ids. eexists.
    split_and!; [exact Hq|exact Hx| |done|done|by apply init_all_boot|done].
    change (context_capacity (start_ctx g ctxs words) <= tq_capacity (start_queue g tasks))%nat.
    by rewrite Hqc, Hxc.
  - change (Z.of_nat (context_capacity (start_ctx g ctxs words)) = n). rewrite Hxc. lia.
Qed.

(** The pools that [taskqueue_init] makes when memory is available. *)
Lemma fresh_pools_booted malloc sizeof_ucontext tasks ctxs words inb ids :
  let g := fresh_pools malloc sizeof_ucontext in
  0 < sizeof_ucontext <= 2730 -> (forall k z, 0 < malloc k z) ->
  (forall z, malloc 6%nat z mod 8 = 0 /\ malloc 6%nat z < 2 ^ 62) ->
  mapped g tasks ctxs words -> length inb = Z.to_nat INBOUND_Q_LEN -> ids <> [] ->
  exists d, init_all ids (boot_dst (start_queue g tasks) (start_ctx g ctxs words)) = Ok d
    /\ booted (boot inb d) /\ Z.of_nat (n_cap (boot inb d)) = 786432.
Proof.
  intros g Hs Hm Hal Hmap Hinb Hids. destruct (Hal (STACK_CAPACITY * STACK_SIZE)) as [Hal8 Hmax].
  apply (start_booted (malloc 0%nat (TASK_CAPACITY * sizeof_task))
    (malloc 4%nat (TASK_CAPACITY * sizeof_ucontext)) (malloc 6%nat (STACK_CAPACITY * STACK_SIZE))
    TASK_CAPACITY sizeof_task sizeof_ucontext); try done; try apply Hm;
    unfold TASK_CAPACITY, STACK_SIZE in *; lia.
Qed.

(** The program starts in order: when memory is available,
    [taskqueue_init] succeeds and the state it leaves - with the memory of the
    pools mapped, the queue empty and every thread through [init_worker] - is a
    start state of the program, with 786432 contexts. *)
Theorem startup_ready (malloc : nat -> Z -> Z) (sizeof_ucontext : Z) (g : pools) :
  0 < sizeof_ucontext <= 2730 -> (forall k z, 0 < malloc k z) ->
  (forall z, malloc 6%nat z mod 8 = 0 /\ malloc 6%nat z < 2 ^ 62) ->
  exists g', taskqueue_init malloc sizeof_ucontext g = Ok (0, g')
    /\ forall tasks ctxs words inb ids,
         mapped g' tasks ctxs words -> length inb = Z.to_nat INBOUND_Q_LEN -> ids <> [] ->
         exists d, init_all ids (boot_dst (start_queue g' tasks) (start_ctx g' ctxs words)) = Ok d
           /\ booted (boot inb d) /\ Z.of_nat (n_cap (boot inb d)) = 786432.
Proof.
  intros Hs Hm Hal. exists (fresh_pools malloc sizeof_ucontext).
  split; [by apply taskqueue_init_eq|].
  intros tasks ctxs words inb ids Hmap Hinb Hids. by apply fresh_pools_booted.
Qed.

(** Such memory exists for any pools. *)
Definition pool_mem (g : pools) : gmap Z task * gmap Z ucontext * gmap Z Z :=
  (gset_to_gmap (mk_task (mk_info 0 0 0 0 0) 0) (list_to_set (Mempool.items (Context.task_mempool g))),
   gset_to_gmap (mk_uctx 0 0 0) (list_to_set (Mempool.items (p_context_pool g))),
   gset_to_gmap 0 (list_to_set (Mempool.items (p_stack_pool g) ≫=
     fun b => (fun k => b + 8 * Z.of_nat k) <$> seq 0 (Z.to_nat (STACK_SIZE / 8))))).

Lemma pool_mem_mapped g : mapped g (pool_mem g).1.1 (pool_mem g).1.2 (pool_mem g).2.
Proof.
  split; [apply dom_gset_to_gmap|apply dom_gset_to_gmap|].
  intros b k Hb Hk. apply elem_of_dom. cbn [pool_mem fst snd]. rewrite dom_gset_to_gmap, elem_of_list_to_set.
  apply list_elem_of_bind. exists b. split; [|done]. apply list_elem_of_fmap.
  exists (Z.to_nat k). split; [lia|]. apply elem_of_seq. lia.
Qed.

Lemma mapped_exists g : exists tasks ctxs words, mapped g tasks ctxs words.
Proof. eexists _, _, _. apply pool_mem_mapped. Qed.

Lemma startup_ready_witness :
  exists g' d, taskqueue_init (fun k _ => Z.of_nat (S k) * 2 ^ 32) 968
      (mk_pools Mempool.mempool_zero Mempool.mempool_zero Mempool.mempool_zero Mempool.mempool_zero)
    = Ok (0, g')
    /\ booted (Q := tmem Mempool.mempool * task_queue) (C := cmem Mempool.mempool)
         (boot (replicate 128 0) d).
Proof.
  destruct (startup_ready (fun k _ => Z.of_nat (S k) * 2 ^ 32) 968
    (mk_pools Mempool.mempool_zero Mempool.mempool_zero Mempool.mempool_zero Mempool.mempool_zero))
    as (g' & E & Hg).
  - lia.
  - intros k z. lia.
  - intros z. split; [reflexivity|lia].
  - destruct (mapped_exists g') as (tasks & ctxs & words & Hmap).
    destruct (Hg tasks ctxs words (replicate 128 0) [0; 1] Hmap) as (d & _ & Hb & _).
    + reflexivity.
    + discriminate.
    + exists g', d. split; [exact E|exact Hb].
Defined.
