(* ===== verification/Benchmark.v ===== *)
(** * Benchmark: the run of the server's benchmark, from its first packet to its end

    Models the part of [main] in [src/src/c++/apps/app/psp_app.cc] that sends
    the fake packets, as [src/include/psp/bench_concord.h] configures it, and
    the net worker's loop in [Worker::main_loop]
    ([src/src/c++/libos/common/Worker.cc]), over the threads of [Program].  The
    packets always find room, and the run ends with every request answered. *)
From S2P Require Import Prelude Fail Interfaces Mempool TaskQueue Context Ring.
From S2P Require Import Dispatcher Worker NetWorker SystemSpec System Program Startup.

Definition BENCHMARK_CREATE_NO_PACKET : nat := 100.

Section benchmark.
Context {Q C : Type} {QO : TaskQueueOps Q} {QL : TaskQueueLaws Q} {CO : ContextOps C} {CL : ContextLaws C}.
Variable mtod : Z -> Z.
Variable uctx_main : Z -> Z.

(** The loop of [main]: [draw i] is what [rte_pktmbuf_alloc] and [rand] give to
    packet [i].  What [sent_fake_packet] returns is not looked at. *)
Fixpoint create_packets (n_left : nat) (i : Z) (draw : Z -> Z * Z) (n : net Q C) : outcome (net Q C) :=
  match n_left with
  | O => Ok n
  | S n_left =>
    '(_, n) ← sent_fake_packet mtod (draw i).1 (draw i).2 n;
    create_packets n_left (i + 1) draw n
  end.

(** [NetWorker::dequeue], which only fills its place in the class. *)
Definition net_dequeue : Z := ENOTSUP.

(** The loop of the net worker while it is not told to terminate: its [dequeue]
    never answers [EAGAIN], so that every pass is a call of [work], until one
    reports a status.  Between two
    calls every worker gets a turn.  [None]: the times are used up, or the
    receive loop does not end. *)
Fixpoint net_main (n_peers : nat) (nows : list Z) (n : net Q C) : outcome (option (net Q C)) :=
  match nows with
  | [] => Ok None
  | now :: nows =>
    if net_dequeue =? EAGAIN then net_main n_peers nows n
    else
      r ← work 9 n_peers now now now n;
      match r with
      | None => Ok None
      | Some (ret, n) =>
        if ret =? 0 then
          w ← workers_pass mtod uctx_main n_peers 1 now (wld n);
          net_main n_peers nows (set_wld w n)
        else Ok (Some n)
      end
  end.

Lemma net_main_round n_peers now nows n n1 :
  round mtod uctx_main n_peers now n = Ok (Some n1) ->
  net_main n_peers (now :: nows) n = net_main n_peers nows n1.
Proof.
  unfold round. cbn [net_main]. change (net_dequeue =? EAGAIN) with false. cbv iota.
  destruct (work 9 n_peers now now now n) as [[[ret n2]|]| |]; cbn [mbind outcome_bind]; try done.
  destruct (ret =? 0); [|done]. intros E. ok_inv E. by rewrite E0.
Qed.

(** ** Sending *)

Lemma sent_fake_packet_frame (mbuf rnd r : Z) (n n' : net Q C) :
  sent_fake_packet mtod mbuf rnd n = Ok (r, n') ->
  bench (wld n') = bench (wld n) /\ coros (wld n') = coros (wld n)
  /\ pop_head (rx n') = u32 (pop_head (rx n) + 1) /\ pop_tail (rx n') = pop_tail (rx n).
Proof. unfold sent_fake_packet. intros E. ok_inv E. done. Qed.

Lemma rx_one_frame (cur b b' : Z) w w' r r' :
  rx_one (Q := Q) (C := C) cur w r b = Ok (Some (w', r', b')) ->
  coros w' = coros w /\ bench w' = bench w /\ pop_head r' = pop_head r.
Proof.
  unfold rx_one. intros E. ok_inv E; try done.
  match goal with H : match ?o with _ => _ end = _ |- _ => destruct o end; ok_inv E; by simplify_eq/=.
Qed.

(** The head of the ring counts the packets sent. *)
Lemma head_counts n_peers (n0 n : net Q C) sent :
  pop_head (rx n0) = 0 -> rtc (prog_step mtod uctx_main n_peers) (n0, []) (n, sent) ->
  pop_head (rx n) = Z.of_nat (length sent).
Proof.
  intros H0 Hr.
  refine (rtc_ind_r (fun y => pop_head (rx y.1) = Z.of_nat (length y.2)) (n0, []) H0 _ (n, sent) Hr).
  intros [n1 sent1] [n2 sent2] _ Hyz IH; simpl in *.
  inversion Hyz; subst; simpl in *; try done.
  - match goal with H : sent_fake_packet _ _ _ _ = _ |- _ =>
      destruct (sent_fake_packet_frame _ _ _ _ _ H) as (_ & _ & -> & _) end.
    rewrite length_app. simpl. rewrite IH in *. rewrite u32_id; lia.
  - match goal with H : rx_one _ _ _ _ = _ |- _ =>
      destruct (rx_one_frame _ _ _ _ _ _ _ H) as (_ & _ & ->) end. done.
Qed.

Lemma booted_head (n0 : net Q C) : booted n0 -> pop_head (rx n0) = 0.
Proof. by intros (? & ? & ? & ? & ? & _ & _ & _ & _ & _ & _ & ->). Qed.

(** With at most 128 packets sent, there is room for each. *)
Lemma send_room n_peers (n0 n : net Q C) sent mbuf rnd :
  booted n0 -> (n_peers < MAX_WORKERS)%nat ->
  rtc (prog_step mtod uctx_main n_peers) (n0, []) (n, sent) -> (length sent < 128)%nat -> mbuf <> NULL ->
  exists n' s, sent_fake_packet mtod mbuf rnd n = Ok (0, n')
    /\ prog_step mtod uctx_main n_peers (n, sent) (n', sent ++ [mbuf])
    /\ rrel (rx n) (s_ring s) /\ rrel (rx n') (s_ring s ++ [mbuf]).
Proof.
  intros Hb Hp Hr Hl Hm. destruct (booted_run _ _ _ _ _ _ Hb Hp Hr) as (s & _ & Hn & Hs & _).
  pose proof (head_counts _ _ _ _ (booted_head _ Hb) Hr) as Hh.
  pose proof (tasks_le_sent _ _ (dr_inv _ _ (wl_d _ _ _ (nl_w _ _ _ Hn)))) as Ht. rewrite Hs in Ht.
  pose proof (rr_head _ _ (nl_rx _ _ _ Hn)) as Hrr.
  destruct (sent_fake_packet_sim mtod n s mbuf rnd) as (n' & E & Hn' & _); [done|done|lia|lia|].
  exists n', s. split_and!; [done| |apply Hn|apply Hn'].
  econstructor; [done|unfold INBOUND_Q_LEN; lia|lia|done].
Qed.

Definition mbufs (draw : Z -> Z * Z) (i : Z) (k : nat) : list Z := (fun j => (draw j).1) <$> seqZ i (Z.of_nat k).

Lemma mbufs_length draw i k : length (mbufs draw i k) = k.
Proof. unfold mbufs. rewrite length_fmap, length_seqZ. lia. Qed.

Lemma create_packets_steps n_peers (n0 : net Q C) draw k i n sent :
  booted n0 -> (n_peers < MAX_WORKERS)%nat -> (forall i, (draw i).1 <> NULL) ->
  rtc (prog_step mtod uctx_main n_peers) (n0, []) (n, sent) -> (length sent + k <= 128)%nat ->
  exists n', create_packets k i draw n = Ok n'
    /\ rtc (prog_step mtod uctx_main n_peers) (n0, []) (n', sent ++ mbufs draw i k)
    /\ bench (wld n') = bench (wld n) /\ coros (wld n') = coros (wld n).
Proof.
  intros Hb Hp Hd. revert i n sent. induction k as [|k IH]; intros i n sent Hr Hl; cbn [create_packets].
  { exists n. unfold mbufs. simpl. by rewrite app_nil_r. }
  destruct (send_room n_peers n0 n sent (draw i).1 (draw i).2) as (n1 & s & E & Hstep & _); [done..|lia|done|].
  destruct (sent_fake_packet_frame _ _ _ _ _ E) as (Eb & Ec & _).
  rewrite E. cbn [mbind outcome_bind].
  destruct (IH (i + 1) n1 (sent ++ [(draw i).1])) as (n' & E' & Hr' & Eb' & Ec').
  - eapply rtc_r; [exact Hr|exact Hstep].
  - rewrite length_app. simpl. lia.
  - exists n'. split_and!; [done| |congruence|congruence].
    unfold mbufs. rewrite seqZ_cons by lia. csimpl.
    rewrite <- app_assoc in Hr'. unfold mbufs in Hr'.
    replace (Z.succ i) with (i + 1) by lia. by replace (Z.pred (Z.of_nat (S k))) with (Z.of_nat k) by lia.
Qed.

(** ** The counters of the benchmark *)

(** Nothing has run before the clock was started at or after [t0]; the counters
    agree, and the hundredth request has stopped the clock, not after [last]. *)
Record clock_ok (t0 last : Z) (w : world Q C) : Prop := {
  ck_none : IS_FIRST_PACKET (bench w) = false ->
    coros w = ∅ /\ TEST_TOTAL_PACKETS_COUNTER (bench w) = 0 /\ TEST_FINISHED (bench w) = false;
  ck_start : IS_FIRST_PACKET (bench w) = true -> t0 <= TEST_START_TIME (bench w) <= last;
  ck_stop : TEST_TOTAL_PACKETS_COUNTER (bench w) = BENCHMARK_STOP_AT_PACKET -> TEST_FINISHED (bench w) = true;
  ck_end : TEST_FINISHED (bench w) = true -> TEST_START_TIME (bench w) <= TEST_END_TIME (bench w) <= last;
  ck_kinds : 0 <= TEST_RCVD_SMALL_PACKETS (bench w) /\ 0 <= TEST_RCVD_BIG_PACKETS (bench w)
    /\ TEST_RCVD_SMALL_PACKETS (bench w) + TEST_RCVD_BIG_PACKETS (bench w) = TEST_TOTAL_PACKETS_COUNTER (bench w)
}.

Lemma clock_ok_frame t0 last w w' :
  coros w' = coros w -> bench w' = bench w -> clock_ok t0 last w -> clock_ok t0 last w'.
Proof. intros Ec Eb []. split; by rewrite ?Ec, ?Eb. Qed.

Lemma clock_ok_later t0 last now w : last <= now -> clock_ok t0 last w -> clock_ok t0 now w.
Proof. intros Hl [H1 H2 H3 H4 H5]. split; try done; intros H; [specialize (H2 H)|specialize (H4 H)]; lia. Qed.

Lemma clock_read t0 last w :
  clock_ok t0 last w -> TEST_TOTAL_PACKETS_COUNTER (bench w) = BENCHMARK_STOP_AT_PACKET ->
  t0 <= TEST_START_TIME (bench w) <= TEST_END_TIME (bench w) /\ TEST_END_TIME (bench w) <= last.
Proof.
  intros Hk Ht. pose proof (ck_stop _ _ _ Hk Ht) as Hfin. pose proof (ck_end _ _ _ Hk Hfin).
  destruct (IS_FIRST_PACKET (bench w)) eqn:Ef; [pose proof (ck_start _ _ _ Hk Ef); lia|].
  destruct (ck_none _ _ _ Hk Ef) as (_ & _ & ?). congruence.
Qed.

Lemma booted_clock t0 (n0 : net Q C) : booted n0 -> clock_ok t0 t0 (wld n0).
Proof. intros (? & ? & ? & ? & ? & _ & _ & _ & _ & _ & _ & ->). by split. Qed.

Lemma set_thread_frame id t w w' :
  set_thread (Q := Q) (C := C) id t w = Ok w' -> coros w' = coros w /\ bench w' = bench w.
Proof. unfold set_thread. intros E. by ok_inv E. Qed.

Lemma set_link_frame c link w w' :
  set_link (Q := Q) (C := C) c link w = Ok w' -> coros w' = coros w /\ bench w' = bench w.
Proof. unfold set_link. intros E. by ok_inv E. Qed.

Lemma first_packet_clock t0 last now w :
  t0 <= last <= now -> clock_ok t0 last w ->
  clock_ok t0 now (set_bench (first_packet now (bench w)) w)
  /\ IS_FIRST_PACKET (first_packet now (bench w)) = true.
Proof.
  intros Hl Hc. unfold first_packet. destruct (IS_FIRST_PACKET (bench w)) eqn:Ef; simpl.
  - split; [|done]. apply (clock_ok_later _ last); [lia|]. eapply clock_ok_frame; [| |exact Hc]; done.
  - destruct Hc as [H1 H2 H3 H4 H5]. destruct (H1 Ef) as (_ & _ & Hf). split; [|done].
    split; simpl; try done; [lia|congruence].
Qed.

Lemma run_handler_clock id now c req k i j t0 w w' :
  run_handler (Q := Q) (C := C) id now c req k i j w = Ok w' ->
  IS_FIRST_PACKET (bench w) = true -> 0 <= TEST_TOTAL_PACKETS_COUNTER (bench w) < BENCHMARK_STOP_AT_PACKET + 1 ->
  clock_ok t0 now w -> clock_ok t0 now w'.
Proof.
  intros E Hf Ht [H1 H2 H3 H4 H5]. unfold run_handler in E. destruct (work_loop k i j) as [[i' j']|].
  { injection E as <-. split; simpl; try done. congruence. }
  destruct (db w !! req) as [type|]; [|done]. ok_inv E.
  destruct (set_thread_frame _ _ _ _ E1) as [_ Eb]. specialize (H2 Hf). unfold BENCHMARK_STOP_AT_PACKET in *.
  split; simpl; rewrite Eb; unfold work_end; simpl.
  - congruence.
  - done.
  - intros Hs. by rewrite (proj2 (Z.eqb_eq _ _) Hs).
  - destruct (Z.eqb_spec (u64 (TEST_TOTAL_PACKETS_COUNTER (bench w) + 1)) BENCHMARK_STOP_AT_PACKET); [lia|done].
  - destruct ((type =? DB_GET) || (type =? DB_PUT)); rewrite !u64_id by lia; lia.
Qed.

Lemma worker_iter_clock id now t0 last w w' :
  worker_iter mtod uctx_main id now w = Ok w' -> t0 <= last <= now ->
  0 <= TEST_TOTAL_PACKETS_COUNTER (bench w) < BENCHMARK_STOP_AT_PACKET + 1 ->
  clock_ok t0 last w -> clock_ok t0 now w'.
Proof.
  unfold worker_iter. intros E Hl Ht Hc. apply bind_Ok_inv in E as (rqs & _ & E).
  apply bind_Ok_inv in E as (rq & _ & E). apply bind_Ok_inv in E as (w1 & E1 & E).
  assert (Hfr : coros w' = coros w1 /\ bench w' = bench w1) by (unfold finish_request in E; by ok_inv E).
  destruct Hfr as [Fc Fb]. eapply clock_ok_frame; [exact Fc|exact Fb|]. clear E Fc Fb w'.
  set (wa := set_dst _ w) in *. assert (Hca : clock_ok t0 last wa) by (by eapply clock_ok_frame; [| |exact Hc]).
  destruct (dr_category rq =? PACKET).
  - destruct (first_packet_clock t0 last now wa Hl Hca) as [Hcb Hfb].
    unfold handle_fake_new_packet in E1. apply bind_Ok_inv in E1 as (rq1 & _ & E1).
    apply bind_Ok_inv in E1 as (w2 & E2 & E1). apply bind_Ok_inv in E1 as (w3 & E3 & E1).
    destruct (set_link_frame _ _ _ _ E2) as [Ec2 Eb2]. destruct (set_thread_frame _ _ _ _ E3) as [Ec3 Eb3].
    unfold swap_to in E1. rewrite Ec3 in E1. simpl in E1. rewrite lookup_insert_eq in E1.
    assert (Eb : bench w3 = first_packet now (bench wa)) by (rewrite Eb3; simpl; by rewrite Eb2).
    eapply run_handler_clock; [exact E1|by rewrite Eb| |].
    + rewrite Eb. unfold first_packet. by destruct (IS_FIRST_PACKET (bench wa)).
    + destruct Hcb as [H1 H2 H3 H4 H5]. simpl in *. split; rewrite Eb; try done. congruence.
  - unfold handle_context in E1. apply bind_Ok_inv in E1 as (rq1 & _ & E1).
    apply bind_Ok_inv in E1 as (w2 & E2 & E1). apply bind_Ok_inv in E1 as (w3 & E3 & E1).
    destruct (set_thread_frame _ _ _ _ E2) as [Ec2 Eb2]. destruct (set_link_frame _ _ _ _ E3) as [Ec3 Eb3].
    assert (Hc3 : clock_ok t0 now w3).
    { apply (clock_ok_later _ last); [lia|]. eapply clock_ok_frame; [| |exact Hca]; congruence. }
    assert (Hf : IS_FIRST_PACKET (bench w3) = true).
    { destruct (IS_FIRST_PACKET (bench w3)) eqn:Ef; [done|]. destruct (ck_none _ _ _ Hc3 Ef) as [Hn _].
      unfold swap_to in E1. by rewrite Hn, lookup_empty in E1. }
    assert (Ht3 : bench w3 = bench w) by (rewrite Eb3, Eb2; done).
    unfold swap_to in E1. destruct (coros w3 !! dr_rnbl rq1) as [[req|req i k|]|]; try done;
      eapply run_handler_clock; try done; by rewrite Ht3.
Qed.

(** The counter stays below the limit as long as no more requests are sent. *)
Lemma total_le_sent w s :
  wrel mtod w s -> (length (s_sent s) <= 100)%nat ->
  0 <= TEST_TOTAL_PACKETS_COUNTER (bench w) < BENCHMARK_STOP_AT_PACKET + 1
  /\ TEST_TOTAL_PACKETS_COUNTER (bench w) = Z.of_nat (s_ended s).
Proof.
  intros Hw Hl. pose proof (ended_le_sent _ _ (dr_inv _ _ (wl_d _ _ _ Hw))) as He.
  rewrite (wl_total _ _ _ Hw), u64_id by lia. unfold BENCHMARK_STOP_AT_PACKET. lia.
Qed.

Lemma workers_pass_clock k i now t0 last w w' s :
  workers_pass mtod uctx_main k i now w = Ok w' -> 0 <= i -> i + Z.of_nat k <= Z.of_nat MAX_WORKERS ->
  wrel mtod w s -> (length (s_sent s) <= 100)%nat -> t0 <= last <= now ->
  clock_ok t0 last w -> clock_ok t0 now w'.
Proof.
  revert i last w s. induction k as [|k IH]; intros i last w s E Hi Hk Hw Hs Hl Hc; cbn [workers_pass] in E.
  { injection E as <-. apply (clock_ok_later _ last); [lia|done]. }
  apply bind_Ok_inv in E as (rq & Hrq & E). apply bind_Ok_inv in E as (w1 & E1 & E).
  destruct (Z.eqb_spec (dr_flag rq) WAITING) as [Hf|Hf].
  - injection E1 as <-. eapply (IH (i + 1)); [exact E|lia|lia|exact Hw|done..].
  - apply arr_get_Ok in Hrq as [_ Hrq].
    destruct (active_assigned mtod w s i rq) as [t Ht]; [done|lia|done|done|].
    destruct (worker_iter_sim mtod uctx_main w s i now t Hi Hw Ht) as (w2 & E2 & Hw2 & _).
    rewrite E2 in E1. injection E1 as <-.
    destruct (slice_frame (Z.to_nat i) s) as (_ & _ & Es & _).
    eapply (IH (i + 1) now); [exact E|lia|lia|exact Hw2|by rewrite Es|lia|].
    eapply worker_iter_clock; [exact E2|done| |done]. by apply (total_le_sent w s).
Qed.

Lemma rx_loop_frame fuel cur w r b w' r' b' :
  rx_loop (Q := Q) (C := C) fuel cur w r b = Ok (Some (w', r', b')) -> coros w' = coros w /\ bench w' = bench w.
Proof.
  revert w r b. induction fuel as [|fuel IH]; intros w r b E; cbn [rx_loop] in E; [done|].
  apply bind_Ok_inv in E as ([[[w1 r1] b1]|] & E1 & E); [|by simplify_eq].
  destruct (rx_one_frame _ _ _ _ _ _ _ E1) as (<- & <- & _). by apply IH in E.
Qed.

Lemma work_frame fuel n_peers now tsc0 tsc1 (n n' : net Q C) ret :
  work fuel n_peers now tsc0 tsc1 n = Ok (Some (ret, n')) ->
  coros (wld n') = coros (wld n) /\ bench (wld n') = bench (wld n).
Proof.
  unfold work. destruct (_ && _); [by intros [= <- <-]|]. intros E.
  apply bind_Ok_inv in E as ([r d] & _ & E). apply bind_Ok_inv in E as (u & _ & E).
  apply bind_Ok_inv in E as ([[[w2 r2] b2]|] & E2 & E); [|done]. injection E as <- <-.
  by apply rx_loop_frame in E2.
Qed.

(** ** The end of the run *)

Lemma round_clock n_peers now t0 last n n' s :
  round mtod uctx_main n_peers now n = Ok (Some n') -> nrel mtod n s -> (n_peers < MAX_WORKERS)%nat ->
  (length (s_sent s) <= 100)%nat -> (length (s_sent s) <= n_cap n)%nat -> (s_ended s < 100)%nat ->
  in_time now (bench (wld n)) -> t0 <= last <= now ->
  clock_ok t0 last (wld n) -> clock_ok t0 now (wld n').
Proof.
  intros E Hn Hp Hs Hcap He Ht Hl Hc. unfold round in E.
  apply bind_Ok_inv in E as ([[ret n1]|] & E1 & E); [|done].
  destruct (work_frame _ _ _ _ _ _ _ _ E1) as [Fc Fb].
  destruct (ret =? 0) eqn:Er; [|done]. apply Z.eqb_eq in Er as ->.
  apply bind_Ok_inv in E as (w2 & E2 & E). injection E as <-.
  pose proof (dr_inv _ _ (wl_d _ _ _ (nl_w _ _ _ Hn))) as Hi.
  pose proof (tasks_le_sent _ _ (sp_inv_dispatch_all _ n_peers 1 _ Hi)) as Htl.
  destruct (dispatch_all_frame n_peers 1 s) as (Er & _ & Es & _). rewrite Er, Es in Htl.
  destruct (work_sim mtod 9 n_peers now now now n s) as (n2 & s2 & E3 & Hrx & Hn2 & _).
  - done.
  - done.
  - lia.
  - by apply (in_time_runs mtod now n s).
  - unfold rx_need in *. lia.
  - rewrite E3 in E1. injection E1 as <-. destruct (rx_steps_slots _ _ _ _ Hrx) as (_ & Es2 & _).
    eapply (workers_pass_clock n_peers 1 now t0 last); [exact E2|lia|lia|apply Hn2| |done|].
    + rewrite Es2, Es. done.
    + by eapply clock_ok_frame; [exact Fc|exact Fb|].
Qed.

(** The run leaves the loop of the net worker once the last request has ended. *)
Lemma net_main_leaves n_peers now nows n :
  IS_FIRST_PACKET (bench (wld n)) = true -> TEST_FINISHED (bench (wld n)) = true ->
  net_main n_peers (now :: nows) n = Ok (Some n).
Proof. intros Hf Ht. cbn [net_main]. change (net_dequeue =? EAGAIN) with false. unfold work. by rewrite Hf, Ht. Qed.

Lemma net_main_ends n_peers nows t0 last n s :
  nrel mtod n s -> workers_ok n_peers s -> (1 <= n_peers < MAX_WORKERS)%nat ->
  length (s_sent s) = 100%nat -> (100 <= n_cap n)%nat -> (s_ended s < 100)%nat ->
  0 <= t0 -> t0 <= last -> clocked t0 last nows -> clock_ok t0 last (wld n) -> (weight s < length nows)%nat ->
  exists n' s' stop, net_main n_peers nows n = Ok (Some n') /\ nrel mtod n' s' /\ s_sent s' = s_sent s
    /\ s_ended s' = 100%nat /\ (length (s_freed s') < 100)%nat
    /\ clock_ok t0 stop (wld n') /\ stop - t0 <= BENCHMARK_DURATION_US.
Proof.
  revert last n s. induction nows as [|now nows IH];
    intros last n s Hn Hwo Hp Hs Hcap He H0 Hl Hclk Hc Hw; [simpl in Hw; lia|].
  destruct Hclk as (Hlast & Hd & Hclk).
  pose proof (dr_inv _ _ (wl_d _ _ _ (nl_w _ _ _ Hn))) as Hi.
  assert (Ht : in_time now (bench (wld n))).
  { intros Hf. pose proof (ck_start _ _ _ Hc Hf). lia. }
  destruct (round_sim mtod uctx_main n_peers now n s) as (n1 & s1 & E & Hrnd & Hn1 & Hc1 & _); try done; [lia|].
  destruct (sp_round_frame _ _ _ _ _ _ Hi Hwo Hrnd) as (Es & Hwo1 & _).
  pose proof (sp_round_freed _ _ _ _ _ _ Hi Hrnd) as Hfr.
  assert (Hdec : (weight s1 < weight s)%nat).
  { destruct (round_decreases _ _ _ _ _ _ Hi Hwo (proj1 Hp) Hrnd) as [|Hz]; [|done|].
    - unfold rx_need, MAX_RX_BURST. destruct (s_ring s); simpl; [done|lia].
    - pose proof (weight_0_ended _ _ Hi Hz). lia. }
  assert (Hk1 : clock_ok t0 now (wld n1)).
  { eapply (round_clock n_peers now t0 last n n1 s); try done; lia. }
  rewrite (net_main_round _ _ _ _ _ E). cbn [length] in Hw.
  pose proof (ended_le_sent _ _ (dr_inv _ _ (wl_d _ _ _ (nl_w _ _ _ Hn1)))) as Hle. rewrite Es in Hle.
  destruct (decide (s_ended s1 = 100%nat)) as [He1|He1].
  - destruct nows as [|now' nows]; [simpl in Hw; lia|].
    destruct (total_le_sent (wld n1) s1) as [_ Htot]; [apply Hn1|rewrite Es; lia|].
    assert (Hfin : TEST_FINISHED (bench (wld n1)) = true).
    { apply (ck_stop _ _ _ Hk1). rewrite Htot, He1. done. }
    assert (Hf : IS_FIRST_PACKET (bench (wld n1)) = true).
    { destruct (IS_FIRST_PACKET (bench (wld n1))) eqn:Ef; [done|].
      destruct (ck_none _ _ _ Hk1 Ef) as (_ & _ & Hx). congruence. }
    exists n1, s1, now. rewrite net_main_leaves by done. split_and!; try done. lia.
  - destruct (IH now n1 s1) as (n' & s' & stop & E' & Hn' & Es' & H); try done; try lia; [congruence|].
    exists n', s', stop. split_and!; try done; [congruence|apply H..].
Qed.

(** The whole run.  Within seven passes for each packet the loop is left, and then
    every request has run to its end and is counted, as small or as big; the time
    taken is that between the first request and the last; the ring and the queue
    are empty.  Some requests have ended, but their packets and contexts are not
    given back: the net worker leaves without collecting them. *)
Lemma benchmark_runs n_peers draw nows t0 (n0 : net Q C) :
  booted n0 -> (1 <= n_peers < MAX_WORKERS)%nat -> (BENCHMARK_CREATE_NO_PACKET <= n_cap n0)%nat ->
  (forall i, (draw i).1 <> NULL) -> 0 <= t0 -> clocked t0 t0 nows ->
  (7 * BENCHMARK_CREATE_NO_PACKET < length nows)%nat ->
  exists n1 n' left ctxs,
    create_packets BENCHMARK_CREATE_NO_PACKET 0 draw n0 = Ok n1
    /\ net_main n_peers nows n1 = Ok (Some n')
    /\ TEST_TOTAL_PACKETS_COUNTER (bench (wld n')) = 100
    /\ TEST_RCVD_SMALL_PACKETS (bench (wld n')) + TEST_RCVD_BIG_PACKETS (bench (wld n')) = 100
    /\ 0 <= TEST_END_TIME (bench (wld n')) - TEST_START_TIME (bench (wld n')) <= BENCHMARK_DURATION_US
    /\ pop_head (rx n') = pop_tail (rx n') /\ tq_model (tskq (dst (wld n'))) []
    /\ freed (dst (wld n')) ++ left ≡ₚ mbufs draw 0 BENCHMARK_CREATE_NO_PACKET /\ left <> []
    /\ ctx_model (ctxm (dst (wld n'))) ctxs /\ size ctxs = length left.
Proof.
  intros Hb Hp Hcap Hd H0 Hclk Hlen. unfold BENCHMARK_CREATE_NO_PACKET in *.
  destruct (create_packets_steps n_peers n0 draw 100 0 n0 [])
    as (n1 & E1 & Hr & Eb & Ec); [done|lia|done|apply rtc_refl|simpl; lia|].
  destruct (booted_run _ _ _ _ _ _ Hb (proj2 Hp) Hr) as (s1 & _ & Hn1 & Hs1 & Hc1 & Hwo).
  pose proof (booted_clock t0 n0 Hb) as Hk0.
  assert (Hk : clock_ok t0 t0 (wld n1)) by (by eapply clock_ok_frame; [exact Ec|exact Eb|]).
  assert (Hl1 : length (s_sent s1) = 100%nat) by (rewrite Hs1; apply mbufs_length).
  pose proof (dr_inv _ _ (wl_d _ _ _ (nl_w _ _ _ Hn1))) as Hi1.
  assert (He1 : s_ended s1 = 0%nat).
  { destruct (total_le_sent (wld n1) s1) as [_ Ht]; [apply Hn1|lia|]. rewrite Eb in Ht.
    destruct Hb as (? & ? & ? & ? & ? & _ & _ & _ & _ & _ & _ & ->). simpl in Ht. lia. }
  destruct (net_main_ends n_peers nows t0 t0 n1 s1)
    as (n' & s' & stop & E & Hn' & Es & He & Hf & Hk' & Hstop); try done; try lia.
  { pose proof (weight_le_sent _ _ Hi1). lia. }
  pose proof (wl_d _ _ _ (nl_w _ _ _ Hn')) as Hdr. pose proof (dr_inv _ _ Hdr) as Hi.
  destruct (all_ended _ _ Hi) as [Ering Eq]; [rewrite Es; lia|].
  destruct (total_le_sent (wld n') s') as [_ Htot]; [apply Hn'|rewrite Es; lia|].
  pose proof (si_conserve _ _ Hi) as Hcons. rewrite Ering, Es, Hs1 in Hcons. cbn [app] in Hcons.
  pose proof (clock_read t0 stop (wld n') Hk' ltac:(by rewrite Htot, He)) as Htime.
  exists n1, n', (t_mbuf <$> tasks_of s'), (list_to_set (t_ctx <$> tasks_of s')).
  split_and!.
  - exact E1.
  - exact E.
  - by rewrite Htot, He.
  - destruct (ck_kinds _ _ _ Hk') as (_ & _ & ->). by rewrite Htot, He.
  - lia.
  - lia.
  - pose proof (rr_head _ _ (nl_rx _ _ _ Hn')) as Hh. rewrite Ering in Hh. simpl in Hh. lia.
  - pose proof (dr_queue _ _ Hdr) as Htq. by rewrite Eq in Htq.
  - rewrite (dr_freed _ _ Hdr), Hcons. apply Permutation_app_comm.
  - intros Hnil. rewrite Hnil in Hcons. apply Permutation_length in Hcons.
    rewrite mbufs_length in Hcons. simpl in Hcons. lia.
  - apply (dr_ctx _ _ Hdr).
  - rewrite size_list_to_set by apply (si_ctx _ _ Hi). by rewrite !length_fmap.
Qed.

End benchmark.

(** C20. The packets of the benchmark always find room: whatever the interleaving
    of the threads, as long as fewer packets have been sent than [main] sends in
    all, its next call puts a packet behind those in the ring, overwrites none
    of them, and is a step of the program. *)
Theorem benchmark_packets_fit {Q C : Type} {QO : TaskQueueOps Q} {QL : TaskQueueLaws Q} {CO : ContextOps C}
    {CL : ContextLaws C} mtod uctx_main n_peers (n0 n : net Q C) sent mbuf rnd :
  booted n0 -> (n_peers < MAX_WORKERS)%nat ->
  rtc (prog_step mtod uctx_main n_peers) (n0, []) (n, sent) ->
  (length sent < BENCHMARK_CREATE_NO_PACKET)%nat -> mbuf <> NULL ->
  exists n' ring, sent_fake_packet mtod mbuf rnd n = Ok (0, n')
    /\ prog_step mtod uctx_main n_peers (n, sent) (n', sent ++ [mbuf])
    /\ rrel (rx n) ring /\ rrel (rx n') (ring ++ [mbuf]).
Proof.
  intros Hb Hp Hr Hl Hm. unfold BENCHMARK_CREATE_NO_PACKET in Hl.
  destruct (send_room mtod uctx_main n_peers n0 n sent mbuf rnd) as (n' & s & H); [done..|lia|done|].
  by exists n', (s_ring s).
Qed.

(** *** Witnesses: the pools of the program *)

Definition bench_pools : pools := fresh_pools (fun k _ => Z.of_nat (S k) * 2 ^ 32) 968.

Lemma bench_booted :
  exists n0 : net (tmem Mempool.mempool * task_queue) (cmem Mempool.mempool),
    booted n0 /\ (128 <= n_cap n0)%nat.
Proof.
  destruct (mapped_exists bench_pools) as (tasks & ctxs & words & Hm).
  destruct (start_booted (1 * 2 ^ 32) (5 * 2 ^ 32) (7 * 2 ^ 32) TASK_CAPACITY sizeof_task 968 bench_pools
    tasks ctxs words (replicate 128 0) [0; 1]) as (d & _ & Hb & Hn); try done.
  exists (boot (replicate 128 0) d). split; [done|]. unfold TASK_CAPACITY in Hn. lia.
Qed.

Lemma clocked_seqZ t0 last a k :
  t0 <= last <= a -> a + Z.of_nat k - t0 <= BENCHMARK_DURATION_US -> clocked t0 last (seqZ a (Z.of_nat k)).
Proof.
  revert last a. induction k as [|k IH]; intros last a Hl Hd; [done|].
  rewrite seqZ_cons by lia. replace (Z.pred (Z.of_nat (S k))) with (Z.of_nat k) by lia.
  cbn [clocked]. split_and!; [lia|lia|lia|]. apply IH; lia.
Qed.

Lemma benchmark_packets_fit_witness :
  exists (n0 : net (tmem Mempool.mempool * task_queue) (cmem Mempool.mempool)) n' ring,
    sent_fake_packet (fun m => m) 5000 1 n0 = Ok (0, n') /\ rrel (rx n') (ring ++ [5000]).
Proof.
  destruct bench_booted as (n0 & Hb & _).
  destruct (benchmark_packets_fit (fun m => m) (fun _ => 0) 2 n0 n0 [] 5000 1 Hb) as (n' & ring & E & _ & _ & Hr).
  - unfold MAX_WORKERS. lia.
  - apply rtc_refl.
  - unfold BENCHMARK_CREATE_NO_PACKET. simpl. lia.
  - discriminate.
  - exists n0, n', ring. split; [exact E|exact Hr].
Defined.
