(* ===== verification/Checksum.v ===== *)
(** * Checksum: the internet checksum

    Models [src/include/asm/chksum.h]: [chksum_internet], written in assembly
    with 64-bit additions and the carry flag, one Rocq step per instruction,
    and shows that it is the 16-bit one's complement sum of RFC 1071. *)
From S2P Require Import Prelude Bytes.

Module Checksum.

(** [add] and [adc] on [w]-bit operands: the result and the carry flag. *)
Definition adc (w x y : Z) (cf : bool) : Z * bool :=
  let s := x + y + Z.b2z cf in (s mod 2 ^ w, 2 ^ w <=? s).

(** Lines 1 to [jne 1b]: [edx] words of eight bytes; [leaq] and [decl] leave
    the carry flag alone. *)
Fixpoint words_loop (edx : nat) (buf : list Z) (p sum : Z) (cf : bool) : outcome (Z * Z * bool) :=
  match edx with
  | O => Ok (p, sum, cf)
  | S edx =>
    x ← load 8 buf p;
    let '(sum, cf) := adc 64 sum x cf in
    words_loop edx buf (p + 8) sum cf
  end.

(** One of the blocks 2, 3 and 4: when bit [n] of the length is set, [n] bytes
    are added with the carry. *)
Definition tail_step (n : nat) (len : Z) (buf : list Z) (p sum : Z) : outcome (Z * Z) :=
  if Z.land len (Z.of_nat n) =? 0 then Ok (p, sum)
  else
    rdx ← load n buf p;
    let '(sum, cf) := adc 64 sum rdx false in
    let '(sum, _) := adc 64 sum 0 cf in
    Ok (p + Z.of_nat n, sum).

(** Block 5: [addl] works on the low halves and clears the upper one, [addw]
    leaves the bits from 16 on alone, and the result is cut to 16 bits. *)
Definition fold16 (sum : Z) : Z :=
  let tmp := sum in
  let sum := Z.shiftr sum 32 in
  let '(sum, cf) := adc 32 (u32 sum) (u32 tmp) false in
  let '(sum, _) := adc 32 sum 0 cf in
  let tmp := sum in
  let sum := Z.shiftr (u32 sum) 16 in
  let '(low, cf) := adc 16 (u16 sum) (u16 tmp) false in
  let '(low, _) := adc 16 low 0 cf in
  u16 (Z.lnot low).

Definition chksum_internet (buf : list Z) (len : Z) : outcome Z :=
  let edx := Z.shiftr (u32 len) 3 in
  '(p, sum) ←
    (if edx =? 0 then Ok (0, 0)
     else
       '(p, sum, cf) ← words_loop (Z.to_nat edx) buf 0 0 false;
       Ok (p, (adc 64 sum 0 cf).1));
  '(p, sum) ← tail_step 4 len buf p sum;
  '(p, sum) ← tail_step 2 len buf p sum;
  '(_, sum) ← tail_step 1 len buf p sum;
  Ok (fold16 sum).

(** RFC 1071: the one's complement sum of the 16-bit words, the last byte
    padded with a zero byte, and its complement. *)
Definition onec_add (x y : Z) : Z := let s := x + y in s mod 2 ^ 16 + s / 2 ^ 16.

Fixpoint words16 (bs : list Z) : list Z :=
  match bs with
  | [] => []
  | [b] => [b]
  | b0 :: b1 :: bs => b0 + 256 * b1 :: words16 bs
  end.

Definition rfc1071 (bs : list Z) : Z := 2 ^ 16 - 1 - foldl onec_add 0 (words16 bs).

(** [onec k x a]: the [k]-bit one's complement number [x] stands for [a]. *)
Record onec (k x a : Z) : Prop := {
  oc_range : 0 <= x < 2 ^ k;
  oc_mod : exists q, a = x + q * (2 ^ k - 1);
  oc_nonneg : 0 <= a;
  oc_zero : x = 0 <-> a = 0
}.

Lemma pow2_gt_1 k : 0 < k -> 1 < 2 ^ k.
Proof. intros Hk. by apply Z.pow_gt_1. Qed.

Lemma onec_unique k x y a : 0 < k -> onec k x a -> onec k y a -> x = y.
Proof.
  intros Hk [X1 [q X2] _ X3] [Y1 [q' Y2] _ Y3].
  pose proof (pow2_gt_1 k Hk).
  set (P := 2 ^ k - 1) in *. assert (Hq : (q - q') * P = y - x) by lia.
  assert (-1 <= q - q' <= 1) by nia.
  assert (q - q' = 0 \/ q - q' = 1 \/ q - q' = -1) as [E|[E|E]] by lia; rewrite E in Hq; [lia| |];
    lia.
Qed.

Lemma onec_zero k : 0 <= k -> onec k 0 0.
Proof. intros Hk. pose proof (Z.pow_pos_nonneg 2 k). split; [lia|by exists 0|lia|tauto]. Qed.

Lemma onec_small k x : 0 <= x < 2 ^ k -> onec k x x.
Proof. intros Hx. split; [done|exists 0; lia|lia|tauto]. Qed.

(** Addition with the carry put back in. *)
Lemma onec_plus k x y a b c :
  0 < k -> onec k x a -> onec k y b ->
  (c = (x + y) mod 2 ^ k + (x + y) / 2 ^ k) -> onec k c (a + b).
Proof.
  intros Hk [X1 [q X2] X3 X4] [Y1 [q' Y2] Y3 Y4] ->.
  pose proof (pow2_gt_1 k Hk) as Hp.
  pose proof (Z.div_mod (x + y) (2 ^ k) ltac:(lia)) as Hd.
  pose proof (Z.mod_pos_bound (x + y) (2 ^ k) ltac:(lia)) as Hm.
  assert (0 <= (x + y) / 2 ^ k) by (apply Z.div_pos; lia).
  assert ((x + y) / 2 ^ k < 2) by (apply Z.div_lt_upper_bound; lia).
  set (m := (x + y) mod 2 ^ k) in *. set (d := (x + y) / 2 ^ k) in *.
  split; [nia|exists (q + q' + d); nia|lia|].
  split; intros E.
  - assert (x + y = 0) by nia. assert (x = 0 /\ y = 0) as [Ex Ey] by lia. tauto || lia.
  - assert (a = 0 /\ b = 0) as [Ea Eb] by lia. assert (x = 0 /\ y = 0) as [Ex Ey] by tauto.
    rewrite Ex, Ey in Hd. nia.
Qed.

(** The halves of a number added up. *)
Lemma onec_halve k x a c :
  0 < k -> onec (2 * k) x a ->
  (c = (x / 2 ^ k + x mod 2 ^ k) mod 2 ^ k + (x / 2 ^ k + x mod 2 ^ k) / 2 ^ k) -> onec k c a.
Proof.
  intros Hk [X1 [q X2] X3 X4] Hc.
  pose proof (pow2_gt_1 k Hk) as Hp.
  replace (2 ^ (2 * k)) with (2 ^ k * 2 ^ k) in * by (rewrite <- Z.pow_add_r by lia; f_equal; lia).
  pose proof (Z.div_mod x (2 ^ k) ltac:(lia)) as Hd.
  pose proof (Z.mod_pos_bound x (2 ^ k) ltac:(lia)) as Hm.
  assert (0 <= x / 2 ^ k < 2 ^ k) by (split; [apply Z.div_pos; lia|apply Z.div_lt_upper_bound; lia]).
  destruct (onec_plus k (x / 2 ^ k) (x mod 2 ^ k) (x / 2 ^ k) (x mod 2 ^ k) c Hk) as [C1 [q2 C2] C3 C4];
    [by apply onec_small..|done|].
  set (m := x mod 2 ^ k) in *. set (d := x / 2 ^ k) in *. set (P := 2 ^ k) in *.
  split; [done|exists (q2 + d + q * (P + 1)); nia|done|].
  rewrite C4, <- X4. nia.
Qed.

Lemma adc_spec w s x cf a b :
  0 < w -> 0 <= s -> onec w (s + Z.b2z cf) a -> onec w x b ->
  0 <= (adc w s x cf).1 /\ onec w ((adc w s x cf).1 + Z.b2z (adc w s x cf).2) (a + b).
Proof.
  intros Hw Hs Hv Hx. pose proof (pow2_gt_1 w Hw) as Hp.
  destruct (oc_range _ _ _ Hv) as [V1 V2]. destruct (oc_range _ _ _ Hx) as [W1 W2].
  cbn [adc fst snd]. split; [apply Z.mod_pos_bound; lia|].
  apply (onec_plus w (s + Z.b2z cf) x a b); [done..|].
  replace (s + x + Z.b2z cf) with (s + Z.b2z cf + x) by lia. f_equal.
  destruct (Z.leb_spec (2 ^ w) (s + Z.b2z cf + x)); simpl.
  - apply Z.div_unique with (s + Z.b2z cf + x - 2 ^ w); lia.
  - symmetry. apply Z.div_small. lia.
Qed.

Lemma adc_zero w s cf a : 0 < w -> 0 <= s -> onec w (s + Z.b2z cf) a -> (adc w s 0 cf).1 = s + Z.b2z cf.
Proof. intros Hw Hs [[_ Hr] _ _ _]. simpl. rewrite Z.add_0_r. apply Z.mod_small. destruct cf; simpl in *; lia. Qed.

(** Add without carry in, then add the carry. *)
Lemma adc_twice w x y :
  0 < w -> 0 <= x < 2 ^ w -> 0 <= y < 2 ^ w ->
  (adc w (adc w x y false).1 0 (adc w x y false).2).1 = (x + y) mod 2 ^ w + (x + y) / 2 ^ w.
Proof.
  intros Hw Hx Hy. pose proof (pow2_gt_1 w Hw) as Hp.
  destruct (adc_spec w x y false x y) as [H1 H2];
    [done|lia|rewrite Z.add_0_r; by apply onec_small|by apply onec_small|].
  rewrite (adc_zero _ _ _ _ Hw H1 H2). cbn [adc fst snd]. rewrite Z.add_0_r. f_equal.
  destruct (Z.leb_spec (2 ^ w) (x + y)); simpl.
  - apply Z.div_unique with (x + y - 2 ^ w); lia.
  - symmetry. apply Z.div_small. lia.
Qed.

(** *** The 16-bit words of a buffer *)

Definition sum16 (bs : list Z) : Z := foldr Z.add 0 (words16 bs).

(** Equal as sums of 16-bit words. *)
Record same16 (x y : Z) : Prop := {
  sm_mod : exists q, x = y + q * (2 ^ 16 - 1);
  sm_nonneg : 0 <= x /\ 0 <= y;
  sm_zero : x = 0 <-> y = 0
}.

Lemma same16_plus x y x' y' : same16 x y -> same16 x' y' -> same16 (x + x') (y + y').
Proof.
  intros [[q Hq] H1 H2] [[q' Hq'] H1' H2']. split; [exists (q + q'); lia|lia|].
  split; intros E; [assert (x = 0 /\ x' = 0) by lia|assert (y = 0 /\ y' = 0) by lia]; tauto || lia.
Qed.

Lemma onec_same16 x a b : onec 16 x a -> same16 a b -> onec 16 x b.
Proof.
  intros [H1 [q H2] H3 H4] [[q' H5] H6 H7]. split; [done|exists (q - q'); lia|lia|tauto].
Qed.

Lemma words16_app a b : Nat.Even (length a) -> words16 (a ++ b) = words16 a ++ words16 b.
Proof.
  intros [n Hn]. revert a Hn. induction n as [|n IH]; intros a Hn.
  - destruct a; simpl in Hn; [done|lia].
  - destruct a as [|x [|y a]]; simpl in Hn; [lia|lia|]. simpl. f_equal. apply IH. lia.
Qed.

Lemma sum16_app a b : Nat.Even (length a) -> sum16 (a ++ b) = sum16 a + sum16 b.
Proof.
  intros Ha. unfold sum16. rewrite words16_app by done. induction (words16 a) as [|x l IH]; simpl; lia.
Qed.

(** Bytes are taken in pairs. *)
Lemma bytes_ind (P : list Z -> Prop) :
  P [] -> (forall b, byte_ok b -> P [b]) ->
  (forall b0 b1 bs, byte_ok b0 -> byte_ok b1 -> Forall byte_ok bs -> P bs -> P (b0 :: b1 :: bs)) ->
  forall bs, Forall byte_ok bs -> P bs.
Proof.
  intros H0 H1 H2 bs. remember (length bs) as n eqn:En. revert bs En.
  induction n as [n IH] using lt_wf_ind. intros bs En Hb.
  destruct bs as [|b0 [|b1 bs]]; [done|inversion Hb; auto|].
  inversion Hb as [|??? Hb']; subst. inversion Hb'; subst.
  apply H2; [done..|]. eapply (IH (length bs)); [simpl; lia|done..].
Qed.

Lemma le_word_same16 bs : Forall byte_ok bs -> same16 (le_word bs) (sum16 bs).
Proof.
  revert bs. apply bytes_ind; unfold byte_ok.
  - split; [by exists 0|done|done].
  - intros b Hb. unfold le_word, sum16. cbn [words16 foldr]. split; [exists 0; lia|lia|lia].
  - intros b0 b1 bs H0 H1 _ [[q Hq] H2 H3]. unfold sum16 in *. cbn [le_word words16 foldr] in *.
    fold (le_word bs) in *. change (2 ^ 16) with 65536 in *.
    split; [exists (q + le_word bs); lia|lia|].
    split; intros E; [assert (le_word bs = 0) by lia|assert (foldr Z.add 0 (words16 bs) = 0) by lia];
      intuition lia.
Qed.

Lemma words16_range bs : Forall byte_ok bs -> Forall (fun x => 0 <= x < 2 ^ 16) (words16 bs).
Proof.
  revert bs. apply bytes_ind; unfold byte_ok; cbn [words16];
    change (2 ^ 16) with 65536; intros; repeat constructor; (lia || done).
Qed.

(** The reference sum is a one's complement number for the sum of the words. *)
Lemma rfc_sum bs : Forall byte_ok bs -> onec 16 (foldl onec_add 0 (words16 bs)) (sum16 bs).
Proof.
  intros Hb%words16_range. unfold sum16.
  assert (Hg : forall x a, onec 16 x a ->
    onec 16 (foldl onec_add x (words16 bs)) (a + foldr Z.add 0 (words16 bs))).
  { induction Hb as [|y l Hy _ IH]; intros x a Hx; simpl; [by rewrite Z.add_0_r|].
    rewrite Z.add_assoc. apply IH. eapply onec_plus; [done|exact Hx|by apply onec_small|done]. }
  apply (Hg 0 0). by apply onec_zero.
Qed.

(** *** The assembly *)

(** [v] stands for the words of the first [p] bytes. *)
Definition sum_upto (buf : list Z) (p v : Z) : Prop :=
  exists a, onec 64 v a /\ same16 a (sum16 (take (Z.to_nat p) buf)).

(** The part of the length above bit [j]. *)
Definition upto (j len : Z) : Z := 2 ^ j * (len / 2 ^ j).

Section sum.
Context (buf : list Z).
Hypothesis Hbytes : Forall byte_ok buf.

Lemma load_adds n p x :
  (n <= 8)%nat -> Z.Even p -> load n buf p = Ok x ->
  onec 64 x x /\ forall a, same16 a (sum16 (take (Z.to_nat p) buf)) ->
    same16 (a + x) (sum16 (take (Z.to_nat (p + Z.of_nat n)) buf)).
Proof.
  intros Hn [h Hp] Hl. pose proof (load_range n _ _ _ Hbytes Hl) as Hr.
  unfold load in Hl. case_decide as Hin; [|done]. injection Hl as <-. split.
  - apply onec_small. assert (2 ^ (8 * Z.of_nat n) <= 2 ^ 64) by (apply Z.pow_le_mono_r; lia). lia.
  - intros a Ha. replace (Z.to_nat (p + Z.of_nat n)) with (Z.to_nat p + n)%nat by lia.
    rewrite <- take_take_drop, sum16_app.
    + apply same16_plus; [done|]. apply le_word_same16. by apply Forall_take, Forall_drop.
    + rewrite length_take. exists (Z.to_nat h). lia.
Qed.

Lemma words_loop_ok edx p sum cf :
  Z.Even p -> 0 <= p -> p + 8 * Z.of_nat edx <= Z.of_nat (length buf) ->
  0 <= sum -> sum_upto buf p (sum + Z.b2z cf) ->
  exists sum' cf', words_loop edx buf p sum cf = Ok (p + 8 * Z.of_nat edx, sum', cf')
    /\ 0 <= sum' /\ sum_upto buf (p + 8 * Z.of_nat edx) (sum' + Z.b2z cf').
Proof.
  revert p sum cf. induction edx as [|edx IH]; intros p sum cf He Hp Hle Hs (a & Ha & Hsm).
  - exists sum, cf. replace (p + 8 * Z.of_nat 0) with p by lia. split_and!; [done..|by exists a].
  - destruct (load_is_Ok 8 buf p) as [x Hx]; [lia..|]. cbn [words_loop]. rewrite Hx. cbn [mbind outcome_bind].
    destruct (load_adds 8 p x) as [Hox Hadd]; [lia|done..|].
    destruct (adc_spec 64 sum x cf a x) as [H1 H2]; [done..|].
    destruct (adc 64 sum x cf) as [sum' cf']. cbn [fst snd] in *.
    replace (p + 8 * Z.of_nat (S edx)) with (p + 8 + 8 * Z.of_nat edx) by lia.
    apply IH; [|lia..|done|].
    + destruct He as [h ->]. exists (h + 4). lia.
    + exists (a + x). split; [done|]. by apply (Hadd a).
Qed.

Lemma tail_step_ok (n : nat) j len v :
  len = Z.of_nat (length buf) -> 0 <= j <= 2 -> Z.of_nat n = 2 ^ j -> (n <= 8)%nat ->
  sum_upto buf (upto (j + 1) len) v ->
  exists v', tail_step n len buf (upto (j + 1) len) v = Ok (upto j len, v') /\ sum_upto buf (upto j len) v'.
Proof.
  intros Hlen Hj Hn Hn8 Hv. unfold tail_step.
  assert (Hland : Z.land len (Z.of_nat n) = Z.b2z (Z.testbit len j) * 2 ^ j).
  { rewrite Hn. apply Z.bits_inj'. intros i Hi. rewrite Z.land_spec, Z.pow2_bits_eqb by lia.
    destruct (Z.eqb_spec j i) as [->|Hne].
    - rewrite andb_true_r. destruct (Z.testbit len i); cbn [Z.b2z]; [|by rewrite Z.bits_0].
      by rewrite Z.mul_1_l, Z.pow2_bits_true by lia.
    - rewrite andb_false_r. destruct (Z.testbit len j); cbn [Z.b2z]; [|by rewrite Z.bits_0].
      by rewrite Z.mul_1_l, Z.pow2_bits_false by lia. }
  assert (Hup : upto j len = upto (j + 1) len + Z.b2z (Z.testbit len j) * 2 ^ j).
  { unfold upto. rewrite Z.testbit_spec' by lia. rewrite Z.pow_add_r, <- Z.div_div by lia.
    pose proof (Z.div_mod (len / 2 ^ j) 2 ltac:(lia)). change (2 ^ 1) with 2. nia. }
  assert (Hle : upto j len <= len) by (unfold upto; apply Z.mul_div_le; lia).
  rewrite Hland. destruct (Z.testbit len j) eqn:Hbit; cbn [Z.b2z] in *.
  - rewrite (proj2 (Z.eqb_neq _ _)) by lia. destruct Hv as (a & Ha & Hsm).
    assert (0 <= upto (j + 1) len).
    { unfold upto. apply Z.mul_nonneg_nonneg; [lia|apply Z.div_pos; lia]. }
    destruct (load_is_Ok n buf (upto (j + 1) len)) as [x Hx]; [lia..|].
    rewrite Hx. cbn [mbind outcome_bind].
    destruct (load_adds n (upto (j + 1) len) x) as [Hox Hadd]; [done| |done|].
    { unfold upto. rewrite Z.pow_add_r by lia. exists (2 ^ j * (len / (2 ^ j * 2 ^ 1))). lia. }
    pose proof (onec_plus 64 v x a x _ ltac:(done) Ha Hox
      (adc_twice 64 v x ltac:(done) (oc_range _ _ _ Ha) (oc_range _ _ _ Hox))) as Hv'.
    destruct (adc 64 v x false) as [s cf]. cbn [fst snd] in *. destruct (adc 64 s 0 cf) as [s' cf'].
    exists s'. rewrite Hup, Hn. split; [do 2 f_equal; lia|]. exists (a + x). split; [done|].
    replace (upto (j + 1) len + 1 * 2 ^ j) with (upto (j + 1) len + Z.of_nat n) by lia. by apply Hadd.
  - exists v. rewrite Hup, !Z.mul_0_l, Z.add_0_r. by split.
Qed.

End sum.

Lemma fold16_onec v a : onec 64 v a -> onec 16 (2 ^ 16 - 1 - fold16 v) a.
Proof.
  intros Hv. pose proof (oc_range _ _ _ Hv) as Hr. unfold fold16.
  assert (E32 : Z.shiftr v 32 = v / 2 ^ 32) by (by rewrite Z.shiftr_div_pow2).
  rewrite E32. change (u32 v) with (v mod 2 ^ 32).
  rewrite (u32_id (v / 2 ^ 32)) by (split; [apply Z.div_pos|apply Z.div_lt_upper_bound]; lia).
  assert (H32 := adc_twice 32 (v / 2 ^ 32) (v mod 2 ^ 32)).
  destruct (adc 32 (v / 2 ^ 32) (v mod 2 ^ 32) false) as [s1 c1]. cbn [fst snd] in H32.
  destruct (adc 32 s1 0 c1) as [s2 c2]. cbn [fst] in H32.
  assert (Ho : onec 32 s2 a).
  { eapply (onec_halve 32); [done|exact Hv|]. apply H32; [done| |].
    - split; [apply Z.div_pos|apply Z.div_lt_upper_bound]; lia.
    - apply Z.mod_pos_bound; lia. }
  pose proof (oc_range _ _ _ Ho) as Hr2. rewrite (u32_id s2) by done.
  assert (E16 : Z.shiftr s2 16 = s2 / 2 ^ 16) by (by rewrite Z.shiftr_div_pow2).
  rewrite E16. change (u16 s2) with (s2 mod 2 ^ 16). rewrite (u16_id (s2 / 2 ^ 16))
    by (split; [apply Z.div_pos|apply Z.div_lt_upper_bound]; lia).
  assert (H16 := adc_twice 16 (s2 / 2 ^ 16) (s2 mod 2 ^ 16)).
  destruct (adc 16 (s2 / 2 ^ 16) (s2 mod 2 ^ 16) false) as [s3 c3]. cbn [fst snd] in H16.
  destruct (adc 16 s3 0 c3) as [s4 c4]. cbn [fst] in H16.
  assert (Ho4 : onec 16 s4 a).
  { eapply (onec_halve 16); [done|exact Ho|]. apply H16; [done| |].
    - split; [apply Z.div_pos|apply Z.div_lt_upper_bound]; lia.
    - apply Z.mod_pos_bound; lia. }
  pose proof (oc_range _ _ _ Ho4) as Hr4.
  replace (2 ^ 16 - 1 - u16 (Z.lnot s4)) with s4; [done|].
  unfold Z.lnot, Z.pred. clear -Hr4. word_lia.
Qed.

(** The sum the instructions compute is that of the whole buffer. *)
Lemma chksum_sums buf :
  Forall byte_ok buf -> Z.of_nat (length buf) < 2 ^ 31 ->
  exists r, chksum_internet buf (Z.of_nat (length buf)) = Ok r /\ onec 16 (2 ^ 16 - 1 - r) (sum16 buf).
Proof.
  intros Hb Hl. unfold chksum_internet. set (len := Z.of_nat (length buf)) in *.
  rewrite (u32_id len) by lia.
  assert (Hedx : Z.shiftr len 3 = len / 8) by (by rewrite Z.shiftr_div_pow2).
  rewrite Hedx. assert (Hpos : 0 <= len / 8) by (apply Z.div_pos; lia).
  pose proof (Z.mul_div_le len 8 ltac:(lia)) as Hle.
  assert (Hstart : sum_upto buf 0 0).
  { exists 0. split; [by apply onec_zero|]. rewrite take_0. split; [by exists 0|done|done]. }
  match goal with |- context [mbind _ (if ?c then ?a else ?b)] => set (m := if c then a else b) end.
  assert (Hm : exists v, m = Ok (upto 3 len, v) /\ sum_upto buf (upto 3 len) v).
  { unfold m, upto. change (2 ^ 3) with 8. destruct (Z.eqb_spec (len / 8) 0) as [E|E].
    - rewrite E. by exists 0.
    - destruct (words_loop_ok buf Hb (Z.to_nat (len / 8)) 0 0 false) as (s & cf & -> & Hs & Hv);
        [by exists 0|lia|lia|lia|done|].
      rewrite Z2Nat.id, Z.add_0_l in * by done. exists (s + Z.b2z cf). split; [|done].
      destruct Hv as (a & Ha & _). cbn [mbind outcome_bind]. by rewrite (adc_zero 64 s cf a). }
  destruct Hm as (v3 & -> & H3). cbn [mbind outcome_bind].
  destruct (tail_step_ok buf Hb 4 2 len v3) as (v2 & E2 & H2); [done|lia|done|lia|done|].
  change (2 + 1) with 3 in E2. rewrite E2. cbn [mbind outcome_bind].
  destruct (tail_step_ok buf Hb 2 1 len v2) as (v1 & E1 & H1); [done|lia|done|lia|done|].
  change (1 + 1) with 2 in E1. rewrite E1. cbn [mbind outcome_bind].
  destruct (tail_step_ok buf Hb 1 0 len v1) as (v0 & E0 & H0); [done|lia|done|lia|done|].
  change (0 + 1) with 1 in E0. rewrite E0. cbn [mbind outcome_bind].
  eexists. split; [done|]. destruct H0 as (a & Ha & Hs).
  apply (onec_same16 _ a); [by apply fold16_onec|].
  unfold upto in Hs. change (2 ^ 0) with 1 in Hs. rewrite Z.div_1_r, Z.mul_1_l in Hs.
  rewrite take_ge in Hs by lia. done.
Qed.

End Checksum.
Import Checksum.

(** C28. The assembly computes the checksum of RFC 1071 of any buffer that an [int]
    can measure, reading no byte outside of it; and a receiver that sums a
    buffer into which the checksum has been written, at an even offset that
    held zero, gets zero. *)
Theorem chksum_internet_rfc1071 (bs pre post : list Z) :
  Forall byte_ok bs -> Z.of_nat (length bs) < 2 ^ 31 ->
  chksum_internet bs (Z.of_nat (length bs)) = Ok (rfc1071 bs)
  /\ (bs = pre ++ [0; 0] ++ post -> Nat.Even (length pre) ->
      chksum_internet (pre ++ le_bytes 2 (rfc1071 bs) ++ post) (Z.of_nat (length bs)) = Ok 0).
Proof.
  intros Hb Hl.
  assert (Hr : chksum_internet bs (Z.of_nat (length bs)) = Ok (rfc1071 bs)).
  { destruct (chksum_sums bs Hb Hl) as (r & -> & Hr). f_equal. unfold rfc1071.
    pose proof (onec_unique 16 _ _ _ ltac:(done) Hr (rfc_sum bs Hb)). lia. }
  split; [done|]. intros Hbs Hev. pose proof (rfc_sum bs Hb) as Ho.
  destruct (oc_range _ _ _ Ho) as [R1 R2]. unfold rfc1071 in *.
  set (s := foldl onec_add 0 (words16 bs)) in *.
  set (bs' := pre ++ le_bytes 2 (2 ^ 16 - 1 - s) ++ post).
  assert (Hlen : length bs' = length bs)
    by (unfold bs'; rewrite Hbs, !length_app, length_le_bytes; simpl; lia).
  assert (Hb' : Forall byte_ok bs').
  { rewrite Hbs in Hb. apply Forall_app in Hb as [Hb1 [_ Hb2]%Forall_app].
    apply Forall_app. split; [done|]. apply Forall_app. split; [apply le_bytes_ok|done]. }
  rewrite <- Hlen in *. destruct (chksum_sums bs' Hb' Hl) as (r & -> & Hr'). f_equal.
  assert (Hsum : sum16 bs' = sum16 bs + (2 ^ 16 - 1 - s)).
  { rewrite Hbs. unfold bs'. rewrite !sum16_app by (try done; by exists 1%nat).
    cut (sum16 (le_bytes 2 (2 ^ 16 - 1 - s)) = 2 ^ 16 - 1 - s); [change (sum16 [0; 0]) with 0; lia|].
    unfold sum16. cbn [le_bytes words16 foldr].
    rewrite Z.add_0_r, (Z.mod_small (_ / 256)), (Z.add_comm _ (256 * _)), <- Z.div_mod; [done|lia|].
    split; [apply Z.div_pos|apply Z.div_lt_upper_bound]; lia. }
  assert (Hfull : onec 16 (2 ^ 16 - 1) (sum16 bs')).
  { destruct Ho as [_ [q Hq] Hn Hz]. rewrite Hsum. split; [lia|exists q; lia|lia|]. lia. }
  pose proof (onec_unique 16 _ _ _ ltac:(done) Hr' Hfull). lia.
Qed.

(** An IPv4 header with its checksum field still zero. *)
Definition example_header : list Z :=
  [69; 0; 0; 40; 0; 0; 0; 0; 64; 17; 0; 0; 10; 0; 0; 1; 10; 0; 0; 2].

Lemma chksum_internet_rfc1071_witness :
  chksum_internet example_header 20 = Ok 50022
  /\ chksum_internet (take 10 example_header ++ le_bytes 2 50022 ++ drop 12 example_header) 20 = Ok 0.
Proof.
  destruct (chksum_internet_rfc1071 example_header (take 10 example_header) (drop 12 example_header))
    as [H1 H2]; [repeat constructor; lia|simpl; lia|].
  split; [exact H1|]. apply H2; [done|by exists 5%nat].
Defined.
