(* ===== verification/Udp.v ===== *)
(** * Udp: the UDP context over the NIC

    Models [src/src/c++/libos/io/udp_dpdk/context.cc] and the class of
    [src/include/psp/libos/io/udp_dpdk/context.hh]: the rings between the NIC
    and the program ([recv_packets], [send_packets], [poll], with
    [parse_packet] as it is without [NET_DEBUG]), the headers of an outgoing
    packet ([prepare_outbound_packet]) and the packet buffers ([get_mbuf],
    [free_mbuf]).  The NIC and the buffer pool are DPDK's and parameters here;
    a packet is its three headers, the bytes behind them and the fields of
    [rte_mbuf] the code uses. *)
From S2P Require Import Prelude Fail Interfaces Base Ring Bytes Dispatcher Worker NetWorker System.

Module Udp.

Definition OUTBOUND_Q_LEN : Z := 128.
Definition MAX_TX_BURST : Z := 8.
Definition IP_DEFTTL : Z := 64.
Definition IP_VERSION : Z := 64.
Definition IP_HDRLEN : Z := 5.
Definition IP_VHL_DEF : Z := Z.lor IP_VERSION IP_HDRLEN.

(** Protocol constants and the sizes of the headers, NET_HDR_SIZE together. *)
Definition RTE_ETHER_TYPE_IPV4 : Z := 2048.
Definition IPPROTO_UDP : Z := 17.
Definition ETH_HDR : Z := 14.
Definition IP_HDR : Z := 20.
Definition UDP_HDR : Z := 8.

Record rte_ether_hdr : Type := mk_eth { d_addr : Z; s_addr : Z; ether_type : Z }.

Record rte_ipv4_hdr : Type := mk_ip {
  version_ihl : Z; total_length : Z; time_to_live : Z; next_proto_id : Z;
  src_addr : Z; dst_addr : Z
}.

Record rte_udp_hdr : Type := mk_udp { src_port : Z; dst_port : Z; dgram_len : Z }.

(** [room]: the bytes of the buffer from behind the headers to its end. *)
Record rte_mbuf : Type := mk_mbuf {
  eth_hdr : rte_ether_hdr;
  ip_hdr : rte_ipv4_hdr;
  udp_hdr : rte_udp_hdr;
  room : list Z;
  l2_len : Z; l3_len : Z; l4_len : Z;
  ol_flags : Z; m_data_len : Z; pkt_len : Z; nb_segs : Z
}.

Definition with_room (p : rte_mbuf) (l4 : Z) (r : list Z) : rte_mbuf :=
  mk_mbuf (eth_hdr p) (ip_hdr p) (udp_hdr p) r (l2_len p) (l3_len p) l4
    (ol_flags p) (m_data_len p) (pkt_len p) (nb_segs p).

Record UdpContext : Type := mk_udpctx {
  ip : Z; port : Z;
  remote_port : Z; remote_ip : Z;
  my_mac : Z; remote_mac : Z;
  in_q : rxq;
  outbound_queue : list Z;
  push_tail : Z;
  push_head : Z
}.

Definition set_in (r : rxq) (c : UdpContext) : UdpContext :=
  mk_udpctx (ip c) (port c) (remote_port c) (remote_ip c) (my_mac c) (remote_mac c) r
    (outbound_queue c) (push_tail c) (push_head c).

Definition set_out (q : list Z) (t h : Z) (c : UdpContext) : UdpContext :=
  mk_udpctx (ip c) (port c) (remote_port c) (remote_ip c) (my_mac c) (remote_mac c) (in_q c) q t h.

(** The packets in memory, by address. *)
Notation packets := (gmap Z rte_mbuf).

Definition get_pkt (m : packets) (a : Z) : outcome rte_mbuf :=
  match m !! a with Some p => Ok p | None => UB end.

Section operations.

(** DPDK: the NIC with its receive and transmit bursts, what the bit-field
    [l4_len] keeps of a value stored in it, and the checksum offload flag. *)
Context {N : Type}.
Variable rx_burst : N -> Z -> list Z * N.
Variable tx_burst : N -> packets -> list Z -> Z * N.
Variable l4_field : Z -> Z.
Variable PKT_TX_IP_CKSUM : Z.

Definition parse_packet (pkt : Z) (r : rxq) : outcome (Z * rxq) :=
  q ← arr_set (inbound_queue r) (Z.land (pop_head r) (INBOUND_Q_LEN - 1)) pkt;
  Ok (0, mk_rxq q (pop_tail r) (u32 (pop_head r + 1))).

Fixpoint parse_all (pkts : list Z) (r : rxq) : outcome rxq :=
  match pkts with
  | [] => Ok r
  | p :: pkts => '(e, r) ← parse_packet p r; _ ← PSP_OK e; parse_all pkts r
  end.

Definition recv_packets (n : N) (r : rxq) : outcome (Z * N * rxq) :=
  if u32 (pop_head r - pop_tail r) <? INBOUND_Q_LEN - MAX_RX_BURST then
    let '(pkts, n) := rx_burst n MAX_RX_BURST in
    match pkts with
    | [] => Ok (EAGAIN, n, r)
    | _ => r ← parse_all pkts r; Ok (0, n, r)
    end
  else Ok (0, n, r).

Definition prepare_outbound_packet (c : UdpContext) (mbuf : Z) (m : packets) : outcome (Z * packets) :=
  _ ← PSP_TRUE ENOMEM (negb (mbuf =? NULL));
  pkt ← get_pkt m mbuf;
  let data_start := ETH_HDR + IP_HDR + UDP_HDR in
  let data_offset := data_start + l4_len pkt in
  size ← load 4 (room pkt) (l4_len pkt);
  let data_offset := data_offset + size in
  let data_len := data_offset - data_start in
  let total_len := data_offset in
  let e := eth_hdr pkt in
  let i := ip_hdr pkt in
  let u := udp_hdr pkt in
  let u := mk_udp (hton16 (port c)) (dst_port u) (hton16 (u16 (data_len + UDP_HDR))) in
  let i := mk_ip IP_VHL_DEF (hton16 (u16 (data_len + UDP_HDR + IP_HDR))) IP_DEFTTL IPPROTO_UDP
             (ip c) (dst_addr i) in
  let '(e, u, i) :=
    (if remote_mac c =? 0 then
       (mk_eth (s_addr e) (s_addr e) (ether_type e),
        mk_udp (src_port u) (src_port u) (dgram_len u),
        mk_ip (version_ihl i) (total_length i) (time_to_live i) (next_proto_id i) (src_addr i) (src_addr i))
     else
       (mk_eth (remote_mac c) (s_addr e) (ether_type e),
        mk_udp (src_port u) (remote_port c) (dgram_len u),
        mk_ip (version_ihl i) (total_length i) (time_to_live i) (next_proto_id i) (src_addr i) (remote_ip c)))
  in
  let e := mk_eth (d_addr e) (my_mac c) (hton16 RTE_ETHER_TYPE_IPV4) in
  Ok (0, <[mbuf := mk_mbuf e i u (room pkt) ETH_HDR IP_HDR (l4_field UDP_HDR) (Z.lor 0 PKT_TX_IP_CKSUM)
                     (u16 total_len) (u32 total_len) 1]> m).

(** The loop of [send_packets]; [n_left] is what is left of the burst. *)
Fixpoint tx_loop (n_left : nat) (c : UdpContext) (m : packets) : outcome (list Z * UdpContext * packets) :=
  match n_left with
  | O => Ok ([], c, m)
  | S n_left =>
    if push_tail c <? push_head c then
      p ← arr_get (outbound_queue c) (Z.land (push_tail c) (OUTBOUND_Q_LEN - 1));
      let c := set_out (outbound_queue c) (u32 (push_tail c + 1)) (push_head c) c in
      '(e, m) ← prepare_outbound_packet c p m;
      _ ← PSP_OK e;
      '(ps, c, m) ← tx_loop n_left c m;
      Ok (p :: ps, c, m)
    else Ok ([], c, m)
  end.

Definition send_packets (n : N) (c : UdpContext) (m : packets) : outcome (Z * N * UdpContext * packets) :=
  '(pkts, c, m) ← tx_loop (Z.to_nat MAX_TX_BURST) c m;
  if 0 <? Z.of_nat (length pkts) then
    let '(count, n) := tx_burst n m pkts in
    if count <? Z.of_nat (length pkts) then Ok (EAGAIN, n, c, m) else Ok (0, n, c, m)
  else Ok (0, n, c, m).

Definition poll (n : N) (c : UdpContext) (m : packets) : outcome (Z * N * UdpContext * packets) :=
  '(e, n, r) ← recv_packets n (in_q c);
  _ ← PSP_OK e;
  let c := set_in r c in
  '(e, n, c, m) ← send_packets n c m;
  _ ← PSP_OK e;
  Ok (0, n, c, m).

End operations.

(** The buffer pool: [rte_pktmbuf_alloc] and [rte_pktmbuf_free].  [get_mbuf]
    answers the address of the payload too; [mtod] is where the data of a
    buffer starts. *)
Section buffers.
Context {P : Type} `{Allocator P}.
Variable mtod : Z -> Z.

Definition get_mbuf (mbuf_out payload_addr : Z) (mbuf_pool : P) : outcome (Z * Z * Z * P) :=
  if negb (mbuf_out =? NULL) then Ok (0, mbuf_out, mtod mbuf_out, mbuf_pool)
  else
    '(mbuf, mbuf_pool) ← pool_alloc mbuf_pool;
    if mbuf =? NULL then Ok (ENOMEM, mbuf_out, payload_addr, mbuf_pool)
    else Ok (0, mbuf, mtod mbuf, mbuf_pool).

Definition free_mbuf (mbuf : Z) (mbuf_pool : P) : outcome (Z * P) :=
  mbuf_pool ← pool_free mbuf_pool mbuf; Ok (0, mbuf_pool).

End buffers.

(** ** The receive ring *)

(** The ring holds [l], oldest first, whatever the counters have gone through. *)
Record in_rep (r : rxq) (l : list Z) : Prop := {
  ir_ring : exists t, 0 <= t /\ ring_holds (inbound_queue r) INBOUND_Q_LEN t l
    /\ pop_tail r = u32 t /\ pop_head r = u32 (t + Z.of_nat (length l))
}.

Lemma rrel_in_rep r l : rrel r l -> in_rep r l.
Proof.
  intros [H1 H2 H3 H4]. split. exists (pop_tail r). rewrite <- H3, !u32_id by lia. done.
Qed.

Lemma in_rep_length r l : in_rep r l ->
  u32 (pop_head r - pop_tail r) = Z.of_nat (length l) /\ Z.of_nat (length l) <= INBOUND_Q_LEN.
Proof.
  intros [(t & Ht & Hr & -> & ->)]. pose proof (rh_len _ _ _ _ Hr) as Hl. unfold INBOUND_Q_LEN in *.
  split; [|done]. rewrite (Z.add_comm t), u32_sub_cancel. apply u32_id. lia.
Qed.

Lemma parse_packet_ok r l p :
  in_rep r l -> Z.of_nat (length l) < INBOUND_Q_LEN ->
  exists r', parse_packet p r = Ok (0, r') /\ in_rep r' (l ++ [p]).
Proof.
  intros [(t & Ht & Hr & E1 & E2)] Hl. unfold parse_packet. rewrite E2.
  change (INBOUND_Q_LEN - 1) with (2 ^ 7 - 1). rewrite ring_index by lia.
  change (2 ^ 7) with INBOUND_Q_LEN. pose proof (rh_buf _ _ _ _ Hr) as Hb.
  pose proof (Z.mod_pos_bound (t + Z.of_nat (length l)) INBOUND_Q_LEN ltac:(done)) as Hm.
  rewrite arr_set_Ok by lia. cbn [mbind outcome_bind]. eexists. split; [done|]. split. exists t.
  cbn [inbound_queue pop_tail pop_head]. split_and!; [done|by apply ring_push|done|].
  rewrite length_app. cbn [length]. clear. word_lia.
Qed.

Lemma parse_all_ok ps r l :
  in_rep r l -> Z.of_nat (length l + length ps) <= INBOUND_Q_LEN ->
  exists r', parse_all ps r = Ok r' /\ in_rep r' (l ++ ps).
Proof.
  revert r l. induction ps as [|p ps IH]; intros r l Hr Hl; cbn [parse_all].
  - exists r. by rewrite app_nil_r.
  - cbn [length] in Hl. destruct (parse_packet_ok r l p) as (r1 & -> & H1); [done|lia|].
    cbn. destruct (IH r1 (l ++ [p])) as (r2 & -> & H2); [done|rewrite length_app; simpl; lia|].
    exists r2. rewrite <- app_assoc in H2. by split.
Qed.

(** ** The transmit ring *)

(** The ring holds [q]; without a wrap, as the loop compares the counters. *)
Record out_rep (c : UdpContext) (q : list Z) : Prop := {
  or_ring : ring_holds (outbound_queue c) OUTBOUND_Q_LEN (push_tail c) q;
  or_tail : 0 <= push_tail c;
  or_head : push_head c = push_tail c + Z.of_nat (length q);
  or_bound : push_head c < 2 ^ 32
}.

(** A packet as it goes out: what the headers say in host order. *)
Record sent_as (c : UdpContext) (old new : rte_mbuf) (n : Z) : Prop := {
  sa_room : room new = room old;
  sa_udp_len : ntoh16 (dgram_len (udp_hdr new)) = UDP_HDR + n;
  sa_ip_len : ntoh16 (total_length (ip_hdr new)) = IP_HDR + UDP_HDR + n;
  sa_len : m_data_len new = NET_HDR_SIZE + n /\ pkt_len new = NET_HDR_SIZE + n /\ nb_segs new = 1;
  sa_proto : next_proto_id (ip_hdr new) = IPPROTO_UDP /\ ntoh16 (ether_type (eth_hdr new)) = RTE_ETHER_TYPE_IPV4
    /\ version_ihl (ip_hdr new) = 69 /\ time_to_live (ip_hdr new) = 64;
  sa_source : ntoh16 (src_port (udp_hdr new)) = port c /\ src_addr (ip_hdr new) = ip c
    /\ s_addr (eth_hdr new) = my_mac c;
  sa_dest : if decide (remote_mac c = 0)
    then d_addr (eth_hdr new) = s_addr (eth_hdr old) /\ ntoh16 (dst_port (udp_hdr new)) = port c
      /\ dst_addr (ip_hdr new) = ip c
    else d_addr (eth_hdr new) = remote_mac c /\ dst_port (udp_hdr new) = remote_port c
      /\ dst_addr (ip_hdr new) = remote_ip c
}.

(** What a packet needs for that: the length behind its payload is in the
    buffer and leaves a datagram of at most 65535 bytes. *)
Definition sendable (m : packets) (p n : Z) : Prop :=
  p <> NULL /\ exists pkt size, m !! p = Some pkt /\ 0 <= l4_len pkt
    /\ load 4 (room pkt) (l4_len pkt) = Ok size /\ 0 <= size
    /\ n = l4_len pkt + size /\ NET_HDR_SIZE + n < 2 ^ 16.

Section sending.
Context {N : Type} (l4_field : Z -> Z) (PKT_TX_IP_CKSUM : Z).
Notation prepare := (prepare_outbound_packet l4_field PKT_TX_IP_CKSUM).
Notation loop := (tx_loop l4_field PKT_TX_IP_CKSUM).

Lemma prepare_ok c p m n :
  0 <= port c < 2 ^ 16 -> sendable m p n ->
  exists old new, m !! p = Some old /\ prepare c p m = Ok (0, <[p := new]> m) /\ sent_as c old new n.
Proof.
  intros Hport (Hp & pkt & size & Hm & Hl & Hload & Hs & Hn & Hlt).
  unfold prepare_outbound_packet, get_pkt. rewrite (proj2 (Z.eqb_neq p NULL) Hp). simpl negb.
  cbn [PSP_TRUE mbind outcome_bind]. rewrite Hm. cbn [mbind outcome_bind]. rewrite Hload.
  cbn [mbind outcome_bind]. destruct byteorder_roundtrip as [Hrt _].
  assert (R : forall x, 0 <= x < 2 ^ 16 -> ntoh16 (hton16 x) = x) by (intros x Hx; by apply Hrt).
  unfold ETH_HDR, IP_HDR, UDP_HDR, NET_HDR_SIZE in *.
  destruct (Z.eqb_spec (remote_mac c) 0) as [E|E]; (eexists pkt, _; split; [done|]; split; [reflexivity|]);
    split; cbn [room udp_hdr ip_hdr eth_hdr dgram_len total_length m_data_len pkt_len nb_segs next_proto_id
      ether_type version_ihl time_to_live src_port dst_port src_addr dst_addr s_addr d_addr];
    rewrite ?decide_True, ?decide_False by done; unfold UDP_HDR, IP_HDR, NET_HDR_SIZE;
    rewrite ?u16_id, ?u32_id, ?R by (unfold RTE_ETHER_TYPE_IPV4; lia); repeat split; lia.
Qed.

Lemma sent_as_out q t h c old new n : sent_as (set_out q t h c) old new n -> sent_as c old new n.
Proof. intros []. by split. Qed.

Lemma out_rep_pop c p q :
  out_rep c (p :: q) ->
  push_tail c <? push_head c = true
  /\ arr_get (outbound_queue c) (Z.land (push_tail c) (OUTBOUND_Q_LEN - 1)) = Ok p
  /\ out_rep (set_out (outbound_queue c) (u32 (push_tail c + 1)) (push_head c) c) q.
Proof.
  intros [H1 H2 H3 H4]. cbn [length] in H3. split_and!; [by apply Z.ltb_lt; lia| |].
  - change (OUTBOUND_Q_LEN - 1) with (2 ^ 7 - 1). rewrite land_mask by done.
    apply arr_get_Ok. split; [apply Z.mod_pos_bound; lia|]. by apply (ring_front _ _ _ _ q).
  - rewrite u32_id by lia. split; cbn [outbound_queue push_tail push_head set_out]; try lia.
    by apply (ring_pop _ _ _ p).
Qed.

(** A null packet stops the process. *)
Lemma tx_loop_null k c m q : out_rep c (NULL :: q) -> loop (S k) c m = Panic ENOMEM.
Proof. intros (E1 & E2 & _)%out_rep_pop. cbn [tx_loop]. by rewrite E1, E2. Qed.

Lemma out_rep_push c q x :
  out_rep c q -> Z.of_nat (length q) < OUTBOUND_Q_LEN -> push_head c + 1 < 2 ^ 32 ->
  exists o, arr_set (outbound_queue c) (Z.land (push_head c) (OUTBOUND_Q_LEN - 1)) x = Ok o
    /\ out_rep (set_out o (push_tail c) (u32 (push_head c + 1)) c) (q ++ [x]).
Proof.
  intros [H1 H2 H3 H4] Hl Hb. pose proof (rh_buf _ _ _ _ H1) as Hbuf.
  change (OUTBOUND_Q_LEN - 1) with (2 ^ 7 - 1). rewrite land_mask by done.
  change (2 ^ 7) with OUTBOUND_Q_LEN. rewrite H3.
  pose proof (Z.mod_pos_bound (push_tail c + Z.of_nat (length q)) OUTBOUND_Q_LEN ltac:(done)) as Hm.
  rewrite arr_set_Ok by lia. eexists. split; [reflexivity|]. rewrite u32_id by lia.
  split; cbn [outbound_queue push_tail push_head set_out]; try lia; [by apply ring_push|].
  rewrite length_app. cbn [length]. lia.
Qed.

Lemma sendable_insert m p n a x : a <> p -> sendable m p n -> sendable (<[a := x]> m) p n.
Proof.
  intros Ha (Hp & pkt & size & Hm & Hr). split; [done|]. exists pkt, size.
  by rewrite lookup_insert_ne.
Qed.

(** The loop prepares the packets it takes off the ring, oldest first, and
    touches no others. *)
Lemma tx_loop_ok k c m q (len : Z -> Z) :
  0 <= port c < 2 ^ 16 -> out_rep c q -> NoDup (take k q) ->
  (forall p, p ∈ take k q -> sendable m p (len p)) ->
  exists t m', let c' := set_out (outbound_queue c) t (push_head c) c in
    loop k c m = Ok (take k q, c', m') /\ out_rep c' (drop k q)
    /\ (forall p, p ∈ take k q ->
          exists old new, m !! p = Some old /\ m' !! p = Some new /\ sent_as c old new (len p))
    /\ (forall p, p ∉ take k q -> m' !! p = m !! p).
Proof.
  revert c m q. induction k as [|k IH]; intros c m q Hport Hq Hnd Hs.
  - exists (push_tail c), m. rewrite take_0, drop_0. cbn [tx_loop].
    split_and!; [by destruct c|by destruct c|by intros p Hp%elem_of_nil|done].
  - destruct q as [|p q]; cbn [take drop tx_loop] in *.
    + exists (push_tail c), m.
      rewrite (proj2 (Z.ltb_ge _ _)) by (destruct Hq as [_ _ -> _]; simpl; lia).
      split_and!; [by destruct c|by destruct c|by intros p Hp%elem_of_nil|done].
    + apply NoDup_cons in Hnd as [Hp Hnd]. destruct (out_rep_pop _ _ _ Hq) as (E1 & E2 & Hq').
      rewrite E1, E2. cbn [mbind outcome_bind].
      set (c1 := set_out (outbound_queue c) (u32 (push_tail c + 1)) (push_head c) c) in *.
      destruct (prepare_ok c1 p m (len p)) as (old & new & Hold & Eprep & Hsent);
        [done|by apply Hs; left|].
      rewrite Eprep. cbn [mbind outcome_bind PSP_OK Z.eqb].
      destruct (IH c1 (<[p := new]> m) q) as (t & m' & Hloop & Hrep & Hall & Hoth); [done..| |].
      { intros p' Hp'. apply sendable_insert; [by intros ->|]. apply Hs. by right. }
      rewrite Hloop. cbn [mbind outcome_bind]. exists t, m'. split_and!; [done|done| |].
      * intros p' [->|Hp']%elem_of_cons.
        -- exists old, new. rewrite Hoth, lookup_insert_eq by done. split_and!; [done..|].
           by eapply sent_as_out.
        -- destruct (Hall p' Hp') as (o & w & Ho & Hw & Hsa). exists o, w.
           rewrite lookup_insert_ne in Ho by (by intros ->). split_and!; [done..|].
           by eapply sent_as_out.
      * intros p' [Hne Hp']%not_elem_of_cons. by rewrite Hoth, lookup_insert_ne.
Qed.

End sending.

End Udp.
Import Udp.

(** C25. Receiving: a call takes a burst from the NIC only when the ring has room
    for all of it, appends the packets in order behind those not yet consumed,
    whatever the 32-bit counters have gone through, and says [EAGAIN] when
    nothing came.  [poll] stops the process in that case. *)
Theorem recv_packets_correct {N : Type} (rx_burst : N -> Z -> list Z * N) tx_burst l4_field flag
    (n n' : N) (c : UdpContext) (m : packets) (l pkts : list Z) :
  in_rep (in_q c) l -> rx_burst n MAX_RX_BURST = (pkts, n') -> (length pkts <= 8)%nat ->
  (Z.of_nat (length l) < 120 ->
     (exists r, recv_packets rx_burst n (in_q c) = Ok (if decide (pkts = []) then EAGAIN else 0, n', r)
        /\ in_rep r (l ++ pkts))
     /\ (pkts = [] -> poll rx_burst tx_burst l4_field flag n c m = Panic EAGAIN))
  /\ (120 <= Z.of_nat (length l) -> recv_packets rx_burst n (in_q c) = Ok (0, n, in_q c)).
Proof.
  intros Hr Hb Hlen. destruct (in_rep_length _ _ Hr) as [Hl Hmax].
  unfold poll, recv_packets. rewrite Hl, Hb. change (INBOUND_Q_LEN - MAX_RX_BURST) with 120. split.
  - intros Hlt. rewrite (proj2 (Z.ltb_lt _ _)) by done. split; [|by intros ->].
    destruct pkts as [|p ps].
    + exists (in_q c). rewrite app_nil_r. by split.
    + destruct (parse_all_ok (p :: ps) (in_q c) l) as (r & -> & Hr'); [done|unfold INBOUND_Q_LEN; lia|].
      exists r. by split.
  - intros Hge. by rewrite (proj2 (Z.ltb_ge _ _)).
Qed.

(** C24. Sending: the oldest packets of the ring, eight at most, go to the NIC in
    order, with the lengths, the protocol and the source filled in; packets
    elsewhere in memory are as they were.  A server, whose context has no
    remote address, puts its own address and port as the destination.  The
    packets leave the ring also when the NIC does not take them all, and
    [EAGAIN] is the answer then. *)
Theorem send_packets_correct {N : Type} (tx_burst : N -> packets -> list Z -> Z * N) l4_field flag
    (n : N) (c : UdpContext) (m : packets) (q : list Z) (len : Z -> Z) :
  0 <= port c < 2 ^ 16 -> out_rep c q -> NoDup (take 8 q) ->
  (forall p, p ∈ take 8 q -> sendable m p (len p)) ->
  exists c' m', out_rep c' (drop 8 q)
    /\ send_packets tx_burst l4_field flag n c m
       = Ok (if decide (q = []) then (0, n, c', m')
             else let '(count, n') := tx_burst n m' (take 8 q) in
                  (if count <? Z.of_nat (length (take 8 q)) then EAGAIN else 0, n', c', m'))
    /\ (forall p, p ∈ take 8 q ->
          exists old new, m !! p = Some old /\ m' !! p = Some new /\ sent_as c old new (len p))
    /\ (forall p, p ∉ take 8 q -> m' !! p = m !! p).
Proof.
  intros Hport Hq Hnd Hs.
  destruct (tx_loop_ok l4_field flag 8 c m q len) as (t & m' & Hloop & Hrep & Hall & Hoth); [done..|].
  eexists _, m'. split_and!; [exact Hrep| |done|done].
  unfold send_packets. change (Z.to_nat MAX_TX_BURST) with 8%nat. rewrite Hloop. cbn [mbind outcome_bind].
  destruct q as [|p q]; [done|]. rewrite decide_False by done.
  rewrite (proj2 (Z.ltb_lt _ _)) by (cbn [take length]; lia).
  destruct (tx_burst n m' (take 8 (p :: q))) as [count n']. by destruct (count <? _).
Qed.

(** *** Witnesses: one waiting packet, one response of twelve bytes *)

Definition example_pkt : rte_mbuf :=
  mk_mbuf (mk_eth 1 2 0) (mk_ip 0 0 0 0 3 4) (mk_udp 5 6 0)
    (le_bytes 4 7 ++ le_bytes 4 1 ++ le_bytes 4 4 ++ le_bytes 4 0) 0 0 12 0 0 0 0.

Definition example_ctx : UdpContext :=
  mk_udpctx 10 6789 0 0 9 0 (mk_rxq (replicate 128 0) (2 ^ 32 - 1) (2 ^ 32 - 1))
    (4096 :: replicate 127 0) 0 1.

Lemma recv_packets_correct_witness :
  exists r, recv_packets (fun n _ => ([n], n + 1)) 64 (in_q example_ctx) = Ok (0, 65, r) /\ in_rep r [64].
Proof.
  destruct (recv_packets_correct (fun n _ => ([n], n + 1)) (fun n _ _ => (0, n)) id 0 64 65 example_ctx ∅ [] [64])
    as [H _]; [|done|simpl; lia|by apply H].
  split. exists (2 ^ 32 - 1). split_and!; [lia|by apply ring_empty|done|done].
Defined.

Lemma send_packets_correct_witness :
  exists c' m', out_rep c' []
    /\ send_packets (fun (n : Z) _ ps => (Z.of_nat (length ps), n)) (fun z => z mod 256) 0 0 example_ctx
         {[4096 := example_pkt]} = Ok (0, 0, c', m')
    /\ (forall p, p ∈ [4096] -> exists old new, ({[4096 := example_pkt]} : packets) !! p = Some old
          /\ m' !! p = Some new /\ sent_as example_ctx old new 12)
    /\ (forall p, p ∉ [4096] -> m' !! p = ({[4096 := example_pkt]} : packets) !! p).
Proof.
  apply (send_packets_correct (fun (n : Z) _ ps => (Z.of_nat (length ps), n)) (fun z => z mod 256) 0 0
    example_ctx {[4096 := example_pkt]} [4096] (fun _ => 12)).
  - simpl. lia.
  - split; [|done|done|done]. split; [done|done|done|]. intros [|k] x Hx; [by injection Hx as <-|done].
  - apply NoDup_singleton.
  - intros p [->|Hp]%elem_of_cons; [|by apply elem_of_nil in Hp].
    split; [done|]. exists example_pkt, 0. split_and!; done.
Defined.
