(* ===== verification/AppWorker.v ===== *)
(** * AppWorker: workers that answer requests themselves

    Models [Worker::app_work] and [Worker::app_dequeue] of
    [src/src/c++/libos/common/Worker.cc], the loop of [Worker::main_loop] that
    calls them, and the request handlers of the two kinds of application
    worker: [src/src/c++/libos/su/mb_su.cc] (microbenchmark) and
    [src/src/c++/libos/su/rocksdb_su.cc] (RocksDB).  A request is the address of
    a packet, received over the worker's LRPC channel and sent back as the
    response over its [UdpContext]. *)
From S2P Require Import Prelude Fail Ring Bytes Lrpc Peers Requests DispatchQueue Worker NetWorker Udp.
Import Udp.

(** What a kind of worker supplies: [process_request]. *)
Class AppWorker (W : Type) : Type := {
  process_request : Z -> W -> packets -> outcome (Z * W * packets)
}.

(** The bytes a packet will carry behind its headers. *)
Definition wire_len (p : rte_mbuf) : Z :=
  l4_len p + match load 4 (room p) (l4_len p) with Ok s => s | _ => 0 end.

(** What it promises: a well-formed request is answered in place, in a packet
    that can be sent and still says which request and which type it was. *)
Class AppWorkerLaws (W : Type) `{AppWorker W} : Type := {
  aw_request : rte_mbuf -> Prop;
  aw_response : rte_mbuf -> rte_mbuf -> Prop;
  aw_count : W -> Z;
  aw_process p w m req :
    m !! p = Some req -> aw_request req ->
    exists w' resp, process_request p w m = Ok (0, w', <[p := resp]> m)
      /\ aw_response req resp /\ aw_count w' = u32 (aw_count w + 1);
  aw_answer req resp :
    aw_request req -> aw_response req resp ->
    (8 <= length (room req))%nat /\ take 8 (room resp) = take 8 (room req)
    /\ exists size, 0 <= l4_len resp /\ load 4 (room resp) (l4_len resp) = Ok size /\ 0 <= size
      /\ NET_HDR_SIZE + (l4_len resp + size) < 2 ^ 16
}.

Module App.

Record app_worker (W : Type) : Type := mk_app {
  a_peer : peer;
  a_udp : UdpContext;
  a_notify : bool;
  a_sub : W
}.
Arguments mk_app {W} _ _ _ _.
Arguments a_peer {W} _.
Arguments a_udp {W} _.
Arguments a_notify {W} _.
Arguments a_sub {W} _.

(** The value of a [char]. *)
Definition char_of (b : Z) : Z := if b <? 128 then b else b - 256.

(** The type a notice is sent with: the byte behind the request id. *)
Definition type_byte (p : rte_mbuf) : outcome Z :=
  b ← load 1 (room p) 4; Ok (u64 (char_of b)).

Section operations.
Context {W : Type} `{AppWorker W} {N : Type}.
Variable tx_burst : N -> packets -> list Z -> Z * N.
Variable l4_field : Z -> Z.
Variable PKT_TX_IP_CKSUM : Z.

(** [app_work]; [tsc] is the time stamp read for the notice, and a notice that
    finds the channel full is dropped. *)
Definition app_work (tsc payload : Z) (s : app_worker W) (m : packets) (h : lheap)
  : outcome (Z * app_worker W * packets * lheap) :=
  '(e, w, m) ← process_request payload (a_sub s) m;
  _ ← PSP_OK e;
  let c := a_udp s in
  q ← arr_set (outbound_queue c) (Z.land (push_head c) (OUTBOUND_Q_LEN - 1)) payload;
  let c := set_out q (push_tail c) (u32 (push_head c + 1)) c in
  if a_notify s then
    pkt ← get_pkt m payload;
    type ← type_byte pkt;
    '(_, ctx, h) ← push (lrpc_ctx (a_peer s)) (notice type tsc) 0 h;
    Ok (0, mk_app (with_ctx (a_peer s) ctx) c true w, m, h)
  else Ok (0, mk_app (a_peer s) c false w, m, h).

Definition app_dequeue (n : N) (s : app_worker W) (m : packets) (h : lheap)
  : outcome (Z * option Z * N * app_worker W * packets * lheap) :=
  '(status, payload, s, h) ←
    (if u32 (push_head (a_udp s) - push_tail (a_udp s)) <? OUTBOUND_Q_LEN then
       '(e, v, ctx, h) ← pop (lrpc_ctx (a_peer s)) 0 h;
       Ok (if e =? 0 then 0 else EAGAIN, v,
           mk_app (with_ctx (a_peer s) ctx) (a_udp s) (a_notify s) (a_sub s), h)
     else Ok (EAGAIN, None, s, h));
  if push_tail (a_udp s) <? push_head (a_udp s) then
    '(e, n, c, m) ← send_packets tx_burst l4_field PKT_TX_IP_CKSUM n (a_udp s) m;
    _ ← PSP_OK e;
    Ok (status, payload, n, mk_app (a_peer s) c (a_notify s) (a_sub s), m, h)
  else Ok (status, payload, n, s, m, h).

(** One pass through the loop of [main_loop]: [false] when the thread leaves
    it because of an error. *)
Definition app_iter (tsc : Z) (n : N) (s : app_worker W) (m : packets) (h : lheap)
  : outcome (bool * N * app_worker W * packets * lheap) :=
  '(status, payload, n, s, m, h) ← app_dequeue n s m h;
  if status =? EAGAIN then Ok (true, n, s, m, h)
  else
    '(work_status, s, m, h) ← app_work tsc (default 0 payload) s m h;
    Ok (work_status =? 0, n, s, m, h).

Fixpoint app_loop (tscs : list Z) (n : N) (s : app_worker W) (m : packets) (h : lheap)
  : outcome (bool * N * app_worker W * packets * lheap) :=
  match tscs with
  | [] => Ok (true, n, s, m, h)
  | tsc :: tscs =>
    '(go, n, s, m, h) ← app_iter tsc n s m h;
    if go : bool then app_loop tscs n s m h else Ok (false, n, s, m, h)
  end.

End operations.

(** ** The two kinds of worker *)

(** [MbWorker]: its counters. *)
Record MbWorker : Type := mk_mb { mb_requests : Z; n_shorts : Z; n_longs : Z }.

(** [fake_work] spins for a number of loops, [cycles] is the conversion of a
    time in nanoseconds with the frequency of the processor. *)
Section mb.
Variable fake_work : Z -> outcome unit.
Variable cycles : Z -> Z.
Variable l4_field : Z -> Z.

Definition mb_process_request (payload : Z) (w : MbWorker) (m : packets)
  : outcome (Z * MbWorker * packets) :=
  pkt ← get_pkt m payload;
  let type_addr := 4 in
  let req_addr := type_addr + 4 * 2 in
  run_ns ← load 4 (room pkt) req_addr;
  _ ← fake_work (cycles run_ns);
  type ← load 4 (room pkt) type_addr;
  let w :=
    (if type =? req_num SHORT then mk_mb (mb_requests w) (u32 (n_shorts w + 1)) (n_longs w)
     else if type =? req_num LONG then mk_mb (mb_requests w) (n_shorts w) (u32 (n_longs w + 1))
     else w) in
  let w := mk_mb (u32 (mb_requests w + 1)) (n_shorts w) (n_longs w) in
  r ← store 4 (room pkt) req_addr 0;
  Ok (0, w, <[payload := with_room pkt (l4_field (4 * 3)) r]> m).

End mb.

(** [RdbWorker]: its counters. *)
Record RdbWorker : Type := mk_rdb { rdb_requests : Z; n_gets : Z; n_scans : Z }.

(** A RocksDB iterator: at its first entry, whether it is at an entry, and the
    next one. *)
Section rdb.
Context {I : Type}.
Variable iter_first : I.
Variable iter_valid : I -> bool.
Variable iter_next : I -> I.

(** The scan: the number of entries visited, [None] when [fuel] did not
    suffice. *)
Fixpoint scan_loop (fuel : nat) (type : Z) (i : I) : option nat :=
  match fuel with
  | O => None
  | S fuel =>
    if negb (iter_valid i) then Some 0%nat
    else
      let i := iter_next i in
      if type =? 10 then Some 1%nat else S <$> scan_loop fuel type i
  end.

Definition rdb_process_request (fuel : nat) (payload : Z) (w : RdbWorker) (m : packets)
  : outcome (option (Z * RdbWorker * packets)) :=
  pkt ← get_pkt m payload;
  let type_addr := 4 in
  let req_addr := type_addr + 4 * 2 in
  type ← load 4 (room pkt) type_addr;
  match scan_loop fuel type iter_first with
  | None => Ok None
  | Some _ =>
    let w :=
      (if type =? req_num GET then mk_rdb (rdb_requests w) (u32 (n_gets w + 1)) (n_scans w)
       else if type =? req_num SCAN then mk_rdb (rdb_requests w) (n_gets w) (u32 (n_scans w + 1))
       else w) in
    let w := mk_rdb (u32 (rdb_requests w + 1)) (n_gets w) (n_scans w) in
    r ← store 4 (room pkt) req_addr 0;
    Ok (Some (0, w, <[payload := with_room pkt (l4_len pkt) r]> m))
  end.

End rdb.

(** ** The loop over any kind of worker *)

Section answers.
Context {W : Type} `{AppWorkerLaws W} {N : Type}.
Context (tx_burst : N -> packets -> list Z -> Z * N) (l4_field : Z -> Z) (flag : Z).

(** A NIC that takes what it is given, and what it has sent. *)
Context (sent : N -> list rte_mbuf).
Hypothesis Htx : forall n m ps, (length ps <= 8)%nat ->
  exists n', tx_burst n m ps = (Z.of_nat (length ps), n')
    /\ sent n' = sent n ++ omap (fun p => m !! p) ps.

(** The dispatcher at the other end, the addresses, and the packets as they
    were received. *)
Context (b : peer) (c0 : UdpContext) (m0 : packets).

(** The packet [r] is the response to the request at [p]. *)
Definition answers (p : Z) (r : rte_mbuf) : Prop :=
  exists req resp, m0 !! p = Some req /\ aw_response req resp /\ sent_as c0 resp r (wire_len resp).

(** [q] waits to be sent, [down] to be processed, [up] to be read by the
    dispatcher. *)
Record app_rep (s : app_worker W) (m : packets) (h : lheap) (q : list Z) (up down : list (Z * Z)) : Prop := {
  ar_addr : exists o t hd, a_udp s = set_out o t hd c0;
  ar_out : out_rep (a_udp s) q;
  ar_room : push_head (a_udp s) + Z.of_nat (length down) < 2 ^ 32;
  ar_conn : connected h (a_peer s) b up down;
  ar_notify : a_notify s = true;
  ar_nodup : NoDup (q ++ down.*2);
  ar_waiting : forall p, p ∈ down.*2 -> p <> NULL
    /\ exists req, m0 !! p = Some req /\ m !! p = Some req /\ aw_request req;
  ar_done : forall p, p ∈ q -> p <> NULL
    /\ exists req resp, m0 !! p = Some req /\ m !! p = Some resp /\ aw_request req /\ aw_response req resp
}.

Hypothesis Hport : 0 <= port c0 < 2 ^ 16.

Lemma response_sendable p m req resp :
  p <> NULL -> m !! p = Some resp -> aw_request req -> aw_response req resp -> sendable m p (wire_len resp).
Proof.
  intros Hp Hm Hq Hr. destruct (aw_answer _ _ Hq Hr) as (_ & _ & size & H1 & H2 & H3 & H4).
  split; [done|]. exists resp, size. unfold wire_len. rewrite H2. done.
Qed.

(** Sending what waits, if anything does. *)
Lemma app_send n s m h q up down :
  app_rep s m h q up down -> q <> [] ->
  exists n' c' m' rs,
    send_packets tx_burst l4_field flag n (a_udp s) m = Ok (0, n', c', m')
    /\ app_rep (mk_app (a_peer s) c' (a_notify s) (a_sub s)) m' h (drop 8 q) up down
    /\ sent n' = sent n ++ rs /\ Forall2 answers (take 8 q) rs
    /\ push_head c' = push_head (a_udp s) /\ (forall p, p ∉ take 8 q -> m' !! p = m !! p).
Proof.
  intros [(o & t & hd & Ha) Ho Hr Hc Hn Hnd Hw Hd] Hq.
  set (len := fun p => match m !! p with Some x => wire_len x | None => 0 end).
  assert (Hsend : forall p, p ∈ take 8 q -> sendable m p (len p)).
  { intros p Hp. destruct (Hd p) as (Hp0 & req & resp & _ & H2 & H3 & H4); [by apply (take_incl 8)|].
    unfold len. rewrite H2. by apply (response_sendable p m req resp). }
  assert (Hndq : NoDup (take 8 q)).
  { apply NoDup_app in Hnd as [Hnd _]. eapply sublist_NoDup; [exact Hnd|apply sublist_take]. }
  destruct (tx_loop_ok l4_field flag 8 (a_udp s) m q len) as (t' & m' & Hloop & Hrep & Hall & Hoth);
    [by rewrite Ha|done..|].
  destruct (Htx n m' (take 8 q)) as (n' & Hb & Hsent); [rewrite length_take; lia|].
  eexists n', (set_out (outbound_queue (a_udp s)) t' (push_head (a_udp s)) (a_udp s)), m', _.
  split; [|split; [|split; [exact Hsent|split; [|by split]]]].
  - unfold send_packets. change (Z.to_nat MAX_TX_BURST) with 8%nat. rewrite Hloop. cbn [mbind outcome_bind].
    rewrite (proj2 (Z.ltb_lt _ _)) by (destruct q; [done|cbn [take length]; lia]).
    rewrite Hb. by rewrite Z.ltb_irrefl.
  - assert (Hkeep : forall p, p ∈ drop 8 q ++ down.*2 -> m' !! p = m !! p).
    { intros p Hp. apply Hoth. intros Hp'. rewrite <- (take_drop 8 q), <- app_assoc in Hnd.
      apply NoDup_app in Hnd as (_ & Hnd & _). by apply (Hnd p). }
    split; cbn [a_peer a_udp a_notify]; try done.
    + rewrite Ha. by eexists _, _, _.
    + rewrite <- (take_drop 8 q), <- app_assoc in Hnd. by apply NoDup_app in Hnd as (_ & _ & Hnd).
    + intros p Hp. rewrite Hkeep by (apply elem_of_app; by right). by apply Hw.
    + intros p Hp. rewrite Hkeep by (apply elem_of_app; by left).
      by apply Hd, (drop_incl 8).
  - apply omap_Forall2. intros p Hp. destruct (Hall p Hp) as (old & new & H1 & H2 & H3).
    exists new. split; [done|].
    destruct (Hd p) as (Hp0 & req & resp & E1 & E2 & E3 & E4); [by apply (take_incl 8)|].
    rewrite H1 in E2. injection E2 as <-. exists req, old. split_and!; [done..|].
    unfold len in H3. rewrite H1 in H3. rewrite Ha in H3. by eapply sent_as_out.
Qed.

Lemma app_dequeue_ok n s m h q up down :
  app_rep s m h q up down ->
  let took := if decide (length q < 128)%nat then head down.*2 else None in
  exists n' s' m' h' rs,
    app_dequeue tx_burst l4_field flag n s m h
      = Ok (match took with Some _ => 0 | None => EAGAIN end, took, n', s', m', h')
    /\ app_rep s' m' h' (drop 8 q) up (match took with Some _ => tail down | None => down end)
    /\ sent n' = sent n ++ rs /\ Forall2 answers (take 8 q) rs
    /\ a_sub s' = a_sub s /\ push_head (a_udp s') = push_head (a_udp s)
    /\ (forall p, p ∉ take 8 q -> m' !! p = m !! p).
Proof.
  intros Hrep took. pose proof Hrep as [Ha [O1 O2 O3 O4] Hr Hc Hn Hnd Hw Hd].
  assert (Hlen : (length q <= 128)%nat) by (apply rh_len in O1; unfold OUTBOUND_Q_LEN in O1; lia).
  assert (Hpop : exists s1 h1, app_rep s1 m h1 q up (match took with Some _ => tail down | None => down end)
    /\ a_udp s1 = a_udp s /\ a_sub s1 = a_sub s
    /\ (if u32 (push_head (a_udp s) - push_tail (a_udp s)) <? OUTBOUND_Q_LEN then
          '(e, v, ctx, h) ← pop (lrpc_ctx (a_peer s)) 0 h;
          Ok (if e =? 0 then 0 else EAGAIN, v,
              mk_app (with_ctx (a_peer s) ctx) (a_udp s) (a_notify s) (a_sub s), h)
        else Ok (EAGAIN, None, s, h))
       = Ok (match took with Some _ => 0 | None => EAGAIN end, took, s1, h1)).
  { rewrite O3, u32_id by lia. unfold took, OUTBOUND_Q_LEN. case_decide.
    - rewrite (proj2 (Z.ltb_lt _ _)) by lia.
      destruct (worker_pop _ _ _ _ _ Hc) as (ctx & h1 & -> & Hc1). cbn [mbind outcome_bind].
      eexists _, h1. split; [|split; [|split; [|reflexivity || (by destruct down as [|[]])]]]; try done.
      split; cbn [a_udp a_peer a_notify]; try done.
      + destruct down; cbn [length tail fmap list_fmap head] in *; lia.
      + destruct down as [|[? p] down]; [done|]. cbn in *. done.
      + destruct down as [|[? p] down]; [done|]. cbn in *.
        apply NoDup_app in Hnd as (N1 & N2 & [_ N3]%NoDup_cons). apply NoDup_app. split_and!; [done| |done].
        intros x Hx. specialize (N2 x Hx). by apply not_elem_of_cons in N2 as [_ ?].
      + destruct down as [|[? p] down]; [done|]. intros x Hx. apply Hw. cbn in *. by right.
    - rewrite (proj2 (Z.ltb_ge _ _)) by lia. exists s, h. done. }
  destruct Hpop as (s1 & h1 & Hrep1 & Eu & Es & Eq). unfold app_dequeue. rewrite Eq. cbn [mbind outcome_bind].
  destruct q as [|p q].
  - rewrite Eu, O3. rewrite (proj2 (Z.ltb_ge _ _)) by (simpl; lia).
    exists n, s1, m, h1, []. rewrite app_nil_r. rewrite Eu. split_and!; [done..|constructor|done|done|done].
  - rewrite (proj2 (Z.ltb_lt (push_tail (a_udp s1)) (push_head (a_udp s1))))
      by (rewrite Eu, O3; cbn [length]; lia).
    destruct (app_send n s1 m h1 (p :: q) up _ Hrep1) as (n' & c' & m' & rs & -> & R1 & R2 & R3 & R4 & R5); [done|].
    cbn [mbind outcome_bind PSP_OK Z.eqb]. eexists n', _, m', h1, rs. split; [done|].
    cbn [a_sub a_udp]. rewrite Eu in R4. by split_and!.
Qed.

(** The notice that goes with the request at [p]. *)
Definition notice_of (p tsc : Z) : Z * Z :=
  (LRPC_TX, match m0 !! p with
            | Some req => match type_byte req with Ok t => notice t tsc | _ => 0 end
            | None => 0
            end).

Lemma app_work_ok tsc p s m h q up down req :
  app_rep s m h q up down -> (length q < 128)%nat ->
  push_head (a_udp s) + 1 + Z.of_nat (length down) < 2 ^ 32 ->
  p <> NULL -> p ∉ q ++ down.*2 -> m0 !! p = Some req -> m !! p = Some req -> aw_request req ->
  Z.of_nat (length up) < LRPC_Q_LEN ->
  exists s' m' h', app_work tsc p s m h = Ok (0, s', m', h')
    /\ app_rep s' m' h' (q ++ [p]) (up ++ [notice_of p tsc]) down
    /\ aw_count (a_sub s') = u32 (aw_count (a_sub s) + 1).
Proof.
  intros [(o & t & hd & Ha) [O1 O2 O3 O4] Hr Hc Hn Hnd Hw Hd] Hq Hroom Hp Hnew E0 Em Hreq Hup.
  destruct (aw_process p (a_sub s) m req Em Hreq) as (w' & resp & Eproc & Hresp & Hcount).
  unfold app_work. rewrite Eproc. cbn [mbind outcome_bind PSP_OK Z.eqb].
  change (OUTBOUND_Q_LEN - 1) with (2 ^ 7 - 1). rewrite land_mask by done.
  pose proof (Z.mod_pos_bound (push_head (a_udp s)) (2 ^ 7) ltac:(lia)) as Hmod.
  pose proof (rh_buf _ _ _ _ O1) as Hbuf. unfold OUTBOUND_Q_LEN in Hbuf.
  rewrite arr_set_Ok by lia. cbn [mbind outcome_bind]. rewrite Hn. unfold get_pkt.
  rewrite lookup_insert_eq. cbn [mbind outcome_bind].
  destruct (aw_answer _ _ Hreq Hresp) as (L1 & L2 & _).
  assert (L3 : (8 <= length (room resp))%nat).
  { apply (f_equal length) in L2. rewrite !length_take in L2. lia. }
  assert (Ety : type_byte resp = type_byte req).
  { unfold type_byte. by rewrite (load_prefix 1 8 (room resp) (room req) 4) by (done || lia). }
  destruct (load_is_Ok 1 (room req) 4) as [ty Hty]; [lia..|].
  assert (Et : type_byte req = Ok (u64 (char_of ty))) by (unfold type_byte; by rewrite Hty).
  rewrite Ety, Et. cbn [mbind outcome_bind].
  destruct (worker_push h (a_peer s) b up down (notice (u64 (char_of ty)) tsc) Hc) as (ctx & h' & -> & Hc').
  rewrite (proj2 (Z.ltb_lt _ _)) in * by done. cbn [mbind outcome_bind].
  eexists _, _, _. split; [done|]. split; [|done].
  split; cbn [a_udp a_peer a_notify set_out push_head push_tail outbound_queue]; try done.
  - rewrite Ha. by eexists _, _, _.
  - split; cbn [push_head push_tail outbound_queue set_out]; try done.
    + change (2 ^ 7) with OUTBOUND_Q_LEN. rewrite O3. apply ring_push; [done|unfold OUTBOUND_Q_LEN; lia].
    + rewrite u32_id, length_app by lia. simpl. lia.
    + rewrite u32_id; lia.
  - rewrite u32_id; lia.
  - unfold notice_of. rewrite E0, Et. done.
  - rewrite <- app_assoc. apply NoDup_app in Hnd as (N1 & N2 & N3). apply not_elem_of_app in Hnew as [P1 P2].
    apply NoDup_app. split_and!; [done| |by apply NoDup_cons].
    intros x Hx [->|Hx']%elem_of_cons; [done|by apply (N2 x)].
  - intros x Hx. rewrite lookup_insert_ne; [by apply Hw|].
    intros <-. apply not_elem_of_app in Hnew as [_ P2]. done.
  - intros x [Hx|Hx]%elem_of_app.
    + rewrite lookup_insert_ne; [by apply Hd|]. intros <-. apply not_elem_of_app in Hnew as [P1 _]. done.
    + apply list_elem_of_singleton in Hx as ->. split; [done|]. exists req, resp. by rewrite lookup_insert_eq.
Qed.

(** A pass that finds no request sends what waits; a pass that finds one
    processes it too. *)
Lemma app_iter_idle tsc n s m h q up :
  app_rep s m h q up [] ->
  exists n' s' m' h' rs, app_iter tx_burst l4_field flag tsc n s m h = Ok (true, n', s', m', h')
    /\ app_rep s' m' h' (drop 8 q) up [] /\ sent n' = sent n ++ rs /\ Forall2 answers (take 8 q) rs
    /\ a_sub s' = a_sub s.
Proof.
  intros Hrep. destruct (app_dequeue_ok n s m h q up [] Hrep) as (n' & s' & m' & h' & rs & Ed & R1 & R2 & R3 & R4 & _).
  replace (if decide (length q < 128)%nat then head ([] : list (Z * Z)).*2 else None) with (@None Z) in *
    by (by case_decide).
  exists n', s', m', h', rs. unfold app_iter. rewrite Ed. cbn [mbind outcome_bind Z.eqb]. by split_and!.
Qed.

Lemma app_iter_busy tsc n s m h q up cmd p down :
  app_rep s m h q up ((cmd, p) :: down) -> (length q < 128)%nat -> Z.of_nat (length up) < LRPC_Q_LEN ->
  exists n' s' m' h' rs, app_iter tx_burst l4_field flag tsc n s m h = Ok (true, n', s', m', h')
    /\ app_rep s' m' h' (drop 8 q ++ [p]) (up ++ [notice_of p tsc]) down
    /\ sent n' = sent n ++ rs /\ Forall2 answers (take 8 q) rs
    /\ aw_count (a_sub s') = u32 (aw_count (a_sub s) + 1).
Proof.
  intros Hrep Hq Hup. pose proof Hrep as [_ _ Hroom _ _ Hnd Hw _]. cbn in Hnd, Hw.
  destruct (Hw p) as (Hp & req & E0 & Em & Hreq); [left|].
  destruct (app_dequeue_ok n s m h q up ((cmd, p) :: down) Hrep)
    as (n' & s1 & m1 & h1 & rs & Ed & R1 & R2 & R3 & R4 & R5 & R6).
  rewrite decide_True in * by done. cbn [head fmap list_fmap snd tail] in *.
  apply NoDup_app in Hnd as (N1 & N2 & [N3 N4]%NoDup_cons).
  assert (Hpq : p ∉ q) by (intros Hx; apply (N2 p Hx); left).
  destruct (app_work_ok tsc p s1 m1 h1 (drop 8 q) up down req) as (s2 & m2 & h2 & Ew & W1 & W2);
    [done|rewrite length_drop; lia|cbn [length] in Hroom; lia|done| |done| |done|done|].
  { apply not_elem_of_app. split; [|done]. intros Hx. by apply Hpq, (drop_incl 8). }
  { rewrite R6; [done|]. intros Hx. by apply Hpq, (take_incl 8). }
  exists n', s2, m2, h2, rs. unfold app_iter. rewrite Ed. cbn [mbind outcome_bind Z.eqb EAGAIN Pos.eqb from_option id].
  rewrite Ew. cbn [mbind outcome_bind Z.eqb].
  rewrite R4 in W2. by split_and!.
Qed.

Lemma app_loop_ok tscs n s m h q up down :
  app_rep s m h q up down -> (length q <= 1)%nat ->
  (length down < length tscs)%nat \/ (q = [] /\ down = []) ->
  Z.of_nat (length up + length down) <= LRPC_Q_LEN ->
  0 <= aw_count (a_sub s) -> aw_count (a_sub s) + Z.of_nat (length down) < 2 ^ 32 ->
  exists n' s' m' h' rs, app_loop tx_burst l4_field flag tscs n s m h = Ok (true, n', s', m', h')
    /\ app_rep s' m' h' [] (up ++ zip_with notice_of down.*2 tscs) []
    /\ sent n' = sent n ++ rs /\ Forall2 answers (q ++ down.*2) rs
    /\ aw_count (a_sub s') = aw_count (a_sub s) + Z.of_nat (length down).
Proof.
  revert n s m h q up down. induction tscs as [|tsc tscs IH]; intros n s m h q up down Hrep Hq Hlen Hup Hc0 Hc1.
  - destruct Hlen as [Hlen|[-> ->]]; [simpl in Hlen; lia|].
    exists n, s, m, h, []. rewrite !app_nil_r. split_and!; [done|done|done|constructor|simpl; lia].
  - cbn [app_loop]. destruct down as [|[cmd p] down].
    + destruct (app_iter_idle tsc n s m h q up Hrep) as (n1 & s1 & m1 & h1 & rs & -> & R1 & R2 & R3 & R4).
      rewrite drop_ge in R1 by lia. cbn [mbind outcome_bind].
      destruct (IH n1 s1 m1 h1 [] up []) as (n2 & s2 & m2 & h2 & rs2 & -> & S1 & S2 & S3 & S4);
        [done|simpl; lia|by right|done|by rewrite R4|by rewrite R4|].
      inversion S3; subst. rewrite R4 in S4. exists n2, s2, m2, h2, rs.
      rewrite take_ge in R3 by lia. cbn. rewrite !app_nil_r. rewrite app_nil_r in S1, S2.
      split_and!; [done|done|congruence|done|done].
    + cbn [length] in *.
      destruct (app_iter_busy tsc n s m h q up cmd p down) as (n1 & s1 & m1 & h1 & rs & -> & R1 & R2 & R3 & R4);
        [done|lia|lia|].
      rewrite drop_ge in R1 by lia. rewrite take_ge in R3 by lia. rewrite u32_id in R4 by lia.
      cbn [mbind outcome_bind app] in *.
      destruct (IH n1 s1 m1 h1 [p] (up ++ [notice_of p tsc]) down)
        as (n2 & s2 & m2 & h2 & rs2 & -> & S1 & S2 & S3 & S4);
        [done|simpl; lia|left; destruct Hlen as [?|[_ ?]]; [lia|done]|rewrite length_app; simpl; lia|lia|lia|].
      exists n2, s2, m2, h2, (rs ++ rs2). split_and!; [done| | | |lia].
      * by rewrite <- app_assoc in S1.
      * by rewrite S2, R2, app_assoc.
      * by apply Forall2_app.
Qed.

End answers.

(** ** The microbenchmark worker keeps the promise *)

Section mb_laws.
Context (fake_work : Z -> outcome unit) (cycles : Z -> Z) (l4_field : Z -> Z).
Hypothesis fake_work_returns : forall n, fake_work n = Ok tt.
Hypothesis l4_field_byte : forall z, 0 <= z < 256 -> l4_field z = z.

#[local] Instance mb_worker : AppWorker MbWorker := {
  process_request := mb_process_request fake_work cycles l4_field
}.

(** The answer: the run time replaced by a response size of zero, which ends
    the twelve bytes sent. *)
Definition mb_answered (req resp : rte_mbuf) : Prop :=
  exists r, store 4 (room req) 12 0 = Ok r /\ resp = with_room req 12 r.

#[local] Program Instance mb_worker_laws : AppWorkerLaws MbWorker := {
  aw_request req := (16 <= length (room req))%nat;
  aw_response := mb_answered;
  aw_count := mb_requests
}.
Next Obligation.
  intros p w m req Hm Hlen. cbv beta in Hlen. cbn [process_request mb_worker]. unfold mb_process_request, get_pkt.
  rewrite Hm. cbn [mbind outcome_bind].
  destruct (load_is_Ok 4 (room req) (4 + 4 * 2)) as [ns ->]; [lia..|]. cbn [mbind outcome_bind].
  rewrite fake_work_returns. cbn [mbind outcome_bind].
  destruct (load_is_Ok 4 (room req) 4) as [ty ->]; [lia..|]. cbn [mbind outcome_bind].
  destruct (store_is_Ok 4 (room req) (4 + 4 * 2) 0) as [r Hr]; [lia..|]. rewrite Hr. cbn [mbind outcome_bind].
  eexists _, _. split; [done|]. split.
  - exists r. split; [done|]. by rewrite l4_field_byte by lia.
  - by repeat case_match.
Qed.
Next Obligation.
  intros req resp Hlen (r & Hr & ->). cbv beta in Hlen. cbn [room with_room l4_len].
  split; [lia|]. pose proof (length_store _ _ _ _ _ Hr) as Hl. split.
  - apply store_inv in Hr as (_ & _ & ->). rewrite take_app_le by (rewrite length_take; lia).
    by rewrite take_take.
  - exists 0. rewrite (load_store_same _ _ _ _ _ Hr). unfold NET_HDR_SIZE. split_and!; (done || lia).
Qed.

End mb_laws.

(** A response of the microbenchmark worker to the request at [p], as the NIC
    sends it. *)
Definition mb_response (c : UdpContext) (m : packets) (p : Z) (r : rte_mbuf) : Prop :=
  exists req old, m !! p = Some req /\ eth_hdr old = eth_hdr req /\ sent_as c old r 12
    /\ take 12 (room r) = take 12 (room req) /\ load 4 (room r) 12 = Ok 0.

(** ** The scan of the RocksDB worker *)

Lemma scan_loop_ok {I} (iter_valid : I -> bool) (iter_next : I -> I) n fuel type i :
  (forall k, iter_valid (Nat.iter k iter_next i) = bool_decide (k < n)%nat) -> (n < fuel)%nat ->
  scan_loop iter_valid iter_next fuel type i = Some (if type =? 10 then (n `min` 1)%nat else n).
Proof.
  revert n i. induction fuel as [|fuel IH]; intros n i Hv Hf; [lia|]. cbn [scan_loop].
  pose proof (Hv 0%nat) as H0. cbn in H0. rewrite H0. destruct n as [|n].
  - rewrite bool_decide_false by lia. by destruct (type =? 10).
  - rewrite bool_decide_true by lia. cbn [negb]. destruct (type =? 10); [by destruct n|].
    rewrite (IH n); [done| |lia]. intros k.
    rewrite <- Nat.iter_succ_r, Hv. apply bool_decide_ext. lia.
Qed.

End App.
Import App.


(** The RocksDB worker: over a database of [entries] entries the scan of a
    request ends, after the first entry for a [GET] and behind the last one
    otherwise, and the request is counted.  The length of the response is not
    set: in a packet that was received with a zero [l4_len] the request id is
    taken for it. *)
Theorem rdb_process_correct {I : Type} (iter_first : I) iter_valid iter_next entries fuel
    payload w (m : packets) req type :
  (forall k, iter_valid (Nat.iter k iter_next iter_first) = bool_decide (k < entries)%nat) ->
  (entries < fuel)%nat -> m !! payload = Some req -> (16 <= length (room req))%nat ->
  load 4 (room req) 4 = Ok type ->
  scan_loop iter_valid iter_next fuel type iter_first
    = Some (if type =? req_num GET then (entries `min` 1)%nat else entries)
  /\ exists w' resp, rdb_process_request iter_first iter_valid iter_next fuel payload w m
       = Ok (Some (0, w', <[payload := resp]> m))
     /\ rdb_requests w' = u32 (rdb_requests w + 1)
     /\ n_gets w' = (if type =? req_num GET then u32 (n_gets w + 1) else n_gets w)
     /\ n_scans w' = (if type =? req_num SCAN then u32 (n_scans w + 1) else n_scans w)
     /\ take 12 (room resp) = take 12 (room req)
     /\ (l4_len req = 0 -> Ok (wire_len resp) = load 4 (room req) 0).
Proof.
  intros Hv Hf Hm Hlen Hty. pose proof (scan_loop_ok iter_valid iter_next entries fuel type iter_first Hv Hf) as Hs.
  split; [exact Hs|]. unfold rdb_process_request, get_pkt. rewrite Hm. cbn [mbind outcome_bind].
  rewrite Hty. cbn [mbind outcome_bind]. rewrite Hs.
  destruct (store_is_Ok 4 (room req) (4 + 4 * 2) 0) as [r Hr]; [lia..|]. rewrite Hr. cbn [mbind outcome_bind].
  eexists _, _. split; [done|]. cbn [rdb_requests n_gets n_scans room with_room l4_len].
  split; [by repeat case_match|]. split; [by repeat case_match|].
  split; [destruct (Z.eqb_spec type (req_num GET)) as [->|]; [done|by repeat case_match]|]. split.
  - apply store_inv in Hr as (_ & _ & ->). apply take_app_length'. rewrite length_take. lia.
  - intros E. unfold wire_len. cbn [l4_len room with_room]. rewrite E.
    rewrite (load_store_other _ _ _ _ _ 4 0 Hr) by lia.
    destruct (load_is_Ok 4 (room req) 0) as [id ->]; [lia..|]. f_equal.
Qed.

(** *** Witnesses: one request of the short type, a database of three entries *)

Definition example_request : rte_mbuf :=
  mk_mbuf (mk_eth 1 2 0) (mk_ip 0 0 0 0 3 4) (mk_udp 5 6 0)
    (le_bytes 4 7 ++ le_bytes 4 1 ++ le_bytes 4 4 ++ le_bytes 4 1000) 0 0 0 0 0 0 0.

Definition example_nic (n : list rte_mbuf) (m : packets) (ps : list Z) : Z * list rte_mbuf :=
  (Z.of_nat (length ps), n ++ omap (fun p => m !! p) ps).

Definition example_app : app_worker MbWorker :=
  mk_app example_worker
    (mk_udpctx 10 6789 0 0 9 0 (mk_rxq (replicate 128 0) 0 0) (replicate 128 0) 0 0) true (mk_mb 0 0 0).

Lemma example_pending : exists h b, connected h example_worker b [] [(LRPC_TX, 4096)].
Proof.
  destruct (dispatcher_push _ example_worker _ _ _ 4096 (Z.le_refl 1) example_connected) as (c & h & _ & Hc).
  by exists h, (with_ctx example_dispatcher c).
Qed.


Lemma rdb_process_correct_witness :
  scan_loop (fun i => i <? 3) (fun i => i + 1) 4 1 0 = Some 3%nat
  /\ exists w' resp, rdb_process_request 0 (fun i => i <? 3) (fun i => i + 1) 4 4096 (mk_rdb 0 0 0)
       {[4096 := example_request]} = Ok (Some (0, w', <[4096 := resp]> {[4096 := example_request]}))
     /\ rdb_requests w' = 1 /\ n_gets w' = 0 /\ n_scans w' = 0
     /\ take 12 (room resp) = take 12 (room example_request)
     /\ (l4_len example_request = 0 -> Ok (wire_len resp) = Ok 7).
Proof.
  apply (rdb_process_correct 0 (fun i => i <? 3) (fun i => i + 1) 3 4 4096 (mk_rdb 0 0 0)
    {[4096 := example_request]} example_request 1); [|lia|done|simpl; lia|done].
  intros k. assert (E : Nat.iter k (fun i => i + 1) 0 = Z.of_nat k).
  { induction k as [|k IH]; [done|]. rewrite Nat.iter_succ, IH. lia. }
  rewrite E. destruct (Z.ltb_spec (Z.of_nat k) 3); symmetry; [apply bool_decide_true|apply bool_decide_false]; lia.
Defined.
