(* ===== verification/Stats.v ===== *)
(** * Stats: what the client computes from its measurements

    Models the histogram of [src/include/psp/hist.hh] ([insert_value]) with the
    loops of [src/src/c++/apps/client/client.hh] that print and check it, and
    the down-sampling of a series ([sample_into]).  Latencies are given in
    nanoseconds: the conversion from cycles is a float division. *)
From Stdlib Require Import Sorted.
From stdpp Require Import sorting fin_sets.
From S2P Require Import Prelude Fail.

Module Stats.

Definition BUCKET_SIZE : Z := 1000.

Record Histogram : Type := mk_hist {
  h_min : Z; h_max : Z; h_total : Z; h_count : Z;
  buckets : gmap Z Z
}.

Definition empty_hist : Histogram := mk_hist 0 0 0 0 ∅.

(** [operator[]] of the map: a missing key is entered with zero. *)
Definition map_at (m : gmap Z Z) (k : Z) : Z * gmap Z Z :=
  match m !! k with
  | Some v => (v, m)
  | None => (0, <[k := 0]> m)
  end.

Definition insert_value (h : Histogram) (val : Z) : Histogram :=
  let mx := if h_max h <? val then val else h_max h in
  let mn := if (val <? h_min h) || (h_min h =? 0) then val else h_min h in
  let total := u64 (h_total h + val) in
  let bucket := u32 (i32 (val / BUCKET_SIZE)) in
  let '(c, m) := map_at (buckets h) bucket in
  mk_hist mn mx total (u64 (h_count h + 1)) (<[bucket := u64 (c + 1)]> m).

(** The loops over the buckets: [i] runs up to the size of the map, which the
    access to a missing bucket increases.  The result lists the buckets that
    are not empty; [None] when [fuel] passes did not suffice. *)
Fixpoint bucket_loop (fuel : nat) (i : Z) (m : gmap Z Z) : option (list (Z * Z) * gmap Z Z) :=
  if Z.of_nat (size m) <=? i then Some ([], m)
  else
    match fuel with
    | O => None
    | S fuel =>
      let '(c, m) := map_at m i in
      match bucket_loop fuel (i + 1) m with
      | None => None
      | Some (l, m) => Some (if 0 <? c then (i, c) :: l else l, m)
      end
    end.

(** [std::sort] by a key. *)
Definition key_le {T} (key : T -> Z) (a b : T) : Prop := key a <= key b.

#[export] Instance key_le_dec {T} (key : T -> Z) : RelDecision (key_le key).
Proof. intros a b. unfold key_le. apply _. Defined.

#[export] Instance key_le_trans {T} (key : T -> Z) : Transitive (key_le key).
Proof. intros a b c. unfold key_le. lia. Qed.

#[export] Instance key_le_total {T} (key : T -> Z) : Total (key_le key).
Proof. intros a b. unfold key_le. lia. Qed.

Definition sort_by {T} (key : T -> Z) (l : list T) : list T := merge_sort (key_le key) l.

Section sampling.
Context {T : Type} (lat_get time_get : T -> Z).

(** The loop over the middle of the series; running out of [fuel] is an error
    that the length of the series excludes. *)
Fixpoint sample_loop (fuel : nat) (i spacing : Z) (from : list T) : outcome (list T) :=
  match fuel with
  | O => UB
  | S fuel =>
    if i <? Z.of_nat (length from) - 1 then
      x ← arr_get from i;
      l ← sample_loop fuel (u32 (i + spacing)) spacing from;
      Ok (x :: l)
    else Ok []
  end.

Definition sample_into (from to : list T) (n : Z) : outcome (list T) :=
  if decide (from = []) then Ok to
  else if Z.of_nat (length from) <=? n then Ok (sort_by time_get (to ++ from))
  else
    let from := sort_by lat_get from in
    if n =? 0 then UB
    else
      let spacing := i32 (Z.of_nat (length from) / n) in
      let spacing := if spacing =? 0 then 1 else spacing in
      x ← arr_get from 0;
      mid ← sample_loop (length from) (u32 spacing) spacing from;
      y ← arr_get from (Z.of_nat (length from) - 1);
      Ok (sort_by time_get (((to ++ [x]) ++ mid) ++ [y])).

End sampling.

(** ** The histogram *)

(** The values of bucket [b]. *)
Definition in_bucket (vs : list Z) (b : Z) : Z :=
  Z.of_nat (length (filter (fun v => v / BUCKET_SIZE = b) vs)).

Definition bucket_ok (v : Z) : Prop := 0 < v < 2 ^ 31 * 1000.

Definition sum (vs : list Z) : Z := foldr Z.add 0 vs.

Lemma in_bucket_snoc vs v b :
  in_bucket (vs ++ [v]) b = in_bucket vs b + (if decide (v / BUCKET_SIZE = b) then 1 else 0).
Proof.
  unfold in_bucket. rewrite filter_app, length_app. cbn [filter list_filter].
  case_decide; simpl; lia.
Qed.

Lemma in_bucket_nonneg vs b : 0 <= in_bucket vs b <= Z.of_nat (length vs).
Proof. unfold in_bucket. pose proof (length_filter (fun v => v / BUCKET_SIZE = b) vs). lia. Qed.

(** What the histogram knows of the values entered. *)
Record hist_of (h : Histogram) (vs : list Z) : Prop := {
  ho_count : h_count h = Z.of_nat (length vs);
  ho_total : h_total h = sum vs;
  ho_min : match vs with [] => h_min h = 0 | _ => h_min h ∈ vs end;
  ho_max : match vs with [] => h_max h = 0 | _ => h_max h ∈ vs end;
  ho_bounds : forall v, v ∈ vs -> h_min h <= v <= h_max h;
  ho_keys : forall b, is_Some (buckets h !! b) <-> 0 < in_bucket vs b;
  ho_buckets : forall b c, buckets h !! b = Some c -> c = in_bucket vs b
}.

Lemma sum_snoc vs v : sum (vs ++ [v]) = sum vs + v.
Proof. unfold sum. induction vs as [|x vs IH]; simpl; lia. Qed.

Lemma map_at_insert m k v : <[k := v]> (map_at m k).2 = <[k := v]> m.
Proof. unfold map_at. destruct (m !! k); [done|]. apply insert_insert_eq. Qed.

Lemma insert_value_ok h vs v :
  hist_of h vs -> Forall bucket_ok vs -> bucket_ok v -> 0 <= sum vs -> sum (vs ++ [v]) < 2 ^ 64 ->
  Z.of_nat (length (vs ++ [v])) < 2 ^ 64 ->
  hist_of (insert_value h v) (vs ++ [v]).
Proof.
  intros [H1 H2 H3 H4 H5 H6 H7] Hvs Hv Hs Hsum Hlen. unfold bucket_ok in *.
  rewrite sum_snoc in Hsum. rewrite length_app in Hlen. cbn [length] in Hlen.
  assert (Eb : u32 (i32 (v / BUCKET_SIZE)) = v / BUCKET_SIZE).
  { unfold BUCKET_SIZE. assert (0 <= v / 1000 < 2 ^ 31) by (split; [apply Z.div_pos|apply Z.div_lt_upper_bound]; lia).
    clear -H. word_lia. }
  unfold insert_value. rewrite Eb. destruct (map_at (buckets h) (v / BUCKET_SIZE)) as [c m] eqn:Em.
  pose proof (map_at_insert (buckets h) (v / BUCKET_SIZE) (u64 (c + 1))) as Hm. rewrite Em in Hm. cbn [snd] in Hm.
  assert (Ec : c = in_bucket vs (v / BUCKET_SIZE)).
  { unfold map_at in Em. destruct (buckets h !! (v / BUCKET_SIZE)) as [c'|] eqn:E; injection Em as <- _; [by apply H7|].
    destruct (in_bucket_nonneg vs (v / BUCKET_SIZE)). apply Z.le_antisymm; [done|]. apply Z.nlt_ge. intros Hpos.
    apply H6 in Hpos as [? ?]. congruence. }
  pose proof (in_bucket_nonneg vs (v / BUCKET_SIZE)) as Hb.
  assert (Hpos : forall x, x ∈ vs -> 0 < x) by (intros x Hx; rewrite Forall_forall in Hvs; by apply Hvs).
  split; cbn [h_count h_total h_min h_max buckets].
  - rewrite H1, length_app, u64_id; simpl; lia.
  - rewrite H2, sum_snoc, u64_id; lia.
  - assert (E : match vs ++ [v] with [] => False | _ => True end) by (by destruct vs).
    destruct (vs ++ [v]) as [|x l] eqn:El; [done|]. rewrite <- El. apply elem_of_app.
    destruct (Z.ltb_spec v (h_min h)); [right; by apply list_elem_of_singleton|]. cbn [orb].
    destruct (Z.eqb_spec (h_min h) 0); [right; by apply list_elem_of_singleton|]. left. by destruct vs.
  - destruct (vs ++ [v]) as [|x l] eqn:El; [by destruct vs|]. rewrite <- El. apply elem_of_app.
    destruct (Z.ltb_spec (h_max h) v); [right; by apply list_elem_of_singleton|]. left. destruct vs; [lia|done].
  - intros x [Hx|Hx]%elem_of_app.
    + destruct (H5 x Hx). pose proof (Hpos x Hx).
      destruct (Z.ltb_spec (h_max h) v), (Z.ltb_spec v (h_min h)), (Z.eqb_spec (h_min h) 0) as [E0|]; simpl; try lia;
        destruct vs; [by apply elem_of_nil in Hx|pose proof (Hpos _ H3); lia
                     |by apply elem_of_nil in Hx|pose proof (Hpos _ H3); lia].
    + apply list_elem_of_singleton in Hx as ->.
      destruct (Z.ltb_spec (h_max h) v), (Z.ltb_spec v (h_min h)), (Z.eqb_spec (h_min h) 0); simpl; lia.
  - intros b. rewrite Hm, in_bucket_snoc. destruct (in_bucket_nonneg vs b). case_decide as Hd.
    + subst b. rewrite lookup_insert_eq. split; [lia|by eexists].
    + rewrite lookup_insert_ne, H6 by done. by rewrite Z.add_0_r.
  - intros b c'. rewrite Hm, in_bucket_snoc. case_decide as Hd.
    + subst b. rewrite lookup_insert_eq. intros [= <-]. rewrite u64_id; lia.
    + rewrite lookup_insert_ne by done. intros Hc. rewrite Z.add_0_r. by apply H7.
Qed.

(** ** Printing the histogram *)

Definition count_at (m : gmap Z Z) (b : Z) : Z := default 0 (m !! b).

(** The buckets from [i] on that are not empty. *)
Definition nonempty (m : gmap Z Z) (i n : Z) : list (Z * Z) :=
  omap (fun b => if 0 <? count_at m b then Some (b, count_at m b) else None) (seqZ i n).

Lemma nonempty_cons m i top :
  i < top -> nonempty m i (top - i) =
    (if 0 <? count_at m i then (i, count_at m i) :: nonempty m (i + 1) (top - (i + 1))
     else nonempty m (i + 1) (top - (i + 1))).
Proof.
  intros Hi. unfold nonempty. rewrite (seqZ_cons i) by lia. csimpl.
  replace (Z.pred (top - i)) with (top - (i + 1)) by lia. replace (Z.succ i) with (i + 1) by lia.
  by destruct (0 <? count_at m i).
Qed.

Lemma size_range (i : Z) : 0 <= i -> size (list_to_set (seqZ 0 i) : gset Z) = Z.to_nat i.
Proof. intros Hi. rewrite size_list_to_set by apply NoDup_seqZ. apply length_seqZ. Qed.

(** The map has more entries than [i] exactly when one is still to come. *)
Lemma size_above (m : gmap Z Z) (i top : Z) :
  0 <= i <= top -> (forall k, is_Some (m !! k) -> 0 <= k < top) ->
  (forall k, 0 <= k < i -> is_Some (m !! k)) ->
  (i < top -> is_Some (m !! (top - 1))) ->
  (Z.of_nat (size m) <=? i) = bool_decide (i = top).
Proof.
  intros Hi Hkeys Hlow Htop. rewrite <- size_dom. case_bool_decide as Heq.
  - apply Z.leb_le. subst i.
    assert (dom m ⊆ list_to_set (seqZ 0 top)) as Hsub%subseteq_size.
    { intros k Hk%elem_of_dom%Hkeys. apply elem_of_list_to_set, elem_of_seqZ. lia. }
    rewrite size_range in Hsub by lia. lia.
  - apply Z.leb_gt.
    assert ({[top - 1]} ∪ list_to_set (seqZ 0 i) ⊆ dom m) as Hsub%subseteq_size.
    { intros k [->%elem_of_singleton|Hk]%elem_of_union; apply elem_of_dom; [apply Htop; lia|].
      apply Hlow. apply elem_of_list_to_set, elem_of_seqZ in Hk. lia. }
    rewrite size_union, size_singleton, size_range in Hsub; [lia|lia|].
    apply disjoint_singleton_l. rewrite elem_of_list_to_set, elem_of_seqZ. lia.
Qed.

Lemma bucket_loop_ok fuel i m top :
  0 <= i <= top -> (forall k, is_Some (m !! k) -> 0 <= k < top) ->
  (forall k, 0 <= k < i -> is_Some (m !! k)) ->
  (i < top -> is_Some (m !! (top - 1))) -> top - i <= Z.of_nat fuel ->
  exists m', bucket_loop fuel i m = Some (nonempty m i (top - i), m')
    /\ (forall k, count_at m' k = count_at m k) /\ (forall k, is_Some (m' !! k) <-> 0 <= k < top).
Proof.
  revert i m. induction fuel as [|fuel IH]; intros i m Hi Hkeys Hlow Htop Hf; cbn [bucket_loop];
    rewrite (size_above m i top) by done; case_bool_decide as Heq; try lia.
  - exists m. subst. rewrite Z.sub_diag. split; [done|]. split; [done|]. by split; [apply Hkeys|apply Hlow].
  - exists m. subst. rewrite Z.sub_diag. split; [done|]. split; [done|]. by split; [apply Hkeys|apply Hlow].
  - assert (Hat : exists m1, map_at m i = (count_at m i, m1) /\ is_Some (m1 !! i)
      /\ (forall k, k <> i -> m1 !! k = m !! k) /\ (forall k, count_at m1 k = count_at m k)).
    { unfold map_at, count_at. destruct (m !! i) as [c|] eqn:E.
      - exists m. rewrite E. split_and!; [done|by eexists|done|done].
      - exists (<[i := 0]> m). rewrite lookup_insert_eq. split_and!; [done|by eexists| |].
        + intros k Hk. by rewrite lookup_insert_ne.
        + intros k. destruct (decide (k = i)) as [->|Hk]; [by rewrite lookup_insert_eq, E|].
          by rewrite lookup_insert_ne. }
    destruct Hat as (m1 & -> & H1 & H2 & H3).
    destruct (IH (i + 1) m1) as (m' & -> & Hm' & Hk'); [lia| | | |lia|].
    + intros k Hk. destruct (decide (k = i)) as [->|Hne]; [lia|]. rewrite H2 in Hk by done. by apply Hkeys.
    + intros k Hk. destruct (decide (k = i)) as [->|Hne]; [done|]. rewrite H2 by done. apply Hlow. lia.
    + intros Hlt. destruct (decide (top - 1 = i)) as [->|Hne]; [done|]. rewrite H2 by done. apply Htop. lia.
    + exists m'. split; [|split; [intros k; by rewrite Hm', H3|done]].
      assert (Hn : nonempty m1 (i + 1) (top - (i + 1)) = nonempty m (i + 1) (top - (i + 1))).
      { unfold nonempty. apply list_omap_ext. apply Forall_Forall2_diag, Forall_true. intros k. by rewrite H3. }
      rewrite Hn, (nonempty_cons m i) by lia. by destruct (0 <? count_at m i).
Qed.

Lemma in_bucket_cons v vs b :
  in_bucket (v :: vs) b = in_bucket vs b + (if decide (v / BUCKET_SIZE = b) then 1 else 0).
Proof. unfold in_bucket. rewrite filter_cons. case_decide; simpl; lia. Qed.

(** Every value is in one bucket. *)
Lemma buckets_sum vs n :
  Forall (fun v => 0 <= v / BUCKET_SIZE < n) vs -> sum (in_bucket vs <$> seqZ 0 n) = Z.of_nat (length vs).
Proof.
  induction 1 as [|v vs Hv _ IH].
  - unfold sum. generalize (seqZ 0 n). intros l. induction l as [|x l IH]; [done|]. csimpl. rewrite IH. done.
  - cbn [length]. rewrite Nat2Z.inj_succ, <- IH. clear IH.
    assert (Hg : forall l, NoDup l -> sum (in_bucket (v :: vs) <$> l)
      = sum (in_bucket vs <$> l) + (if decide (v / BUCKET_SIZE ∈ l) then 1 else 0)).
    { unfold sum. intros l. induction 1 as [|x l Hx _ IH]; [done|]. csimpl. rewrite IH, in_bucket_cons.
      destruct (decide (v / BUCKET_SIZE = x)) as [->|Hne].
      - rewrite decide_False by done. rewrite decide_True by left. lia.
      - rewrite (decide_ext (v / BUCKET_SIZE ∈ x :: l) (v / BUCKET_SIZE ∈ l)); [lia|].
        rewrite elem_of_cons. naive_solver. }
    rewrite Hg by apply NoDup_seqZ. rewrite decide_True; [lia|]. apply elem_of_seqZ. lia.
Qed.

Lemma nonempty_sum m l :
  (forall b, b ∈ l -> 0 <= count_at m b) ->
  sum (omap (fun b => if 0 <? count_at m b then Some (b, count_at m b) else None) l).*2
  = sum (count_at m <$> l).
Proof.
  unfold sum. induction l as [|b l IH]; intros Hl; [done|]. csimpl.
  assert (0 <= count_at m b) by (apply Hl; left).
  destruct (Z.ltb_spec 0 (count_at m b)); csimpl; rewrite IH; try (intros; apply Hl; by right); lia.
Qed.

Lemma foldl_u32 l : Forall (fun x => 0 <= x) l -> sum l < 2 ^ 32 -> foldl (fun c x => u32 (c + x)) 0 l = sum l.
Proof.
  assert (Hg : forall a, 0 <= a -> Forall (fun x => 0 <= x) l -> a + sum l < 2 ^ 32 ->
    foldl (fun c x => u32 (c + x)) a l = a + sum l); [|intros; by apply (Hg 0)].
  unfold sum. induction l as [|x l IH]; intros a Ha Hl Hs; cbn [foldl foldr] in *; [lia|].
  inversion Hl; subst. assert (0 <= foldr Z.add 0 l) by (clear -H2; induction H2; simpl; lia).
  rewrite u32_id by lia. rewrite IH; (done || lia).
Qed.

Lemma hist_of_all vs :
  Forall bucket_ok vs -> sum vs < 2 ^ 64 -> Z.of_nat (length vs) < 2 ^ 32 ->
  hist_of (foldl insert_value empty_hist vs) vs.
Proof.
  induction vs as [|v vs IH] using rev_ind; intros Hv Hs Hl.
  - split; try done; [by intros v Hv'%elem_of_nil|].
    intros b. split; [by intros [? ?]|done].
  - rewrite foldl_snoc. apply Forall_app in Hv as [Hv1 Hv2]. inversion Hv2 as [|?? Hv3]; subst.
    assert (0 <= sum vs) by (clear -Hv1; unfold sum; induction Hv1 as [|? ? [] ]; simpl; lia).
    rewrite sum_snoc, length_app in *. cbn [length] in Hl. unfold bucket_ok in *.
    apply insert_value_ok; try done; [apply IH; (done || lia)|by rewrite sum_snoc|rewrite length_app; simpl; lia].
Qed.

Section hist.
Context (h : Histogram) (vs : list Z).
Hypothesis Hh : hist_of h vs.

Lemma hist_count b : count_at (buckets h) b = in_bucket vs b.
Proof.
  unfold count_at. destruct (buckets h !! b) as [c|] eqn:E; [by apply (ho_buckets _ _ Hh)|]. cbn.
  destruct (in_bucket_nonneg vs b). apply Z.le_antisymm; [done|]. apply Z.nlt_ge.
  intros [? ?]%(ho_keys _ _ Hh). congruence.
Qed.

Lemma hist_range v : Forall bucket_ok vs -> v ∈ vs -> 0 <= v / BUCKET_SIZE < h_max h / BUCKET_SIZE + 1.
Proof.
  intros Hv Hin. destruct (ho_bounds _ _ Hh v Hin) as [_ Hle]. rewrite Forall_forall in Hv.
  pose proof (Hv v Hin) as Hvv. unfold bucket_ok, BUCKET_SIZE in *. split; [apply Z.div_pos; lia|].
  apply Z.lt_succ_r, Z.div_le_mono; lia.
Qed.

Lemma hist_keys k : Forall bucket_ok vs -> is_Some (buckets h !! k) -> 0 <= k < h_max h / BUCKET_SIZE + 1.
Proof.
  intros Hv Hk%(ho_keys _ _ Hh). unfold in_bucket in Hk.
  destruct (filter (fun v => v / BUCKET_SIZE = k) vs) as [|v l] eqn:E; [done|].
  assert (Hin : v ∈ filter (fun v => v / BUCKET_SIZE = k) vs) by (rewrite E; left).
  apply list_elem_of_filter in Hin as [<- Hin]. by apply hist_range.
Qed.

Lemma hist_top : h_max h ∈ vs -> is_Some (buckets h !! (h_max h / BUCKET_SIZE)).
Proof.
  intros Hmax. apply (ho_keys _ _ Hh). unfold in_bucket.
  assert (Hin : h_max h ∈ filter (fun v => v / BUCKET_SIZE = h_max h / BUCKET_SIZE) vs).
  { apply list_elem_of_filter. by split. }
  destruct (filter _ vs); [by apply elem_of_nil in Hin|simpl; lia].
Qed.

(** A map that the printing loops can start from: the histogram's own, and
    what any of the loops leaves. *)
Definition prints (m : gmap Z Z) : Prop :=
  let top := h_max h / BUCKET_SIZE + 1 in
  (forall k, count_at m k = in_bucket vs k) /\ (forall k, is_Some (m !! k) -> 0 <= k < top)
  /\ is_Some (m !! (top - 1)).

(** The lines: the buckets that have values, with their number. *)
Definition bucket_lines : list (Z * Z) :=
  omap (fun b => if 0 <? in_bucket vs b then Some (b, in_bucket vs b) else None)
    (seqZ 0 (h_max h / BUCKET_SIZE + 1)).

Lemma prints_hist : vs <> [] -> Forall bucket_ok vs -> prints (buckets h).
Proof.
  intros Hne Hv. assert (Hmax : h_max h ∈ vs) by (pose proof (ho_max _ _ Hh); by destruct vs).
  split_and!; [apply hist_count|intros k; by apply hist_keys|].
  replace (h_max h / BUCKET_SIZE + 1 - 1) with (h_max h / BUCKET_SIZE) by lia. by apply hist_top.
Qed.

Lemma prints_loop fuel m :
  prints m -> h_max h / BUCKET_SIZE < Z.of_nat fuel ->
  exists m', bucket_loop fuel 0 m = Some (bucket_lines, m') /\ prints m'.
Proof.
  intros (Hc & Hk & Ht) Hf. pose proof (Hk _ Ht).
  destruct (bucket_loop_ok fuel 0 m (h_max h / BUCKET_SIZE + 1)) as (m' & E & Hc' & Hk'); [lia|done|lia|done|lia|].
  rewrite Z.sub_0_r in E. exists m'. split.
  - rewrite E. unfold nonempty, bucket_lines. do 2 f_equal. apply list_omap_ext.
    apply Forall_Forall2_diag, Forall_true. intros b. by rewrite Hc.
  - split_and!; [intros k; by rewrite Hc', Hc|by intros k ?%Hk'|apply Hk'; lia].
Qed.

Lemma bucket_lines_sum :
  Forall bucket_ok vs -> Z.of_nat (length vs) < 2 ^ 32 ->
  foldl (fun c x => u32 (c + x)) 0 bucket_lines.*2 = Z.of_nat (length vs).
Proof.
  intros Hv Hl. set (top := h_max h / BUCKET_SIZE + 1).
  assert (Hsum : sum bucket_lines.*2 = Z.of_nat (length vs)).
  { assert (Hn : bucket_lines = nonempty (buckets h) 0 top).
    { apply list_omap_ext, Forall_Forall2_diag, Forall_true. intros b. by rewrite hist_count. }
    rewrite Hn. unfold nonempty. rewrite nonempty_sum by (intros b _; rewrite hist_count; apply in_bucket_nonneg).
    rewrite (list_fmap_ext _ (in_bucket vs) (seqZ 0 top)) by (intros; apply hist_count).
    apply buckets_sum. apply Forall_forall. intros v Hin. by apply hist_range. }
  rewrite foldl_u32; [done| |by rewrite Hsum].
  apply Forall_forall. intros x Hx. apply list_elem_of_fmap in Hx as ([b c] & -> & Hin).
  apply list_elem_of_omap in Hin as (b' & _ & E). destruct (Z.ltb_spec 0 (in_bucket vs b')); [|done].
  injection E as <- <-. simpl. lia.
Qed.

End hist.

(** ** Sampling *)

Section sample.
Context {T : Type} (from : list T) (s : Z).
Hypothesis Hs : 1 <= s.
Hypothesis Hlen : Z.of_nat (length from) + s < 2 ^ 32.

Lemma sample_loop_ok fuel i :
  0 <= i -> Z.of_nat (length from) - i <= Z.of_nat fuel -> (1 <= fuel)%nat ->
  exists l, sample_loop fuel i s from = Ok l /\ l `sublist_of` drop (Z.to_nat i) (take (length from - 1) from)
    /\ Z.of_nat (length l) = Z.max 0 ((Z.of_nat (length from) - 1 - i + (s - 1)) / s).
Proof.
  revert i. induction fuel as [|fuel IH]; intros i Hi Hf Hf1; [lia|]. cbn [sample_loop].
  destruct (Z.ltb_spec i (Z.of_nat (length from) - 1)) as [Hlt|Hge].
  - destruct (arr_get_lt from i) as [x Hx]; [lia|]. rewrite Hx. cbn [mbind outcome_bind].
    rewrite u32_id by lia.
    destruct (IH (i + s)) as (l & -> & Hsub & Hl); [lia|lia|lia|]. cbn [mbind outcome_bind].
    exists (x :: l). split; [done|]. apply arr_get_Ok in Hx as [_ Hx]. split.
    + assert (Hd : drop (Z.to_nat i) (take (length from - 1) from)
        = x :: drop (S (Z.to_nat i)) (take (length from - 1) from)).
      { apply drop_S. rewrite lookup_take_lt by lia. done. }
      rewrite Hd. apply sublist_skip. etrans; [exact Hsub|].
      replace (Z.to_nat (i + s)) with (S (Z.to_nat i) + Z.to_nat (s - 1))%nat by lia.
      rewrite <- drop_drop. apply sublist_drop.
    + cbn [length]. rewrite Nat2Z.inj_succ, Hl. set (k := Z.of_nat (length from)) in *.
      assert (E : (k - 1 - i + (s - 1)) / s = 1 + (k - 1 - (i + s) + (s - 1)) / s).
      { replace (k - 1 - i + (s - 1)) with (1 * s + (k - 1 - (i + s) + (s - 1))) by lia.
        by rewrite Z.div_add_l by lia. }
      rewrite E. assert (0 <= (k - 1 - (i + s) + (s - 1)) / s) by (apply Z.div_pos; lia). lia.
  - exists []. split; [done|]. split; [apply sublist_nil_l|]. symmetry. apply Z.max_l.
    apply Z.lt_succ_r. apply Z.div_lt_upper_bound; lia.
Qed.

End sample.

Lemma first_last {T} (l : list T) : (2 <= length l)%nat -> exists x l0 y, l = x :: l0 ++ [y].
Proof.
  destruct l as [|x l]; simpl; [lia|]. intros Hl.
  destruct (exists_last (l := l)) as (l0 & y & ->); [by intros ->; simpl in Hl; lia|]. by exists x, l0, y.
Qed.

Lemma sorted_ends {T} (key : T -> Z) x l0 y :
  StronglySorted (key_le key) (x :: l0 ++ [y]) ->
  (forall z, z ∈ x :: l0 ++ [y] -> key x <= key z) /\ (forall z, z ∈ x :: l0 ++ [y] -> key z <= key y).
Proof.
  intros [Hx Hs]%StronglySorted_cons. rewrite Forall_forall in Hx. unfold key_le in *. split.
  - intros z [->|Hz]%elem_of_cons; [done|]. by apply Hx.
  - intros z [->|[Hz| ->%list_elem_of_singleton]%elem_of_app]%elem_of_cons; [| |done].
    + apply Hx. apply elem_of_app. right. left.
    + apply StronglySorted_app in Hs as (Hs & _). apply Hs; [done|left].
Qed.

(** How many samples there are: the quotient is rounded down. *)
Lemma sample_count k n :
  1 <= n < k -> let s := k / n in n < 2 + Z.max 0 ((k - 1 - s + (s - 1)) / s) <= 2 * n.
Proof.
  intros Hn s. pose proof (Z.div_mod k n ltac:(lia)) as Hd. pose proof (Z.mod_pos_bound k n ltac:(lia)) as Hm.
  assert (1 <= s) by (apply Z.div_le_lower_bound; lia).
  fold s in Hd. replace (k - 1 - s + (s - 1)) with (k - 2) by lia.
  assert (n - 1 <= (k - 2) / s) by (apply Z.div_le_lower_bound; nia).
  assert ((k - 2) / s < 2 * n - 1) by (apply Z.div_lt_upper_bound; nia). lia.
Qed.

End Stats.
Import Stats.

(** The histogram of a series: count, total, minimum and maximum are those of
    the values; the loop that prints it, although it enters the buckets it
    misses into the map it iterates over, ends and shows each nonempty bucket
    once, in order, with the number of values in it; and the numbers, added in 32
    bits, give the count. *)
Theorem histogram_correct (vs : list Z) (fuel : nat) :
  vs <> [] -> Forall bucket_ok vs -> sum vs < 2 ^ 64 -> Z.of_nat (length vs) < 2 ^ 32 ->
  let h := foldl insert_value empty_hist vs in
  h_max h / BUCKET_SIZE < Z.of_nat fuel ->
  h_count h = Z.of_nat (length vs) /\ h_total h = sum vs
  /\ h_min h ∈ vs /\ h_max h ∈ vs /\ (forall v, v ∈ vs -> h_min h <= v <= h_max h)
  /\ (exists lines m', bucket_loop fuel 0 (buckets h) = Some (lines, m')
      /\ lines = omap (fun b => if 0 <? in_bucket vs b then Some (b, in_bucket vs b) else None)
                  (seqZ 0 (h_max h / BUCKET_SIZE + 1))
      /\ foldl (fun c x => u32 (c + x)) 0 lines.*2 = h_count h).
Proof.
  intros Hne Hv Hs Hl h Hfuel. pose proof (hist_of_all vs Hv Hs Hl) as Hh. fold h in Hh.
  pose proof Hh as [H1 H2 H3 H4 H5 _ _].
  assert (Hmin : h_min h ∈ vs) by (by destruct vs). assert (Hmax : h_max h ∈ vs) by (by destruct vs).
  destruct (prints_loop h vs fuel (buckets h)) as (m' & Hloop & _); [by apply prints_hist|done|].
  split_and!; try done. exists (bucket_lines h vs), m'. split_and!; [done|done|].
  by rewrite (bucket_lines_sum h vs Hh), H1.
Qed.

Lemma histogram_correct_witness :
  let vs := [1500; 20; 3700; 1999] in let h := foldl insert_value empty_hist vs in
  h_count h = 4 /\ h_total h = sum vs /\ h_min h ∈ vs /\ h_max h ∈ vs
  /\ (forall v, v ∈ vs -> h_min h <= v <= h_max h)
  /\ (exists lines m', bucket_loop 4 0 (buckets h) = Some (lines, m') /\ lines = [(0, 1); (1, 2); (3, 1)]
      /\ foldl (fun c x => u32 (c + x)) 0 lines.*2 = h_count h).
Proof.
  apply (histogram_correct [1500; 20; 3700; 1999] 4); [done|repeat constructor; unfold bucket_ok; lia|done|simpl; lia|].
  vm_compute. done.
Defined.


(** Down-sampling: a series that is longer than wanted keeps its smallest and
    its largest latency and, evenly spaced in the order of latency, more than
    [n] and at most [2 * n] samples in all; a shorter one is kept as it is.
    The result is in the order of time. *)
Theorem sample_into_correct {T : Type} (lat_get time_get : T -> Z) (from to : list T) (n : Z) :
  from <> [] -> 1 <= n -> Z.of_nat (length from) < 2 ^ 30 ->
  exists picked out, sample_into lat_get time_get from to n = Ok out
    /\ out ≡ₚ to ++ picked /\ Sorted (key_le time_get) out /\ picked ⊆+ from
    /\ (Z.of_nat (length from) <= n -> picked = from)
    /\ (n < Z.of_nat (length from) ->
        n < Z.of_nat (length picked) <= 2 * n
        /\ (exists x, x ∈ picked /\ forall y, y ∈ from -> lat_get x <= lat_get y)
        /\ (exists x, x ∈ picked /\ forall y, y ∈ from -> lat_get y <= lat_get x)).
Proof.
  intros Hne Hn Hlen. unfold sample_into. rewrite decide_False by done.
  destruct (Z.leb_spec (Z.of_nat (length from)) n) as [Hle|Hgt].
  - exists from. eexists. split; [done|].
    split_and!; [apply merge_sort_Permutation|apply Sorted_merge_sort; apply _|done|done|lia].
  - rewrite (proj2 (Z.eqb_neq n 0)) by lia. set (l := sort_by lat_get from).
    assert (Hp : l ≡ₚ from) by apply merge_sort_Permutation.
    assert (Hsorted : StronglySorted (key_le lat_get) l) by (apply StronglySorted_merge_sort; apply _).
    assert (Hll : length l = length from) by (by apply Permutation_length).
    rewrite Hll. set (k := Z.of_nat (length from)) in *. set (s := k / n).
    assert (Hs1 : 1 <= s) by (apply Z.div_le_lower_bound; lia).
    assert (Hs2 : s <= k) by (apply Z.div_le_upper_bound; nia).
    assert (Ei : i32 s = s) by (clear -Hs1 Hs2 Hlen; word_lia).
    rewrite Ei, (proj2 (Z.eqb_neq s 0)) by lia. rewrite (u32_id s) by lia.
    destruct (sample_loop_ok l s Hs1 ltac:(lia) (length from) s) as (mid & Emid & Hsub & Hmid); [lia..|].
    destruct (first_last l) as (x & l0 & y & El); [lia|].
    assert (Hmid0 : mid `sublist_of` l0).
    { etrans; [exact Hsub|]. rewrite Hll. replace (Z.to_nat s) with (1 + Z.to_nat (s - 1))%nat by lia.
      rewrite <- drop_drop. etrans; [apply sublist_drop|].
      rewrite El in *. cbn [length] in Hll. rewrite length_app in Hll. cbn [length] in Hll.
      replace (length from - 1)%nat with (S (length l0)) by lia. cbn [take drop].
      rewrite take_app_length' by done. done. }
    exists (x :: mid ++ [y]). rewrite Emid.
    rewrite El in Hp, Hsorted, Hll |- *. cbn [length] in Hll. rewrite length_app in Hll. cbn [length] in Hll.
    rewrite (proj2 (arr_get_Ok _ 0 x)) by done. cbn [mbind outcome_bind].
    rewrite (proj2 (arr_get_Ok (x :: l0 ++ [y]) (k - 1) y)).
    2:{ split; [lia|]. replace (Z.to_nat (k - 1)) with (S (length l0)) by lia.
        change ((l0 ++ [y]) !! length l0 = Some y). by rewrite lookup_app_r, Nat.sub_diag by lia. }
    cbn [mbind outcome_bind]. eexists. split; [done|]. rewrite <- !app_assoc.
    split_and!; [apply merge_sort_Permutation|apply Sorted_merge_sort; apply _| |lia|].
    + rewrite <- Hp. apply sublist_submseteq, sublist_skip, sublist_app; [done|reflexivity].
    + intros _. destruct (sorted_ends lat_get x l0 y Hsorted) as [Hmin Hmax]. split; [|split].
      * cbn [length]. rewrite length_app. cbn [length]. pose proof (sample_count k n ltac:(lia)) as Hc.
        cbv zeta in Hc. fold s in Hc. rewrite El in Hmid. cbn [length] in Hmid. rewrite length_app in Hmid.
        cbn [length] in Hmid. replace (Z.of_nat (S (length l0 + 1))) with k in Hmid by lia. lia.
      * exists x. split; [left|]. intros z Hz. rewrite <- Hp in Hz. by apply Hmin.
      * exists y. split; [right; apply elem_of_app; right; left|]. intros z Hz. rewrite <- Hp in Hz. by apply Hmax.
Qed.

Lemma sample_into_correct_witness :
  exists picked out, sample_into snd fst [(1, 30); (2, 10); (3, 50); (4, 20); (5, 40)] [] 2 = Ok out
    /\ out ≡ₚ [] ++ picked /\ Sorted (key_le fst) out /\ 2 < Z.of_nat (length picked) <= 4.
Proof.
  destruct (sample_into_correct snd fst [(1, 30); (2, 10); (3, 50); (4, 20); (5, 40)] [] 2)
    as (picked & out & H1 & H2 & H3 & _ & _ & H4); [done|lia|simpl; lia|].
  exists picked, out. split_and!; [exact H1|exact H2|exact H3|apply H4; simpl; lia|apply H4; simpl; lia].
Defined.
