(* ===== verification/Schedule.v ===== *)
(** * Schedule: the requests a client will send

    Models [src/src/c++/apps/client/schedule.hh] ([Schedule::gen_schedule]) and
    the request of [src/src/c++/apps/client/msg.hh].  The draws of the random
    distributions are arguments; ratios are doubles, of which only the
    comparison and the subtraction are used. *)
From Stdlib Require Import Sorted.
From stdpp Require Import sorting.
From S2P Require Import Prelude Fail Requests.

Module Schedule.

Inductive pkt_type : Type := PSP_MB | IX | RAW | PT_UNKNOWN.

Definition str_to_ptype (type : string) : pkt_type :=
  if decide (type = "PSP_MB"%string) then PSP_MB
  else if decide (type = "IX"%string) then IX
  else if decide (type = "RAW"%string) then RAW
  else PT_UNKNOWN.

(** [ClientRequest::str_to_type]. *)
Definition client_str_to_type (type : string) : ReqType :=
  if decide (type = "REGEX"%string) then REGEX
  else if decide (type = "PAGE"%string) then PAGE
  else if decide (type = "Payment"%string) then PAYMENT
  else if decide (type = "NewOrder"%string) then NEW_ORDER
  else if decide (type = "Delivery"%string) then DELIVERY
  else if decide (type = "StockLevel"%string) then STOCK_LEVEL
  else if decide (type = "OrderStatus"%string) then ORDER_STATUS
  else UNKNOWN.

(** The type is kept as its number: it comes from a cast. *)
Record ClientRequest : Type := mk_cr {
  cr_id : Z; cr_mbuf : Z; run_ns : Z; cr_type : Z;
  sending : Z; completed : Z; cr_schedule_id : Z
}.

Section generate.
Context {D : Type} (ltb : D -> D -> bool) (sub : D -> D -> D).

(** The fields of [Schedule] that the generation reads. *)
Record sched_cfg : Type := mk_cfg {
  schedule_id : Z;
  end_ns : Z;
  uniform : bool;
  ptype : pkt_type;
  cmd_ratios : list D;
  reqs_us : list Z
}.

(** What it builds: [time], [type_counts], [send_times], [n_requests] and the
    vector of requests. *)
Record gen_state : Type := mk_gs {
  g_time : Z;
  type_counts : list Z;
  send_times : list Z;
  n_requests : Z;
  requests : list ClientRequest
}.

(** The choice of the type. *)
Fixpoint pick (r : D) (ratios : list D) (i : Z) : option Z :=
  match ratios with
  | [] => None
  | x :: ratios => if ltb r x then Some i else pick (sub r x) ratios (i + 1)
  end.

Variable uniform_step : Z -> Z.
Variable req_offset : Z.

Definition next_time (c : sched_cfg) (dt t : Z) : Z :=
  if uniform c then uniform_step t else u64 (t + dt).

(** One pass of the loop, with its draws [r] and [dt]. *)
Definition gen_one (c : sched_cfg) (base_rid start_time : Z) (r : D) (dt : Z) (g : gen_state)
  : outcome gen_state :=
  match pick r (cmd_ratios c) 0 with
  | None => Panic SIGABRT
  | Some cmd_idx =>
    counts ← arr_upd (type_counts g) (req_offset + cmd_idx) (fun n => n + 1);
    let time := next_time c dt (g_time g) in
    let rid := u32 (base_rid + n_requests g) in
    run ← (match ptype c with PSP_MB | IX => arr_get (reqs_us c) cmd_idx | _ => Ok 0 end);
    let reqs := requests g ++ [mk_cr rid NULL run (req_offset + cmd_idx) 0 0 (schedule_id c)] in
    _ ← (if rid <? Z.of_nat (length reqs) then PSP_TRUE EINVAL (rid =? Z.of_nat (length reqs) - 1) else UB);
    Ok (mk_gs time counts (send_times g ++ [time + start_time]) (u32 (n_requests g + 1)) reqs)
  end.

(** The loop: [None] when the draws are used up before the end. *)
Fixpoint gen_loop (c : sched_cfg) (base_rid start_time : Z) (draws : list (D * Z)) (g : gen_state)
  : outcome (option gen_state) :=
  if g_time g <=? end_ns c then
    match draws with
    | [] => Ok None
    | (r, dt) :: draws =>
      g ← gen_one c base_rid start_time r dt g;
      gen_loop c base_rid start_time draws g
    end
  else Ok (Some g).

Definition gen_schedule (c : sched_cfg) (start_time : Z) (draws : list (D * Z)) (reqs : list ClientRequest)
  : outcome (option gen_state) :=
  gen_loop c (Z.of_nat (length reqs)) start_time draws
    (mk_gs 0 (replicate (Z.to_nat LAST) 0) [] 0 reqs).

(** ** What is generated *)

(** The request number [k] of the schedule. *)
Record generated (c : sched_cfg) (base k : Z) (q : ClientRequest) : Prop := {
  gn_id : cr_id q = base + k;
  gn_fresh : cr_mbuf q = NULL /\ sending q = 0 /\ completed q = 0;
  gn_sched : cr_schedule_id q = schedule_id c;
  gn_type : exists i, 0 <= i < Z.of_nat (length (cmd_ratios c)) /\ cr_type q = req_offset + i
    /\ match ptype c with PSP_MB | IX => reqs_us c !! Z.to_nat i = Some (run_ns q) | _ => run_ns q = 0 end
}.

Record gen_ok (c : sched_cfg) (start : Z) (old : list ClientRequest) (g : gen_state) (new : list ClientRequest)
  : Prop := {
  go_reqs : requests g = old ++ new;
  go_n : n_requests g = Z.of_nat (length new);
  go_all : forall k q, new !! k = Some q -> generated c (Z.of_nat (length old)) (Z.of_nat k) q;
  go_times : length (send_times g) = length new;
  go_sorted : StronglySorted Z.lt (send_times g);
  go_last : Forall (fun t => start < t <= start + g_time g) (send_times g);
  go_time : 0 <= g_time g;
  go_counts : length (type_counts g) = Z.to_nat LAST
    /\ foldr Z.add 0 (type_counts g) = Z.of_nat (length new)
}.

(** What the draws must be: each selects a type, and the time moves on. *)
Definition draw_ok (c : sched_cfg) (x : D * Z) : Prop :=
  is_Some (pick x.1 (cmd_ratios c) 0)
  /\ forall t, 0 <= t <= end_ns c -> t < next_time c x.2 t < 2 ^ 64.

(** The time that the draws lead to. *)
Definition time_after (c : sched_cfg) (draws : list (D * Z)) (t : Z) : Z :=
  foldl (fun t x => next_time c x.2 t) t draws.

Definition cfg_ok (c : sched_cfg) : Prop :=
  0 <= req_offset /\ req_offset + Z.of_nat (length (cmd_ratios c)) <= LAST
  /\ match ptype c with PSP_MB | IX => length (reqs_us c) = length (cmd_ratios c) | _ => True end.

Lemma pick_range r ratios i j : pick r ratios i = Some j -> i <= j < i + Z.of_nat (length ratios).
Proof.
  revert r i. induction ratios as [|x ratios IH]; intros r i; cbn [pick length]; [done|].
  destruct (ltb r x); [intros [= <-]; lia|]. intros Hp%IH. lia.
Qed.

Lemma foldr_add_insert (l : list Z) i x v :
  l !! i = Some x -> foldr Z.add 0 (<[i := v]> l) = foldr Z.add 0 l - x + v.
Proof.
  revert i. induction l as [|y l IH]; intros [|i] Hi; try done.
  - injection Hi as ->. simpl. lia.
  - change (y + foldr Z.add 0 (<[i := v]> l) = y + foldr Z.add 0 l - x + v).
    rewrite (IH i Hi). lia.
Qed.

Lemma gen_one_ok c start old g new r dt :
  cfg_ok c -> draw_ok c (r, dt) -> gen_ok c start old g new -> g_time g <= end_ns c ->
  Z.of_nat (length old + length new) + 1 < 2 ^ 32 ->
  exists g' q, gen_one c (Z.of_nat (length old)) start r dt g = Ok g'
    /\ gen_ok c start old g' (new ++ [q]) /\ g_time g' = next_time c dt (g_time g).
Proof.
  intros (C1 & C2 & C3) ([idx Hidx] & Htime) [G1 G2 G3 G4 G5 G6 G7 [G8 G9]] Hend Hlen.
  cbn [fst snd] in *. pose proof (pick_range _ _ _ _ Hidx) as Hr. destruct (Htime (g_time g)) as [T1 T2]; [lia|].
  unfold gen_one. rewrite Hidx. unfold LAST in *.
  destruct (lookup_lt_is_Some_2 (type_counts g) (Z.to_nat (req_offset + idx))) as [n Hn]; [lia|].
  rewrite (arr_upd_Ok _ _ _ n) by (done || lia). cbn [mbind outcome_bind].
  assert (Hrun : exists run, (match ptype c with PSP_MB | IX => arr_get (reqs_us c) idx | _ => Ok 0 end) = Ok run
    /\ match ptype c with PSP_MB | IX => reqs_us c !! Z.to_nat idx = Some run | _ => run = 0 end).
  { destruct (ptype c); try (by exists 0);
      (destruct (arr_get_lt (reqs_us c) idx) as [x Hx]; [lia|exists x; split; [done|by apply arr_get_Ok in Hx as []]]). }
  destruct Hrun as (run & -> & Hrun). cbn [mbind outcome_bind].
  rewrite G2, !u32_id by lia. rewrite length_app, G1, length_app. cbn [length].
  rewrite (proj2 (Z.ltb_lt _ _)), (proj2 (Z.eqb_eq _ _)) by lia. cbn [PSP_TRUE mbind outcome_bind].
  eexists _, _. split; [reflexivity|]. split; [|done].
  split; cbn [requests n_requests send_times g_time type_counts].
  - by rewrite app_assoc.
  - rewrite length_app. simpl. lia.
  - intros k q. rewrite lookup_app_Some. intros [Hk|[Hk Hq]]; [by apply G3|].
    assert (k = length new) as -> by (apply lookup_lt_Some in Hq; simpl in Hq; lia).
    rewrite Nat.sub_diag in Hq. injection Hq as <-. split; cbn; [done|done|done|]. exists idx. split_and!; (done || lia).
  - rewrite !length_app. simpl. lia.
  - apply StronglySorted_app_2; [|done|repeat constructor].
    intros a b Ha ->%list_elem_of_singleton. rewrite Forall_forall in G6. specialize (G6 a Ha). lia.
  - apply Forall_app. split; [eapply Forall_impl; [exact G6|]; intros; cbv beta in *; lia|].
    apply Forall_singleton. lia.
  - lia.
  - split; [by rewrite length_insert|]. rewrite (foldr_add_insert _ _ n) by done. rewrite length_app. simpl. lia.
Qed.

Lemma gen_one_times c base start r dt g g' :
  gen_one c base start r dt g = Ok g' -> send_times g' = send_times g ++ [g_time g' + start].
Proof.
  unfold gen_one. destruct (pick r (cmd_ratios c) 0); [|done]. intros E. ok_inv E; try done.
Qed.

Lemma gen_loop_ok c start old draws g new :
  cfg_ok c -> Forall (draw_ok c) draws -> gen_ok c start old g new -> g_time g <= end_ns c ->
  end_ns c < time_after c draws (g_time g) ->
  Z.of_nat (length old + length new + length draws) < 2 ^ 32 ->
  exists g' more ts, gen_loop c (Z.of_nat (length old)) start draws g = Ok (Some g')
    /\ gen_ok c start old g' (new ++ more) /\ end_ns c < g_time g' /\ (length more <= length draws)%nat
    /\ send_times g' = ts ++ [g_time g' + start] /\ Forall (fun t => t <= start + end_ns c) ts.
Proof.
  intros Hc Hd. revert g new. induction Hd as [|[r dt] draws Hx Hd IH]; intros g new Hg Hend Hlen Hmax.
  - cbn in Hlen. lia.
  - cbn [length] in Hmax.
    destruct (gen_one_ok c start old g new r dt Hc Hx Hg Hend) as (g1 & q & Eone & Hg1 & Ht); [lia|].
    cbn [gen_loop]. rewrite (proj2 (Z.leb_le _ _)) by done. rewrite Eone. cbn [mbind outcome_bind].
    change (end_ns c < time_after c draws (next_time c dt (g_time g))) in Hlen. rewrite <- Ht in Hlen.
    destruct (Z.leb_spec (g_time g1) (end_ns c)) as [Hle|Hgt].
    + destruct (IH g1 (new ++ [q])) as (g' & more & ts & R1 & R2 & R3 & R4 & R5 & R6);
        [done|done|done|rewrite length_app; cbn [length]; lia|].
      exists g', ([q] ++ more), ts. rewrite (app_assoc new). split_and!; try done. cbn. lia.
    + exists g1, [q], (send_times g). split_and!; [|done|done|cbn; lia|by eapply gen_one_times|].
      * by destruct draws as [|[]]; cbn [gen_loop]; rewrite (proj2 (Z.leb_gt _ _)) by done.
      * eapply Forall_impl; [apply (go_last _ _ _ _ _ Hg)|]. intros t Hx'. cbv beta in Hx'. lia.
Qed.

Lemma gen_schedule_ok c start old draws :
  cfg_ok c -> Forall (draw_ok c) draws -> 0 <= end_ns c < time_after c draws 0 ->
  Z.of_nat (length old + length draws) < 2 ^ 32 ->
  exists g new ts, gen_schedule c start draws old = Ok (Some g)
    /\ gen_ok c start old g new /\ end_ns c < g_time g /\ (0 < length new <= length draws)%nat
    /\ send_times g = ts ++ [g_time g + start] /\ Forall (fun t => t <= start + end_ns c) ts.
Proof.
  intros Hc Hd Hend Hmax. unfold gen_schedule.
  destruct (gen_loop_ok c start old draws (mk_gs 0 (replicate (Z.to_nat LAST) 0) [] 0 old) [])
    as (g & new & ts & E & Hg & Hgt & Hl & Ets & Hts); [done|done| |cbn; lia|cbn; lia|cbn [length]; lia|].
  { split; cbn [requests n_requests send_times g_time type_counts length]; try done;
      [by rewrite app_nil_r|constructor]. }
  cbn [app] in Hg. exists g, new, ts. split_and!; try done.
  pose proof (go_times _ _ _ _ _ Hg) as Hn. rewrite Ets, length_app in Hn. cbn in Hn. lia.
Qed.

End generate.

End Schedule.
Import Schedule.


