(* ===== verification/Client.v ===== *)
(** * Client: the load generator

    Models the client of [src/src/c++/apps/client/client.hh]: building a request
    ([gen_next_req]), sending it ([send_request]) and playing a schedule
    ([play_schedule], with its loops), over the [UdpContext] of [Udp].  The NIC,
    the clock and the time stamp counter are an environment that the calls
    take along; requests are the elements of the client's vector, a pointer to
    one is its index. *)
From S2P Require Import Prelude Fail Interfaces Mempool Context Ring Bytes NetWorker System Requests Udp Schedule.
Import Udp Schedule.

Module Client.

Record client (P : Type) : Type := mk_client {
  cl_id : Z;
  cl_udp : UdpContext;
  mbuf_pool : P;
  cl_requests : list ClientRequest;
  send_offset : Z;
  next_cr : option Z;
  max_concurrency : Z
}.
Arguments mk_client {P} _ _ _ _ _ _ _.
Arguments cl_id {P} _.
Arguments cl_udp {P} _.
Arguments mbuf_pool {P} _.
Arguments cl_requests {P} _.
Arguments send_offset {P} _.
Arguments next_cr {P} _.
Arguments max_concurrency {P} _.

(** [worker_id << 27], the bits that tell the clients apart. *)
Definition client_bits (worker_id : Z) : Z := u32 (Z.shiftl worker_id 27).

Definition set_id (i : Z) (q : ClientRequest) : ClientRequest :=
  mk_cr i (cr_mbuf q) (run_ns q) (cr_type q) (sending q) (completed q) (cr_schedule_id q).
Definition set_mbuf (b : Z) (q : ClientRequest) : ClientRequest :=
  mk_cr (cr_id q) b (run_ns q) (cr_type q) (sending q) (completed q) (cr_schedule_id q).
Definition set_sending (t : Z) (q : ClientRequest) : ClientRequest :=
  mk_cr (cr_id q) (cr_mbuf q) (run_ns q) (cr_type q) t (completed q) (cr_schedule_id q).
Definition set_completed (t : Z) (q : ClientRequest) : ClientRequest :=
  mk_cr (cr_id q) (cr_mbuf q) (run_ns q) (cr_type q) (sending q) t (cr_schedule_id q).

(** [IXMessage]: its bytes, and where the request id is in them. *)
Definition ix_message (type client_id req_id runNs : Z) : list Z :=
  le_bytes 2 type ++ le_bytes 2 42 ++ replicate 12 0 ++ le_bytes 2 client_id ++ le_bytes 4 req_id
    ++ le_bytes 4 42 ++ le_bytes 8 runNs ++ le_bytes 8 0.
Definition IX_REQ_ID : Z := 18.

(** Where a response carries the request id. *)
Definition rid_offset (pt : pkt_type) : Z := match pt with IX => IX_REQ_ID | _ => 0 end.

Section operations.
Context {P : Type} `{Allocator P} {N : Type}.
Variable mtod : Z -> Z.
Variable rx_burst : N -> Z -> list Z * N.
Variable tx_burst : N -> packets -> list Z -> Z * N.
Variable take_time : N -> Z * N.
Variable rdtscp : N -> Z * N.
Variable l4_field : Z -> Z.
Variable PKT_TX_IP_CKSUM : Z.

Definition set_reqs (r : list ClientRequest) (c : client P) : client P :=
  mk_client (cl_id c) (cl_udp c) (mbuf_pool c) r (send_offset c) (next_cr c) (max_concurrency c).
Definition set_udp (u : UdpContext) (c : client P) : client P :=
  mk_client (cl_id c) u (mbuf_pool c) (cl_requests c) (send_offset c) (next_cr c) (max_concurrency c).
Definition set_next_cr (i : option Z) (c : client P) : client P :=
  mk_client (cl_id c) (cl_udp c) (mbuf_pool c) (cl_requests c) (send_offset c) i (max_concurrency c).
Definition set_pool (p : P) (c : client P) : client P :=
  mk_client (cl_id c) (cl_udp c) p (cl_requests c) (send_offset c) (next_cr c) (max_concurrency c).

(** The payload of a request, by packet type: the buffer behind the headers
    and the payload length. *)
Definition write_payload (pt : pkt_type) (pkt_size worker_id : Z) (q : ClientRequest) (r : list Z)
  : outcome (list Z * Z) :=
  match pt with
  | IX =>
    r ← blit r 0 (ix_message (u16 (cr_type q)) (u16 worker_id) (cr_id q) (run_ns q));
    Ok (r, l4_field 42)
  | RAW =>
    r ← store 4 r 0 (cr_id q);
    r ← blit r 4 (replicate (Z.to_nat (u64 (pkt_size - 4))) 1);
    Ok (r, l4_field pkt_size)
  | PSP_MB =>
    r ← store 4 r 0 (cr_id q);
    r ← store 4 r 4 (cr_type q);
    r ← store 4 r 8 4;
    r ← store 4 r 12 (run_ns q);
    Ok (r, l4_field (4 * 4))
  | PT_UNKNOWN => Panic SIGABRT
  end.

Definition gen_next_req (pt : pkt_type) (pkt_size send_index : Z) (c : client P) (m : packets)
  : outcome (Z * client P * packets) :=
  match next_cr c with
  | Some _ => Ok (0, c, m)
  | None =>
    let i := u32 (send_index + send_offset c) in
    q ← arr_get (cl_requests c) i;
    let q := set_id (Z.lxor (cr_id q) (client_bits (cl_id c))) q in
    reqs ← arr_set (cl_requests c) i q;
    let c := set_next_cr (Some i) (set_reqs reqs c) in
    _ ← PSP_TRUE EINVAL (cr_mbuf q =? NULL);
    '(e, mbuf, _, pool) ← get_mbuf mtod (cr_mbuf q) NULL (mbuf_pool c);
    let c := set_pool pool c in
    if e =? ENOMEM then Ok (EAGAIN, c, m)
    else
      let q := set_mbuf mbuf q in
      reqs ← arr_set (cl_requests c) i q;
      let c := set_reqs reqs c in
      pkt ← get_pkt m mbuf;
      '(r, l4) ← write_payload pt pkt_size (cl_id c) q (room pkt);
      Ok (0, c, <[mbuf := with_room pkt l4 r]> m)
  end.

Definition send_request (i : Z) (n : N) (c : client P) (m : packets)
  : outcome (Z * N * client P * packets) :=
  let u := cl_udp c in
  if u32 (push_head u - push_tail u) =? OUTBOUND_Q_LEN then Ok (EAGAIN, n, c, m)
  else
    q ← arr_get (cl_requests c) i;
    o ← arr_set (outbound_queue u) (Z.land (push_head u) (OUTBOUND_Q_LEN - 1)) (cr_mbuf q);
    let u := set_out o (push_tail u) (u32 (push_head u + 1)) u in
    '(e, n, u, m) ← send_packets tx_burst l4_field PKT_TX_IP_CKSUM n u m;
    _ ← PSP_OK e;
    let '(tsc, n) := rdtscp n in
    reqs ← arr_set (cl_requests c) i (set_sending tsc q);
    Ok (0, n, set_udp u (set_reqs reqs c), m).

(** ** Playing a schedule *)

(** The schedule: constant while it is played. *)
Record sched : Type := mk_sched {
  s_ptype : pkt_type; s_pkt_size : Z;
  s_n_requests : Z; s_send_times : list Z;
  s_start_time : Z; s_end_time : Z; s_max_duration : Z; s_offset : Z
}.

(** What changes: the counters of the schedule and the local variables. *)
Record play : Type := mk_play {
  send_index : Z; recv_requests : Z; attempts : Z; ev_count : Z; n_skipped : Z;
  send_time_it : Z; next_send_time : Z;
  iter_time : Z; status : Z;
  sending_complete : bool; terminate : bool
}.

(** [gen_next_send_time]. *)
Definition gen_next_send_time (s : sched) (p : play) : outcome play :=
  t ← arr_get (s_send_times s) (send_time_it p);
  Ok (mk_play (send_index p) (recv_requests p) (attempts p) (ev_count p) (n_skipped p)
        (send_time_it p + 1) (t + s_offset s) (iter_time p) (status p) (sending_complete p) (terminate p)).

(** The loop that waits for answers or for the next request to be due; [None]
    when [fuel] passes did not suffice. *)
Fixpoint recv_loop (fuel : nat) (s : sched) (n : N) (c : client P) (p : play)
  : outcome (option (N * client P * play)) :=
  match fuel with
  | O => Ok None
  | S fuel =>
    if s_max_duration s <=? iter_time p - s_start_time s then
      Ok (Some (n, c, mk_play (send_index p) (recv_requests p) (attempts p) (ev_count p) (n_skipped p)
                        (send_time_it p) (next_send_time p) (iter_time p) (status p)
                        (sending_complete p) true))
    else
      '(st, n, r) ← recv_packets rx_burst n (in_q (cl_udp c));
      let c := set_udp (set_in r (cl_udp c)) c in
      let '(now, n) := take_time n in
      let p := mk_play (send_index p) (recv_requests p) (attempts p) (u32 (ev_count p + 1)) (n_skipped p)
                 (send_time_it p) (next_send_time p) now st (sending_complete p) (terminate p) in
      if (st =? EAGAIN) && (now <? next_send_time p) then recv_loop fuel s n c p
      else Ok (Some (n, c, p))
  end.

Definition inflight (p : play) : Z := i32 (send_index p - recv_requests p).

Definition add_attempt (p : play) : play :=
  mk_play (send_index p) (recv_requests p) (u32 (attempts p + 1)) (ev_count p) (n_skipped p)
    (send_time_it p) (next_send_time p) (iter_time p) (status p) (sending_complete p) (terminate p).
Definition add_skip (p : play) : play :=
  mk_play (send_index p) (recv_requests p) (attempts p) (ev_count p) (u32 (n_skipped p + 1))
    (send_time_it p) (next_send_time p) (iter_time p) (status p) (sending_complete p) (terminate p).
Definition add_sent (p : play) : play :=
  mk_play (u32 (send_index p + 1)) (recv_requests p) (attempts p) (ev_count p) (n_skipped p)
    (send_time_it p) (next_send_time p) (iter_time p) (status p) (sending_complete p) (terminate p).

(** One attempt to send: [true] when the loop is left. *)
Definition attempt (s : sched) (infl : Z) (n : N) (c : client P) (m : packets) (p : play)
  : outcome (bool * N * client P * packets * play) :=
  let p := add_attempt p in
  if (max_concurrency c <? 0) || (infl <? max_concurrency c) then
    '(e, c, m) ← gen_next_req (s_ptype s) (s_pkt_size s) (send_index p) c m;
    if e =? 0 then
      match next_cr c with
      | None => Panic EINVAL
      | Some i =>
        '(rtn, n, c, m) ← send_request i n c m;
        if rtn =? 0 then Ok (false, n, set_next_cr None c, m, add_sent p)
        else if rtn =? EAGAIN then Ok (true, n, c, m, add_skip p)
        else Panic SIGABRT
      end
    else Ok (true, n, c, m, add_skip p)
  else Ok (false, n, c, m, add_skip p).

Definition set_complete (b : bool) (p : play) : play :=
  mk_play (send_index p) (recv_requests p) (attempts p) (ev_count p) (n_skipped p)
    (send_time_it p) (next_send_time p) (iter_time p) (status p) b (terminate p).

(** The loop over the requests that are due; every pass moves the iterator on,
    so that the number of send times bounds it ([fuel] is one more). *)
Fixpoint send_loop (fuel : nat) (s : sched) (infl : Z) (n : N) (c : client P) (m : packets) (p : play)
  : outcome (Z * N * client P * packets * play) :=
  if (next_send_time p <=? iter_time p) && (iter_time p <=? s_end_time s) && (send_index p <? s_n_requests s)
  then
    match fuel with
    | O => UB
    | S fuel =>
      '(leave, n, c, m, p) ← attempt s infl n c m p;
      if leave : bool then Ok (infl, n, c, m, p)
      else
        p ← gen_next_send_time s p;
        let p := (if s_end_time s <=? next_send_time p then set_complete true p else p) in
        send_loop fuel s (inflight p) n c m p
    end
  else Ok (infl, n, c, m, p).

(** The loop over the answers, [n_left] of the batch. *)
Fixpoint answer_loop (n_left : nat) (s : sched) (pop_time : Z) (c : client P) (m : packets)
  : outcome (Z * client P * packets) :=
  match n_left with
  | O => Ok (0, c, m)
  | S n_left =>
    let r := in_q (cl_udp c) in
    if pop_tail r <? pop_head r then
      req ← arr_get (inbound_queue r) (Z.land (pop_tail r) (INBOUND_Q_LEN - 1));
      let c := set_udp (set_in (mk_rxq (inbound_queue r) (u32 (pop_tail r + 1)) (pop_head r)) (cl_udp c)) c in
      pkt ← get_pkt m req;
      rid ← load 4 (room pkt) (rid_offset (s_ptype s));
      reqs ← arr_upd (cl_requests c) (Z.lxor rid (client_bits (cl_id c))) (set_completed pop_time);
      '(e, pool) ← free_mbuf req (mbuf_pool c);
      _ ← PSP_OK e;
      '(batch, c, m) ← answer_loop n_left s pop_time (set_pool pool (set_reqs reqs c)) m;
      Ok (batch + 1, c, m)
    else Ok (0, c, m)
  end.

Definition set_terminate (p : play) : play :=
  mk_play (send_index p) (recv_requests p) (attempts p) (ev_count p) (n_skipped p)
    (send_time_it p) (next_send_time p) (iter_time p) (status p) (sending_complete p) true.
Definition add_received (b : Z) (p : play) : play :=
  mk_play (send_index p) (u32 (recv_requests p + b)) (attempts p) (ev_count p) (n_skipped p)
    (send_time_it p) (next_send_time p) (iter_time p) (status p) (sending_complete p) (terminate p).
Definition set_status (z : Z) (p : play) : play :=
  mk_play (send_index p) (recv_requests p) (attempts p) (ev_count p) (n_skipped p)
    (send_time_it p) (next_send_time p) (iter_time p) z (sending_complete p) (terminate p).

(** One pass of the outer loop; [fuel] bounds the wait for answers. *)
Definition play_iter (fuel : nat) (s : sched) (n : N) (c : client P) (m : packets) (p : play)
  : outcome (option (N * client P * packets * play)) :=
  r ← recv_loop fuel s n c (set_status EAGAIN p);
  match r with
  | None => Ok None
  | Some (n, c, p) =>
    '(infl, n, c, m, p) ← send_loop (S (length (s_send_times s))) s (inflight p) n c m p;
    if (infl =? 0) && (sending_complete p || (s_end_time s <? iter_time p)) then
      Ok (Some (n, c, m, set_terminate p))
    else if status p =? 0 then
      let '(pop_time, n) := rdtscp n in
      '(batch, c, m) ← answer_loop (Z.to_nat MAX_RX_BURST) s pop_time c m;
      Ok (Some (n, c, m, add_received batch p))
    else Ok (Some (n, c, m, p))
  end.

Fixpoint play_loop (fuel : nat) (s : sched) (n : N) (c : client P) (m : packets) (p : play)
  : outcome (option (N * client P * packets * play)) :=
  if (recv_requests p <? s_n_requests s) && negb (terminate p) then
    match fuel with
    | O => Ok None
    | S fuel' =>
      r ← play_iter fuel s n c m p;
      match r with
      | None => Ok None
      | Some (n, c, m, p) => play_loop fuel' s n c m p
      end
    end
  else Ok (Some (n, c, m, p)).

(** [play_schedule] as a whole: the send times are shifted to start now, and
    the result has the time of the last send and of the end. *)
Definition play_schedule (fuel : nat) (pt : pkt_type) (pkt_size n_reqs max_duration : Z) (times : list Z)
    (p0 : play) (n : N) (c : client P) (m : packets)
  : outcome (option (Z * Z * N * client P * packets * play)) :=
  let '(start_time, n) := take_time n in
  t0 ← arr_get times 0;
  let start_offset := start_time - t0 in
  t1 ← arr_get times (Z.of_nat (length times) - 1);
  let s := mk_sched pt pkt_size n_reqs times start_time (t1 + start_offset) max_duration start_offset in
  let c := set_next_cr None c in
  p ← gen_next_send_time s
        (mk_play (send_index p0) (recv_requests p0) (attempts p0) (ev_count p0) (n_skipped p0)
           0 0 0 EAGAIN false false);
  let '(now, n) := take_time n in
  let p := mk_play (send_index p) (recv_requests p) (attempts p) (ev_count p) (n_skipped p)
             (send_time_it p) (next_send_time p) now EAGAIN false false in
  r ← play_loop fuel s n c m p;
  match r with
  | None => Ok None
  | Some (n, c, m, p) =>
    last ← (if sending_complete p then Ok (s_end_time s)
            else t ← arr_get (s_send_times s) (send_time_it p); Ok (t + s_offset s));
    let '(end_time, n) := take_time n in
    let c := mk_client (cl_id c) (cl_udp c) (mbuf_pool c) (cl_requests c)
               (u32 (send_offset c + n_reqs)) (next_cr c) (max_concurrency c) in
    Ok (Some (last, end_time, n, c, m, p))
  end.

(** [work]: the schedules one after the other; [terminate] is set behind the
    last.  A schedule is what [play_schedule] reads of it and its counters. *)
Record sched_in : Type := mk_sched_in {
  si_ptype : pkt_type; si_pkt_size : Z; si_n_requests : Z; si_max_duration : Z;
  si_send_times : list Z; si_counters : play
}.

Fixpoint client_work (fuel : nat) (schedules : list sched_in) (n : N) (c : client P) (m : packets)
  : outcome (option (list (Z * Z * play) * N * client P * packets)) :=
  match schedules with
  | [] => Ok (Some ([], n, c, m))
  | s :: schedules =>
    r ← play_schedule fuel (si_ptype s) (si_pkt_size s) (si_n_requests s) (si_max_duration s)
          (si_send_times s) (si_counters s) n c m;
    match r with
    | None => Ok None
    | Some (last, e, n, c, m, p) =>
      r ← client_work fuel schedules n c m;
      match r with
      | None => Ok None
      | Some (rs, n, c, m) => Ok (Some ((last, e, p) :: rs, n, c, m))
      end
    end
  end.

End operations.

(** ** Playing: the accounting *)

(** Sending stays within the schedule and within the allowed concurrency. *)
Record play_inv {P} (s : sched) (c : client P) (p : play) : Prop := {
  pi_sent : 0 <= send_index p <= s_n_requests s;
  pi_recv : 0 <= recv_requests p < s_n_requests s + MAX_RX_BURST;
  pi_small : s_n_requests s + MAX_RX_BURST < 2 ^ 31;
  pi_conc : 0 <= max_concurrency c -> send_index p - recv_requests p <= max_concurrency c
}.

(** What no call changes of a client. *)
Definition fixed {P} (c : client P) : Z * Z * Z := (cl_id c, send_offset c, max_concurrency c).

Lemma fixed_conc {P} (c c' : client P) : fixed c' = fixed c -> max_concurrency c' = max_concurrency c.
Proof. unfold fixed. congruence. Qed.

(** What an attempt must have come to: a request sent or one skipped. *)
Definition unaccounted (p : play) : Z := u32 (attempts p - send_index p - n_skipped p).

Section playing.
Context {P : Type} `{Allocator P} {N : Type}.
Context (mtod : Z -> Z) (rx_burst : N -> Z -> list Z * N) (tx_burst : N -> packets -> list Z -> Z * N).
Context (take_time rdtscp : N -> Z * N) (l4_field : Z -> Z) (PKT_TX_IP_CKSUM : Z).

Lemma gen_next_req_fixed pt sz i (c : client P) m e c' m' :
  gen_next_req mtod l4_field pt sz i c m = Ok (e, c', m') -> fixed c' = fixed c.
Proof.
  unfold gen_next_req. destruct (next_cr c); intros E; [by ok_inv E|].
  ok_inv E; repeat (case_match; ok_inv E); done.
Qed.

Lemma inflight_exact s (c : client P) p : play_inv s c p -> inflight p = send_index p - recv_requests p.
Proof. clear. intros [H1 H2 H3 _]. unfold inflight, MAX_RX_BURST in *. word_lia. Qed.

(** An attempt either sends, within the allowed concurrency, or skips. *)
Lemma attempt_cases s infl n (c : client P) m p leave n' c' m' p' :
  attempt mtod tx_burst rdtscp l4_field PKT_TX_IP_CKSUM s infl n c m p = Ok (leave, n', c', m', p') ->
  fixed c' = fixed c
  /\ (p' = add_skip (add_attempt p)
      \/ p' = add_sent (add_attempt p) /\ (max_concurrency c < 0 \/ infl < max_concurrency c)).
Proof.
  unfold attempt. destruct (_ || _) eqn:Hc; intros E; [|ok_inv E; by auto].
  apply bind_Ok_inv in E as ([[e c1] m1] & Eg & E). apply gen_next_req_fixed in Eg as Hc1.
  destruct (e =? 0); [|ok_inv E; by auto]. destruct (next_cr c1) as [i|]; [|done].
  apply bind_Ok_inv in E as ([[[rtn n2] c2] m2] & Es & E).
  assert (Hc2 : fixed c2 = fixed c).
  { rewrite <- Hc1. unfold send_request in Es. ok_inv Es; done. }
  destruct (rtn =? 0); [|destruct (rtn =? EAGAIN); ok_inv E; by auto].
  ok_inv E. split; [done|]. right. split; [done|].
  apply orb_true_iff in Hc as [Hc%Z.ltb_lt|Hc%Z.ltb_lt]; auto.
Qed.

Lemma attempt_ok s n (c : client P) m p leave n' c' m' p' :
  play_inv s c p -> send_index p < s_n_requests s ->
  attempt mtod tx_burst rdtscp l4_field PKT_TX_IP_CKSUM s (inflight p) n c m p = Ok (leave, n', c', m', p') ->
  play_inv s c' p' /\ unaccounted p' = unaccounted p /\ fixed c' = fixed c
  /\ iter_time p' = iter_time p /\ recv_requests p' = recv_requests p /\ terminate p' = terminate p.
Proof.
  intros Hi Hlt (Hfix & Hcase)%attempt_cases. pose proof (fixed_conc _ _ Hfix) as Hc. rewrite (inflight_exact _ _ _ Hi) in Hcase.
  destruct Hi as [H1 H2 H3 H4]. destruct Hcase as [->|[-> Hmax]]; split_and!; try done.
  - split; try done. by rewrite Hc.
  - unfold unaccounted; cbn; word_lia.
  - split; unfold MAX_RX_BURST in *; cbn [send_index recv_requests add_sent add_attempt];
      rewrite ?Hc; try lia; rewrite u32_id by lia; lia.
  - unfold unaccounted; cbn; word_lia.
Qed.

(** Moving to the next send time changes neither the counters nor the clock. *)
Lemma gen_next_send_time_ok s p p' :
  gen_next_send_time s p = Ok p' ->
  0 <= send_time_it p < Z.of_nat (length (s_send_times s)) /\ send_time_it p' = send_time_it p + 1
  /\ iter_time p' = iter_time p /\ recv_requests p' = recv_requests p /\ terminate p' = terminate p
  /\ unaccounted p' = unaccounted p /\ (forall c : client P, play_inv s c p -> play_inv s c p').
Proof.
  unfold gen_next_send_time. intros E. ok_inv E.
  apply arr_get_Ok in E0 as [H0 ?%lookup_lt_Some]. split_and!; try done; [cbn; lia|].
  intros c []. by split.
Qed.

Lemma set_complete_ok b s (c : client P) p : play_inv s c p -> play_inv s c (set_complete b p).
Proof. intros []. by split. Qed.

(** The loop over the due requests: what it keeps, and that it does not run
    out of [fuel] before it runs out of send times. *)
Lemma send_loop_ok fuel s n (c : client P) m p infl' n' c' m' p' :
  play_inv s c p ->
  send_loop mtod tx_burst rdtscp l4_field PKT_TX_IP_CKSUM fuel s (inflight p) n c m p
    = Ok (infl', n', c', m', p') ->
  play_inv s c' p' /\ unaccounted p' = unaccounted p /\ fixed c' = fixed c
  /\ iter_time p' = iter_time p /\ recv_requests p' = recv_requests p /\ terminate p' = terminate p.
Proof.
  revert n c m p. induction fuel as [|fuel IH]; intros n c m p Hi E; cbn [send_loop] in E;
    destruct (_ && _) eqn:Hdue; try (by ok_inv E).
  apply andb_true_iff in Hdue as [_ Hlt%Z.ltb_lt].
  apply bind_Ok_inv in E as ([[[[leave n1] c1] m1] p1] & Ea & E).
  destruct (attempt_ok _ _ _ _ _ _ _ _ _ _ Hi Hlt Ea) as (Hi1 & Hu1 & Hc1 & Ht1 & Hs1 & Hm1).
  destruct leave; [ok_inv E; by split_and!|].
  apply bind_Ok_inv in E as (p2 & Eg & E).
  destruct (gen_next_send_time_ok _ _ _ Eg) as (_ & _ & Ht2 & Hs2 & Hm2 & Hu2 & Hi2).
  specialize (Hi2 _ Hi1). rewrite <- Hc1, <- Hu1, <- Hu2, <- Ht1, <- Ht2, <- Hs1, <- Hs2, <- Hm1, <- Hm2.
  destruct (_ <=? _); [|by apply IH in E].
  by apply IH in E; [|by apply set_complete_ok].
Qed.

(** The fuel of the loop is never what ends it: with one more than there are
    send times left, a pass that would need more has already read behind them. *)
Lemma send_loop_fuel fuel s infl n (c : client P) m p :
  0 <= send_time_it p <= Z.of_nat (length (s_send_times s)) ->
  Z.of_nat (length (s_send_times s)) - send_time_it p < Z.of_nat fuel ->
  send_loop mtod tx_burst rdtscp l4_field PKT_TX_IP_CKSUM fuel s infl n c m p
  = send_loop mtod tx_burst rdtscp l4_field PKT_TX_IP_CKSUM (S fuel) s infl n c m p.
Proof.
  revert infl n c m p. induction fuel as [|fuel IH]; intros infl n c m p H0 Hf; [lia|].
  cbn [send_loop]. destruct (_ && _); [|done].
  destruct (attempt _ _ _ _ _ _ _ _ _ _ _) as [[[[[leave n1] c1] m1] p1]| |] eqn:Ea; try done.
  assert (Hit : send_time_it p1 = send_time_it p) by (apply attempt_cases in Ea as (_ & [->|[-> _]]); done).
  cbn [mbind outcome_bind]. destruct leave; [done|].
  destruct (gen_next_send_time s p1) as [p2| |] eqn:Eg; try done.
  apply gen_next_send_time_ok in Eg as (Hb & Hn & _). cbn [mbind outcome_bind].
  destruct (_ <=? _); apply IH; cbn [send_time_it set_complete]; lia.
Qed.

(** A batch has at most as many answers as the loop was allowed. *)
Lemma answer_loop_ok k s t (c : client P) m b c' m' :
  answer_loop k s t c m = Ok (b, c', m') ->
  0 <= b <= Z.of_nat k /\ fixed c' = fixed c.
Proof.
  revert c b c'. induction k as [|k IH]; intros c b c' E; cbn [answer_loop] in E; [ok_inv E; split; [lia|done]|].
  destruct (_ <? _); [|ok_inv E; split; [lia|done]]. ok_inv E. apply IH in E6 as [? ->]. split; [lia|done].
Qed.

(** The clock: every reading is later than the one before, and no call turns
    it back. *)
Record clock_laws (clock : N -> Z) : Prop := {
  cl_take n t n' : take_time n = (t, n') -> clock n < t /\ clock n' = t;
  cl_tsc n t n' : rdtscp n = (t, n') -> clock n <= clock n';
  cl_rx n k ps n' : rx_burst n k = (ps, n') -> clock n <= clock n';
  cl_tx n m ps k n' : tx_burst n m ps = (k, n') -> clock n <= clock n'
}.

Context (clock : N -> Z) (Hclock : clock_laws clock).

Lemma send_request_clock i n (c : client P) m e n' c' m' :
  send_request tx_burst rdtscp l4_field PKT_TX_IP_CKSUM i n c m = Ok (e, n', c', m') -> clock n <= clock n'.
Proof.
  unfold send_request, send_packets. intros E. destruct (_ =? _); [by ok_inv E|].
  apply bind_Ok_inv in E as (q & _ & E). apply bind_Ok_inv in E as (o & _ & E).
  apply bind_Ok_inv in E as ([[[e1 n1] u1] m1] & Es & E).
  assert (H1 : clock n <= clock n1).
  { apply bind_Ok_inv in Es as ([[ps u2] m2] & _ & Es). destruct (_ <? _); [|by ok_inv Es].
    destruct (tx_burst n m2 ps) as [k n2] eqn:Eb. apply (cl_tx _ Hclock) in Eb. by ok_inv Es. }
  apply bind_Ok_inv in E as (? & _ & E). destruct (rdtscp n1) as [tsc n2] eqn:Et.
  apply (cl_tsc _ Hclock) in Et. ok_inv E. lia.
Qed.

Lemma attempt_clock s infl n (c : client P) m p leave n' c' m' p' :
  attempt mtod tx_burst rdtscp l4_field PKT_TX_IP_CKSUM s infl n c m p = Ok (leave, n', c', m', p') ->
  clock n <= clock n'.
Proof.
  unfold attempt. destruct (_ || _); intros E; [|by ok_inv E].
  apply bind_Ok_inv in E as ([[e c1] m1] & _ & E). destruct (e =? 0); [|by ok_inv E].
  destruct (next_cr c1) as [i|]; [|done].
  apply bind_Ok_inv in E as ([[[rtn n2] c2] m2] & Es%send_request_clock & E).
  destruct (rtn =? 0); [|destruct (rtn =? EAGAIN)]; by ok_inv E.
Qed.

Lemma send_loop_clock fuel s infl n (c : client P) m p infl' n' c' m' p' :
  send_loop mtod tx_burst rdtscp l4_field PKT_TX_IP_CKSUM fuel s infl n c m p
    = Ok (infl', n', c', m', p') -> clock n <= clock n'.
Proof.
  revert infl n c m p. induction fuel as [|fuel IH]; intros infl n c m p E; cbn [send_loop] in E;
    destruct (_ && _); try (by ok_inv E).
  apply bind_Ok_inv in E as ([[[[leave n1] c1] m1] p1] & Ea%attempt_clock & E).
  destruct leave; [by ok_inv E|]. apply bind_Ok_inv in E as (p2 & _ & E). apply IH in E. lia.
Qed.

(** What is left until the schedule is cut off. *)
Definition remaining (s : sched) (p : play) : Z :=
  Z.max 0 (s_start_time s + s_max_duration s - iter_time p).

(** The wait returns, having moved the clock on unless time is up, and has
    touched nothing else that counts. *)
Lemma recv_loop_ok fuel s n (c : client P) p r :
  remaining s p < Z.of_nat fuel -> iter_time p <= clock n ->
  recv_loop rx_burst take_time fuel s n c p = Ok r ->
  exists n' c' p', r = Some (n', c', p') /\ iter_time p' <= clock n'
    /\ (terminate p' = true \/ remaining s p' < remaining s p)
    /\ (play_inv s c p -> play_inv s c' p') /\ unaccounted p' = unaccounted p
    /\ fixed c' = fixed c /\ recv_requests p' = recv_requests p.
Proof.
  revert n c p. induction fuel as [|fuel IH]; intros n c p Hf Ht E; [unfold remaining in Hf; lia|].
  cbn [recv_loop] in E. destruct (Z.leb_spec (s_max_duration s) (iter_time p - s_start_time s)) as [Hd|Hd].
  - ok_inv E. eexists _, _, _. split; [reflexivity|]. split_and!; try done; [by left|]. intros []. by split.
  - apply bind_Ok_inv in E as ([[st n1] q] & Er & E).
    assert (Hn1 : clock n <= clock n1).
    { unfold recv_packets in Er. destruct (_ <? _); [|by ok_inv Er].
      destruct (rx_burst n MAX_RX_BURST) as [ps n2] eqn:Eb. apply (cl_rx _ Hclock) in Eb.
      destruct ps; by ok_inv Er. }
    destruct (take_time n1) as [now n2] eqn:Et. destruct (cl_take _ Hclock _ _ _ Et) as [H1 H2].
    set (p1 := mk_play _ _ _ _ _ _ _ now st _ _) in E.
    assert (Hr : remaining s p1 < remaining s p) by (unfold remaining; cbn; lia).
    destruct (_ && _); [|ok_inv E].
    + destruct (IH n2 (set_udp (set_in q (cl_udp c)) c) p1) as (n' & c' & p' & -> & Hk & Ho & Hi & Hu & Hm & Hv);
        [lia|cbn; lia|done|].
      exists n', c', p'. split; [done|]. split_and!; try done; [naive_solver lia|].
      intros Hp. apply Hi. destruct Hp. by split.
    + eexists _, _, _. split; [reflexivity|]. split_and!; [cbn; lia|by right|intros []; by split|done..].
Qed.

(** One pass. *)
Lemma play_iter_ok fuel s n (c : client P) m p r :
  remaining s p < Z.of_nat fuel -> iter_time p <= clock n -> play_inv s c p ->
  recv_requests p < s_n_requests s ->
  play_iter mtod rx_burst tx_burst take_time rdtscp l4_field PKT_TX_IP_CKSUM fuel s n c m p = Ok r ->
  exists n' c' m' p', r = Some (n', c', m', p') /\ iter_time p' <= clock n'
    /\ (terminate p' = true \/ remaining s p' < remaining s p)
    /\ play_inv s c' p' /\ unaccounted p' = unaccounted p /\ fixed c' = fixed c.
Proof.
  intros Hf Ht Hi Hn E. unfold play_iter in E. apply bind_Ok_inv in E as (r1 & Er & E).
  destruct (recv_loop_ok _ _ _ _ (set_status EAGAIN p) _ Hf Ht Er) as (n1 & c1 & p1 & -> & Ht1 & Ho1 & Hi1 & Hu1 & Hc1 & Hr1).
  assert (Hi1' : play_inv s c1 p1) by (apply Hi1; destruct Hi; by split). clear Hi1.
  apply bind_Ok_inv in E as ([[[[infl n2] c2] m2] p2] & Es & E).
  pose proof (send_loop_clock _ _ _ _ _ _ _ _ _ _ _ _ Es) as Hk2.
  destruct (send_loop_ok _ _ _ _ _ _ _ _ _ _ _ Hi1' Es) as (Hi2 & Hu2 & Hc2 & Ht2 & Hr2 & Hm2).
  assert (Ho2 : terminate p2 = true \/ remaining s p2 < remaining s p).
  { unfold remaining in *. rewrite Hm2, Ht2. exact Ho1. }
  assert (Hu : unaccounted p2 = unaccounted p) by (rewrite Hu2; exact Hu1).
  destruct (_ && _).
  { ok_inv E. eexists _, _, _, _. split; [reflexivity|]. cbn [iter_time terminate set_terminate].
    split_and!; [lia|by left|destruct Hi2; by split|exact Hu|congruence]. }
  destruct (_ =? _).
  2: { ok_inv E. eexists _, _, _, _. split; [reflexivity|].
       split_and!; [lia|done|done|exact Hu|congruence]. }
  destruct (rdtscp n2) as [tsc n3] eqn:Ec. apply (cl_tsc _ Hclock) in Ec.
  apply bind_Ok_inv in E as ([[b c3] m3] & (Hb & Hc3)%answer_loop_ok & E). ok_inv E.
  eexists _, _, _, _. split; [reflexivity|]. change (recv_requests (set_status EAGAIN p)) with (recv_requests p) in Hr1.
  split_and!; [cbn; lia|done| |exact Hu|congruence].
  destruct Hi2 as [G1 G2 G3 G4]. apply fixed_conc in Hc3. unfold MAX_RX_BURST in *.
  assert (Hw : u32 (recv_requests p2 + b) = recv_requests p2 + b) by (apply u32_id; lia).
  split; unfold MAX_RX_BURST; cbn [send_index recv_requests add_received]; rewrite ?Hw, ?Hc3; lia.
Qed.

(** The play of a schedule ends, within as many passes as its duration has
    clock ticks. *)
Lemma play_loop_ok fuel s n (c : client P) m p r :
  remaining s p < Z.of_nat fuel -> iter_time p <= clock n -> play_inv s c p ->
  play_loop mtod rx_burst tx_burst take_time rdtscp l4_field PKT_TX_IP_CKSUM fuel s n c m p = Ok r ->
  exists n' c' m' p', r = Some (n', c', m', p')
    /\ (s_n_requests s <= recv_requests p' \/ terminate p' = true)
    /\ play_inv s c' p' /\ unaccounted p' = unaccounted p /\ fixed c' = fixed c.
Proof.
  revert n c m p. induction fuel as [|fuel IH]; intros n c m p Hf Ht Hi E; [unfold remaining in Hf; lia|].
  cbn [play_loop] in E. destruct (Z.ltb_spec (recv_requests p) (s_n_requests s)) as [Hn|Hn].
  2: { cbn [andb] in E. ok_inv E. eexists _, _, _, _. split; [reflexivity|]. split_and!; auto. }
  destruct (terminate p) eqn:Hm; cbn [andb negb] in E.
  { ok_inv E. eexists _, _, _, _. split; [reflexivity|]. split_and!; auto. }
  apply bind_Ok_inv in E as (r1 & Er & E).
  destruct (play_iter_ok _ _ _ _ _ _ _ Hf Ht Hi Hn Er) as (n1 & c1 & m1 & p1 & -> & Ht1 & Ho1 & Hi1 & Hu1 & Hc1).
  rewrite <- Hu1, <- Hc1. destruct Ho1 as [Ho1|Ho1]; [|eapply IH; eauto; lia].
  destruct fuel; cbn [play_loop] in E; rewrite Ho1, andb_false_r in E; ok_inv E;
    (eexists _, _, _, _; split; [reflexivity|]; split_and!; auto).
Qed.


End playing.

(** ** The payload of a request *)

(** How long the payload of a packet type is, and what it has to fit. *)
Definition payload_size (pt : pkt_type) (pkt_size : Z) : Z :=
  match pt with IX => 42 | RAW => pkt_size | _ => 16 end.
Definition sizes_ok (pt : pkt_type) (pkt_size : Z) (r : list Z) : Prop :=
  pt <> PT_UNKNOWN /\ payload_size pt pkt_size <= Z.of_nat (length r) < 2 ^ 64
  /\ (pt = RAW -> 4 <= pkt_size).

Lemma client_bits_roundtrip w x : Z.lxor (Z.lxor x (client_bits w)) (client_bits w) = x.
Proof. by rewrite Z.lxor_assoc, Z.lxor_nilpotent, Z.lxor_0_r. Qed.

Lemma write_payload_ok l4_field pt sz w q r :
  sizes_ok pt sz r -> 0 <= cr_id q < 2 ^ 32 ->
  exists r', write_payload l4_field pt sz w q r = Ok (r', l4_field (payload_size pt sz))
    /\ length r' = length r /\ load 4 r' (rid_offset pt) = Ok (cr_id q)
    /\ (pt = PSP_MB -> load 4 r' 4 = Ok (u32 (cr_type q)) /\ load 4 r' 12 = Ok (u32 (run_ns q))).
Proof.
  intros (Hpt & Hr & Hraw) Hid.
  assert (Hw : (cr_id q) mod 2 ^ (8 * Z.of_nat 4) = cr_id q) by (apply Z.mod_small; exact Hid).
  destruct pt; [| | |done]; cbn [write_payload payload_size rid_offset] in *.
  - destruct (store_is_Ok 4 r 0 (cr_id q)) as (r1 & E1); [lia..|]. pose proof (length_store _ _ _ _ _ E1).
    destruct (store_is_Ok 4 r1 4 (cr_type q)) as (r2 & E2); [lia..|]. pose proof (length_store _ _ _ _ _ E2).
    destruct (store_is_Ok 4 r2 8 4) as (r3 & E3); [lia..|]. pose proof (length_store _ _ _ _ _ E3).
    destruct (store_is_Ok 4 r3 12 (run_ns q)) as (r4 & E4); [lia..|]. pose proof (length_store _ _ _ _ _ E4).
    rewrite E1. cbn [mbind outcome_bind]. rewrite E2. cbn [mbind outcome_bind].
    rewrite E3. cbn [mbind outcome_bind]. rewrite E4. cbn [mbind outcome_bind].
    exists r4. split; [done|]. split; [lia|]. split; [|intros _; split].
    + rewrite (load_store_other _ _ _ _ _ _ _ E4), (load_store_other _ _ _ _ _ _ _ E3),
        (load_store_other _ _ _ _ _ _ _ E2), (load_store_same _ _ _ _ _ E1) by lia. by rewrite Hw.
    + rewrite (load_store_other _ _ _ _ _ _ _ E4), (load_store_other _ _ _ _ _ _ _ E3) by lia.
      exact (load_store_same _ _ _ _ _ E2).
    + exact (load_store_same _ _ _ _ _ E4).
  - set (msg := ix_message _ _ _ _). assert (Hm : length msg = 42%nat) by reflexivity.
    destruct (blit_is_Ok r 0 msg) as (r1 & E1); [lia..|]. rewrite E1. cbn [mbind outcome_bind].
    exists r1. split; [done|]. split; [by eapply length_blit|]. split; [|done].
    change IX_REQ_ID with (0 + 18). rewrite (load_blit_same _ _ _ _ _ _ E1) by lia. rewrite load_bytes_Ok by lia.
    change (take 4 (drop (Z.to_nat 18) msg)) with (le_bytes 4 (cr_id q)). by rewrite le_word_bytes, Hw.
  - specialize (Hraw eq_refl). destruct (store_is_Ok 4 r 0 (cr_id q)) as (r1 & E1); [lia..|].
    pose proof (length_store _ _ _ _ _ E1). rewrite E1. cbn [mbind outcome_bind]. rewrite u64_id by lia.
    destruct (blit_is_Ok r1 4 (replicate (Z.to_nat (sz - 4)) 1)) as (r2 & E2); [lia|rewrite length_replicate; lia|].
    rewrite E2. cbn [mbind outcome_bind]. exists r2. split; [done|].
    pose proof (length_blit _ _ _ _ E2). split; [lia|]. split; [|done].
    rewrite (load_blit_other _ _ _ _ _ _ E2), (load_store_same _ _ _ _ _ E1) by lia. by rewrite Hw.
Qed.

(** The payload leaves what is behind it as it was. *)
Lemma write_payload_tail l4_field pt sz w q r r' l4 off :
  sizes_ok pt sz r -> payload_size pt sz <= off -> write_payload l4_field pt sz w q r = Ok (r', l4) ->
  load 4 r' off = load 4 r off.
Proof.
  intros (Hpt & Hr & Hraw) Ho. destruct pt; cbn [write_payload payload_size] in *; intros E; ok_inv E.
  - rewrite (load_store_other _ _ _ _ _ _ _ E3), (load_store_other _ _ _ _ _ _ _ E2),
      (load_store_other _ _ _ _ _ _ _ E1), (load_store_other _ _ _ _ _ _ _ E0) by lia. done.
  - set (msg := ix_message _ _ _ _) in E0. assert (Hm : length msg = 42%nat) by reflexivity.
    by rewrite (load_blit_other _ _ _ _ _ _ E0) by lia.
  - specialize (Hraw eq_refl). rewrite u64_id in E1 by lia.
    rewrite (load_blit_other _ _ _ _ _ _ E1), (load_store_other _ _ _ _ _ _ _ E0)
      by (rewrite ?length_replicate; lia). done.
Qed.

Section requests.
Context {P : Type} `{Allocator P} (mtod : Z -> Z) (l4_field : Z -> Z).

(** A fresh request: it gets a buffer, and the packet carries its id. *)
Lemma gen_next_req_ok pt sz si (c : client P) m q b pool pkt :
  let i := u32 (si + send_offset c) in
  let id := Z.lxor (cr_id q) (client_bits (cl_id c)) in
  next_cr c = None -> cl_requests c !! Z.to_nat i = Some q ->
  0 <= cr_id q < 2 ^ 32 -> cr_mbuf q = NULL ->
  pool_alloc (mbuf_pool c) = Ok (b, pool) -> b <> NULL -> m !! b = Some pkt -> sizes_ok pt sz (room pkt) ->
  exists r, gen_next_req mtod l4_field pt sz si c m
      = Ok (0, mk_client (cl_id c) (cl_udp c) pool (<[Z.to_nat i := set_mbuf b (set_id id q)]> (cl_requests c))
                 (send_offset c) (Some i) (max_concurrency c),
            <[b := with_room pkt (l4_field (payload_size pt sz)) r]> m)
    /\ length r = length (room pkt) /\ load 4 r (rid_offset pt) = Ok id
    /\ (pt = PSP_MB -> load 4 r 4 = Ok (u32 (cr_type q)) /\ load 4 r 12 = Ok (u32 (run_ns q)))
    /\ (forall off, payload_size pt sz <= off -> load 4 r off = load 4 (room pkt) off).
Proof.
  intros i id Hn Hq Hid Hm Ha Hb Hp Hs. unfold gen_next_req. rewrite Hn. fold i.
  assert (Hi : 0 <= i < Z.of_nat (length (cl_requests c))).
  { pose proof (u32_range (si + send_offset c)). apply lookup_lt_Some in Hq. lia. }
  rewrite (proj2 (arr_get_Ok _ i q)) by (split; [lia|done]). cbn [mbind outcome_bind]. fold id.
  rewrite arr_set_Ok by done. cbn [mbind outcome_bind cr_mbuf set_id]. rewrite Hm.
  cbn [PSP_TRUE mbind outcome_bind Z.eqb NULL mbuf_pool set_next_cr set_reqs]. unfold get_mbuf.
  cbn [Z.eqb NULL negb]. rewrite Ha. cbn [mbind outcome_bind]. rewrite (proj2 (Z.eqb_neq b NULL) Hb).
  cbn [mbind outcome_bind Z.eqb ENOMEM cl_requests set_pool set_next_cr set_reqs].
  rewrite arr_set_Ok by (by rewrite length_insert). cbn [mbind outcome_bind]. rewrite list_insert_insert_eq.
  unfold get_pkt. rewrite Hp. cbn [mbind outcome_bind].
  destruct (write_payload_ok l4_field pt sz (cl_id c) (set_mbuf b (set_id id q)) (room pkt))
    as (r & Er & Hlen & Hld & Hmb); [done| |].
  { cbn [cr_id set_mbuf set_id]. apply (lxor_range 32); [lia|exact Hid|apply u32_range]. }
  cbn [cl_id set_reqs set_pool set_next_cr]. rewrite Er. exists r. split_and!; try done.
  intros off Hoff. by eapply write_payload_tail.
Qed.

End requests.

Section answers.
Context {P : Type} `{AllocatorLaws P}.

Lemma rrel_pop r a l :
  rrel r (a :: l) ->
  pop_tail r <? pop_head r = true
  /\ arr_get (inbound_queue r) (Z.land (pop_tail r) (INBOUND_Q_LEN - 1)) = Ok a
  /\ rrel (mk_rxq (inbound_queue r) (u32 (pop_tail r + 1)) (pop_head r)) l.
Proof.
  intros [H1 H2 H3 H4]. cbn [length] in H3. split_and!; [by apply Z.ltb_lt; lia| |].
  - change (INBOUND_Q_LEN - 1) with (2 ^ 7 - 1). rewrite land_mask by done.
    apply arr_get_Ok. split; [apply Z.mod_pos_bound; lia|]. by apply (ring_front _ _ _ _ l).
  - rewrite u32_id by lia. split; cbn [inbound_queue pop_tail pop_head]; try lia.
    by apply (ring_pop _ _ _ a).
Qed.

(** An answer to the request at index [i]: a packet of ours with its id. *)
Definition is_answer (s : sched) (worker_id : Z) (m : packets) (own : gset Z) (len : nat) (a i : Z) : Prop :=
  a ∈ own /\ 0 <= i < Z.of_nat len
  /\ exists pkt, m !! a = Some pkt /\ load 4 (room pkt) (rid_offset (s_ptype s)) = Ok (Z.lxor i (client_bits worker_id)).

Definition complete_all (t : Z) (idx : Z -> Z) (l : list Z) (rs : list ClientRequest) : list ClientRequest :=
  foldl (fun rs a => alter (set_completed t) (Z.to_nat (idx a)) rs) rs l.

(** Every answer of the batch completes the request whose id it carries, and
    its buffer goes back to the pool. *)
Lemma answer_loop_all k s t (c : client P) m l own (idx : Z -> Z) :
  rrel (in_q (cl_udp c)) l -> pool_inv (mbuf_pool c) own -> NoDup (take k l) ->
  (forall a, a ∈ take k l -> is_answer s (cl_id c) m own (length (cl_requests c)) a (idx a)) ->
  exists c', answer_loop k s t c m = Ok (Z.of_nat (length (take k l)), c', m)
    /\ rrel (in_q (cl_udp c')) (drop k l)
    /\ cl_requests c' = complete_all t idx (take k l) (cl_requests c)
    /\ pool_inv (mbuf_pool c') (own ∖ list_to_set (take k l))
    /\ pool_blocks (mbuf_pool c') = pool_blocks (mbuf_pool c)
    /\ cl_udp c' = set_in (in_q (cl_udp c')) (cl_udp c) /\ pop_head (in_q (cl_udp c')) = pop_head (in_q (cl_udp c))
    /\ next_cr c' = next_cr c.
Proof.
  revert c l own. induction k as [|k IH]; intros c l own Hr Hp Hnd Ha.
  { exists c. rewrite take_0, drop_0. split_and!; try done; [|by destruct c as [? []]].
    replace (own ∖ list_to_set []) with own by set_solver. done. }
  cbn [answer_loop]. destruct l as [|a l].
  { rewrite (proj2 (Z.ltb_ge _ _)) by (destruct Hr as [_ _ -> _]; simpl; lia).
    exists c. split_and!; try done; [|by destruct c as [? []]].
    replace (own ∖ list_to_set (take (S k) [])) with own by set_solver. done. }
  cbn [take drop] in *. apply NoDup_cons in Hnd as [Hn Hnd].
  destruct (rrel_pop _ _ _ Hr) as (-> & -> & Hr'). cbn [mbind outcome_bind].
  destruct (Ha a) as (Hown & Hi & pkt & Hpkt & Hld); [by left|].
  unfold get_pkt. rewrite Hpkt. cbn [mbind outcome_bind]. rewrite Hld. cbn [mbind outcome_bind].
  cbn [cl_id set_udp cl_requests]. rewrite client_bits_roundtrip.
  destruct (lookup_lt_is_Some_2 (cl_requests c) (Z.to_nat (idx a))) as [q Hq]; [lia|].
  rewrite (arr_upd_Ok _ _ _ q) by (lia || done). cbn [mbind outcome_bind mbuf_pool set_udp].
  destruct (pool_free_owned (mbuf_pool c) own a) as (p' & Ef & Hbl & Hp'); [done..|].
  unfold free_mbuf. rewrite Ef. cbn [mbind outcome_bind PSP_OK Z.eqb].
  set (c1 := set_pool p' _). destruct (IH c1 l (own ∖ {[a]})) as (c' & E & Hr2 & Hq2 & Hp2 & Hb2 & Hu2 & Hh2 & Hn2); try done.
  { intros x Hx. destruct (Ha x) as (Hx1 & Hx2 & Hx3); [by right|]. split; [set_solver|].
    split; [|done]. unfold c1. cbn [cl_requests set_pool set_reqs]. by rewrite length_insert. }
  rewrite E. cbn [mbind outcome_bind]. exists c'. split_and!; try done.
  - do 3 f_equal. cbn [length]. lia.
  - rewrite Hq2. unfold complete_all, c1. cbn [foldl cl_requests set_pool set_reqs].
    rewrite list_insert_alter. erewrite list_alter_ext; [done|intros x Hx; congruence|done].
  - replace (own ∖ list_to_set (a :: take k l)) with (own ∖ {[a]} ∖ list_to_set (take k l)); [done|].
    set_solver.
  - by rewrite Hb2.
Qed.

End answers.

End Client.
Import Client.

(** C17. The id that a client puts into a request finds the request again: a fresh
    request gets a packet with its index, mixed with the bits of the client,
    where the format of the packet has the id (and, for [PSP_MB], its type and
    run time where the server reads them); later, answers that carry the ids of
    requests of this client complete exactly those requests, eight at a time,
    and give their buffers back. *)
Theorem request_roundtrip {P : Type} `{AllocatorLaws P} mtod l4_field s send_index (c c2 : client P)
    (m m2 : packets) q b pool pkt t l own (idx : Z -> Z) :
  let i := u32 (send_index + send_offset c) in
  let pt := s_ptype s in
  let id x := Z.lxor x (client_bits (cl_id c)) in
  next_cr c = None -> cl_requests c !! Z.to_nat i = Some q -> cr_id q = i -> cr_mbuf q = NULL ->
  pool_alloc (mbuf_pool c) = Ok (b, pool) -> b <> NULL -> m !! b = Some pkt ->
  sizes_ok pt (s_pkt_size s) (room pkt) ->
  cl_id c2 = cl_id c -> rrel (in_q (cl_udp c2)) l -> pool_inv (mbuf_pool c2) own -> NoDup (take 8 l) ->
  (forall a, a ∈ take 8 l -> is_answer s (cl_id c2) m2 own (length (cl_requests c2)) a (idx a)) ->
  (exists c1 m1 pkt1, gen_next_req mtod l4_field pt (s_pkt_size s) send_index c m = Ok (0, c1, m1)
     /\ next_cr c1 = Some i /\ cl_requests c1 = <[Z.to_nat i := set_mbuf b (set_id (id i) q)]> (cl_requests c)
     /\ m1 = <[b := pkt1]> m /\ l4_len pkt1 = l4_field (payload_size pt (s_pkt_size s))
     /\ load 4 (room pkt1) (rid_offset pt) = Ok (id i)
     /\ (pt = PSP_MB -> load 4 (room pkt1) 4 = Ok (u32 (cr_type q)) /\ load 4 (room pkt1) 12 = Ok (u32 (run_ns q))))
  /\ exists c3, answer_loop (Z.to_nat MAX_RX_BURST) s t c2 m2 = Ok (Z.of_nat (length (take 8 l)), c3, m2)
     /\ rrel (in_q (cl_udp c3)) (drop 8 l)
     /\ cl_requests c3 = complete_all t idx (take 8 l) (cl_requests c2)
     /\ pool_inv (mbuf_pool c3) (own ∖ list_to_set (take 8 l)).
Proof.
  intros i pt id Hn Hq Hid Hm Ha Hb Hp Hs Hc Hr Hpi Hnd Hans. split.
  - destruct (gen_next_req_ok mtod l4_field pt (s_pkt_size s) send_index c m q b pool pkt)
      as (r & E & _ & Hld & Hmb & _); try done; [rewrite Hid; apply u32_range|].
    rewrite Hid in E, Hld. eexists _, _, _. split; [exact E|]. by split_and!.
  - destruct (answer_loop_all (Z.to_nat MAX_RX_BURST) s t c2 m2 l own idx) as (c3 & E & H1 & H2 & H3 & _); try done.
    by exists c3.
Qed.

(** C39. When the pool of buffers is empty the request is kept for the next attempt,
    but that attempt takes it for a finished one: it queues a null packet, and
    the process stops with [ENOMEM]. *)
Theorem request_retry_aborts {P : Type} `{Allocator P} {N : Type} mtod (tx_burst : N -> packets -> list Z -> Z * N)
    rdtscp l4_field flag s infl n (c : client P) m q pool p :
  let i := u32 (send_index p + send_offset c) in
  next_cr c = None -> cl_requests c !! Z.to_nat i = Some q -> cr_mbuf q = NULL ->
  pool_alloc (mbuf_pool c) = Ok (NULL, pool) ->
  max_concurrency c < 0 \/ infl < max_concurrency c ->
  out_rep (cl_udp c) [] -> push_head (cl_udp c) + 1 < 2 ^ 32 ->
  exists c', attempt mtod tx_burst rdtscp l4_field flag s infl n c m p
      = Ok (true, n, c', m, add_skip (add_attempt p))
    /\ next_cr c' = Some i
    /\ (forall s n m p, attempt mtod tx_burst rdtscp l4_field flag s infl n c' m p = Panic ENOMEM).
Proof.
  intros i Hn Hq Hm Ha Hc Ho Hh.
  assert (Hi : 0 <= i < Z.of_nat (length (cl_requests c))).
  { pose proof (u32_range (send_index p + send_offset c)). apply lookup_lt_Some in Hq. lia. }
  assert (Hcc : (max_concurrency c <? 0) || (infl <? max_concurrency c) = true).
  { apply orb_true_iff. destruct Hc; [left|right]; by apply Z.ltb_lt. }
  set (q' := set_id (Z.lxor (cr_id q) (client_bits (cl_id c))) q).
  set (c' := mk_client (cl_id c) (cl_udp c) pool (<[Z.to_nat i := q']> (cl_requests c))
               (send_offset c) (Some i) (max_concurrency c)).
  exists c'. split; [|split; [done|]].
  - unfold attempt. rewrite Hcc. unfold gen_next_req. rewrite Hn.
    change (u32 (send_index (add_attempt p) + send_offset c)) with i.
    rewrite (proj2 (arr_get_Ok _ i q)) by (split; [lia|done]). cbn [mbind outcome_bind].
    rewrite arr_set_Ok by done. cbn [mbind outcome_bind]. fold q'.
    change (cr_mbuf q') with (cr_mbuf q). rewrite Hm.
    cbn [PSP_TRUE mbind outcome_bind Z.eqb NULL mbuf_pool set_next_cr set_reqs]. unfold get_mbuf.
    cbn [Z.eqb NULL negb]. rewrite Ha. done.
  - intros s' n' m' p'. unfold attempt. cbn [max_concurrency c']. rewrite Hcc.
    unfold gen_next_req. cbn [next_cr c' mbind outcome_bind Z.eqb]. unfold send_request.
    cbn [cl_udp c' cl_requests]. destruct (out_rep_push _ _ NULL Ho) as (o & Eo & Ho'); [done|done|].
    assert (Hu : u32 (push_head (cl_udp c) - push_tail (cl_udp c)) = 0).
    { destruct Ho as [_ _ -> _]. cbn [length]. word_lia. }
    rewrite Hu. cbn [Z.eqb OUTBOUND_Q_LEN].
    rewrite (proj2 (arr_get_Ok _ i q')) by (split; [lia|apply list_lookup_insert_eq; lia]).
    cbn [mbind outcome_bind]. change (cr_mbuf q') with (cr_mbuf q). rewrite Hm, Eo.
    cbn [mbind outcome_bind]. unfold send_packets. change (Z.to_nat MAX_TX_BURST) with 8%nat.
    by rewrite (tx_loop_null _ _ _ _ _ _ Ho').
Qed.

(** Playing a fresh schedule against a clock that goes forward: unless the
    process stops, the call returns, within as many passes as the maximal
    duration has ticks; then every request has its answer or the schedule was
    ended.  It has never sent more requests than the schedule has, nor had more
    than the allowed number of them unanswered, and every attempt is counted as
    sent or as skipped. *)
Theorem play_schedule_ends {P : Type} `{Allocator P} {N : Type} mtod rx_burst tx_burst take_time rdtscp l4_field flag
    (clock : N -> Z) fuel pt pkt_size n_reqs max_duration times p0 n (c : client P) m r :
  clock_laws rx_burst tx_burst take_time rdtscp clock ->
  0 < n_reqs < 2 ^ 31 - 8 -> 0 <= max_duration < Z.of_nat fuel ->
  send_index p0 = 0 -> recv_requests p0 = 0 -> attempts p0 = 0 -> n_skipped p0 = 0 ->
  play_schedule mtod rx_burst tx_burst take_time rdtscp l4_field flag
    fuel pt pkt_size n_reqs max_duration times p0 n c m = Ok r ->
  exists last e n' c' m' p, r = Some (last, e, n', c', m', p)
    /\ (n_reqs <= recv_requests p \/ terminate p = true)
    /\ 0 <= send_index p <= n_reqs
    /\ (0 <= max_concurrency c -> send_index p - recv_requests p <= max_concurrency c)
    /\ u32 (attempts p) = u32 (send_index p + n_skipped p)
    /\ send_offset c' = u32 (send_offset c + n_reqs).
Proof.
  intros Hclock Hn Hf H1 H2 H3 H4 E. unfold play_schedule in E.
  destruct (take_time n) as [start n1] eqn:Et1.
  apply bind_Ok_inv in E as (t0 & _ & E). apply bind_Ok_inv in E as (t1 & _ & E).
  set (s := mk_sched _ _ _ _ _ _ _ _) in E. apply bind_Ok_inv in E as (p1 & Eg & E).
  destruct (take_time n1) as [now n2] eqn:Et2.
  destruct (cl_take _ _ _ _ _ Hclock _ _ _ Et1) as [_ C1], (cl_take _ _ _ _ _ Hclock _ _ _ Et2) as [C2 C3].
  unfold gen_next_send_time in Eg. ok_inv Eg. cbn in E0. cbv beta zeta in E.
  apply bind_Ok_inv in E as (r1 & Er & E).
  apply (play_loop_ok mtod rx_burst tx_burst take_time rdtscp l4_field flag clock Hclock) in Er
    as (n' & c' & m' & p & -> & Hend & Hi & Hu & Hc).
  - apply bind_Ok_inv in E as (last & _ & E). destruct (take_time n') as [e n''].
    injection E as <-. eexists _, _, _, _, _, _. split; [reflexivity|].
    destruct Hi as [G1 G2 G3 G4]. unfold fixed in Hc. injection Hc as Hc1 Hc2 Hc3. rewrite Hc3 in G4.
    change (s_n_requests s) with n_reqs in *. split_and!; try done; [lia..| |by cbn; rewrite Hc2].
    unfold unaccounted in Hu. cbn in Hu. rewrite H1, H3, H4 in Hu. clear -Hu. word_lia.
  - unfold remaining. cbn. lia.
  - cbn. lia.
  - unfold s. split; unfold MAX_RX_BURST; cbn; lia.
Qed.

(** *** Witnesses: a client whose packets come straight back *)

Definition example_packet : rte_mbuf :=
  mk_mbuf (mk_eth 0 0 0) (mk_ip 0 0 0 0 0 0) (mk_udp 0 0 0) (replicate 64 0) 0 0 0 0 0 0 0.
Definition example_packets : packets := <[4096 := example_packet]> {[5064 := example_packet]}.

Definition example_reqs : list ClientRequest := [mk_cr 0 NULL 1000 1 0 0 0; mk_cr 1 NULL 2000 2 0 0 0].
Definition example_client (pool : Mempool.mempool) (rx : rxq) : client Mempool.mempool :=
  mk_client 3 (mk_udpctx 10 6789 6789 11 9 8 rx (replicate 128 0) 0 0) pool example_reqs 0 None 1.
Definition example_rx : rxq := mk_rxq (replicate 128 0) 0 0.

(** The environment: the time, and the packets on the wire. *)
Definition loop_rx (e : Z * list Z) (k : Z) : list Z * (Z * list Z) :=
  (take (Z.to_nat k) e.2, (e.1, drop (Z.to_nat k) e.2)).
Definition loop_tx (e : Z * list Z) (m : packets) (ps : list Z) : Z * (Z * list Z) :=
  (Z.of_nat (length ps), (e.1, e.2 ++ ps)).
Definition loop_time (e : Z * list Z) : Z * (Z * list Z) := (e.1 + 1, (e.1 + 1, e.2)).
Definition loop_tsc (e : Z * list Z) : Z * (Z * list Z) := (e.1, e).

Lemma loop_clock_laws : clock_laws loop_rx loop_tx loop_time loop_tsc fst.
Proof.
  split; intros *; unfold loop_rx, loop_tx, loop_time, loop_tsc; intros [= <- <-]; cbn; lia.
Qed.

Definition example_play : play := mk_play 0 0 0 0 0 0 0 0 0 false false.

Definition example_run :=
  play_schedule id loop_rx loop_tx loop_time loop_tsc id 0 101 PSP_MB 0 2 100 [0; 3; 7; 50] example_play
    (0, []) (example_client example_ctx_pool example_rx) example_packets.

Lemma example_run_returns :
  match example_run with
  | Ok (Some (_, _, _, _, _, p)) => (send_index p, recv_requests p) = (2, 2)
  | _ => False
  end.
Proof. vm_compute. reflexivity. Qed.

Lemma play_schedule_ends_witness :
  exists last e n' c' m' p, example_run = Ok (Some (last, e, n', c', m', p))
    /\ send_index p = 2 /\ recv_requests p = 2
    /\ (0 <= 1 -> send_index p - recv_requests p <= 1)
    /\ u32 (attempts p) = u32 (send_index p + n_skipped p) /\ send_offset c' = 2.
Proof.
  pose proof example_run_returns as G. destruct example_run as [r| |] eqn:E; [|destruct G..].
  unfold example_run in E.
  destruct (play_schedule_ends id loop_rx loop_tx loop_time loop_tsc id 0 fst 101 PSP_MB 0 2 100 [0; 3; 7; 50]
    example_play (0, []) (example_client example_ctx_pool example_rx) example_packets r
    loop_clock_laws ltac:(lia) ltac:(lia) eq_refl eq_refl eq_refl eq_refl E)
    as (last & e & n' & c' & m' & p & Hr & _ & _ & Hc & Hu & Ho).
  subst r. injection G as Hp1 Hp2. exists last, e, n', c', m', p.
  split; [reflexivity|]. split; [exact Hp1|]. split; [exact Hp2|]. split; [exact Hc|]. split; [exact Hu|exact Ho].
Defined.

(** One buffer is out: the answer to the second request, in the receive ring. *)
Definition example_pool_used : Mempool.mempool := Mempool.mk_mempool [4096; 5064] 1 2 4096 1936 0 968 2 0.
Definition example_answered : packets :=
  {[4096 := with_room example_packet 0 (le_bytes 4 (Z.lxor 1 (client_bits 3)) ++ replicate 60 0)]}.
Definition example_sched : sched := mk_sched PSP_MB 0 2 [0; 3; 7] 0 7 100 0.
Definition example_pending_rx : rxq := mk_rxq (4096 :: replicate 127 0) 0 1.

Lemma example_pool_used_inv : pool_inv example_pool_used ({[4096]} : gset Z).
Proof.
  destruct (@pool_alloc_room _ _ mempool_laws example_ctx_pool ∅ example_ctx_pool_ok) as (b & p' & E & _ & _ & _ & Hp).
  { apply (bool_decide_unpack _). by vm_compute. }
  injection E as <- <-. by rewrite union_empty_r_L in Hp.
Qed.

Lemma request_roundtrip_witness :
  let c := example_client example_ctx_pool example_rx in
  let c2 := example_client example_pool_used example_pending_rx in
  (exists c1 m1 pkt1, gen_next_req id id PSP_MB 0 1 c example_packets = Ok (0, c1, m1)
     /\ m1 !! 4096 = Some pkt1 /\ load 4 (room pkt1) 0 = Ok (3 * 2 ^ 27 + 1))
  /\ exists c3, answer_loop 8 example_sched 55 c2 example_answered = Ok (1, c3, example_answered)
     /\ completed <$> cl_requests c3 !! 1%nat = Some 55.
Proof.
  intros c c2.
  destruct (request_roundtrip id id example_sched 1 c c2 example_packets example_answered
    (mk_cr 1 NULL 2000 2 0 0 0) 4096 example_pool_used example_packet 55 [4096] {[4096]} (fun _ => 1))
    as [(c1 & m1 & pkt1 & E1 & _ & _ & Hm & _ & Hl & _) (c3 & E3 & _ & Hr & _)].
  - reflexivity.
  - reflexivity.
  - reflexivity.
  - reflexivity.
  - reflexivity.
  - discriminate.
  - reflexivity.
  - split; [discriminate|]. split; [cbn; lia|discriminate].
  - reflexivity.
  - split; [|cbn; lia..]. split; [done|reflexivity|done|].
    intros [|k] x Hx; [by injection Hx as <-|discriminate Hx].
  - exact example_pool_used_inv.
  - apply NoDup_singleton.
  - intros a Ha. apply list_elem_of_singleton in Ha as ->. split; [set_solver|]. split; [cbn; lia|].
    eexists. split; [reflexivity|]. vm_compute. reflexivity.
  - split; [exists c1, m1, pkt1|exists c3]; (split; [assumption|]).
    + split; [rewrite Hm; apply lookup_insert_eq|exact Hl].
    + rewrite Hr. reflexivity.
Defined.

Lemma request_retry_aborts_witness :
  let c := example_client (Mempool.mk_mempool [4096; 5064] 2 2 4096 1936 0 968 2 0) example_rx in
  exists c', attempt id loop_tx loop_tsc id 0 example_sched 0 (0, []) c example_packets example_play
      = Ok (true, (0, []), c', example_packets, add_skip (add_attempt example_play))
    /\ attempt id loop_tx loop_tsc id 0 example_sched 0 (0, []) c' example_packets example_play = Panic ENOMEM.
Proof.
  intros c.
  destruct (request_retry_aborts id loop_tx loop_tsc id 0 example_sched 0 (0, []) c example_packets
    (mk_cr 0 NULL 1000 1 0 0 0) (mbuf_pool c) example_play) as (c' & E & _ & H).
  - reflexivity.
  - reflexivity.
  - reflexivity.
  - reflexivity.
  - right. cbn. lia.
  - split; [|cbn; lia..]. apply ring_empty; done.
  - cbn. lia.
  - exists c'. split; [exact E|apply H].
Defined.
