(* ===== verification/ClientLog.v ===== *)
(** * ClientLog: the reports of a client

    Models [log_latency], [log_throughput], [req_latency], [req_time] and
    [check_hist] of [src/src/c++/apps/client/client.hh], over the histogram and the sampling
    of [Stats].  The conversion from cycles to nanoseconds and the tenth that is
    discarded are floating-point computations and stay parameters, as does the
    order in which a hash map is iterated. *)
From Stdlib Require Import Sorted.
From stdpp Require Import sorting.
From S2P Require Import Prelude Fail Requests Stats Schedule.
Import Stats Schedule.

Module ClientLog.

Definition LLONG_MAX : Z := 2 ^ 63 - 1.

(** [requests_by_type]: the entries in the order of their first request. *)
Notation groups := (list (Z * list ClientRequest)).

Fixpoint add_group (q : ClientRequest) (g : groups) : groups :=
  match g with
  | [] => [(cr_type q, [q])]
  | (t, l) :: g => if t =? cr_type q then (t, l ++ [q]) :: g else (t, l) :: add_group q g
  end.

Definition group_by_type (l : list ClientRequest) : groups := foldl (fun g q => add_group q g) [] l.

(** A line of the histogram file: the label, the totals, the heading and the
    counts. *)
Record hist_line : Type := mk_line {
  hl_type : Z; hl_hist : Histogram; hl_heads : list Z; hl_counts : list Z
}.

Section log.
(** [at_least c num den count]: [c >= count * (num / den)], in [double]. *)
Variable at_least : Z -> Z -> Z -> Z -> bool.
Variable to_ns : Z -> Z.
Variable tenth : nat -> nat.
Variable iter : groups -> groups.

Definition cycles (q : ClientRequest) : Z := u64 (completed q - sending q).

Definition req_latency (q : ClientRequest) : Z :=
  if completed q =? 0 then LLONG_MAX else to_ns (cycles q).

Definition req_time (q : ClientRequest) : Z := to_ns (sending q).

(** The loop that fills the histogram: over all requests, and over those of a
    type, which have all completed. *)
Definition fill_hist (l : list ClientRequest) : Histogram :=
  foldl (fun h q => if completed q =? 0 then h else insert_value h (to_ns (cycles q))) empty_hist l.

Definition fill_hist_type (l : list ClientRequest) : Histogram :=
  foldl (fun h q => insert_value h (to_ns (cycles q))) empty_hist l.

Definition set_buckets (m : gmap Z Z) (h : Histogram) : Histogram :=
  mk_hist (h_min h) (h_max h) (h_total h) (h_count h) m.

(** [check_hist]: the percentiles it prints, by numerator and denominator. *)
Definition percentiles : list (Z * Z) :=
  [(25, 100); (1, 2); (75, 100); (90, 100); (99, 100); (999, 1000); (9999, 10000)].

(** The latency printed for each percentile that the bucket with [b] values
    reaches, when [c] come before it. *)
Definition print_percentiles (count c b nr : Z) (reqs : list ClientRequest) : outcome unit :=
  foldl (fun r '(num, den) => _ ← r;
    if at_least (u64 (c + b)) num den count && negb (at_least c num den count)
    then _ ← arr_get reqs (u64 (nr * num) / den); Ok tt else Ok tt) (Ok tt) percentiles.

(** The loop over the buckets that are not empty. *)
Fixpoint percentile_loop (lines : list (Z * Z)) (count c nr : Z) (reqs : list ClientRequest) : outcome Z :=
  match lines with
  | [] => Ok c
  | (_, b) :: lines =>
    _ ← print_percentiles count c b nr reqs;
    percentile_loop lines count (u32 (c + b)) nr reqs
  end.

Definition check_hist (fuel : nat) (h : Histogram) (reqs : list ClientRequest) (nr : Z) : outcome (option unit) :=
  _ ← arr_get reqs 0;
  match bucket_loop fuel 0 (buckets h) with
  | None => Ok None
  | Some (lines, _) =>
    c ← percentile_loop lines (h_count h) 0 nr reqs;
    _ ← PSP_TRUE EINVAL (c =? h_count h);
    _ ← arr_get reqs nr; Ok (Some tt)
  end.

(** The two loops that print a histogram. *)
Definition print_hist (fuel : nat) (type : Z) (h : Histogram) : option (hist_line * Histogram) :=
  match bucket_loop fuel 0 (buckets h) with
  | None => None
  | Some (l1, m1) =>
    match bucket_loop fuel 0 m1 with
    | None => None
    | Some (l2, m2) =>
      Some (mk_line type h ((fun x => x.1 * 1000) <$> l1) l2.*2, set_buckets m2 h)
    end
  end.

(** The loop over the types. *)
Fixpoint log_types (fuel : nat) (g : groups) : outcome (option (list hist_line)) :=
  match g with
  | [] => Ok (Some [])
  | (t, reqs) :: g =>
    let h := fill_hist_type reqs in
    if h_count h =? 0 then log_types fuel g
    else
      match print_hist fuel t h with
      | None => Ok None
      | Some (line, h) =>
        _ ← PSP_TRUE EINVAL (h_count h =? Z.of_nat (length reqs));
        r ← check_hist fuel h reqs (u64 (Z.of_nat (length reqs) - 1));
        match r with
        | None => Ok None
        | Some _ =>
          r ← log_types fuel g;
          match r with None => Ok None | Some lines => Ok (Some (line :: lines)) end
        end
      end
  end.

(** The loop that samples every type. *)
Fixpoint sample_groups (n : Z) (g : groups) (to : list ClientRequest) : outcome (list ClientRequest) :=
  match g with
  | [] => Ok to
  | (_, l) :: g => to ← sample_into req_latency req_time l to n; sample_groups n g to
  end.

(** [log_latency]: the return value, the requests printed and the lines of the
    histogram file. *)
Definition log_latency (fuel : nat) (downsample : Z) (requests : list ClientRequest)
  : outcome (option (Z * list ClientRequest * list hist_line)) :=
  if decide (requests = []) then Ok (Some (ENOENT, [], []))
  else if 0 <? downsample then
    out ← sample_groups downsample (iter (group_by_type requests)) [];
    Ok (Some (0, out, []))
  else if downsample =? 0 then Ok (Some (0, requests, []))
  else if downsample =? -1 then
    let pruned := sort_by req_latency (drop (tenth (length requests)) requests) in
    let h := fill_hist pruned in
    if h_count h =? 0 then Ok (Some (-1, [], []))
    else
      match print_hist fuel (req_num UNKNOWN) h with
      | None => Ok None
      | Some (line, h) =>
        r ← check_hist fuel h pruned (u64 (h_count h - 1));
        match r with
        | None => Ok None
        | Some _ =>
          r ← log_types fuel (iter (group_by_type (filter (fun q => completed q <> 0) pruned)));
          match r with None => Ok None | Some lines => Ok (Some (0, [], line :: lines)) end
        end
      end
  else Ok (Some (0, [], [])).

(** [log_throughput]: how many requests of a type completed in an epoch;
    [epoch] is the floating-point computation of the epoch's number. *)
Definition log_throughput (epoch : Z -> Z) (requests : list ClientRequest) : gmap (Z * Z) Z :=
  foldl (fun m q =>
    if completed q =? 0 then m
    else
      let k := (cr_type q, epoch (completed q)) in
      let m := (match m !! k with None => <[k := 0]> m | Some _ => m end) in
      <[k := u64 (default 0 (m !! k) + 1)]> m) ∅ requests.

End log.

(** ** Grouping *)

(** The groups of [l]: one for each type, with its requests in order. *)
Record groups_of (l : list ClientRequest) (g : groups) : Prop := {
  go_nodup : NoDup g.*1;
  go_types : forall t, t ∈ g.*1 <-> exists q, q ∈ l /\ cr_type q = t;
  go_group : forall t r, (t, r) ∈ g -> r = filter (fun q => cr_type q = t) l
}.

Lemma add_group_types q g t : t ∈ (add_group q g).*1 <-> t = cr_type q \/ t ∈ g.*1.
Proof.
  induction g as [|[u r] g IH]; csimpl; [by rewrite elem_of_cons|].
  destruct (Z.eqb_spec u (cr_type q)) as [->|Hne]; csimpl; rewrite !elem_of_cons; [naive_solver|].
  rewrite IH. naive_solver.
Qed.

Lemma add_group_nodup q g : NoDup g.*1 -> NoDup (add_group q g).*1.
Proof.
  induction g as [|[u r] g IH]; csimpl; intros Hn; [apply NoDup_singleton|].
  apply NoDup_cons in Hn as [Hu Hn].
  destruct (Z.eqb_spec u (cr_type q)) as [->|Hne]; csimpl; apply NoDup_cons; (split; [|by auto]); [done|].
  rewrite add_group_types. naive_solver.
Qed.

Lemma add_group_elem q g t r :
  NoDup g.*1 -> (t, r) ∈ add_group q g ->
  if decide (t = cr_type q) then (exists r0, (t, r0) ∈ g /\ r = r0 ++ [q]) \/ (t ∉ g.*1 /\ r = [q])
  else (t, r) ∈ g.
Proof.
  induction g as [|[u r0] g IH]; csimpl; intros Hn Hin.
  - apply list_elem_of_singleton in Hin as [= -> ->]. rewrite decide_True by done. right. set_solver.
  - apply NoDup_cons in Hn as [Hu Hn]. destruct (Z.eqb_spec u (cr_type q)) as [->|Hne].
    + apply elem_of_cons in Hin as [[= -> ->]|Hin].
      * rewrite decide_True by done. left. exists r0. split; [left|done].
      * rewrite decide_False; [by right|]. intros ->. apply Hu. apply list_elem_of_fmap. by exists (cr_type q, r).
    + apply elem_of_cons in Hin as [[= -> ->]|Hin]; [rewrite decide_False by done; left|].
      specialize (IH Hn Hin). case_decide as Hd; [|by right].
      destruct IH as [(r1 & Hr & ->)|[Hnin ->]]; [left; exists r1; split; [by right|done]|].
      right. split; [|done]. rewrite elem_of_cons. naive_solver.
Qed.

Lemma group_by_type_ok l : groups_of l (group_by_type l).
Proof.
  unfold group_by_type. induction l as [|q l IH] using rev_ind.
  { split; csimpl; [constructor|set_solver|set_solver]. }
  rewrite foldl_snoc. destruct IH as [H1 H2 H3]. set (g := foldl _ [] l) in *. split.
  - by apply add_group_nodup.
  - intros t. rewrite add_group_types, H2. set_solver.
  - intros t r Hin. apply add_group_elem in Hin; [|done]. rewrite filter_app, filter_cons, filter_nil.
    case_decide as Hd; [rewrite decide_True by done|rewrite decide_False by done; rewrite app_nil_r; by apply H3].
    destruct Hin as [(r0 & Hr & ->)|[Hn ->]]; [by rewrite (H3 _ _ Hr)|].
    replace (filter _ l) with ([] : list ClientRequest); [done|]. symmetry. apply elem_of_nil_inv.
    intros x [Ht Hx]%list_elem_of_filter. apply Hn, H2. by exists x.
Qed.

Lemma of_type_nonempty l t :
  filter (fun q => cr_type q = t) l <> [] <-> exists q, q ∈ l /\ cr_type q = t.
Proof.
  split.
  - destruct (filter _ l) as [|q r] eqn:E; [done|]. intros _. exists q.
    assert (Hq : q ∈ filter (fun q => cr_type q = t) l) by (rewrite E; left).
    apply list_elem_of_filter in Hq. naive_solver.
  - intros (q & Hq & Ht) E. apply (not_elem_of_nil q). rewrite <- E. by apply list_elem_of_filter.
Qed.

Lemma groups_all l g :
  groups_of l g -> Forall (fun tr => tr.2 = filter (fun q => cr_type q = tr.1) l /\ tr.2 <> []) g.
Proof.
  intros [_ G2 G3]. apply Forall_forall. intros [t r] Hin. cbn [fst snd]. rewrite (G3 _ _ Hin).
  split; [done|]. apply of_type_nonempty, G2, list_elem_of_fmap. by exists (t, r).
Qed.

(** ** The report *)

Section report.
Variable at_least : Z -> Z -> Z -> Z -> bool.
Variable to_ns : Z -> Z.

Lemma percentile_loop_ok lines count c nr (reqs : list ClientRequest) :
  0 <= nr < Z.of_nat (length reqs) -> nr < 2 ^ 32 ->
  percentile_loop at_least lines count c nr reqs = Ok (foldl (fun c x => u32 (c + x)) c lines.*2).
Proof.
  intros Hnr Hlt. revert c. induction lines as [|[i b] lines IH]; intros c; [done|].
  assert (Hp : forall l, Forall (fun x => 0 <= x.1 <= x.2 /\ 0 < x.2 <= 10000) l ->
    foldl (fun r '(num, den) => _ ← r;
      if at_least (u64 (c + b)) num den count && negb (at_least c num den count)
      then _ ← arr_get reqs (u64 (nr * num) / den); Ok tt else Ok tt) (Ok tt) l = Ok tt).
  { induction 1 as [|[num den] l [H1 H2] _ IHl]; [done|]. cbn [foldl fst snd mbind outcome_bind] in *.
    destruct (_ && _); [|exact IHl].
    assert (nr * num <= 2 ^ 32 * 10000) by (apply Z.mul_le_mono_nonneg; lia).
    rewrite (u64_id (nr * num)) by (split; [apply Z.mul_nonneg_nonneg; lia|lia]).
    destruct (arr_get_lt reqs (nr * num / den)) as [q ->]; [|exact IHl].
    assert (nr * num / den <= nr) by (apply Z.div_le_upper_bound; [lia|]; rewrite (Z.mul_comm den); apply Z.mul_le_mono_nonneg_l; lia).
    assert (0 <= nr * num / den) by (apply Z.div_pos; [apply Z.mul_nonneg_nonneg; lia|lia]). lia. }
  csimpl. cbn [percentile_loop]. unfold print_percentiles.
  rewrite Hp by (repeat constructor; cbn; lia). apply IH.
Qed.


Definition ns (q : ClientRequest) : Z := to_ns (cycles q).

Lemma fill_hist_filter l :
  fill_hist to_ns l = foldl insert_value empty_hist (ns <$> filter (fun q => completed q <> 0) l).
Proof.
  unfold fill_hist. generalize empty_hist. induction l as [|q l IH]; intros h; [done|].
  cbn [foldl]. rewrite filter_cons. destruct (Z.eqb_spec (completed q) 0) as [E|E].
  - rewrite decide_False by (by intros []). apply IH.
  - rewrite decide_True by done. csimpl. apply IH.
Qed.

Lemma fill_hist_type_map l : fill_hist_type to_ns l = foldl insert_value empty_hist (ns <$> l).
Proof. unfold fill_hist_type. generalize empty_hist. induction l as [|q l IH]; intros h; [done|]. csimpl. apply IH. Qed.

(** A line says what the values are: the totals, and the buckets with their
    number of values. *)
Definition reports (line : hist_line) (vs : list Z) : Prop :=
  hist_of (hl_hist line) vs
  /\ hl_heads line = (fun x => x.1 * 1000) <$> bucket_lines (hl_hist line) vs
  /\ hl_counts line = (bucket_lines (hl_hist line) vs).*2.

(** What the values have to be for the counters of the histogram. *)
Definition values_ok (fuel : nat) (vs : list Z) : Prop :=
  Forall bucket_ok vs /\ Forall (fun v => v / BUCKET_SIZE < Z.of_nat fuel) vs
  /\ sum vs < 2 ^ 64 /\ Z.of_nat (length vs) < 2 ^ 32.

(** Printing and checking a histogram of the latencies of [reqs]. *)
Lemma hist_report fuel t vs reqs :
  vs <> [] -> values_ok fuel vs -> (length vs <= length reqs)%nat ->
  let h := foldl insert_value empty_hist vs in
  exists line h', print_hist fuel t h = Some (line, h') /\ hl_type line = t /\ reports line vs
    /\ h_count h' = Z.of_nat (length vs)
    /\ check_hist at_least fuel h' reqs (u64 (Z.of_nat (length vs) - 1)) = Ok (Some tt).
Proof.
  intros Hne (Hb & Hf & Hs & Hl) Hlen h. pose proof (hist_of_all vs Hb Hs Hl) as Hh. fold h in Hh.
  assert (Hmax : h_max h / BUCKET_SIZE < Z.of_nat fuel).
  { pose proof (ho_max _ _ Hh). rewrite Forall_forall in Hf. destruct vs; [done|]. by apply Hf. }
  assert (Hv : (0 < length vs)%nat) by (destruct vs; simpl; [done|lia]).
  destruct (prints_loop h vs fuel (buckets h)) as (m1 & E1 & P1); [by apply prints_hist|done|].
  destruct (prints_loop h vs fuel m1) as (m2 & E2 & P2); [done..|].
  destruct (prints_loop h vs fuel m2) as (m3 & E3 & _); [done..|].
  unfold print_hist. rewrite E1, E2. eexists _, _. split; [reflexivity|]. split; [done|].
  split; [by split_and!|]. cbn [h_count set_buckets]. rewrite (ho_count _ _ Hh). split; [done|].
  unfold check_hist. destruct (arr_get_lt reqs 0) as [x ->]; [lia|]. cbn [mbind outcome_bind buckets set_buckets h_count].
  rewrite E3, u64_id, percentile_loop_ok by lia. cbn [mbind outcome_bind].
  rewrite (bucket_lines_sum h vs Hh), (ho_count _ _ Hh), Z.eqb_refl by done. cbn [PSP_TRUE mbind outcome_bind]. by destruct (arr_get_lt reqs (Z.of_nat (length vs) - 1)) as [y ->]; [lia|].
Qed.

(** ** The report by type *)

Lemma sum_perm vs vs' : vs ≡ₚ vs' -> sum vs = sum vs'.
Proof. unfold sum. induction 1; simpl; lia. Qed.

Lemma values_ok_perm fuel vs vs' : vs ≡ₚ vs' -> values_ok fuel vs -> values_ok fuel vs'.
Proof. intros Hp. unfold values_ok. by rewrite (sum_perm _ _ Hp), Hp. Qed.

Lemma values_ok_filter fuel P `{forall q, Decision (P q)} l :
  values_ok fuel (ns <$> l) -> values_ok fuel (ns <$> filter P l).
Proof.
  intros (H1 & H2 & H3 & H4).
  assert (Hsub : ns <$> filter P l ⊆+ ns <$> l) by (apply fmap_submseteq, sublist_submseteq, sublist_filter).
  destruct (submseteq_Permutation _ _ Hsub) as [k Hk]. rewrite Hk, length_app in *.
  rewrite (sum_perm _ _ Hk) in H3. apply Forall_app in H1 as [H1 H1'], H2 as [H2 _].
  assert (Hk0 : forall a b, Forall bucket_ok b -> sum a <= sum (a ++ b)).
  { intros a b Hb. unfold sum. rewrite foldr_app.
    assert (Hpos : 0 <= foldr Z.add 0 b) by (induction Hb as [|x b [] _ IH]; simpl; lia).
    induction a as [|x a IH]; simpl; lia. }
  pose proof (Hk0 (ns <$> filter P l) k H1'). split_and!; [done|done|lia|lia].
Qed.

Lemma log_types_ok fuel l g :
  values_ok fuel (ns <$> l) -> Forall (fun tr => tr.2 = filter (fun q => cr_type q = tr.1) l /\ tr.2 <> []) g ->
  exists lines, log_types at_least to_ns fuel g = Ok (Some lines) /\ hl_type <$> lines = g.*1
    /\ Forall (fun line => reports line (ns <$> filter (fun q => cr_type q = hl_type line) l)) lines.
Proof.
  intros Hv. induction 1 as [|[t r] g [Hr Hne] _ (lines & IH1 & IH2 & IH3)]; [by exists []|].
  cbn [fst snd] in *. cbn [log_types]. rewrite fill_hist_type_map.
  assert (Hvr : values_ok fuel (ns <$> r)) by (rewrite Hr; by apply values_ok_filter).
  destruct (hist_report fuel t (ns <$> r) r) as (line & h' & Ep & Et & Hrep & Hc & Ec); [by destruct r|done|by rewrite length_fmap|].
  destruct Hvr as (V1 & _ & V3 & V4). pose proof (hist_of_all _ V1 V3 V4) as Hh.
  rewrite length_fmap in *. rewrite (ho_count _ _ Hh), length_fmap.
  rewrite (proj2 (Z.eqb_neq _ _)) by (destruct r; simpl; [done|lia]).
  rewrite Ep, Hc, Z.eqb_refl. cbn [PSP_TRUE mbind outcome_bind]. rewrite Ec. cbn [mbind outcome_bind].
  rewrite IH1. cbn [mbind outcome_bind]. exists (line :: lines). split; [done|]. csimpl.
  rewrite IH2, Et. split; [done|]. constructor; [by rewrite Et, <- Hr|done].
Qed.

End report.

End ClientLog.
Import ClientLog.

(** C33. The histogram report: the first tenth of the requests is left out; when none
    of the others has completed the call says so; else there is a line for all
    completed requests together and one for each of their types, each giving
    the number, the total, the extremes and the occupied buckets of the
    latencies, and all of the internal checks pass.  A hash map may be iterated
    in any order. *)
Theorem log_latency_correct at_least to_ns tenth iter fuel (requests : list ClientRequest) :
  let l := filter (fun q => completed q <> 0) (drop (tenth (length requests)) requests) in
  let of_type t := filter (fun q => cr_type q = t) l in
  (forall g, iter g ≡ₚ g) -> requests <> [] -> values_ok fuel (ns to_ns <$> l) ->
  (l = [] -> log_latency at_least to_ns tenth iter fuel (-1) requests = Ok (Some (-1, [], [])))
  /\ (l <> [] -> exists first lines,
        log_latency at_least to_ns tenth iter fuel (-1) requests = Ok (Some (0, [], first :: lines))
        /\ (exists vs, vs ≡ₚ ns to_ns <$> l /\ reports first vs)
        /\ NoDup (hl_type <$> lines) /\ (forall t, t ∈ hl_type <$> lines <-> of_type t <> [])
        /\ (forall line, line ∈ lines ->
              exists vs, vs ≡ₚ ns to_ns <$> of_type (hl_type line) /\ reports line vs)).
Proof.
  intros l of_type Hiter Hne Hv. unfold log_latency. rewrite decide_False by done. cbn [Z.ltb Z.eqb Z.compare].
  set (pruned := sort_by _ _).
  assert (Hp : pruned ≡ₚ drop (tenth (length requests)) requests) by apply merge_sort_Permutation.
  set (l' := filter (fun q => completed q <> 0) pruned).
  assert (Hl : l' ≡ₚ l) by (unfold l', l; by rewrite Hp).
  assert (Hv' : values_ok fuel (ns to_ns <$> l')) by (eapply values_ok_perm; [|exact Hv]; by rewrite Hl).
  pose proof Hv' as (V1 & _ & V3 & V4). pose proof (hist_of_all _ V1 V3 V4) as Hh.
  rewrite fill_hist_filter. fold l'. rewrite (ho_count _ _ Hh), length_fmap. split.
  - intros Hl0. rewrite Hl0 in Hl. apply Permutation_nil_r in Hl. by rewrite Hl.
  - intros Hl0. assert (Hl1 : l' <> []) by (intros E; rewrite E in Hl; by apply Permutation_nil_l in Hl).
    rewrite (proj2 (Z.eqb_neq _ _)) by (destruct l'; simpl; [done|lia]).
    destruct (hist_report at_least fuel (req_num UNKNOWN) (ns to_ns <$> l') pruned)
      as (line & h' & Ep & Et & Hrep & Hc & Ec); [by destruct l'|done|rewrite length_fmap; apply length_filter|].
    rewrite length_fmap in *. rewrite Ep, Hc, Ec. cbn [mbind outcome_bind]. pose proof (group_by_type_ok l') as Hg.
    set (g := group_by_type l') in *.
    destruct (log_types_ok at_least to_ns fuel l' (iter g)) as (lines & El & Ht & Hlines);
      [done|rewrite (Hiter g); by apply groups_all|].
    destruct Hg as [G1 G2 _].
    rewrite El. cbn [mbind outcome_bind]. exists line, lines. split; [done|].
    assert (Hperm : hl_type <$> lines ≡ₚ g.*1) by (rewrite Ht; by apply fmap_Permutation).
    split; [exists (ns to_ns <$> l'); split; [by apply fmap_Permutation|exact Hrep]|].
    split; [by apply (NoDup_Permutation_proper _ _ Hperm)|]. split.
    + intros t. unfold of_type. rewrite (elem_of_Permutation_proper t _ _ Hperm), of_type_nonempty, G2.
      split; intros (q & Hq & Hqt); exists q; (split; [|done]);
        by apply (elem_of_Permutation_proper q _ _ Hl).
    + rewrite Forall_forall in Hlines. intros x Hx. eexists. split; [|by apply Hlines].
      by apply fmap_Permutation, filter_Permutation.
Qed.

(** *** Witness: four requests, two types, one not answered *)
Definition example_done (t c : Z) : ClientRequest := mk_cr 0 NULL 0 t 100 c 0.

Lemma log_latency_correct_witness :
  exists first lines,
    log_latency (fun c num den count => count * num <=? c * den) id (fun n => (n / 10)%nat) (@rev _) 10 (-1)
      [example_done 1 1600; example_done 2 4100; example_done 1 0; example_done 1 1900]
      = Ok (Some (0, [], first :: lines))
    /\ (exists vs, vs ≡ₚ [1500; 4000; 1800] /\ reports first vs)
    /\ NoDup (hl_type <$> lines)
    /\ (forall line, line ∈ lines -> hl_type line = 1 \/ hl_type line = 2).
Proof.
  destruct (log_latency_correct (fun c num den count => count * num <=? c * den) id (fun n => (n / 10)%nat) (@rev _) 10
    [example_done 1 1600; example_done 2 4100; example_done 1 0; example_done 1 1900]) as [_ H].
  - intros g. symmetry. apply Permutation_rev.
  - discriminate.
  - change (filter _ _) with [example_done 1 1600; example_done 2 4100; example_done 1 1900].
    split; [repeat constructor; vm_compute; reflexivity|].
    split; [repeat constructor; vm_compute; reflexivity|]. split; vm_compute; reflexivity.
  - destruct H as (first & lines & E & Hf & Hn & Ht & _); [discriminate|].
    exists first, lines. split; [exact E|]. split; [exact Hf|]. split; [exact Hn|].
    intros line Hl. assert (Hin : hl_type line ∈ hl_type <$> lines) by (apply list_elem_of_fmap; exists line; split; [reflexivity|exact Hl]).
    clear E. apply Ht, of_type_nonempty in Hin as (q & Hq & <-).
    change (filter _ _) with [example_done 1 1600; example_done 2 4100; example_done 1 1900] in Hq.
    apply elem_of_cons in Hq as [->|Hq]; [by left|]. apply elem_of_cons in Hq as [->|Hq]; [by right|].
    apply list_elem_of_singleton in Hq as ->. by left.
Defined.
