(* ===== verification/Control.v ===== *)
(** * Control: setting up, starting and stopping the workers

    Models the control plane: the constructor of [Psp], [CreateWorker],
    [get_workers] and [stop_all] ([src/src/c++/libos/common/persephone.cc],
    [src/include/psp/libos/persephone.hh]), the constructors, [launch], [join]
    and the two loops of [main_loop] of [src/src/c++/libos/common/Worker.cc], and the start of the
    workers in [src/src/c++/apps/app/psp_app.cc].  A configuration is what the
    YAML file says; a worker object is referred to by its place in the array
    [workers].  The addresses that [aligned_alloc] gives, the results of the
    thread functions of DPDK and of the set-up of the NIC are arguments. *)
From S2P Require Import Prelude Fail Interfaces Mempool TaskQueue Context Lrpc Peers Requests Dispatcher Worker NetWorker Program.

Module Control.

Inductive WorkerType : Type := WT_UNKNOWN | HTTP | STORE | NET | DISPATCH | CLIENT | SILO | MBK | RDB.

#[export] Instance WorkerType_eq_dec : EqDecision WorkerType.
Proof. solve_decision. Defined.

Definition wt_num (t : WorkerType) : Z :=
  match t with
  | WT_UNKNOWN => 0 | HTTP => 1 | STORE => 2 | NET => 3 | DISPATCH => 4
  | CLIENT => 5 | SILO => 6 | MBK => 7 | RDB => 8
  end.

Definition wt_str : list string :=
  ["UNKNOWN"; "HTTP"; "STORE"; "NET"; "DISPATCH"; "CLIENT"; "SILO"; "MBK"; "ROCKSDB"]%string.

(** The dispatcher inside a net worker. *)
Record dispatcher : Type := mk_dpt {
  dpt_peer : peer;
  dpt_dp : dispatch_mode;
  dpt_n_workers : Z;
  dpt_free_peers : Z;
  dpt_types : dtypes
}.

(** A worker object; [w_udp] is the id, the address and the port of its
    [UdpContext], [w_dpt] the dispatcher of a net worker. *)
Record wobj : Type := mk_wobj {
  w_peer : peer;
  w_type : WorkerType;
  w_udp : option (Z * Z * Z);
  w_cpu : Z;
  eal_thread : bool;
  joinable : bool;
  started : bool;
  exited : bool;
  terminate : bool;
  w_dpt : option dispatcher
}.

(** The globals: the CPUs of [Psp], the array of workers and the memory of the
    channels. *)
Record ctl : Type := mk_ctl {
  cpus : list Z;
  workers : list (option wobj);
  total_workers : Z;
  chans_mem : lheap
}.

Record net_cfg : Type := mk_netcfg { nc_ip : Z; nc_port : Z; nc_dp : string }.

Record config : Type := mk_config {
  cfg_cpus : option (list Z);
  cfg_net : option (list net_cfg);
  cfg_workers : option (Z * string);
  cfg_requests : option (list req_entry)
}.

(** [Worker(type, worker_id)] and [Worker(type)]. *)
Definition new_Worker_id (type : WorkerType) (worker_id : Z) : wobj :=
  mk_wobj (new_peer worker_id) type None 0 false false false false false None.

Definition new_Worker (type : WorkerType) (s : ctl) : wobj * ctl :=
  (new_Worker_id type (i32 (total_workers s)),
   mk_ctl (cpus s) (workers s) (u32 (total_workers s + 1)) (chans_mem s)).

(** [*workers[i]] and its update. *)
Definition deref (s : ctl) (i : Z) : outcome wobj :=
  x ← arr_get (workers s) i;
  match x with Some w => Ok w | None => UB end.

Definition set_worker (s : ctl) (i : Z) (w : wobj) : outcome ctl :=
  ws ← arr_set (workers s) i (Some w); Ok (mk_ctl (cpus s) ws (total_workers s) (chans_mem s)).

Definition with_peer (p : peer) (w : wobj) : wobj :=
  mk_wobj p (w_type w) (w_udp w) (w_cpu w) (eal_thread w) (joinable w) (started w) (exited w) (terminate w) (w_dpt w).
Definition with_dpt (d : dispatcher) (w : wobj) : wobj :=
  mk_wobj (w_peer w) (w_type w) (w_udp w) (w_cpu w) (eal_thread w) (joinable w) (started w) (exited w)
    (terminate w) (Some d).
Definition with_cpu (c : Z) (w : wobj) : wobj :=
  mk_wobj (w_peer w) (w_type w) (w_udp w) c true (joinable w) (started w) (exited w) (terminate w) (w_dpt w).
Definition with_udp (u : Z * Z * Z) (w : wobj) : wobj :=
  mk_wobj (w_peer w) (w_type w) (Some u) (w_cpu w) (eal_thread w) (joinable w) (started w) (exited w)
    (terminate w) (w_dpt w).
Definition with_run (jn st ex : bool) (w : wobj) : wobj :=
  mk_wobj (w_peer w) (w_type w) (w_udp w) (w_cpu w) (eal_thread w) jn st ex (terminate w) (w_dpt w).

(** [stop]. *)
Definition stop (w : wobj) : wobj :=
  mk_wobj (w_peer w) (w_type w) (w_udp w) (w_cpu w) (eal_thread w) (joinable w) (started w) (exited w) true (w_dpt w).

Section setup.
(** What the fields that no constructor sets hold. *)
Variable junk_types : dtypes.
Variable junk_dp : dispatch_mode.
Variable junk : list Z.
(** The addresses of the two channels of the worker at a place: for each, its
    table and its word. *)
Variable allocs : Z -> (Z * Z) * (Z * Z).

(** [NetWorker(is_echo)]: the dispatcher gets the id of the net worker. *)
Definition new_NetWorker (s : ctl) : wobj * ctl :=
  let '(w, s) := new_Worker NET s in
  (with_dpt (mk_dpt (w_peer (new_Worker_id DISPATCH (p_worker_id (w_peer w)))) junk_dp 0 0 junk_types) w, s).

(** One net worker. *)
Definition add_net (i : Z) (c : net_cfg) (s : ctl) : outcome ctl :=
  let '(w, s) := new_NetWorker s in
  cpu ← arr_get (cpus s) i;
  let w := with_udp (i, nc_ip c, nc_port c) (with_cpu cpu w) in
  match w_dpt w with
  | None => UB
  | Some d =>
    let d := mk_dpt (dpt_peer d) (str_to_dp (nc_dp c)) (dpt_n_workers d) (dpt_free_peers d) (dpt_types d) in
    set_worker s i (with_dpt d w)
  end.

Fixpoint net_loop (i : Z) (cs : list net_cfg) (s : ctl) : outcome ctl :=
  match cs with
  | [] => Ok s
  | c :: cs => s ← add_net i c s; net_loop (i + 1) cs s
  end.

(** [get_workers]: the places of the workers of a type, entered into an array
    of [MAX_WORKERS]. *)
Fixpoint get_loop (n_left : nat) (i j : Z) (type : WorkerType) (s : ctl) (out : list Z)
  : outcome (Z * list Z) :=
  match n_left with
  | O => Ok (j, out)
  | S n_left =>
    w ← deref s i;
    if decide (w_type w = type) then
      out ← arr_set out j i;
      get_loop n_left (i + 1) (j + 1) type s out
    else get_loop n_left (i + 1) j type s out
  end.

Definition get_workers (type : WorkerType) (s : ctl) (out : list Z) : outcome (Z * list Z) :=
  get_loop (Z.to_nat (total_workers s)) 0 0 type s out.

(** [CreateWorker]: [netw] is the place of the net worker whose dispatcher is
    [dpt]. *)
Definition CreateWorker (type : WorkerType) (idx netw : Z) (udp : Z * Z * Z) (s : ctl) : outcome ctl :=
  let '(w, s) := new_Worker type s in
  let w := with_udp udp w in
  nw ← deref s netw;
  match w_dpt nw with
  | None => UB
  | Some d =>
    '(_, a, b, h) ← register_dpt (w_peer w) (dpt_peer d) (allocs idx).1 (allocs idx).2 (chans_mem s);
    let d := mk_dpt b (dpt_dp d) (dpt_n_workers d) (dpt_free_peers d) (dpt_types d) in
    s ← set_worker (mk_ctl (cpus s) (workers s) (total_workers s) h) netw (with_dpt d nw);
    cpu ← arr_get (cpus s) idx;
    set_worker s idx (with_cpu cpu (with_peer a w))
  end.

(** [f] applied to the dispatcher of the net worker at [netw]. *)
Definition upd_dpt (netw : Z) (f : dispatcher -> outcome dispatcher) (s : ctl) : outcome ctl :=
  nw ← deref s netw;
  match w_dpt nw with
  | None => UB
  | Some d => d ← f d; set_worker s netw (with_dpt d nw)
  end.

Definition count_worker (d : dispatcher) : outcome dispatcher :=
  Ok (mk_dpt (dpt_peer d) (dpt_dp d) (u32 (dpt_n_workers d + 1)) (dpt_free_peers d) (dpt_types d)).

(** The loop over the application workers, [n_left] of them still to come. *)
Fixpoint app_workers (n_left : nat) (i netw : Z) (type : string) (s : ctl) : outcome ctl :=
  match n_left with
  | O => Ok s
  | S n_left =>
    nw ← deref s netw;
    match w_udp nw with
    | None => UB
    | Some (_, ip, port) =>
      s ← (if decide (type = "MB"%string \/ type = "TPCC"%string) then
             CreateWorker MBK i netw (i, ip, port) s
           else if decide (type = "ROCKSDB"%string) then CreateWorker RDB i netw (i, ip, port) s
           else Ok s);
      s ← upd_dpt netw count_worker s;
      app_workers n_left (i + 1) netw type s
    end
  end.

(** [__builtin_powi(2, n) - 1] in [double], converted to 32 bits. *)
Definition mark_free (d : dispatcher) : outcome dispatcher :=
  let v := 2 ^ dpt_n_workers d - 1 in
  if decide (v < 2 ^ 32) then
    Ok (mk_dpt (dpt_peer d) (dpt_dp d) (dpt_n_workers d) v (dpt_types d))
  else UB.

Definition add_types (es : option (list req_entry)) (d : dispatcher) : outcome dispatcher :=
  match es with
  | Some es =>
    t ← register_types junk (dpt_dp d) es (dpt_types d);
    Ok (mk_dpt (dpt_peer d) (dpt_dp d) (dpt_n_workers d) (dpt_free_peers d) t)
  | None => if decide (dpt_dp d = CFCFS) then Ok d else Panic ENODEV
  end.

(** The constructor of [Psp], from the parsed configuration to the registered
    types. *)
Definition Psp_workers (c : config) (s : ctl) : outcome ctl :=
  match cfg_cpus c, cfg_net c with
  | None, _ => Panic ENODEV
  | Some _, None => Panic ENODEV
  | Some cs, Some nets =>
    s ← net_loop 0 nets (mk_ctl cs (workers s) (total_workers s) (chans_mem s));
    '(j, ws) ← get_workers NET s (replicate MAX_WORKERS (-1));
    netw ← arr_get ws 0;
    s ← (match cfg_workers c with
         | None => Ok s
         | Some (n, type) =>
           s ← app_workers (Z.to_nat n) (Z.of_nat (length nets)) netw type s;
           upd_dpt netw mark_free s
         end);
    upd_dpt netw (add_types (cfg_requests c)) s
  end.

(** The numbers of queues, which are counted along the way. *)
Definition n_rqs (c : config) : Z := u16 (Z.of_nat (length (default [] (cfg_net c)))).
Definition n_tqs (c : config) : Z :=
  u16 (Z.of_nat (length (default [] (cfg_net c))) + match cfg_workers c with None => 0 | Some (n, _) => n end).

(** With the set-up of the port. *)
Definition Psp (init_dpdk_port : Z -> Z -> Z) (c : config) (s : ctl) : outcome ctl :=
  s ← Psp_workers c s;
  if init_dpdk_port (n_tqs c) (n_rqs c) =? 0 then Ok s else Panic 1.

End setup.

(** ** Starting and stopping *)

Fixpoint stop_loop (n_left : nat) (i : Z) (s : ctl) : outcome ctl :=
  match n_left with
  | O => Ok s
  | S n_left => w ← deref s i; s ← set_worker s i (stop w); stop_loop n_left (i + 1) s
  end.

Definition stop_all (s : ctl) : outcome ctl := stop_loop (Z.to_nat (total_workers s)) 0 s.

(** The start of [main_loop], which the waiting launcher sees: [setup_rc] is
    what [setup] returned. *)
Definition begin_main (setup_rc : Z) (w : wobj) : wobj :=
  if negb (setup_rc =? 0) then with_run (joinable w) (started w) true w
  else with_run (joinable w) true (exited w) w.

(** [launch]; [wait_rc] and [remote_rc] are the results of
    [rte_eal_wait_lcore] and [rte_eal_remote_launch], and [setup] is the virtual
    function of the worker's class. *)
Definition launch (wait_rc remote_rc : Z) (setup : wobj -> outcome Z) (w : wobj) : outcome (Z * wobj) :=
  if joinable w then Ok (-1, w)
  else
    w ← (if eal_thread w then _ ← PSP_OK wait_rc; _ ← PSP_OK remote_rc; Ok w
         else Ok (with_run true (started w) (exited w) w));
    setup_rc ← setup w;
    let w := begin_main setup_rc w in
    if exited w && negb (started w) then Ok (-1, w) else Ok (0, w).

Definition join (wait_rc : Z) (w : wobj) : Z * wobj :=
  if eal_thread w then (wait_rc, w)
  else if joinable w then (0, with_run false (started w) (exited w) w)
  else (-1, w).

(** The loop of [main] that starts the workers; [lcore] is what the environment
    layer answers for a CPU.  The result says whether all came up. *)
Fixpoint launch_loop (lcore : Z -> Z * Z) (setup : wobj -> outcome Z) (n_left : nat) (i : Z) (s : ctl) : outcome (bool * ctl) :=
  match n_left with
  | O => Ok (true, s)
  | S n_left =>
    w ← deref s i;
    '(rc, w) ← launch (lcore (w_cpu w)).1 (lcore (w_cpu w)).2 setup w;
    s ← set_worker s i w;
    if negb (rc =? 0) then s ← stop_all s; Ok (false, s)
    else launch_loop lcore setup n_left (i + 1) s
  end.

Definition launch_all (lcore : Z -> Z * Z) (setup : wobj -> outcome Z) (s : ctl) : outcome (bool * ctl) :=
  launch_loop lcore setup (Z.to_nat (total_workers s)) 0 s.

(** ** The loops of [main_loop] *)

Inductive phase : Type := AtTop | Waiting | Gone.

Section loops.
Context {Q C : Type} `{TaskQueueOps Q, ContextOps C}.
Variable mtod : Z -> Z.
Variable uctx_main : Z -> Z.

(** A step of an application worker's thread: the test of the loop, a look at
    the flag, or the handling of a request. *)
Definition main_step (term : bool) (id now : Z) (st : phase * world Q C) : outcome (phase * world Q C) :=
  let '(ph, w) := st in
  match ph with
  | AtTop => Ok (if term then Gone else Waiting, w)
  | Waiting =>
    rq ← arr_get (requests (dst w)) id;
    if dr_flag rq =? WAITING then Ok (Waiting, w)
    else w ← worker_iter mtod uctx_main id now w; Ok (AtTop, w)
  | Gone => Ok (Gone, w)
  end.

End loops.

(** ** What the set-up leads to *)

(** A worker as the constructors leave it. *)
Definition unstarted (w : wobj) : Prop :=
  eal_thread w = true /\ joinable w = false /\ started w = false /\ exited w = false.

(** The channels of the workers [1 .. n] have memory of their own. *)
Record fresh_allocs (allocs : Z -> (Z * Z) * (Z * Z)) (h : lheap) (n : Z) : Prop := {
  fa_null i : 1 <= i <= n -> (allocs i).1.1 <> NULL /\ (allocs i).1.2 <> NULL
    /\ (allocs i).2.1 <> NULL /\ (allocs i).2.2 <> NULL;
  fa_self i : 1 <= i <= n -> (allocs i).1.1 <> (allocs i).2.1 /\ (allocs i).1.2 <> (allocs i).2.2;
  fa_free i : 1 <= i <= n -> tbls h !! (allocs i).1.1 = None /\ tbls h !! (allocs i).2.1 = None
    /\ wbs h !! (allocs i).1.2 = None /\ wbs h !! (allocs i).2.2 = None;
  fa_other i j : 1 <= i <= n -> 1 <= j <= n -> i <> j ->
    (allocs i).1.1 <> (allocs j).1.1 /\ (allocs i).1.1 <> (allocs j).2.1
    /\ (allocs i).2.1 <> (allocs j).1.1 /\ (allocs i).2.1 <> (allocs j).2.1
    /\ (allocs i).1.2 <> (allocs j).1.2 /\ (allocs i).1.2 <> (allocs j).2.2
    /\ (allocs i).2.2 <> (allocs j).1.2 /\ (allocs i).2.2 <> (allocs j).2.2
}.

Section wiring.
Context (allocs : Z -> (Z * Z) * (Z * Z)) (cs : list Z) (net : net_cfg) (wt : WorkerType) (types : dtypes).

(** An application worker that is set up: its id is its place, it has the
    address of the net worker, a CPU, and an empty channel each way to the
    dispatcher. *)
Record worker_ready (s : ctl) (d : dispatcher) (i : Z) (w : wobj) : Prop := {
  wr_at : workers s !! Z.to_nat i = Some (Some w);
  wr_id : p_worker_id (w_peer w) = i;
  wr_type : w_type w = wt;
  wr_udp : w_udp w = Some (i, nc_ip net, nc_port net);
  wr_cpu : Some (w_cpu w) = cs !! Z.to_nat i;
  wr_new : unstarted w /\ w_dpt w = None;
  wr_conn : connected (chans_mem s) (w_peer w) (dpt_peer d) [] []
}.

(** After [k] application workers; [w0] is the net worker, [d] its dispatcher. *)
Record wired (h0 : lheap) (k : Z) (s : ctl) (w0 : wobj) (d : dispatcher) : Prop := {
  wi_cpus : cpus s = cs;
  wi_len : length (workers s) = MAX_WORKERS;
  wi_total : total_workers s = k + 1;
  wi_net : workers s !! 0%nat = Some (Some w0) /\ w_type w0 = NET /\ w_dpt w0 = Some d
    /\ w_udp w0 = Some (0, nc_ip net, nc_port net) /\ p_worker_id (w_peer w0) = 0
    /\ Some (w_cpu w0) = cs !! 0%nat /\ unstarted w0;
  wi_dpt : dpt_n_workers d = k /\ dpt_dp d = str_to_dp (nc_dp net) /\ n_peers (dpt_peer d) = k
    /\ peer_ok (dpt_peer d) /\ p_worker_id (dpt_peer d) = 0 /\ dpt_types d = types;
  wi_app i : 1 <= i <= k -> exists w, worker_ready s d i w;
  wi_none i : (Z.to_nat k < i < MAX_WORKERS)%nat -> workers s !! i = Some None;
  wi_tbls p : (forall i, 1 <= i <= k -> p <> (allocs i).1.1 /\ p <> (allocs i).2.1) ->
    tbls (chans_mem s) !! p = tbls h0 !! p;
  wi_wbs p : (forall i, 1 <= i <= k -> p <> (allocs i).1.2 /\ p <> (allocs i).2.2) ->
    wbs (chans_mem s) !! p = wbs h0 !! p
}.

Lemma deref_Ok s i w : 0 <= i -> workers s !! Z.to_nat i = Some (Some w) -> deref s i = Ok w.
Proof. intros Hi Hw. unfold deref. by rewrite (proj2 (arr_get_Ok _ i (Some w))). Qed.

Lemma set_worker_Ok s i w :
  length (workers s) = MAX_WORKERS -> 0 <= i < 32 ->
  set_worker s i w = Ok (mk_ctl (cpus s) (<[Z.to_nat i := Some w]> (workers s)) (total_workers s) (chans_mem s)).
Proof. intros Hl Hi. unfold set_worker. by rewrite arr_set_Ok by (rewrite Hl; unfold MAX_WORKERS; lia). Qed.

(** The dispatcher of the net worker is replaced in place. *)
Lemma upd_dpt_Ok s w0 d f d' :
  length (workers s) = MAX_WORKERS -> workers s !! 0%nat = Some (Some w0) -> w_dpt w0 = Some d -> f d = Ok d' ->
  upd_dpt 0 f s = Ok (mk_ctl (cpus s) (<[0%nat := Some (with_dpt d' w0)]> (workers s)) (total_workers s) (chans_mem s)).
Proof.
  intros Hl Hw Hd Hf. unfold upd_dpt. rewrite (deref_Ok s 0 w0) by done. cbn [mbind outcome_bind].
  rewrite Hd, Hf. cbn [mbind outcome_bind]. by rewrite set_worker_Ok.
Qed.

(** The new worker joins, and the others stay as they are. *)
Lemma wired_extend h0 k s w0 d w d' h' :
  0 <= k -> k + 1 < 32 -> wired h0 k s w0 d ->
  p_worker_id (w_peer w) = k + 1 -> w_type w = wt -> w_udp w = Some (k + 1, nc_ip net, nc_port net) ->
  Some (w_cpu w) = cs !! Z.to_nat (k + 1) -> unstarted w /\ w_dpt w = None ->
  connected h' (w_peer w) (dpt_peer d') [] [] ->
  dpt_n_workers d' = k + 1 -> dpt_dp d' = dpt_dp d -> dpt_types d' = dpt_types d -> n_peers (dpt_peer d') = k + 1 ->
  peer_ok (dpt_peer d') -> p_worker_id (dpt_peer d') = 0 ->
  (forall a up down, 1 <= p_worker_id a -> p_worker_id a <> k + 1 ->
     connected (chans_mem s) a (dpt_peer d) up down -> connected h' a (dpt_peer d') up down) ->
  (forall p, p <> (allocs (k + 1)).1.1 -> p <> (allocs (k + 1)).2.1 -> tbls h' !! p = tbls (chans_mem s) !! p) ->
  (forall p, p <> (allocs (k + 1)).1.2 -> p <> (allocs (k + 1)).2.2 -> wbs h' !! p = wbs (chans_mem s) !! p) ->
  wired h0 (k + 1)
    (mk_ctl cs (<[0%nat := Some (with_dpt d' w0)]> (<[Z.to_nat (k + 1) := Some w]> (workers s))) (k + 2) h')
    (with_dpt d' w0) d'.
Proof.
  intros H0 H32 [W1 W2 W3 W4 W5 W6 W7 W8 W9] E1 E2 E3 E4 Eu E5 E6 E7 E7' E8 E9 E10 Hold Ht Hb.
  split; cbn [cpus workers total_workers chans_mem].
  - done.
  - by rewrite !length_insert.
  - lia.
  - rewrite list_lookup_insert_eq by (rewrite length_insert, W2; unfold MAX_WORKERS; lia). cbn. naive_solver.
  - naive_solver congruence.
  - intros i Hi. destruct (decide (i = k + 1)) as [->|Hne].
    + exists w. split; cbn [workers chans_mem]; try done. rewrite list_lookup_insert_ne by lia.
      apply list_lookup_insert_eq. rewrite W2. unfold MAX_WORKERS. lia.
    + destruct (W6 i) as (w' & [R1 R2 R3 R4 R5 Ru R6]); [lia|]. exists w'. split; cbn [workers chans_mem]; try done.
      * by rewrite !list_lookup_insert_ne by lia.
      * apply Hold; [lia|lia|done].
  - intros i Hi. rewrite !list_lookup_insert_ne by lia. apply W7. lia.
  - intros p Hp. rewrite Ht by (apply Hp; lia). apply W8. intros i Hi. apply Hp. lia.
  - intros p Hp. rewrite Hb by (apply Hp; lia). apply W9. intros i Hi. apply Hp. lia.
Qed.

Lemma create_worker_ok h0 n k s w0 d :
  wired h0 k s w0 d -> fresh_allocs allocs h0 n -> 0 <= k < n -> n < 32 -> k + 1 < Z.of_nat (length cs) ->
  exists s1 s2 w0' d', CreateWorker allocs wt (k + 1) 0 (k + 1, nc_ip net, nc_port net) s = Ok s1
    /\ upd_dpt 0 count_worker s1 = Ok s2 /\ wired h0 (k + 1) s2 w0' d'.
Proof.
  intros Hw Ha Hk Hn Hc. pose proof Hw as [W1 W2 W3 (N1 & N2 & N3 & N4 & N5 & N6 & N7) (D1 & D2 & D3 & D4 & D5 & D6) _ _ W8 W9].
  assert (Hi : i32 (total_workers s) = k + 1) by (rewrite W3; clear -Hk Hn; word_lia).
  assert (Hfree : forall i, 1 <= i <= k ->
    (allocs (k + 1)).1.1 <> (allocs i).1.1 /\ (allocs (k + 1)).1.1 <> (allocs i).2.1
    /\ (allocs (k + 1)).2.1 <> (allocs i).1.1 /\ (allocs (k + 1)).2.1 <> (allocs i).2.1
    /\ (allocs (k + 1)).1.2 <> (allocs i).1.2 /\ (allocs (k + 1)).1.2 <> (allocs i).2.2
    /\ (allocs (k + 1)).2.2 <> (allocs i).1.2 /\ (allocs (k + 1)).2.2 <> (allocs i).2.2)
    by (intros i Hi'; apply (fa_other _ _ _ Ha); lia).
  destruct (fa_null _ _ _ Ha (k + 1)) as (A1 & A2 & A3 & A4); [lia|].
  destruct (fa_self _ _ _ Ha (k + 1)) as (A5 & A6); [lia|].
  destruct (fa_free _ _ _ Ha (k + 1)) as (A7 & A8 & A9 & A10); [lia|].
  destruct (register_dpt_ok (new_peer (k + 1)) (dpt_peer d) (allocs (k + 1)).1 (allocs (k + 1)).2 (chans_mem s))
    as (a' & b' & h' & E & Hconn & _ & _ & Hb' & _ & Hnb & Hold & Hia & Hib & Ht & Hwb); try done;
    [cbn; lia|rewrite D3; lia
    |rewrite W8; [done|naive_solver]|rewrite W8; [done|naive_solver]
    |rewrite W9; [done|naive_solver]|rewrite W9; [done|naive_solver]|].
  destruct (lookup_lt_is_Some_2 cs (Z.to_nat (k + 1))) as [cpu Hcpu]; [lia|].
  set (d1 := mk_dpt b' (dpt_dp d) (dpt_n_workers d) (dpt_free_peers d) (dpt_types d)).
  set (d2 := mk_dpt b' (dpt_dp d) (k + 1) (dpt_free_peers d) (dpt_types d)).
  set (w := with_cpu cpu (with_peer a' (with_udp (k + 1, nc_ip net, nc_port net) (new_Worker_id wt (k + 1))))).
  set (s1 := mk_ctl cs (<[Z.to_nat (k + 1) := Some w]> (<[0%nat := Some (with_dpt d1 w0)]> (workers s))) (k + 2) h').
  exists s1. eexists _, (with_dpt d2 w0), d2. split_and!.
  - unfold CreateWorker, new_Worker. rewrite Hi, W1, W3. cbn [w_peer with_udp new_Worker_id].
    rewrite u32_id by lia. replace (k + 1 + 1) with (k + 2) by lia.
    rewrite (deref_Ok _ 0 w0) by done. cbn [mbind outcome_bind chans_mem]. rewrite N3, E. cbn [mbind outcome_bind].
    fold d1. rewrite set_worker_Ok by done. cbn [mbind outcome_bind cpus workers total_workers chans_mem].
    rewrite (proj2 (arr_get_Ok cs (k + 1) cpu)) by (split; [lia|done]). cbn [mbind outcome_bind].
    rewrite set_worker_Ok by (cbn [workers]; rewrite ?length_insert; done || lia). done.
  - rewrite (upd_dpt_Ok s1 (with_dpt d1 w0) d1 count_worker d2); [reflexivity|..].
    + unfold s1. cbn [workers]. by rewrite !length_insert.
    + unfold s1. cbn [workers]. rewrite list_lookup_insert_ne by lia.
      apply list_lookup_insert_eq. rewrite W2. unfold MAX_WORKERS. lia.
    + done.
    + unfold count_worker, d1, d2. cbn [dpt_n_workers]. rewrite D1, u32_id by lia. done.
  - unfold s1. cbn [cpus workers total_workers chans_mem].
    rewrite (list_insert_insert_ne _ 0 (Z.to_nat (k + 1))) by lia. rewrite list_insert_insert_eq, (list_insert_insert_ne _ (Z.to_nat (k + 1)) 0) by lia.
    change (with_dpt d2 (with_dpt d1 w0)) with (with_dpt d2 w0).
    apply (wired_extend h0 k s w0 d); try done; cbn; try lia; congruence.
Qed.

(** The types of application the configuration may name. *)
Definition worker_type_of (type : string) : option WorkerType :=
  if decide (type = "MB"%string \/ type = "TPCC"%string) then Some MBK
  else if decide (type = "ROCKSDB"%string) then Some RDB else None.

(** One pass of the loop and the rest. *)
Lemma app_workers_S n i netw type s :
  app_workers allocs (S n) i netw type s = (s ← app_workers allocs 1 i netw type s; app_workers allocs n (i + 1) netw type s).
Proof.
  cbn [app_workers]. destruct (deref s netw); cbn [mbind outcome_bind]; [|done..]. destruct (w_udp _) as [[[??]?]|]; [|done].
  destruct (if decide (type = "MB"%string \/ type = "TPCC"%string) then _ else _); cbn [mbind outcome_bind]; [|done..].
  by destruct (upd_dpt _ _ _).
Qed.

Lemma app_workers_ok h0 n m k s w0 d type :
  worker_type_of type = Some wt -> fresh_allocs allocs h0 n -> n < 32 -> n < Z.of_nat (length cs) ->
  0 <= k -> k + Z.of_nat m = n -> wired h0 k s w0 d ->
  exists s' w0' d', app_workers allocs m (k + 1) 0 type s = Ok s' /\ wired h0 n s' w0' d'.
Proof.
  intros Hty Ha Hn Hc. revert k s w0 d. induction m as [|m IH]; intros k s w0 d Hk Hm Hw.
  - exists s, w0, d. by replace n with k by lia.
  - cbn [app_workers]. destruct (create_worker_ok h0 n k s w0 d) as (s1 & s2 & w1 & d1 & E1 & E2 & Hw1); [done|done|lia..|].
    pose proof (wi_net _ _ _ _ _ Hw) as (N1 & _ & _ & N4 & _).
    rewrite (deref_Ok _ 0 w0) by done. cbn [mbind outcome_bind]. rewrite N4.
    assert (Es : (if decide (type = "MB"%string \/ type = "TPCC"%string)
        then CreateWorker allocs MBK (k + 1) 0 (k + 1, nc_ip net, nc_port net) s
        else if decide (type = "ROCKSDB"%string)
        then CreateWorker allocs RDB (k + 1) 0 (k + 1, nc_ip net, nc_port net) s else Ok s) = Ok s1).
    { rewrite <- E1. unfold worker_type_of in Hty. repeat case_decide; congruence. }
    rewrite Es. cbn [mbind outcome_bind]. rewrite E2. cbn [mbind outcome_bind].
    apply (IH (k + 1) s2 w1 d1); [lia|lia|done].
Qed.

(** The net worker alone. *)
Lemma net_ok junk_dp h cpu0 :
  cs !! 0%nat = Some cpu0 ->
  exists s w0 d, net_loop types junk_dp 0 [net] (mk_ctl cs (replicate MAX_WORKERS None) 0 h) = Ok s
    /\ wired h 0 s w0 d.
Proof.
  intros Hc. cbn [net_loop]. unfold add_net, new_NetWorker, new_Worker.
  cbn [total_workers cpus workers chans_mem w_peer with_dpt new_Worker_id].
  change (i32 0) with 0. change (u32 (0 + 1)) with 1.
  rewrite (proj2 (arr_get_Ok cs 0 cpu0)) by done. cbn [mbind outcome_bind w_dpt with_udp with_cpu with_dpt].
  rewrite set_worker_Ok by done. set (d := mk_dpt (new_peer 0) (str_to_dp (nc_dp net)) 0 0 types).
  eexists _, (with_dpt d (with_udp (0, nc_ip net, nc_port net) (with_cpu cpu0 (new_Worker_id NET 0)))), d.
  split; [reflexivity|]. split; try done.
  - lia.
  - intros [|i] Hi; [lia|]. cbn [workers]. rewrite list_lookup_insert_ne by lia.
    apply lookup_replicate. split; [done|]. unfold MAX_WORKERS in *. lia.
Qed.

(** Finding the net worker again. *)
Lemma get_loop_skip m i j ty s out :
  0 <= i -> (forall k, 0 <= k < Z.of_nat m -> exists w, workers s !! Z.to_nat (i + k) = Some (Some w) /\ w_type w <> ty) ->
  get_loop m i j ty s out = Ok (j, out).
Proof.
  revert i. induction m as [|m IH]; intros i Hi Hw; [done|]. cbn [get_loop].
  destruct (Hw 0) as (w & Hwi & Hne); [lia|]. rewrite Z.add_0_r in Hwi.
  rewrite (deref_Ok _ _ _ Hi Hwi). cbn [mbind outcome_bind]. rewrite decide_False by done.
  apply IH; [lia|]. intros k Hk. destruct (Hw (k + 1)) as (w' & Hw' & Hne'); [lia|]. exists w'.
  by replace (i + 1 + k) with (i + (k + 1)) by lia.
Qed.

Lemma get_net h0 k s w0 d out x :
  0 <= k -> wt <> NET -> wired h0 k s w0 d -> get_workers NET s (x :: out) = Ok (1, 0 :: out).
Proof.
  intros Hk Hwt Hw. unfold get_workers. rewrite (wi_total _ _ _ _ _ Hw).
  replace (Z.to_nat (k + 1)) with (S (Z.to_nat k)) by lia. cbn [get_loop].
  destruct (wi_net _ _ _ _ _ Hw) as (N1 & N2 & _). rewrite (deref_Ok _ 0 w0) by done.
  cbn [mbind outcome_bind]. rewrite decide_True by done.
  rewrite arr_set_Ok by (cbn [length]; lia). cbn [mbind outcome_bind].
  rewrite get_loop_skip; [done|lia|]. intros i Hi. destruct (wi_app _ _ _ _ _ Hw (i + 1)) as (w & Hr); [lia|].
  exists w. destruct Hr as [R1 R2 R3 _ _ _]. rewrite Z.add_0_l, Z.add_comm. split; [done|congruence].
Qed.

End wiring.

(** Only fields of the dispatcher that the connections do not depend on change. *)
Lemma wired_upd allocs cs net wt types types' h0 k s w0 d d' f :
  wired allocs cs net wt types h0 k s w0 d -> f d = Ok d' ->
  dpt_peer d' = dpt_peer d -> dpt_n_workers d' = dpt_n_workers d -> dpt_dp d' = dpt_dp d -> dpt_types d' = types' ->
  exists s' w0', upd_dpt 0 f s = Ok s' /\ wired allocs cs net wt types' h0 k s' w0' d'.
Proof.
  intros Hw Hf E1 E2 E3 E4.
  destruct Hw as [W1 W2 W3 (N1 & N2 & N3 & N4 & N5 & N6 & N7) (D1 & D2 & D3 & D4 & D5 & D6) W6 W7 W8 W9].
  rewrite (upd_dpt_Ok s w0 d f d') by done. eexists _, (with_dpt d' w0). split; [reflexivity|].
  split; cbn [cpus workers total_workers chans_mem]; try done.
  - by rewrite length_insert.
  - rewrite list_lookup_insert_eq by (rewrite W2; unfold MAX_WORKERS; lia). by split_and!.
  - rewrite E1, E2, E3. by split_and!.
  - intros i Hi. destruct (W6 i Hi) as (w & [R1 R2 R3 R4 R5 R6]). exists w.
    split; cbn [workers chans_mem]; try done; [by rewrite list_lookup_insert_ne by lia|by rewrite E1].
  - intros i Hi. rewrite list_lookup_insert_ne by lia. by apply W7.
Qed.

(** ** Starting and stopping *)

(** The worker at place [i]. *)
Definition at_place (s : ctl) (i : Z) (w : wobj) : Prop := workers s !! Z.to_nat i = Some (Some w).

(** All places up to [total_workers] have a worker. *)
Record populated (s : ctl) : Prop := {
  po_len : length (workers s) = MAX_WORKERS;
  po_total : 0 <= total_workers s <= 32;
  po_at i : 0 <= i < total_workers s -> exists w, at_place s i w
}.

Lemma populated_set s i w :
  populated s -> 0 <= i < total_workers s ->
  exists s', set_worker s i w = Ok s' /\ populated s' /\ total_workers s' = total_workers s /\ at_place s' i w
    /\ forall j v, 0 <= j -> j <> i -> at_place s' j v <-> at_place s j v.
Proof.
  intros [H1 H2 H3] Hi. rewrite set_worker_Ok by (done || lia). eexists. split; [reflexivity|].
  assert (Hat : forall j v, 0 <= j -> j <> i ->
    at_place (mk_ctl (cpus s) (<[Z.to_nat i := Some w]> (workers s)) (total_workers s) (chans_mem s)) j v
    <-> at_place s j v).
  { intros j v Hj Hne. unfold at_place. cbn [workers]. by rewrite list_lookup_insert_ne by lia. }
  assert (Hself : (<[Z.to_nat i := Some w]> (workers s)) !! Z.to_nat i = Some (Some w)).
  { apply list_lookup_insert_eq. rewrite H1. unfold MAX_WORKERS. lia. }
  split; [|done]. split; cbn [workers total_workers]; [by rewrite length_insert|done|].
  intros j Hj. destruct (decide (j = i)) as [->|Hne]; [by exists w|].
  destruct (H3 j Hj) as (v & Hv). exists v. by apply Hat; [lia|done|].
Qed.

Lemma stop_loop_ok m i s :
  populated s -> 0 <= i -> i + Z.of_nat m = total_workers s ->
  exists s', stop_loop m i s = Ok s' /\ populated s' /\ total_workers s' = total_workers s
    /\ (forall j w, i <= j < total_workers s -> at_place s j w -> at_place s' j (stop w))
    /\ (forall j w, 0 <= j < i -> at_place s j w -> at_place s' j w).
Proof.
  revert i s. induction m as [|m IH]; intros i s Hp Hi Hm.
  { exists s. split_and!; try done. intros j w Hj. lia. }
  cbn [stop_loop]. destruct (po_at _ Hp i) as (w & Hw); [lia|].
  rewrite (deref_Ok _ _ _ Hi Hw). cbn [mbind outcome_bind].
  destruct (populated_set s i (stop w) Hp) as (s1 & E1 & Hp1 & Ht1 & Hs1 & Ho1); [lia|].
  rewrite E1. cbn [mbind outcome_bind].
  destruct (IH (i + 1) s1) as (s2 & E2 & Hp2 & Ht2 & Hs2 & Ho2); [done|lia|lia|].
  exists s2. split_and!; [done|done|lia| |].
  - intros j v Hj Hv. destruct (decide (j = i)) as [->|Hne].
    + assert (v = w) as -> by (unfold at_place in *; congruence). apply Ho2; [lia|done].
    + apply Hs2; [lia|]. apply Ho1; [lia|done|done].
  - intros j v Hj Hv. apply Ho2; [lia|]. apply Ho1; [lia|lia|done].
Qed.

Lemma launch_ok setup rc w :
  unstarted w -> setup w = Ok rc -> launch 0 0 setup w = Ok (if rc =? 0 then 0 else -1, begin_main rc w).
Proof.
  intros (H1 & H2 & H3 & H4) Hrc. unfold launch, begin_main. rewrite H1, H2. cbn [PSP_OK Z.eqb mbind outcome_bind].
  rewrite Hrc. cbn [mbind outcome_bind].
  destruct (rc =? 0); cbn [negb]; cbn; by rewrite ?H2, ?H3, ?H4.
Qed.

(** The loop that launches, up to the first worker whose [setup] fails. *)
Lemma launch_loop_ok lcore setup setup_rc m i s :
  (forall cpu, lcore cpu = (0, 0)) ->
  populated s -> 0 <= i -> i + Z.of_nat m = total_workers s ->
  (forall j w, i <= j < total_workers s -> at_place s j w -> unstarted w /\ setup w = Ok (setup_rc j)) ->
  (forall j w, 0 <= j < i -> at_place s j w -> started w = true /\ exited w = false) ->
  exists b s', launch_loop lcore setup m i s = Ok (b, s')
    /\ (b = true -> forall j, i <= j < total_workers s -> setup_rc j = 0)
    /\ (b = true -> forall j, 0 <= j < total_workers s ->
          exists w, at_place s' j w /\ started w = true /\ exited w = false)
    /\ (b = false -> exists f, i <= f < total_workers s /\ setup_rc f <> 0
          /\ forall j, 0 <= j < total_workers s -> exists w, at_place s' j w /\ terminate w = true
               /\ started w = bool_decide (j < f) /\ exited w = bool_decide (j = f)).
Proof.
  intros Hlc. revert i s. induction m as [|m IH]; intros i s Hp Hi Hm Hun Hst; cbn [launch_loop].
  { exists true, s. split_and!; try done; [intros _ j Hj; lia|].
    intros _ j Hj. destruct (po_at _ Hp j Hj) as (w & Hw). exists w. split; [done|]. apply (Hst j); [lia|done]. }
  destruct (po_at _ Hp i) as (w & Hw); [lia|]. rewrite (deref_Ok _ _ _ Hi Hw). cbn [mbind outcome_bind].
  destruct (Hun i w) as [Hu Hset]; [lia|done|].
  rewrite Hlc. cbn [fst snd]. rewrite (launch_ok setup (setup_rc i) w Hu Hset). cbn [mbind outcome_bind].
  destruct (populated_set s i (begin_main (setup_rc i) w) Hp) as (s1 & E1 & Hp1 & Ht1 & Hs1 & Ho1); [lia|].
  rewrite E1. cbn [mbind outcome_bind]. destruct Hu as (U1 & U2 & U3 & U4).
  unfold begin_main in Hs1. destruct (Z.eqb_spec (setup_rc i) 0) as [Hrc|Hrc]; cbn [negb Z.eqb] in *.
  - destruct (IH (i + 1) s1) as (b & s2 & E2 & B1 & B2 & B3); [done|lia|lia| | |].
    + intros j v Hj Hv. apply (Hun j); [lia|]. apply Ho1; [lia|lia|done].
    + intros j v Hj Hv. destruct (decide (j = i)) as [->|Hne].
      * unfold at_place in Hv, Hs1. rewrite Hs1 in Hv. injection Hv as <-. by rewrite U4.
      * apply (Hst j); [lia|]. apply Ho1; [lia|done|done].
    + exists b, s2. rewrite E2. split; [done|]. rewrite Ht1 in *. split; [|split; [done|]].
      2: { intros Hb. destruct (B3 Hb) as (f & Hf & R). exists f. split; [lia|exact R]. }
      intros Hb j Hj. destruct (decide (j = i)) as [->|Hne]; [done|]. apply B1; [done|lia].
  - destruct (stop_loop_ok (Z.to_nat (total_workers s1)) 0 s1) as (s2 & E2 & _ & _ & Hs2 & _); [done|lia|lia|].
    unfold stop_all. rewrite E2. cbn [mbind outcome_bind]. exists false, s2. split_and!; try done.
    intros _. exists i. split; [lia|]. split; [done|]. intros j Hj.
    destruct (po_at _ Hp1 j) as (v & Hv); [lia|]. exists (stop v). split; [apply Hs2; [lia|done]|]. split; [done|].
    cbn [started exited stop]. destruct (decide (j = i)) as [->|Hne].
    + unfold at_place in Hv, Hs1. rewrite Hs1 in Hv. injection Hv as <-. cbn. rewrite U3.
      rewrite bool_decide_eq_false_2, bool_decide_eq_true_2 by lia. done.
    + apply Ho1 in Hv; [|lia|done]. rewrite (bool_decide_eq_false_2 (j = i)) by done.
      destruct (decide (j < i)) as [Hlt|Hge].
      * rewrite bool_decide_eq_true_2 by done. apply (Hst j); [lia|done].
      * rewrite bool_decide_eq_false_2 by done. destruct (Hun j v) as [(_ & _ & ? & ?) _]; [lia|done|done].
Qed.

(** The queues for one net worker and [n] others. *)
Lemma one_rq cs net ws reqs : n_rqs (mk_config cs (Some [net]) ws reqs) = 1.
Proof. done. Qed.

Lemma one_more_tq cs net n type reqs : 0 <= n < 32 -> n_tqs (mk_config cs (Some [net]) (Some (n, type)) reqs) = n + 1.
Proof. intros Hn. unfold n_tqs. change (u16 (1 + n) = n + 1). rewrite u16_id; lia. Qed.

(** The constructor up to the port. *)
Lemma psp_wired junk_types junk_dp junk allocs cs net n type wt reqs types h cs0 :
  worker_type_of type = Some wt -> 0 <= n < 32 -> n < Z.of_nat (length cs) -> fresh_allocs allocs h n ->
  match reqs with
  | Some es => register_types junk (str_to_dp (nc_dp net)) es junk_types = Ok types
  | None => str_to_dp (nc_dp net) = CFCFS /\ types = junk_types
  end ->
  exists s w0 d,
    Psp_workers junk_types junk_dp junk allocs (mk_config (Some cs) (Some [net]) (Some (n, type)) reqs)
      (mk_ctl cs0 (replicate MAX_WORKERS None) 0 h) = Ok s
    /\ wired allocs cs net wt types h n s w0 d /\ dpt_free_peers d = 2 ^ n - 1.
Proof.
  intros Hty Hn Hc Ha Hreq.
  destruct (lookup_lt_is_Some_2 cs 0) as [cpu0 Hcpu]; [lia|].
  destruct (net_ok allocs cs net wt junk_types junk_dp h cpu0 Hcpu) as (s1 & w1 & d1 & E1 & Hw1).
  destruct (app_workers_ok allocs cs net wt junk_types h n (Z.to_nat n) 0 s1 w1 d1 type)
    as (s2 & w2 & d2 & E2 & Hw2); [done|done|lia..|done|].
  pose proof (wi_dpt _ _ _ _ _ _ _ _ _ _ Hw2) as (D1 & D2 & _ & _ & _ & D6).
  assert (Hpow : 2 ^ n - 1 < 2 ^ 32) by (assert (2 ^ n <= 2 ^ 31) by (apply Z.pow_le_mono_r; lia); lia).
  destruct (wired_upd _ _ _ _ _ junk_types _ _ _ _ _
    (mk_dpt (dpt_peer d2) (dpt_dp d2) (dpt_n_workers d2) (2 ^ n - 1) (dpt_types d2)) mark_free Hw2)
    as (s3 & w3 & E3 & Hw3); try done.
  { unfold mark_free. rewrite D1. by rewrite decide_True. }
  destruct (wired_upd _ _ _ _ _ types _ _ _ _ _
    (mk_dpt (dpt_peer d2) (dpt_dp d2) (dpt_n_workers d2) (2 ^ n - 1) types) (add_types junk reqs) Hw3)
    as (s4 & w4 & E4 & Hw4); try done.
  { unfold add_types. cbn [dpt_dp dpt_types dpt_peer dpt_n_workers dpt_free_peers]. rewrite D2, D6.
    destruct reqs as [es|]; [by rewrite Hreq|]. destruct Hreq as [-> ->]. done. }
  exists s4, w4. eexists. split; [|split; [exact Hw4|done]].
  unfold Psp_workers. cbn [cfg_cpus cfg_net cfg_workers cfg_requests workers total_workers chans_mem].
  rewrite E1. cbn [mbind outcome_bind length]. change (replicate MAX_WORKERS (-1)) with (-1 :: replicate 31 (-1)).
  rewrite (get_net allocs cs net wt junk_types h 0 s1 w1 d1); [|lia|by unfold worker_type_of in Hty; repeat case_decide; simplify_eq|done].
  cbn [mbind outcome_bind arr_get]. change (arr_get (0 :: replicate 31 (-1)) 0) with (Ok 0).
  cbn [mbind outcome_bind]. change (Z.of_nat 1) with (0 + 1). rewrite E2. cbn [mbind outcome_bind].
  rewrite E3. cbn [mbind outcome_bind]. exact E4.
Qed.

End Control.
Import Control.

(** Setting up: from a configuration with one net worker and up to 31
    application workers of a known kind, enough CPUs and memory for the
    channels, the constructor builds a system in which the worker at each place
    has that place as its id, a CPU of its own and an empty channel each way to
    the dispatcher, and the dispatcher counts the workers, has all of them
    marked free and knows the request types. *)
Theorem control_plane_ready junk_types junk_dp junk allocs init_dpdk_port cs net n type wt reqs types h cs0 :
  worker_type_of type = Some wt -> 0 <= n < 32 -> n < Z.of_nat (length cs) -> fresh_allocs allocs h n ->
  match reqs with
  | Some es => register_types junk (str_to_dp (nc_dp net)) es junk_types = Ok types
  | None => str_to_dp (nc_dp net) = CFCFS /\ types = junk_types
  end ->
  init_dpdk_port (n + 1) 1 = 0 ->
  exists s w0 d,
    Psp junk_types junk_dp junk allocs init_dpdk_port (mk_config (Some cs) (Some [net]) (Some (n, type)) reqs)
      (mk_ctl cs0 (replicate MAX_WORKERS None) 0 h) = Ok s
    /\ wired allocs cs net wt types h n s w0 d /\ dpt_free_peers d = 2 ^ n - 1.
Proof.
  intros Hty Hn Hc Ha Hreq Hinit.
  destruct (psp_wired junk_types junk_dp junk allocs cs net n type wt reqs types h cs0 Hty Hn Hc Ha Hreq)
    as (s & w0 & d & E & Hw & Hf).
  exists s, w0, d. split; [|done]. unfold Psp. rewrite E. cbn [mbind outcome_bind]. rewrite one_rq, one_more_tq by lia. by rewrite Hinit.
Qed.

(** Starting: the workers are launched in the order of their places.  When the
    [setup] of each succeeds, all are running at the end; otherwise the launch
    stops at the first that fails, those before it are running, those behind it
    are not started, and all are told to terminate. *)
Theorem launch_all_correct lcore setup setup_rc s :
  (forall cpu, lcore cpu = (0, 0)) -> populated s ->
  (forall j w, 0 <= j < total_workers s -> at_place s j w -> unstarted w /\ setup w = Ok (setup_rc j)) ->
  exists b s', launch_all lcore setup s = Ok (b, s')
    /\ (b = true <-> forall j, 0 <= j < total_workers s -> setup_rc j = 0)
    /\ (b = true -> forall j, 0 <= j < total_workers s ->
          exists w, at_place s' j w /\ started w = true /\ exited w = false)
    /\ (b = false -> exists f, 0 <= f < total_workers s /\ setup_rc f <> 0
          /\ forall j, 0 <= j < total_workers s -> exists w, at_place s' j w /\ terminate w = true
               /\ started w = bool_decide (j < f) /\ exited w = bool_decide (j = f)).
Proof.
  intros Hlc Hp Hun. pose proof (po_total _ Hp).
  destruct (launch_loop_ok lcore setup setup_rc (Z.to_nat (total_workers s)) 0 s) as (b & s' & E & B1 & B2 & B3);
    [done|done|lia|lia|done|lia|].
  exists b, s'. split; [done|]. split_and!; [|done|done]. split; [by intros ->; apply B1|].
  intros Hall. destruct b; [done|]. destruct (B3 eq_refl) as (f & Hf & Hne & _). by destruct (Hne (Hall f Hf)).
Qed.


(** *** Witnesses: a net worker and two application workers *)

Definition example_allocs (i : Z) : (Z * Z) * (Z * Z) :=
  ((1000 * i + 8, 1000 * i + 16), (1000 * i + 24, 1000 * i + 32)).

Lemma control_plane_ready_witness :
  exists s w0 d,
    Psp (mk_dtypes [] 0 []) DP_UNKNOWN [] example_allocs (fun _ _ => 0)
      (mk_config (Some [2; 4; 6]) (Some [mk_netcfg 10 6789 "CFCFS"]) (Some (2, "MB"%string)) None)
      (mk_ctl [] (replicate MAX_WORKERS None) 0 (mk_lheap ∅ ∅)) = Ok s
    /\ wired example_allocs [2; 4; 6] (mk_netcfg 10 6789 "CFCFS") MBK (mk_dtypes [] 0 []) (mk_lheap ∅ ∅) 2 s w0 d
    /\ dpt_free_peers d = 3.
Proof.
  apply (control_plane_ready (mk_dtypes [] 0 []) DP_UNKNOWN [] example_allocs (fun _ _ => 0) [2; 4; 6]
    (mk_netcfg 10 6789 "CFCFS") 2 "MB" MBK None (mk_dtypes [] 0 []) (mk_lheap ∅ ∅) []).
  - reflexivity.
  - lia.
  - cbn. lia.
  - split; unfold example_allocs, NULL; cbn [fst snd]; intros; rewrite ?lookup_empty; repeat split; lia || reflexivity.
  - split; reflexivity.
  - reflexivity.
Defined.

Definition example_wobj (i : Z) : wobj := with_cpu i (new_Worker_id MBK i).
Definition example_ctl : ctl :=
  mk_ctl [] (Some (example_wobj 0) :: Some (example_wobj 1) :: replicate 30 None) 2 (mk_lheap ∅ ∅).

Lemma example_ctl_at j w : 0 <= j < 2 -> at_place example_ctl j w -> w = example_wobj j.
Proof.
  intros Hj Hw. assert (j = 0 \/ j = 1) as [-> | ->] by lia.
  - change (Some (Some (example_wobj 0)) = Some (Some w)) in Hw. congruence.
  - change (Some (Some (example_wobj 1)) = Some (Some w)) in Hw. congruence.
Qed.

Lemma example_ctl_populated : populated example_ctl.
Proof.
  split; [reflexivity|cbn; lia|]. intros i Hi. cbn in Hi.
  assert (i = 0 \/ i = 1) as [-> | ->] by lia; eexists; reflexivity.
Qed.

Lemma launch_all_correct_witness :
  exists s', launch_all (fun _ => (0, 0)) (fun w => Ok (if w_cpu w =? 1 then EINVAL else 0)) example_ctl = Ok (false, s')
    /\ forall j, 0 <= j < 2 -> exists w, at_place s' j w /\ terminate w = true /\ started w = bool_decide (j < 1).
Proof.
  destruct (launch_all_correct (fun _ => (0, 0)) (fun w => Ok (if w_cpu w =? 1 then EINVAL else 0))
    (fun i => if i =? 1 then EINVAL else 0) example_ctl) as (b & s' & E & Hb & _ & Hf).
  - reflexivity.
  - exact example_ctl_populated.
  - intros j w Hj Hw. rewrite (example_ctl_at j w Hj Hw). by repeat split.
  - assert (b = false) as ->.
    { destruct b; [|reflexivity]. discriminate (proj1 Hb eq_refl 1 ltac:(cbn; lia)). }
    exists s'. split; [exact E|]. destruct (Hf eq_refl) as (f & Hf1 & Hf2 & Hf3).
    assert (f = 1) as ->.
    { destruct (Z.eqb_spec f 1); [assumption|]. by destruct Hf2. }
    intros j Hj. destruct (Hf3 j Hj) as (w & H1 & H2 & H3 & _). exists w. by split.
Defined.

