(* ===== verification/Nic.v ===== *)
(** * Nic: setting up the network card

    Models [src/src/c++/libos/io/udp_dpdk/dpdk.cc] and the set-up half of
    [src/src/c++/libos/io/udp_dpdk/context.cc] with the class of
    [src/include/psp/libos/io/udp_dpdk/context.hh]: the environment layer, the
    port with its queues, the flow rules, the buffer pool and the device
    statistics.  DPDK and the allocator of the C library are one parameter, a
    handler that answers calls; a computation records the calls it makes with
    their answers, also when it stops, and the theorems are about that record. *)
From S2P Require Import Prelude Fail Base Dispatcher Worker NetWorker Udp.

Import Udp.

Module Nic.

Definition EPERM : Z := 1.
Definition ERANGE : Z := 34.
Definition ECONNREFUSED : Z := 111.
Definition ENOTRECOVERABLE : Z := 131.

Definition RX_RING_SIZE : Z := 128.
Definition TX_RING_SIZE : Z := 128.
Definition DEFAULT_TX_RS_THRESH : Z := 32.
Definition MAX_PATTERN_NUM : nat := 4.
Definition MAX_ACTION_NUM : nat := 3.
Definition NUM_MBUFS : Z := 16383.
Definition MBUF_CACHE_SIZE : Z := 512.

(** Constants of DPDK. *)
Definition ETH_MQ_RX_NONE : Z := 0.
Definition ETH_LINK_UP : Z := 1.
Definition RTE_FC_NONE : Z := 0.
Definition RTE_PKTMBUF_HEADROOM : Z := 128.

(** ** The structures the code fills in

    The fields of DPDK's structures that the code does not touch are one
    number each. *)

Record rte_eth_link : Type := mk_link { link_status : Z; link_rest : Z }.
Record rte_eth_fc_conf : Type := mk_fc { fc_mode : Z; fc_rest : Z }.
Record rte_eth_conf : Type := mk_ethconf { mq_mode : Z; max_rx_pkt_len : Z }.
Record rte_eth_txconf : Type := mk_txconf { tx_rs_thresh : Z; tx_rest : Z }.
Record rte_eth_dev_info : Type := mk_devinfo { default_rxconf : Z; default_txconf : rte_eth_txconf }.

Record rte_eth_ntuple_filter : Type := mk_ntuple {
  nt_dst_ip : Z; nt_dst_ip_mask : Z; nt_src_ip : Z; nt_src_ip_mask : Z;
  nt_dst_port : Z; nt_dst_port_mask : Z; nt_src_port : Z; nt_src_port_mask : Z;
  nt_proto : Z; nt_proto_mask : Z
}.

Inductive rte_flow_item : Type :=
| ITEM_END
| ITEM_ETH
| ITEM_IPV4 (spec mask : rte_ipv4_hdr)
| ITEM_UDP (spec mask : rte_udp_hdr).

Inductive rte_flow_action : Type :=
| ACTION_END
| ACTION_COUNT (shared id : Z)
| ACTION_QUEUE (index : Z).

Record flow_rule : Type := mk_rule {
  ingress : bool; pattern : list rte_flow_item; actions : list rte_flow_action
}.

(** ** The calls that leave the repository, with the type of their answers *)

Inductive ext_call : Type -> Type :=
| c_eal_init (args : list string) : ext_call (Z * Z)
| c_dev_count_avail : ext_call Z
| c_is_valid_port (port_id : Z) : ext_call bool
| c_dev_info_get (port_id : Z) : ext_call rte_eth_dev_info
| c_dev_configure (port_id nb_rx nb_tx : Z) (conf : rte_eth_conf) : ext_call Z
| c_adjust_desc (port_id nb_rxd nb_txd : Z) : ext_call (Z * (Z * Z))
| c_socket_id (port_id : Z) : ext_call Z
| c_rx_queue_setup (port_id q nb_rxd socket rxconf pool : Z) : ext_call Z
| c_tx_queue_setup (port_id q nb_txd socket : Z) (conf : rte_eth_txconf) : ext_call Z
| c_dev_start (port_id : Z) : ext_call Z
| c_fc_get (port_id : Z) : ext_call (Z * rte_eth_fc_conf)
| c_fc_set (port_id : Z) (conf : rte_eth_fc_conf) : ext_call Z
| c_link_get (port_id : Z) : ext_call rte_eth_link
| c_delay_ms (ms : Z) : ext_call unit
| c_mac_addr_add (port_id mac pool : Z) : ext_call Z
| c_macaddr_get (port_id : Z) : ext_call (Z * Z)
| c_flow_validate (port_id : Z) (rule : flow_rule) : ext_call Z
| c_flow_create (port_id : Z) (rule : flow_rule) : ext_call Z
| c_flow_query (port_id flow : Z) : ext_call Z
| c_flow_destroy (port_id flow : Z) : ext_call Z
| c_pool_create (name : string) (n cache priv data_room socket : Z) : ext_call Z
| c_pool_cache_size (pool : Z) : ext_call Z
| c_default_cache (pool socket : Z) : ext_call Z
| c_pool_free (pool : Z) : ext_call unit
| c_stats_get (port_id : Z) : ext_call (Z * option (list Z))
| c_xstats_get (port_id : Z) (n : Z) : ext_call (Z * list Z)
| c_xstats_names (port_id : Z) (n : Z) : ext_call (Z * list string)
| c_calloc (n : Z) : ext_call Z
| c_free (p : Z) : ext_call unit
| c_printf (line : string * Z) : ext_call unit.

(** A call with its answer. *)
Inductive event : Type :=
| Ev (A : Type) (c : ext_call A) (a : A).

Arguments Ev {A} c a.

(** A computation on the driver state [D]: what came of it, the calls it made,
    oldest first, and the driver's state after them. *)
Definition nic (D A : Type) : Type := D -> outcome A * (list event * D).

#[export] Instance nic_ret {D} : MRet (nic D) := fun A a d => (Ok a, ([], d)).

#[export] Instance nic_bind {D} : MBind (nic D) :=
  fun A B f m d =>
    let '(r, (t, d)) := m d in
    match r with
    | Ok a => let '(r, (t', d)) := f a d in (r, (t ++ t', d))
    | Panic e => (Panic e, (t, d))
    | UB => (UB, (t, d))
    end.

(** A computation that makes no call. *)
Definition lift {D A} (r : outcome A) : nic D A := fun d => (r, ([], d)).

(** [0 == ret], [0 > ret] and the rest, as the wrappers tell them apart. *)
Definition neg_errno (ret : Z) : outcome Z :=
  if ret =? 0 then Ok 0
  else if ret <? 0 then int_result (0 - ret)
  else Panic SIGABRT.

Section operations.
Context {D : Type}.
Variable dpdk : forall A, ext_call A -> D -> A * D.

Definition call {A} (c : ext_call A) : nic D A :=
  fun d => let '(a, d) := dpdk A c d in (Ok a, ([Ev c a], d)).

(** [PSP_TRUE(ERANGE, ::rte_eth_dev_is_valid_port(port_id))]. *)
Definition check_port (port_id : Z) : nic D unit :=
  b ← call (c_is_valid_port port_id); lift (PSP_TRUE ERANGE b).

Definition psp_ok (m : nic D Z) : nic D unit := e ← m; lift (PSP_OK e).

Definition rte_eth_dev_flow_ctrl_get (port_id : Z) : nic D (Z * rte_eth_fc_conf) :=
  _ ← check_port port_id;
  '(ret, fc) ← call (c_fc_get port_id);
  e ← lift (neg_errno ret); mret (e, fc).

Definition rte_eth_dev_flow_ctrl_set (port_id : Z) (fc : rte_eth_fc_conf) : nic D Z :=
  _ ← check_port port_id;
  ret ← call (c_fc_set port_id fc); lift (neg_errno ret).

(** The answer is the error code and [sockid_out]. *)
Definition rte_eth_dev_socket_id (port_id : Z) : nic D (Z * Z) :=
  ret ← call (c_socket_id port_id);
  if ret =? -1 then mret (ERANGE, 0)
  else if 0 <=? ret then mret (0, ret)
  else lift (Panic SIGABRT).

Definition rte_eth_rx_queue_setup (port_id q nb_rxd socket rxconf pool : Z) : nic D Z :=
  _ ← check_port port_id;
  ret ← call (c_rx_queue_setup port_id q nb_rxd socket rxconf pool); lift (neg_errno ret).

Definition rte_eth_tx_queue_setup (port_id q nb_txd socket : Z) (conf : rte_eth_txconf) : nic D Z :=
  _ ← check_port port_id;
  ret ← call (c_tx_queue_setup port_id q nb_txd socket conf); lift (neg_errno ret).

Definition rte_eth_dev_info_get (port_id : Z) : nic D rte_eth_dev_info :=
  _ ← check_port port_id; call (c_dev_info_get port_id).

Definition rte_eth_dev_configure (port_id nb_rx nb_tx : Z) (conf : rte_eth_conf) : nic D Z :=
  _ ← check_port port_id;
  ret ← call (c_dev_configure port_id nb_rx nb_tx conf);
  if ret <=? 0 then mret ret else lift (Panic SIGABRT).

Definition rte_eth_link_get_nowait (port_id : Z) : nic D rte_eth_link :=
  _ ← check_port port_id; call (c_link_get port_id).

(** [print_link_status] with a link to print: the text is left out. *)
Definition print_link_status (port_id : Z) (link : rte_eth_link) : nic D Z :=
  _ ← check_port port_id; mret 0.

Definition zero_link : rte_eth_link := mk_link 0 0.

(** The polls of [wait_for_link_status_up], [n_left] still to come. *)
Fixpoint link_loop (n_left : nat) (port_id : Z) (link : rte_eth_link) : nic D Z :=
  match n_left with
  | O => _ ← psp_ok (print_link_status port_id link); mret ECONNREFUSED
  | S n_left =>
    link ← rte_eth_link_get_nowait port_id;
    if ETH_LINK_UP =? link_status link then
      _ ← psp_ok (print_link_status port_id link); mret 0
    else _ ← call (c_delay_ms 100); link_loop n_left port_id link
  end.

Definition retry_count : nat := 90.

Definition wait_for_link_status_up (port_id : Z) : nic D Z :=
  _ ← check_port port_id; link_loop retry_count port_id zero_link.

(** The two loops that set up the queues, from queue [i] on. *)
Fixpoint rx_queues (n_left : nat) (i port_id nb_rxd socket rxconf pool : Z) : nic D unit :=
  match n_left with
  | O => mret tt
  | S n_left =>
    _ ← psp_ok (rte_eth_rx_queue_setup port_id i nb_rxd socket rxconf pool);
    rx_queues n_left (i + 1) port_id nb_rxd socket rxconf pool
  end.

Fixpoint tx_queues (n_left : nat) (i port_id nb_txd socket : Z) (conf : rte_eth_txconf) : nic D unit :=
  match n_left with
  | O => mret tt
  | S n_left =>
    _ ← psp_ok (rte_eth_tx_queue_setup port_id i nb_txd socket conf);
    tx_queues n_left (i + 1) port_id nb_txd socket conf
  end.

(** From the start of the port on. *)
Definition start_port (port_id : Z) : nic D Z :=
  _ ← psp_ok (ret ← call (c_dev_start port_id); lift (int_result (- ret)));
  fc ← ('(e, fc) ← rte_eth_dev_flow_ctrl_get port_id; _ ← lift (PSP_OK e); mret fc);
  _ ← psp_ok (rte_eth_dev_flow_ctrl_set port_id (mk_fc RTE_FC_NONE (fc_rest fc)));
  _ ← psp_ok (wait_for_link_status_up port_id);
  _ ← rte_eth_dev_info_get port_id;
  mret 0.

Definition init_dpdk_port (port_id mbuf_pool n_tx_rings n_rx_rings : Z) : nic D Z :=
  _ ← check_port port_id;
  dev_info ← rte_eth_dev_info_get port_id;
  let port_conf := mk_ethconf ETH_MQ_RX_NONE 1024 in
  let rx_conf := default_rxconf dev_info in
  let tx_conf := mk_txconf DEFAULT_TX_RS_THRESH (tx_rest (default_txconf dev_info)) in
  _ ← psp_ok (ret ← rte_eth_dev_configure port_id n_rx_rings n_tx_rings port_conf; lift (int_result (- ret)));
  '(retval, (nb_rxd, nb_txd)) ← call (c_adjust_desc port_id RX_RING_SIZE TX_RING_SIZE);
  if negb (retval =? 0) then mret retval
  else
    '(ret, socket_id) ← rte_eth_dev_socket_id port_id;
    let socket_id := if negb (ret =? 0) then 0 else socket_id in
    _ ← rx_queues (Z.to_nat n_rx_rings) 0 port_id nb_rxd socket_id rx_conf mbuf_pool;
    _ ← tx_queues (Z.to_nat n_tx_rings) 0 port_id nb_txd socket_id tx_conf;
    start_port port_id.

(** [rte_eal_init]: [argv] is null or holds pointers, null or strings. *)
Fixpoint check_args (argc : nat) (i : Z) (argv : list (option string)) : outcome (list string) :=
  match argc with
  | O => Ok []
  | S argc =>
    a ← arr_get argv i;
    match a with
    | None => Panic EINVAL
    | Some s => ss ← check_args argc (i + 1) argv; Ok (s :: ss)
    end
  end.

(** The answer is the error code and [count_out]. *)
Definition rte_eal_init (argc : Z) (argv : option (list (option string))) : nic D (Z * Z) :=
  match argv with
  | None => lift (Panic EINVAL)
  | Some argv =>
    _ ← lift (PSP_TRUE ERANGE (0 <=? argc));
    args ← lift (check_args (Z.to_nat argc) 0 argv);
    '(ret, rte_errno) ← call (c_eal_init args);
    if ret =? -1 then mret (rte_errno, -1)
    else if ret <? -1 then lift (Panic SIGABRT)
    else mret (0, ret)
  end.

(** [eal_init] is what the configuration has under that name when it is a
    sequence; the [data()] of a vector without elements is null. *)
Definition dpdk_net_init (eal_init : option (list string)) : nic D Z :=
  let init_args := default [] eal_init in
  let init_cargs := map Some init_args in
  '(e, _) ← rte_eal_init (Z.of_nat (length init_cargs)) (match init_cargs with [] => None | _ => Some init_cargs end);
  _ ← lift (PSP_OK e);
  nb_ports ← call c_dev_count_avail;
  _ ← lift (PSP_TRUE ENOENT (0 <? nb_ports));
  mret 0.

(** The results of DPDK are not looked at here. *)
Definition rte_eth_dev_mac_addr_add (port_id mac_addr : Z) : nic D Z :=
  _ ← check_port port_id; _ ← call (c_mac_addr_add port_id mac_addr 0); mret 0.

Definition rte_eth_macaddr_get (port_id : Z) : nic D (Z * Z) :=
  _ ← check_port port_id; '(_, mac) ← call (c_macaddr_get port_id); mret (0, mac).

(** ** Flow rules *)

(** The pattern and the actions; both arrays start out as zeros, which is the
    end marker. *)
Definition ipv4_rule (rx_q : Z) (f : rte_eth_ntuple_filter) : outcome flow_rule :=
  let ipv4_spec := mk_ip 0 0 0 (nt_proto f) (nt_src_ip f) (nt_dst_ip f) in
  let ipv4_mask := mk_ip 0 0 0 (nt_proto_mask f) (nt_src_ip_mask f) (nt_dst_ip_mask f) in
  let udp_spec := mk_udp (nt_src_port f) (nt_dst_port f) 0 in
  let udp_mask := mk_udp (nt_src_port_mask f) (nt_dst_port_mask f) 0 in
  action ← arr_set (replicate MAX_ACTION_NUM ACTION_END) 0 (ACTION_COUNT 0 rx_q);
  action ← arr_set action 1 (ACTION_QUEUE rx_q);
  action ← arr_set action 2 ACTION_END;
  pattern ← arr_set (replicate MAX_PATTERN_NUM ITEM_END) 0 ITEM_ETH;
  pattern ← arr_set pattern 1 (ITEM_IPV4 ipv4_spec ipv4_mask);
  pattern ← arr_set pattern 2 (ITEM_UDP udp_spec udp_mask);
  pattern ← arr_set pattern 3 ITEM_END;
  Ok (mk_rule true pattern action).

Definition generate_ipv4_flow (port_id rx_q : Z) (f : rte_eth_ntuple_filter) : nic D Z :=
  rule ← lift (ipv4_rule rx_q f);
  res ← call (c_flow_validate port_id rule);
  if res =? 0 then call (c_flow_create port_id rule) else mret NULL.

(** A [UdpContext] with the members that concern the card. *)
Record net_ctx : Type := mk_netctx {
  nx_id : Z; nx_port_id : Z; nx_flows : list Z; nx_pool : Z; nx_udp : UdpContext
}.

(** The filter: any source, the context's address (kept in network order) and
    its port (kept in host order). *)
Definition fdir_filter (c : UdpContext) : rte_eth_ntuple_filter :=
  mk_ntuple (ip c) 0xffffffff (hton32 0) 0 (hton16 (port c)) 0xffff 0 0 IPPROTO_UDP 0xff.

Definition set_fdir (c : net_ctx) : nic D (Z * net_ctx) :=
  flow ← generate_ipv4_flow (nx_port_id c) (u16 (nx_id c)) (fdir_filter (nx_udp c));
  if flow =? NULL then mret (ENOTRECOVERABLE, c)
  else mret (0, mk_netctx (nx_id c) (nx_port_id c) (nx_flows c ++ [flow]) (nx_pool c) (nx_udp c)).

(** ** The buffer pool and the life of a context *)

Definition MBUF_DATA_SIZE : Z := 1024 + RTE_PKTMBUF_HEADROOM.

(** [init_mempool]: the null check is of the address the pool is stored to. *)
Definition init_mempool (mempool_out socket : Z) (name : string) : nic D (Z * Z) :=
  n ← call c_dev_count_avail;
  pool ← call (c_pool_create name (NUM_MBUFS * n) MBUF_CACHE_SIZE 0 MBUF_DATA_SIZE socket);
  _ ← lift (PSP_TRUE EPERM (negb (mempool_out =? NULL)));
  _ ← lift (if pool =? NULL then UB else Ok tt);
  cache_size ← call (c_pool_cache_size pool);
  _ ← lift (PSP_TRUE EINVAL (cache_size =? MBUF_CACHE_SIZE));
  _ ← call (c_default_cache pool socket);
  mret (0, pool).

(** The constructor: [mempool_at] is where the pool that is passed in is kept,
    [mempool] its value; [junk] is what the members it does not set hold. *)
Definition new_UdpContext (junk : UdpContext) (id ip port port_id mempool_at mempool my_mac : Z)
  : nic D (net_ctx * Z) :=
  mempool ← (if mempool =? NULL then
               '(ret, pool) ← init_mempool mempool_at 0 "mbuf_mempool";
               if negb (ret =? 0) then lift (Panic SIGABRT) else mret pool
             else mret mempool);
  mret (mk_netctx id port_id [] mempool
          (mk_udpctx ip port (remote_port junk) (remote_ip junk) my_mac 0
             (mk_rxq (inbound_queue (in_q junk)) 0 0) (outbound_queue junk) 0 0), mempool).

(** The destructor. *)
Fixpoint destroy_flows (port_id : Z) (flows : list Z) : nic D unit :=
  match flows with
  | [] => mret tt
  | flow :: flows =>
    _ ← call (c_flow_query port_id flow);
    rtn ← call (c_flow_destroy port_id flow);
    if negb (rtn =? 0) then lift (Panic SIGABRT) else destroy_flows port_id flows
  end.

Definition delete_UdpContext (c : net_ctx) : nic D unit := destroy_flows (nx_port_id c) (nx_flows c).

(** ** Device statistics *)

(** What an array of [n] elements holds after [calloc] and a call that filled
    in [xs]. *)
Definition filled {A} (n : Z) (zero : A) (xs : list A) : list A :=
  take (Z.to_nat n) (xs ++ replicate (Z.to_nat n) zero).

Fixpoint print_loop (n_left : nat) (i : Z) (xstats : list Z) (names : list string) : nic D unit :=
  match n_left with
  | O => mret tt
  | S n_left =>
    v ← lift (arr_get xstats i);
    _ ← (if v =? 0 then mret tt
         else name ← lift (arr_get names i); call (c_printf (name, v)));
    print_loop n_left (i + 1) xstats names
  end.

(** [print_dpdk_device_stats]: [stats] is printed whether or not the call
    filled it in. *)
Definition print_dpdk_device_stats (port_id : Z) : nic D Z :=
  '(_, stats) ← call (c_stats_get port_id);
  _ ← lift (match stats with None => UB | Some _ => Ok tt end);
  '(len, _) ← call (c_xstats_get port_id 0);
  if len <? 0 then mret 1
  else
    xstats ← call (c_calloc len);
    if xstats =? NULL then mret 1
    else
      '(ret, vs) ← call (c_xstats_get port_id len);
      if (ret <? 0) || (len <? ret) then _ ← call (c_free xstats); mret 1
      else
        xstats_names ← call (c_calloc len);
        if xstats_names =? NULL then _ ← call (c_free xstats); mret 1
        else
          '(ret, ns) ← call (c_xstats_names port_id len);
          if (ret <? 0) || (len <? ret) then
            _ ← call (c_free xstats); _ ← call (c_free xstats_names); mret 1
          else
            _ ← print_loop (Z.to_nat len) 0 (filled len 0 vs) (filled len EmptyString ns);
            mret 0.

End operations.

(** ** What a record of calls says *)

(** The error code of an answer of zero or a negative error code. *)
Definition status_error (ret : Z) : option Z :=
  if ret =? 0 then None else if ret <? 0 then Some (- ret) else Some SIGABRT.

(** The error an answer makes the program stop with. *)
Definition failure (ev : event) : option Z :=
  match ev with
  | Ev c a =>
    match c in ext_call A return A -> option Z with
    | c_is_valid_port _ => fun b => if b then None else Some ERANGE
    | c_dev_configure _ _ _ _ => status_error
    | c_rx_queue_setup _ _ _ _ _ _ => status_error
    | c_tx_queue_setup _ _ _ _ _ => status_error
    | c_fc_get _ => fun r => status_error r.1
    | c_fc_set _ _ => status_error
    | c_dev_start _ => fun r => if r =? 0 then None else Some (- r)
    | c_socket_id _ => fun r => if r <? -1 then Some SIGABRT else None
    | _ => fun _ => None
    end a
  end.

(** The integers among the answers that the program negates. *)
Definition negated {A} (c : ext_call A) : A -> option Z :=
  match c in ext_call A return A -> option Z with
  | c_dev_configure _ _ _ _ => Some
  | c_rx_queue_setup _ _ _ _ _ _ => Some
  | c_tx_queue_setup _ _ _ _ _ => Some
  | c_fc_get _ => fun r => Some r.1
  | c_fc_set _ _ => Some
  | c_dev_start _ => Some
  | _ => fun _ => None
  end.

(** The calls that change the card. *)
Definition is_action (ev : event) : bool :=
  match ev with
  | Ev c _ =>
    match c with
    | c_dev_configure _ _ _ _ | c_adjust_desc _ _ _ | c_rx_queue_setup _ _ _ _ _ _
    | c_tx_queue_setup _ _ _ _ _ | c_dev_start _ | c_fc_get _ | c_fc_set _ _
    | c_flow_create _ _ | c_flow_destroy _ _ => true
    | _ => false
    end
  end.

Definition acts (t : list event) : list event := List.filter is_action t.

(** What the polls of the link answered. *)
Definition polls (t : list event) : list Z :=
  omap (fun ev => match ev with
                  | Ev c a => match c in ext_call A return A -> option Z with
                              | c_link_get _ => fun l => Some (link_status l)
                              | _ => fun _ => None
                              end a
                  end) t.

Lemma acts_app t t' : acts (t ++ t') = acts t ++ acts t'.
Proof. apply List.filter_app. Qed.

Lemma polls_app t t' : polls (t ++ t') = polls t ++ polls t'.
Proof. apply omap_app. Qed.

Definition quiet (t : list event) : Prop := Forall (fun ev => failure ev = None) t.

Lemma quiet_one ev : failure ev = None -> quiet [ev].
Proof. intros H. constructor; [done|constructor]. Qed.

(** The program has stopped with [e]: at the first answer that is a failure,
    or because the link has not come up in all the polls. *)
Inductive stopped (e : Z) : list event -> Prop :=
| stop_call t ev : quiet t -> failure ev = Some e -> stopped e (t ++ [ev])
| stop_link t t' : quiet (t ++ t') -> length (polls t') = retry_count ->
    Forall (fun s => s <> ETH_LINK_UP) (polls t') -> e = ECONNREFUSED -> stopped e (t ++ t').

Lemma stop_first e ev : failure ev = Some e -> stopped e [ev].
Proof. apply (stop_call _ []). constructor. Qed.

Lemma stopped_after e t t' : quiet t -> stopped e t' -> stopped e (t ++ t').
Proof.
  intros Ht [t1 ev H1 H2|t1 t2 H1 H2 H3 ->]; rewrite app_assoc; constructor; try done.
  - by apply Forall_app.
  - rewrite <- app_assoc. by apply Forall_app.
Qed.

(** ** Reasoning about computations *)

Section reasoning.
Context {D : Type} (dpdk : forall A, ext_call A -> D -> A * D).
Hypothesis ints : forall A (c : ext_call A) d z, negated c (dpdk A c d).1 = Some z -> INT_MIN < z <= INT_MAX.

(** Every run of [m] is defined; one that returns met no failure and satisfies
    [Q], and one that stops does so as [stopped] says. *)
Definition triple {A} (m : nic D A) (Q : A -> list event -> Prop) : Prop :=
  forall d, match m d with
            | (Ok a, (t, _)) => quiet t /\ Q a t
            | (Panic e, (t, _)) => stopped e t
            | (UB, _) => False
            end.

Lemma triple_ret {A} (a : A) (Q : A -> list event -> Prop) : Q a [] -> triple (mret a) Q.
Proof. intros H d. split; [constructor|done]. Qed.

Lemma triple_bind {A B} (m : nic D A) (f : A -> nic D B) P Q :
  triple m P -> (forall a t, P a t -> triple (f a) (fun b t' => Q b (t ++ t'))) -> triple (m ≫= f) Q.
Proof.
  intros Hm Hf d. specialize (Hm d). unfold mbind, nic_bind.
  destruct (m d) as [[a|e|] [t d1]]; [|done..]. destruct Hm as [Ht HP]. specialize (Hf a t HP d1).
  destruct (f a d1) as [[b|e|] [t' d2]]; [|by apply stopped_after|done].
  destruct Hf. split; [by apply Forall_app|done].
Qed.

Lemma triple_weaken {A} (m : nic D A) (P Q : A -> list event -> Prop) :
  (forall a t, P a t -> Q a t) -> triple m P -> triple m Q.
Proof.
  intros HPQ Hm d. specialize (Hm d). destruct (m d) as [[a|e|] [t d1]]; [|done..]. naive_solver.
Qed.

Lemma triple_call {A} (c : ext_call A) :
  (forall a, failure (Ev c a) = None) -> triple (call dpdk c) (fun a t => t = [Ev c a]).
Proof.
  intros Hc d. unfold call. destruct (dpdk A c d) as [a d1]. split; [by apply quiet_one|done].
Qed.

Lemma triple_check_port p : triple (check_port dpdk p) (fun _ t => acts t = [] /\ polls t = []).
Proof.
  intros d. unfold check_port, mbind, nic_bind, call, lift. destruct (dpdk _ _ d) as [[] d1]; cbn.
  - split; [by apply quiet_one|done].
  - by apply stop_first.
Qed.

(** A checked call whose answer is zero or a negative error code. *)
Lemma triple_status p (c : ext_call Z) :
  (forall a, failure (Ev c a) = status_error a) -> (forall a, negated c a = Some a) ->
  (forall a, is_action (Ev c a) = true) -> (forall a, polls [Ev c a] = []) ->
  triple (psp_ok (_ ← check_port dpdk p; ret ← call dpdk c; lift (neg_errno ret)))
    (fun _ t => acts t = [Ev c 0] /\ polls t = []).
Proof.
  intros Hf Hn Ha Hp. unfold psp_ok, check_port, mbind, nic_bind, call, lift.
  intros d. destruct (dpdk _ (c_is_valid_port p) d) as [[] d1]; [|by apply stop_first].
  pose proof (ints _ c d1) as Hi. destruct (dpdk _ c d1) as [r d2]. specialize (Hi r (Hn r)). cbn in Hi |- *.
  unfold neg_errno. specialize (Hf r). unfold status_error in Hf. destruct (Z.eqb_spec r 0) as [E|Hr].
  - subst r. specialize (Ha 0). cbn in Ha |- *. split; [|split; [by rewrite Ha|apply (Hp 0)]].
    constructor; [done|by apply quiet_one].
  - destruct (Z.ltb_spec r 0).
    + rewrite int_result_Ok by (unfold INT_MIN, INT_MAX in *; lia). cbn [PSP_OK].
      unfold PSP_OK. rewrite (proj2 (Z.eqb_neq _ _)) by lia. apply (stop_call _ [_]); [by apply quiet_one|].
      by rewrite Hf.
    + apply (stop_call _ [_]); [by apply quiet_one|done].
Qed.

(** The negated answer of a call that is checked with [PSP_OK]. *)
Lemma triple_negated (c : ext_call Z) :
  (forall a, failure (Ev c a) = if a =? 0 then None else Some (- a)) -> (forall a, negated c a = Some a) ->
  (forall a, is_action (Ev c a) = true) -> (forall a, polls [Ev c a] = []) ->
  triple (psp_ok (ret ← call dpdk c; lift (int_result (- ret)))) (fun _ t => acts t = [Ev c 0] /\ polls t = []).
Proof.
  intros Hf Hn Ha Hp d. unfold psp_ok, mbind, nic_bind, call, lift.
  pose proof (ints _ c d) as Hi. destruct (dpdk _ c d) as [r d1]. specialize (Hi r (Hn r)). cbn in Hi |- *.
  rewrite int_result_Ok by (unfold INT_MIN, INT_MAX in *; lia). specialize (Hf r). unfold PSP_OK.
  destruct (Z.eqb_spec r 0) as [E|Hr].
  - subst r. specialize (Ha 0). cbn in Ha |- *. split; [by apply quiet_one|]. split; [by rewrite Ha|apply (Hp 0)].
  - rewrite (proj2 (Z.eqb_neq _ _)) by lia. by apply stop_first.
Qed.

Lemma triple_configure p nrx ntx conf :
  triple (psp_ok (ret ← rte_eth_dev_configure dpdk p nrx ntx conf; lift (int_result (- ret))))
    (fun _ t => acts t = [Ev (c_dev_configure p nrx ntx conf) 0] /\ polls t = []).
Proof.
  intros d. unfold psp_ok, rte_eth_dev_configure, check_port, mbind, nic_bind, call, lift, mret, nic_ret.
  destruct (dpdk _ (c_is_valid_port p) d) as [[] d1]; [|by apply stop_first].
  pose proof (ints _ (c_dev_configure p nrx ntx conf) d1) as Hi.
  destruct (dpdk _ _ d1) as [r d2]. specialize (Hi r eq_refl). cbn in Hi |- *.
  destruct (Z.leb_spec r 0).
  - rewrite int_result_Ok by (unfold INT_MIN, INT_MAX in *; lia). unfold PSP_OK.
    destruct (Z.eqb_spec (- r) 0) as [E|Hr].
    + assert (r = 0) as -> by lia. split; [|done]. constructor; [done|by apply quiet_one].
    + apply (stop_call _ [_]); [by apply quiet_one|]. cbn. unfold status_error.
      by rewrite (proj2 (Z.eqb_neq _ _)), (proj2 (Z.ltb_lt _ _)) by lia.
  - apply (stop_call _ [_]); [by apply quiet_one|]. cbn. unfold status_error.
    by rewrite (proj2 (Z.eqb_neq _ _)), (proj2 (Z.ltb_ge _ _)) by lia.
Qed.

Lemma triple_fc_get p :
  triple ('(e, fc) ← rte_eth_dev_flow_ctrl_get dpdk p; _ ← lift (PSP_OK e); mret fc)
    (fun fc t => acts t = [Ev (c_fc_get p) (0, fc)] /\ polls t = []).
Proof.
  intros d. unfold rte_eth_dev_flow_ctrl_get, check_port, mbind, nic_bind, call, lift, mret, nic_ret.
  destruct (dpdk _ (c_is_valid_port p) d) as [[] d1]; [|by apply stop_first].
  pose proof (ints _ (c_fc_get p) d1) as Hi.
  destruct (dpdk _ _ d1) as [[r fc] d2]. specialize (Hi r eq_refl). cbn in Hi |- *. unfold neg_errno.
  destruct (Z.eqb_spec r 0) as [->|Hr].
  - split; [|done]. constructor; [done|by apply quiet_one].
  - assert (Hf : failure (Ev (c_fc_get p) (r, fc)) = if r <? 0 then Some (- r) else Some SIGABRT)
      by (cbn; unfold status_error; by rewrite (proj2 (Z.eqb_neq _ _)) by lia).
    destruct (Z.ltb_spec r 0).
    + rewrite int_result_Ok by (unfold INT_MIN, INT_MAX in *; lia). cbn.
      unfold PSP_OK. rewrite (proj2 (Z.eqb_neq _ _)) by lia. apply (stop_call _ [_]); [by apply quiet_one|done].
    + apply (stop_call _ [_]); [by apply quiet_one|done].
Qed.

Lemma triple_socket p :
  triple (rte_eth_dev_socket_id dpdk p) (fun _ t => acts t = [] /\ polls t = []).
Proof.
  intros d. unfold rte_eth_dev_socket_id, mbind, nic_bind, call, lift, mret, nic_ret.
  destruct (dpdk _ _ d) as [r d1]. destruct (Z.eqb_spec r (-1)) as [->|Hr].
  - split; [by apply quiet_one|done].
  - destruct (Z.leb_spec 0 r).
    + split; [apply quiet_one; cbn; by rewrite (proj2 (Z.ltb_ge _ _)) by lia|done].
    + apply stop_first. cbn. by rewrite (proj2 (Z.ltb_lt _ _)) by lia.
Qed.

Lemma triple_psp_ok (m : nic D Z) (P : Z -> list event -> Prop) :
  triple m P -> (forall e t, quiet t -> P e t -> e <> 0 -> stopped e t) -> triple (psp_ok m) (fun _ t => P 0 t).
Proof.
  intros Hm He d. specialize (Hm d). unfold psp_ok, mbind, nic_bind, lift.
  destruct (m d) as [[e|e|] [t d1]]; [|done..]. destruct Hm as [Ht HP]. unfold PSP_OK.
  destruct (Z.eqb_spec e 0) as [->|Hne]; rewrite app_nil_r; [done|by apply He].
Qed.

Lemma triple_print_link p l : triple (psp_ok (print_link_status dpdk p l)) (fun _ t => acts t = [] /\ polls t = []).
Proof.
  eapply triple_weaken; [|apply (triple_psp_ok _ (fun e t => e = 0 /\ acts t = [] /\ polls t = []))].
  - naive_solver.
  - eapply triple_bind; [apply triple_check_port|]. intros _ t [Ha Hp]. apply triple_ret. by rewrite app_nil_r.
  - naive_solver.
Qed.

Lemma triple_link_get p :
  triple (rte_eth_link_get_nowait dpdk p) (fun l t => acts t = [] /\ polls t = [link_status l]).
Proof.
  eapply triple_bind; [apply triple_check_port|]. intros _ t [Ha Hp].
  eapply triple_weaken; [|by apply triple_call]. intros l t' ->. by rewrite acts_app, polls_app, Ha, Hp.
Qed.

Lemma triple_info_get p : triple (rte_eth_dev_info_get dpdk p) (fun _ t => acts t = [] /\ polls t = []).
Proof.
  eapply triple_bind; [apply triple_check_port|]. intros _ t [Ha Hp].
  eapply triple_weaken; [|by apply triple_call]. intros l t' ->. by rewrite acts_app, polls_app, Ha, Hp.
Qed.

(** The polls end with the link up, or all of them found it down. *)
Definition polled (n : nat) (r : Z) (t : list event) : Prop :=
  acts t = []
  /\ (r = 0 /\ (length (polls t) <= n)%nat /\ last (polls t) = Some ETH_LINK_UP
      \/ r = ECONNREFUSED /\ length (polls t) = n /\ Forall (fun s => s <> ETH_LINK_UP) (polls t)).

Lemma triple_link_loop n p l : triple (link_loop dpdk n p l) (polled n).
Proof.
  revert l. induction n as [|n IH]; intros l; cbn [link_loop].
  - eapply triple_bind; [apply triple_print_link|]. intros _ t [Ha Hp]. apply triple_ret.
    rewrite app_nil_r. split; [done|]. right. by rewrite Hp.
  - eapply triple_bind; [apply triple_link_get|]. intros l1 t [Ha Hp].
    destruct (Z.eqb_spec ETH_LINK_UP (link_status l1)) as [E|E].
    + eapply triple_bind; [apply triple_print_link|]. intros _ t' [Ha' Hp']. apply triple_ret.
      rewrite app_nil_r. split; [by rewrite acts_app, Ha, Ha'|]. left.
      rewrite polls_app, Hp, Hp', app_nil_r, <- E. cbn. split; [done|]. split; [lia|done].
    + eapply triple_bind; [by apply triple_call|]. intros u ? ->.
      eapply triple_weaken; [|apply IH]. intros r t' [Ha' Ht'].
      split; [by rewrite !acts_app, Ha, Ha'|]. rewrite !polls_app, Hp.
      change (polls [Ev (c_delay_ms 100) u]) with (@nil Z). cbn [app].
      destruct Ht' as [(Hr & Hl & Hup)|(Hr & Hl & Hdn)]; [left|right]; cbn [length]; (split; [done|]).
      * split; [lia|]. by destruct (polls t').
      * split; [by rewrite Hl|]. by constructor.
Qed.

Lemma triple_wait p :
  triple (psp_ok (wait_for_link_status_up dpdk p))
    (fun _ t => acts t = [] /\ (length (polls t) <= retry_count)%nat /\ last (polls t) = Some ETH_LINK_UP).
Proof.
  eapply triple_weaken; [|apply (triple_psp_ok _ (polled retry_count))].
  - intros _ t [Ha [(_ & Hl & Hu)|[? _]]]; [done|discriminate].
  - eapply triple_bind; [apply triple_check_port|]. intros _ t [Ha Hp].
    eapply triple_weaken; [|apply triple_link_loop]. intros r t' [Ha' Ht'].
    split; [by rewrite acts_app, Ha, Ha'|]. by rewrite polls_app, Hp.
  - intros e t Ht [_ [[? _]|(He & Hl & Hd)]] Hne; [done|]. by apply (stop_link _ [] t).
Qed.

Lemma triple_rx_queues n i p nb sock conf pool :
  triple (rx_queues dpdk n i p nb sock conf pool)
    (fun _ t => acts t = map (fun q => Ev (c_rx_queue_setup p q nb sock conf pool) 0) (seqZ i (Z.of_nat n))
       /\ polls t = []).
Proof.
  revert i. induction n as [|n IH]; intros i; cbn [rx_queues]; [by apply triple_ret|].
  eapply triple_bind; [by apply triple_status|]. intros _ t [Ha Hp].
  eapply triple_weaken; [|apply IH]. intros _ t' [Ha' Hp'].
  rewrite acts_app, polls_app, Ha, Ha', Hp, Hp', (seqZ_cons i) by lia. split; [|done].
  replace (Z.pred (Z.of_nat (S n))) with (Z.of_nat n) by lia. by rewrite <- Z.add_1_r.
Qed.

Lemma triple_tx_queues n i p nb sock conf :
  triple (tx_queues dpdk n i p nb sock conf)
    (fun _ t => acts t = map (fun q => Ev (c_tx_queue_setup p q nb sock conf) 0) (seqZ i (Z.of_nat n))
       /\ polls t = []).
Proof.
  revert i. induction n as [|n IH]; intros i; cbn [tx_queues]; [by apply triple_ret|].
  eapply triple_bind; [by apply triple_status|]. intros _ t [Ha Hp].
  eapply triple_weaken; [|apply IH]. intros _ t' [Ha' Hp'].
  rewrite acts_app, polls_app, Ha, Ha', Hp, Hp', (seqZ_cons i) by lia. split; [|done].
  replace (Z.pred (Z.of_nat (S n))) with (Z.of_nat n) by lia. by rewrite <- Z.add_1_r.
Qed.

(** The calls that start the port. *)
Definition start_plan (p : Z) (fc : rte_eth_fc_conf) : list event :=
  [Ev (c_dev_start p) 0; Ev (c_fc_get p) (0, fc); Ev (c_fc_set p (mk_fc RTE_FC_NONE (fc_rest fc))) 0].

(** The link has been seen up after at most all the polls. *)
Definition link_seen (t : list event) : Prop :=
  (length (polls t) <= retry_count)%nat /\ last (polls t) = Some ETH_LINK_UP.

Lemma triple_start p :
  triple (start_port dpdk p) (fun r t => r = 0 /\ (exists fc, acts t = start_plan p fc) /\ link_seen t).
Proof.
  eapply triple_bind; [by apply triple_negated|]. intros _ t0 [A0 P0].
  eapply triple_bind; [apply triple_fc_get|]. intros fc t1 [A1 P1].
  eapply triple_bind; [by apply triple_status|]. intros _ t2 [A2 P2].
  eapply triple_bind; [apply triple_wait|]. intros _ t3 (A3 & L3 & U3).
  eapply triple_bind; [apply triple_info_get|]. intros _ t4 [A4 P4].
  apply triple_ret. unfold link_seen. rewrite !acts_app, !polls_app, A0, A1, A2, A3, A4, P0, P1, P2, P4.
  cbn [app polls acts omap]. rewrite !app_nil_r. split; [done|]. split; [by exists fc|done].
Qed.

(** The calls that configure the port and set up its queues. *)
Definition setup_plan (p pool ntx nrx rxd txd sock : Z) (info : rte_eth_dev_info) : list event :=
  [Ev (c_dev_configure p nrx ntx (mk_ethconf ETH_MQ_RX_NONE 1024)) 0;
   Ev (c_adjust_desc p RX_RING_SIZE TX_RING_SIZE) (0, (rxd, txd))]
  ++ map (fun q => Ev (c_rx_queue_setup p q rxd sock (default_rxconf info) pool) 0) (seqZ 0 nrx)
  ++ map (fun q => Ev (c_tx_queue_setup p q txd sock
                         (mk_txconf DEFAULT_TX_RS_THRESH (tx_rest (default_txconf info)))) 0) (seqZ 0 ntx).

(** What [init_dpdk_port] has done when it returns [v]. *)
Definition port_ready (p pool ntx nrx v : Z) (t : list event) : Prop :=
  if v =? 0 then
    (exists rxd txd sock info fc, acts t = setup_plan p pool ntx nrx rxd txd sock info ++ start_plan p fc)
    /\ link_seen t
  else exists ds, acts t = [Ev (c_dev_configure p nrx ntx (mk_ethconf ETH_MQ_RX_NONE 1024)) 0;
                           Ev (c_adjust_desc p RX_RING_SIZE TX_RING_SIZE) (v, ds)].

Lemma triple_init p pool ntx nrx :
  0 <= ntx -> 0 <= nrx -> triple (init_dpdk_port dpdk p pool ntx nrx) (port_ready p pool ntx nrx).
Proof.
  intros Htx Hrx. unfold init_dpdk_port.
  eapply triple_bind; [apply triple_check_port|]. intros _ t0 [A0 P0].
  eapply triple_bind; [apply triple_info_get|]. intros info t1 [A1 P1].
  eapply triple_bind; [apply triple_configure|]. intros _ t2 [A2 P2].
  eapply triple_bind; [by apply triple_call|]. intros [v [rxd txd]] ? ->.
  destruct (Z.eqb_spec v 0) as [->|Hv]; cbn [negb].
  - eapply triple_bind; [apply triple_socket|]. intros [e sock] t4 [A4 P4].
    eapply triple_bind; [apply triple_rx_queues|]. intros _ t5 [A5 P5].
    eapply triple_bind; [apply triple_tx_queues|]. intros _ t6 [A6 P6].
    eapply triple_weaken; [|apply triple_start]. intros r t7 (-> & (fc & A7) & L7).
    unfold port_ready, link_seen in *. rewrite !acts_app, !polls_app, A0, A1, A2, A4, A5, A6, A7, P0, P1, P2, P4, P5, P6.
    rewrite !Z2Nat.id by done. split; [|done]. eexists rxd, txd, _, info, fc. unfold setup_plan.
    rewrite <- !app_assoc. reflexivity.
  - apply triple_ret. unfold port_ready. rewrite (proj2 (Z.eqb_neq v 0)) by done. exists (rxd, txd).
    by rewrite !acts_app, A0, A1, A2.
Qed.

End reasoning.

(** ** A card that works

    [up_in k d]: in the state [d] no call fails and the link is up after at
    most [k] delays. *)

Definition works {A} (p : Z) (k : nat) (c : ext_call A) : A -> Prop :=
  match c in ext_call A return A -> Prop with
  | c_eal_init _ => fun r => 0 <= r.1
  | c_dev_count_avail => fun n => 0 < n
  | c_is_valid_port q => fun b => q = p -> b = true
  | c_dev_configure _ _ _ _ => fun r => r = 0
  | c_adjust_desc _ _ _ => fun r => r.1 = 0
  | c_socket_id _ => fun r => -1 <= r
  | c_rx_queue_setup _ _ _ _ _ _ => fun r => r = 0
  | c_tx_queue_setup _ _ _ _ _ => fun r => r = 0
  | c_dev_start _ => fun r => r = 0
  | c_fc_get _ => fun r => r.1 = 0
  | c_fc_set _ _ => fun r => r = 0
  | c_link_get _ => fun l => k = O -> link_status l = ETH_LINK_UP
  | c_flow_validate _ _ => fun r => r = 0
  | c_flow_create _ _ => fun f => f <> NULL
  | c_flow_destroy _ _ => fun r => r = 0
  | c_pool_create _ _ _ _ _ _ => fun a => a <> NULL
  | c_pool_cache_size _ => fun r => r = MBUF_CACHE_SIZE
  | c_stats_get _ => fun r => is_Some r.2
  | _ => fun _ => True
  end.

Definition delays {A} (c : ext_call A) (k : nat) : nat :=
  match c with c_delay_ms _ => pred k | _ => k end.

Class Healthy {D : Type} (dpdk : forall A, ext_call A -> D -> A * D) (p : Z) (up_in : nat -> D -> Prop) : Prop :=
  healthy_call : forall A (c : ext_call A) d k, up_in k d ->
    works p k c (dpdk A c d).1 /\ up_in (delays c k) (dpdk A c d).2.

Section healthy.
Context {D : Type} (dpdk : forall A, ext_call A -> D -> A * D) (p : Z) (up_in : nat -> D -> Prop).
Context `{!Healthy dpdk p up_in}.

(** [m] returns something in [Q], and the card works as before after it. *)
Definition total {A} (k : nat) (m : nic D A) (Q : A -> Prop) : Prop :=
  forall d, up_in k d -> exists a t d' k', m d = (Ok a, (t, d')) /\ Q a /\ up_in k' d' /\ (k' <= k)%nat.

Lemma total_ret {A} k (a : A) (Q : A -> Prop) : Q a -> total k (mret a) Q.
Proof. intros HQ d Hd. by exists a, [], d, k. Qed.

Lemma total_bind {A B} k (m : nic D A) (f : A -> nic D B) (P : A -> Prop) (Q : B -> Prop) :
  total k m P -> (forall a k', (k' <= k)%nat -> P a -> total k' (f a) Q) -> total k (m ≫= f) Q.
Proof.
  intros Hm Hf d Hd. destruct (Hm d Hd) as (a & t & d1 & k1 & E1 & HP & H1 & L1).
  destruct (Hf a k1 L1 HP d1 H1) as (b & t' & d2 & k2 & E2 & HQ & H2 & L2).
  exists b, (t ++ t'), d2, k2. unfold mbind, nic_bind. rewrite E1, E2. split; [done|]. split; [done|]. split; [done|lia].
Qed.

Lemma total_call {A} k (c : ext_call A) : total k (call dpdk c) (works p k c).
Proof.
  intros d Hd. destruct (healthy_call A c d k Hd) as [Hw Hu]. unfold call.
  destruct (dpdk A c d) as [a d1]. exists a, [Ev c a], d1, (delays c k). split; [done|]. split; [done|]. split; [done|].
  destruct c; cbn [delays]; lia.
Qed.

Lemma total_lift {A} k (a : A) (r : outcome A) (Q : A -> Prop) : r = Ok a -> Q a -> total k (lift r) Q.
Proof. intros -> HQ d Hd. by exists a, [], d, k. Qed.

Lemma total_lift_bind {A B} k (a : A) (r : outcome A) (f : A -> nic D B) (Q : B -> Prop) :
  r = Ok a -> total k (f a) Q -> total k (lift r ≫= f) Q.
Proof.
  intros -> Hf d Hd. destruct (Hf d Hd) as (b & t & d' & k' & E & H). exists b, t, d', k'.
  unfold mbind, nic_bind, lift. rewrite E. by split.
Qed.

Lemma total_check_port k : total k (check_port dpdk p) (fun _ => True).
Proof.
  eapply total_bind; [apply total_call|]. intros b k' _ Hb. cbn in Hb. rewrite Hb by done. by apply (total_lift _ tt).
Qed.

Lemma total_psp_ok k m : total k m (fun e => e = 0) -> total k (psp_ok m) (fun _ => True).
Proof. intros Hm. eapply total_bind; [exact Hm|]. intros e k' _ ->. by apply (total_lift _ tt). Qed.

Lemma total_status k (c : ext_call Z) :
  (forall k a, works p k c a -> a = 0) ->
  total k (psp_ok (_ ← check_port dpdk p; ret ← call dpdk c; lift (neg_errno ret))) (fun _ => True).
Proof.
  intros Hc. apply total_psp_ok. eapply total_bind; [apply total_check_port|]. intros _ k1 _ _.
  eapply total_bind; [apply total_call|]. intros r k2 _ ->%Hc. by apply (total_lift _ 0).
Qed.

Lemma total_negated k (m : nic D Z) :
  total k m (fun r => r = 0) -> total k (psp_ok (ret ← m; lift (int_result (- ret)))) (fun _ => True).
Proof.
  intros Hm. apply total_psp_ok. eapply total_bind; [exact Hm|]. intros r k2 _ ->. by apply (total_lift _ 0).
Qed.

Lemma total_print k l : total k (psp_ok (print_link_status dpdk p l)) (fun _ => True).
Proof.
  apply total_psp_ok. eapply total_bind; [apply total_check_port|]. intros _ k1 _ _. by apply total_ret.
Qed.

Lemma total_delay {B} k ms (m : nic D B) (Q : B -> Prop) :
  (forall k', (k' <= pred k)%nat -> total k' m Q) -> total k (_ ← call dpdk (c_delay_ms ms); m) Q.
Proof.
  intros Hm d Hd. destruct (healthy_call _ (c_delay_ms ms) d k Hd) as [_ Hu]. cbn [delays] in Hu.
  unfold mbind, nic_bind, call. destruct (dpdk _ (c_delay_ms ms) d) as [u d1].
  destruct (Hm (pred k) ltac:(lia) d1 Hu) as (b & t & d2 & k2 & E & HQ & H2 & L2).
  rewrite E. eexists b, _, d2, k2. split; [done|]. split; [done|]. split; [done|lia].
Qed.

(** The polls outlast the delays the link still needs. *)
Lemma total_link_loop n k l : (k < n)%nat -> total k (link_loop dpdk n p l) (fun r => r = 0).
Proof.
  revert k l. induction n as [|n IH]; intros k l Hk; [lia|]. cbn [link_loop].
  eapply (total_bind _ _ _ (fun l => k = O -> link_status l = ETH_LINK_UP)).
  - eapply total_bind; [apply total_check_port|]. intros _ k1 L1 _ d Hd.
    destruct (total_call k1 (c_link_get p) d Hd) as (l1 & t & d' & k2 & E & Hw & Hu & L2).
    exists l1, t, d', k2. split; [done|]. split; [|done]. intros ->. apply Hw. lia.
  - intros l1 k1 L1 Hl1. destruct (Z.eqb_spec ETH_LINK_UP (link_status l1)) as [E|E].
    + eapply total_bind; [apply total_print|]. intros _ k2 _ _. by apply total_ret.
    + assert (k <> O) by (intros ->; by rewrite Hl1 in E). apply total_delay. intros k2 L2. apply IH. lia.
Qed.

Lemma total_rx_queues n i k nb sock conf pool : total k (rx_queues dpdk n i p nb sock conf pool) (fun _ => True).
Proof.
  revert i k. induction n as [|n IH]; intros i k; cbn [rx_queues]; [by apply total_ret|].
  eapply total_bind; [by apply total_status|]. intros _ k1 _ _. apply IH.
Qed.

Lemma total_tx_queues n i k nb sock conf : total k (tx_queues dpdk n i p nb sock conf) (fun _ => True).
Proof.
  revert i k. induction n as [|n IH]; intros i k; cbn [tx_queues]; [by apply total_ret|].
  eapply total_bind; [by apply total_status|]. intros _ k1 _ _. apply IH.
Qed.

Lemma total_info k : total k (rte_eth_dev_info_get dpdk p) (fun _ => True).
Proof.
  eapply total_bind; [apply total_check_port|]. intros _ k1 _ _ d Hd.
  destruct (total_call k1 (c_dev_info_get p) d Hd) as (a & t & d' & k2 & E & _ & H2). by exists a, t, d', k2.
Qed.

Lemma total_start k : (k < retry_count)%nat -> total k (start_port dpdk p) (fun r => r = 0).
Proof.
  intros Hk. eapply total_bind; [apply total_negated, total_call|]. intros _ k1 L1 _.
  eapply (total_bind _ _ _ (fun _ => True)).
  { eapply (total_bind _ _ _ (fun r => r.1 = 0)).
    - eapply total_bind; [apply total_check_port|]. intros _ k2 _ _.
      eapply total_bind; [apply total_call|]. intros [r fc] k3 _ Hr. cbn in Hr. subst r.
      eapply total_bind; [by apply (total_lift _ 0 (neg_errno 0) (fun e => e = 0))|].
      intros e k4 _ ->. by apply total_ret.
    - intros [e fc] k2 _ He. cbn in He. subst e. eapply total_bind; [by apply (total_lift _ tt _ (fun _ => True))|].
      intros _ k3 _ _. by apply total_ret. }
  intros fc k2 L2 _. eapply total_bind; [by apply total_status|]. intros _ k3 L3 _.
  eapply total_bind.
  { apply total_psp_ok. eapply total_bind; [apply total_check_port|]. intros _ k4 L4 _. apply total_link_loop. lia. }
  intros _ k4 L4 _. eapply total_bind; [apply total_info|]. intros _ k5 _ _. by apply total_ret.
Qed.

Lemma total_init k pool ntx nrx : (k < retry_count)%nat -> total k (init_dpdk_port dpdk p pool ntx nrx) (fun r => r = 0).
Proof.
  intros Hk. unfold init_dpdk_port. eapply total_bind; [apply total_check_port|]. intros _ k1 L1 _.
  eapply total_bind; [apply total_info|]. intros info k2 L2 _.
  eapply total_bind.
  { apply total_negated. eapply total_bind; [apply total_check_port|]. intros _ k3 _ _.
    eapply total_bind; [apply total_call|]. intros r k4 _ Hr. cbn in Hr. subst r. by apply total_ret. }
  intros _ k3 L3 _. eapply total_bind; [apply total_call|]. intros [v [rxd txd]] k4 L4 Hv. cbn in Hv. subst v.
  cbn [negb Z.eqb]. eapply (total_bind _ _ _ (fun _ => True)).
  { eapply total_bind; [apply total_call|]. intros r k5 _ Hr. cbn in Hr.
    destruct (Z.eqb_spec r (-1)); [by apply total_ret|].
    rewrite (proj2 (Z.leb_le 0 r)) by lia. by apply total_ret. }
  intros [e sock] k5 L5 _. eapply total_bind; [apply total_rx_queues|]. intros _ k6 L6 _.
  eapply total_bind; [apply total_tx_queues|]. intros _ k7 L7 _. apply total_start. lia.
Qed.

Lemma check_args_some argv i ss :
  0 <= i -> drop (Z.to_nat i) argv = map Some ss -> check_args (length ss) i argv = Ok ss.
Proof.
  revert i. induction ss as [|x ss IH]; intros i Hi Hd; cbn [check_args length]; [done|].
  cbn [map] in Hd. assert (argv !! Z.to_nat i = Some (Some x)) as Hx
    by (rewrite <- (Nat.add_0_r (Z.to_nat i)), <- lookup_drop, Hd; done).
  rewrite (proj2 (arr_get_Ok argv i (Some x))) by done. cbn [mbind outcome_bind]. rewrite IH; [done|lia|].
  replace (Z.to_nat (i + 1)) with (Z.to_nat i + 1)%nat by lia. by rewrite <- drop_drop, Hd.
Qed.

(** With arguments for the environment layer it comes up. *)
Lemma total_net_init k x xs : total k (dpdk_net_init dpdk (Some (x :: xs))) (fun r => r = 0).
Proof.
  unfold dpdk_net_init. cbn [default map]. eapply (total_bind _ _ _ (fun r => r.1 = 0)).
  - unfold rte_eal_init. eapply total_bind; [apply (total_lift _ tt _ (fun _ => True)); [|done]|].
    { unfold PSP_TRUE. by rewrite (proj2 (Z.leb_le _ _)) by lia. }
    intros _ k1 _ _. eapply (total_bind _ _ _ (fun _ => True)).
    { eapply total_lift; [|done]. change (Some x :: map Some xs) with (map Some (x :: xs)).
      rewrite Nat2Z.id, length_map. by apply check_args_some. }
    intros args k2 _ _. eapply total_bind; [apply total_call|]. intros [ret err] k3 _ Hr. cbn in Hr.
    rewrite (proj2 (Z.eqb_neq ret (-1))), (proj2 (Z.ltb_ge ret (-1))) by lia. by apply total_ret.
  - intros [e n] k1 _ He. cbn in He. subst e. eapply total_bind; [by apply (total_lift _ tt _ (fun _ => True))|].
    intros _ k2 _ _. eapply total_bind; [apply total_call|]. intros nb k3 _ Hn. cbn in Hn.
    unfold PSP_TRUE. rewrite (proj2 (Z.ltb_lt 0 nb)) by lia.
    eapply total_bind; [by apply (total_lift _ tt _ (fun _ => True))|]. intros _ k4 _ _. by apply total_ret.
Qed.

(** What comes behind a call that returns decides. *)
Lemma total_then {A B} k (m : nic D A) (P : A -> Prop) (f : A -> nic D B) (r : outcome B) d :
  total k m P -> up_in k d -> (forall a d' k', P a -> up_in k' d' -> (f a d').1 = r) -> ((m ≫= f) d).1 = r.
Proof.
  intros Hm Hd Hf. destruct (Hm d Hd) as (a & t & d' & k' & E & HP & Hu & _). specialize (Hf a d' k' HP Hu).
  unfold mbind, nic_bind. rewrite E. by destruct (f a d') as [? [? ?]].
Qed.

Lemma total_new_context k junk id addr port dev mempool_at pool mac :
  mempool_at <> NULL ->
  total k (new_UdpContext dpdk junk id addr port dev mempool_at pool mac) (fun r =>
    r.2 <> NULL /\ (pool <> NULL -> r.2 = pool)
    /\ r.1 = mk_netctx id dev [] r.2 (mk_udpctx addr port (remote_port junk) (remote_ip junk) mac 0
               (mk_rxq (inbound_queue (in_q junk)) 0 0) (outbound_queue junk) 0 0)).
Proof.
  intros Hat. unfold new_UdpContext. eapply (total_bind _ _ _ (fun p => p <> NULL /\ (pool <> NULL -> p = pool))).
  - destruct (Z.eqb_spec pool NULL) as [->|Hp]; [|by apply total_ret].
    eapply (total_bind _ _ _ (fun r => r.1 = 0 /\ r.2 <> NULL)).
    + unfold init_mempool. eapply total_bind; [apply total_call|]. intros n k1 _ _.
      eapply total_bind; [apply total_call|]. intros pool k2 _ Hp. cbn in Hp.
      eapply total_lift_bind; [by rewrite (proj2 (Z.eqb_neq _ _) Hat)|].
      eapply total_lift_bind; [by rewrite (proj2 (Z.eqb_neq _ _) Hp)|].
      eapply total_bind; [apply total_call|]. intros sz k5 _ Hs. cbn in Hs. subst sz.
      eapply total_lift_bind; [done|]. eapply total_bind; [apply total_call|]. intros _ k7 _ _. by apply total_ret.
    + intros [ret p'] k1 _ [Hr Hp]. cbn in Hr, Hp. subst ret. by apply total_ret.
  - intros p' k1 _ [Hp Heq]. by apply total_ret.
Qed.

End healthy.

Lemma bind_UB {D A B} (m : nic D A) (f : A -> nic D B) d : (m d).1 = UB -> ((m ≫= f) d).1 = UB.
Proof. unfold mbind, nic_bind. destruct (m d) as [[] [? ?]]; done. Qed.

(** A process that has stopped stays so. *)
Lemma bind_stops {D A B} (m : nic D A) (f : A -> nic D B) e d : (m d).1 = Panic e -> ((m ≫= f) d).1 = Panic e.
Proof. unfold mbind, nic_bind. destruct (m d) as [[] [? ?]]; by intros [= ->]. Qed.

(** ** What a flow rule does

    The matching of [rte_flow]: an item accepts a packet of its protocol whose
    fields agree with the specification under the mask, the pattern ends at
    the end marker, and the queue action says where an accepted packet goes. *)

Definition agrees (mask spec field : Z) : bool := Z.land field mask =? Z.land spec mask.

Definition item_matches (i : rte_flow_item) (pkt : rte_mbuf) : bool :=
  match i with
  | ITEM_END | ITEM_ETH => true
  | ITEM_IPV4 s m =>
    let h := ip_hdr pkt in
    (ether_type (eth_hdr pkt) =? hton16 RTE_ETHER_TYPE_IPV4)
    && agrees (version_ihl m) (version_ihl s) (version_ihl h)
    && agrees (total_length m) (total_length s) (total_length h)
    && agrees (time_to_live m) (time_to_live s) (time_to_live h)
    && agrees (next_proto_id m) (next_proto_id s) (next_proto_id h)
    && agrees (src_addr m) (src_addr s) (src_addr h)
    && agrees (dst_addr m) (dst_addr s) (dst_addr h)
  | ITEM_UDP s m =>
    let h := udp_hdr pkt in
    (next_proto_id (ip_hdr pkt) =? IPPROTO_UDP)
    && agrees (src_port m) (src_port s) (src_port h)
    && agrees (dst_port m) (dst_port s) (dst_port h)
    && agrees (dgram_len m) (dgram_len s) (dgram_len h)
  end.

Fixpoint pattern_matches (l : list rte_flow_item) (pkt : rte_mbuf) : bool :=
  match l with
  | [] | ITEM_END :: _ => true
  | i :: l => item_matches i pkt && pattern_matches l pkt
  end.

Fixpoint queue_of (l : list rte_flow_action) : option Z :=
  match l with
  | [] | ACTION_END :: _ => None
  | ACTION_QUEUE q :: _ => Some q
  | ACTION_COUNT _ _ :: l => queue_of l
  end.

Definition steers (r : flow_rule) (pkt : rte_mbuf) : option Z :=
  if ingress r && pattern_matches (pattern r) pkt then queue_of (actions r) else None.

(** The fields of a packet and of a context are in their ranges. *)
Definition wire_ok (pkt : rte_mbuf) : Prop :=
  0 <= next_proto_id (ip_hdr pkt) < 2 ^ 8 /\ 0 <= dst_addr (ip_hdr pkt) < 2 ^ 32
  /\ 0 <= dst_port (udp_hdr pkt) < 2 ^ 16.

Definition addr_ok (c : UdpContext) : Prop := 0 <= ip c < 2 ^ 32 /\ 0 <= port c < 2 ^ 16.

(** A UDP datagram to the address and port of the context. *)
Definition addressed (c : UdpContext) (pkt : rte_mbuf) : Prop :=
  ether_type (eth_hdr pkt) = hton16 RTE_ETHER_TYPE_IPV4 /\ next_proto_id (ip_hdr pkt) = IPPROTO_UDP
  /\ dst_addr (ip_hdr pkt) = ip c /\ ntoh16 (dst_port (udp_hdr pkt)) = port c.

#[export] Instance addressed_dec c pkt : Decision (addressed c pkt).
Proof. unfold addressed. solve_decision. Defined.

Lemma agrees_zero s f : agrees 0 s f = true.
Proof. unfold agrees. by rewrite !Z.land_0_r. Qed.

Lemma agrees_ones k s f : 0 <= k -> 0 <= s < 2 ^ k -> 0 <= f < 2 ^ k -> agrees (2 ^ k - 1) s f = (f =? s).
Proof. intros Hk Hs Hf. unfold agrees. by rewrite !land_mask, !Z.mod_small by done. Qed.

Lemma hton16_range x : 0 <= hton16 x < 2 ^ 16.
Proof. apply Z.mod_pos_bound. done. Qed.

Lemma eqb_hton16 x y : 0 <= x < 2 ^ 16 -> 0 <= y < 2 ^ 16 -> (x =? hton16 y) = (ntoh16 x =? y).
Proof.
  intros Hx Hy. destruct byteorder_roundtrip as [Hrt _].
  destruct (Z.eqb_spec x (hton16 y)) as [->|Hne].
  - symmetry. apply Z.eqb_eq. by apply Hrt.
  - symmetry. apply Z.eqb_neq. intros <-. apply Hne. symmetry. by apply Hrt.
Qed.

(** The rule fills both arrays to the end. *)
Lemma ipv4_rule_eq q f :
  ipv4_rule q f = Ok (mk_rule true
    [ITEM_ETH;
     ITEM_IPV4 (mk_ip 0 0 0 (nt_proto f) (nt_src_ip f) (nt_dst_ip f))
       (mk_ip 0 0 0 (nt_proto_mask f) (nt_src_ip_mask f) (nt_dst_ip_mask f));
     ITEM_UDP (mk_udp (nt_src_port f) (nt_dst_port f) 0) (mk_udp (nt_src_port_mask f) (nt_dst_port_mask f) 0);
     ITEM_END]
    [ACTION_COUNT 0 q; ACTION_QUEUE q; ACTION_END]).
Proof. reflexivity. Qed.

(** The rule of a context takes the datagrams addressed to it, all of them and
    no others, to its queue. *)
Lemma fdir_rule_steers c q pkt :
  addr_ok c -> wire_ok pkt ->
  exists rule, ipv4_rule q (fdir_filter c) = Ok rule
    /\ steers rule pkt = if decide (addressed c pkt) then Some q else None.
Proof.
  intros [Hip Hport] (Hp & Hd & Hu). rewrite ipv4_rule_eq. eexists. split; [reflexivity|].
  unfold steers. cbn -[agrees hton16 Z.eqb hton32 Z.land]. rewrite !agrees_zero, ?andb_true_l, ?andb_true_r.
  change 0xff with (2 ^ 8 - 1). change 0xffffffff with (2 ^ 32 - 1). change 0xffff with (2 ^ 16 - 1).
  rewrite !agrees_ones by (done || apply hton16_range). rewrite (eqb_hton16 (dst_port (udp_hdr pkt))) by done.
  case_decide as Ha.
  - destruct Ha as (-> & -> & -> & ->). by rewrite !Z.eqb_refl.
  - destruct (Z.eqb_spec (ether_type (eth_hdr pkt)) (hton16 RTE_ETHER_TYPE_IPV4)); [|done].
    destruct (Z.eqb_spec (next_proto_id (ip_hdr pkt)) IPPROTO_UDP); [|done].
    destruct (Z.eqb_spec (dst_addr (ip_hdr pkt)) (ip c)); [|done].
    destruct (Z.eqb_spec (ntoh16 (dst_port (udp_hdr pkt))) (port c)); [|done]. by destruct Ha.
Qed.

(** ** The buffers of the statistics *)

(** The blocks a record allocates, those it frees and the lines it prints. *)
Definition allocs (t : list event) : list Z :=
  omap (fun ev => match ev with
                  | Ev c a => match c in ext_call A return A -> option Z with
                              | c_calloc _ => fun p => if p =? NULL then None else Some p
                              | _ => fun _ => None
                              end a
                  end) t.

Definition frees (t : list event) : list Z :=
  omap (fun ev => match ev with Ev c _ => match c with c_free p => Some p | _ => None end end) t.

Definition printed (t : list event) : list (string * Z) :=
  omap (fun ev => match ev with Ev c _ => match c with c_printf l => Some l | _ => None end end) t.

Definition shown (names : list string) (xs : list Z) : list (string * Z) :=
  filter (fun l => l.2 <> 0) (zip names xs).

Lemma length_filled {A} n (z : A) xs : length (filled n z xs) = Z.to_nat n.
Proof. unfold filled. rewrite length_take, length_app, length_replicate. lia. Qed.

Lemma print_loop_lines {D} (dpdk : forall A, ext_call A -> D -> A * D) n i xs names d :
  0 <= i -> length xs = (Z.to_nat i + n)%nat -> length names = (Z.to_nat i + n)%nat ->
  exists t d', print_loop dpdk n i xs names d = (Ok tt, (t, d')) /\ allocs t = [] /\ frees t = []
    /\ printed t = shown (drop (Z.to_nat i) names) (drop (Z.to_nat i) xs).
Proof.
  revert i d. induction n as [|n IH]; intros i d Hi Hx Hn; cbn [print_loop].
  - exists [], d. rewrite !drop_ge by lia. done.
  - destruct (lookup_lt_is_Some_2 xs (Z.to_nat i)) as [v Hv]; [lia|].
    destruct (lookup_lt_is_Some_2 names (Z.to_nat i)) as [s Hs]; [lia|].
    rewrite (drop_S _ _ _ Hv), (drop_S _ _ _ Hs). unfold shown. cbn [zip zip_with].
    replace (S (Z.to_nat i)) with (Z.to_nat (i + 1)) by lia.
    rewrite (proj2 (arr_get_Ok xs i v)), (proj2 (arr_get_Ok names i s)) by done.
    unfold mbind, nic_bind, lift, mret, nic_ret, call. destruct (Z.eqb_spec v 0) as [->|Hv0].
    + destruct (IH (i + 1) d) as (t & d' & -> & A & F & P); [lia..|].
      exists t, d'. by rewrite filter_cons_False by naive_solver.
    + destruct (dpdk _ (c_printf (s, v)) d) as [u d1].
      destruct (IH (i + 1) d1) as (t & d' & -> & A & F & P); [lia..|].
      eexists _, d'. split; [reflexivity|]. rewrite filter_cons_True by done. cbn.
      by repeat split; [..|f_equal].
Qed.

(** ** The end of a context *)

Lemma destroy_flows_cases {D} (dpdk : forall A, ext_call A -> D -> A * D) p fs (d : D) :
  match destroy_flows dpdk p fs d with
  | (Ok _, (t, _)) => acts t = map (fun f => Ev (c_flow_destroy p f) 0) fs
  | (Panic _, (t, _)) => exists k f r, fs !! k = Some f /\ r <> 0
      /\ acts t = map (fun f => Ev (c_flow_destroy p f) 0) (take k fs) ++ [Ev (c_flow_destroy p f) r]
  | (UB, _) => False
  end.
Proof.
  revert d. induction fs as [|f fs IH]; intros d; cbn [destroy_flows]; [done|].
  unfold mbind, nic_bind, call, lift. destruct (dpdk _ (c_flow_query p f) d) as [q d1].
  destruct (dpdk _ (c_flow_destroy p f) d1) as [r d2]. destruct (Z.eqb_spec r 0) as [->|Hr]; cbn [negb].
  - specialize (IH d2). destruct (destroy_flows dpdk p fs d2) as [[u|e|] [t d3]]; [|..|done]; cbn.
    + f_equal. exact IH.
    + destruct IH as (k & g & r & Hk & Hr & IH). exists (S k), g, r. split_and!; [done..|].
      cbn. f_equal. exact IH.
  - by exists O, f, r.
Qed.

End Nic.
Import Nic.

(** C15. Setting up the port is all or nothing, whatever the driver answers.  When
    it returns zero, the calls that change the card were exactly these, all
    of them successful and in this order: the configuration, the adjustment of
    the descriptor numbers, each receive queue and then each transmit queue
    once with the adjusted number, the start, and the flow control set to none
    with its other fields kept; and the link was seen up within ninety polls.
    When it returns another value, the adjustment answered it and no queue was
    set up.  When it stops, it does so at the first answer that is a failure
    and with the positive error code of it, or after ninety polls of a link
    that is down.  Nothing is undefined. *)
Theorem init_dpdk_port_correct {D} (dpdk : forall A, ext_call A -> D -> A * D) p pool ntx nrx (d : D) :
  (forall A (c : ext_call A) d z, negated c (dpdk A c d).1 = Some z -> INT_MIN < z <= INT_MAX) ->
  0 <= ntx -> 0 <= nrx ->
  match init_dpdk_port dpdk p pool ntx nrx d with
  | (Ok v, (t, _)) => quiet t /\ port_ready p pool ntx nrx v t
  | (Panic e, (t, _)) => stopped e t
  | (UB, _) => False
  end.
Proof. intros Hi Htx Hrx. by apply (triple_init dpdk Hi). Qed.

(** With a card that works and whose link comes up within ninety delays of a
    tenth of a second, the environment layer and then the port come up: both
    calls return zero, and the port has been set up and started as planned. *)
Theorem port_comes_up {D} (dpdk : forall A, ext_call A -> D -> A * D) p up_in k arg args pool ntx nrx (d : D) :
  Healthy dpdk p up_in ->
  (forall A (c : ext_call A) d z, negated c (dpdk A c d).1 = Some z -> INT_MIN < z <= INT_MAX) ->
  up_in k d -> (k < 90)%nat -> 0 <= ntx -> 0 <= nrx ->
  exists t0 d0 t1 d1 rxd txd sock info fc,
    dpdk_net_init dpdk (Some (arg :: args)) d = (Ok 0, (t0, d0))
    /\ init_dpdk_port dpdk p pool ntx nrx d0 = (Ok 0, (t1, d1))
    /\ acts t1 = setup_plan p pool ntx nrx rxd txd sock info ++ start_plan p fc
    /\ link_seen t1.
Proof.
  intros Hh Hi Hd Hk Htx Hrx.
  destruct (total_net_init dpdk p up_in k arg args d Hd) as (r0 & t0 & d0 & k0 & E0 & -> & Hd0 & L0).
  destruct (total_init dpdk p up_in k0 pool ntx nrx ltac:(unfold retry_count; lia) d0 Hd0)
    as (r1 & t1 & d1 & k1 & E1 & -> & _).
  pose proof (triple_init dpdk Hi p pool ntx nrx Htx Hrx d0) as Ht. rewrite E1 in Ht.
  destruct Ht as (_ & (rxd & txd & sock & info & fc & Hacts) & Hl).
  by exists t0, d0, t1, d1, rxd, txd, sock, info, fc.
Qed.

(** C26. Registering the flow rule of a context never stops the process.  On success
    exactly one rule was created and remembered; it takes to the context's queue
    the UDP datagrams for the context's address and port, in whatever they
    differ otherwise, and no other packet.  On failure the error code says so
    and the context is as it was. *)
Theorem set_fdir_correct {D} (dpdk : forall A, ext_call A -> D -> A * D) (c : net_ctx) (d : D) :
  addr_ok (nx_udp c) ->
  match set_fdir dpdk c d with
  | (Ok (e, c'), (t, _)) =>
    (e = 0 /\ exists rule f, acts t = [Ev (c_flow_create (nx_port_id c) rule) f] /\ f <> NULL
       /\ c' = mk_netctx (nx_id c) (nx_port_id c) (nx_flows c ++ [f]) (nx_pool c) (nx_udp c)
       /\ forall pkt, wire_ok pkt ->
            steers rule pkt = if decide (addressed (nx_udp c) pkt) then Some (u16 (nx_id c)) else None)
    \/ (e = ENOTRECOVERABLE /\ c' = c
        /\ Forall (fun ev => exists rule, ev = Ev (c_flow_create (nx_port_id c) rule) NULL) (acts t))
  | _ => False
  end.
Proof.
  intros Hok. unfold set_fdir, generate_ipv4_flow.
  pose proof (fun pkt H => fdir_rule_steers (nx_udp c) (u16 (nx_id c)) pkt Hok H) as Hst.
  rewrite ipv4_rule_eq in Hst |- *.
  set (rule := mk_rule true _ _) in *. unfold mbind, nic_bind, lift, call, mret, nic_ret.
  destruct (dpdk _ (c_flow_validate _ rule) d) as [res d1]. destruct (res =? 0).
  - destruct (dpdk _ (c_flow_create _ rule) d1) as [f d2]. destruct (Z.eqb_spec f NULL) as [->|Hf].
    + right. split; [done|]. split; [done|]. constructor; [by exists rule|constructor].
    + left. split; [done|]. exists rule, f. split_and!; [done..|].
      intros pkt Hp. destruct (Hst pkt Hp) as (rule' & [= <-] & E). exact E.
  - right. split; [done|]. split; [done|]. constructor.
Qed.


(** The statistics of the device.  Where the function reports an error, every
    block it allocated has been freed, once and in the order of allocation.
    Where it succeeds, it has printed the statistics that are not zero, each
    with its name and in order, and it has freed neither of its two blocks.
    It is undefined exactly when the basic statistics could not be read. *)
Theorem device_stats_memory {D} (dpdk : forall A, ext_call A -> D -> A * D) p (d : D) :
  match print_dpdk_device_stats dpdk p d with
  | (Ok r, (t, _)) =>
    r = 1 /\ frees t = allocs t
    \/ r = 0 /\ frees t = [] /\ length (allocs t) = 2%nat
       /\ exists len ret vs ret' ns, Ev (c_xstats_get p len) (ret, vs) ∈ t /\ Ev (c_xstats_names p len) (ret', ns) ∈ t
            /\ printed t = shown (filled len EmptyString ns) (filled len 0 vs)
  | (Panic _, _) => False
  | (UB, (t, _)) => exists ret, t = [Ev (c_stats_get p) (ret, None)]
  end.
Proof.
  unfold print_dpdk_device_stats, mbind, nic_bind, lift, call, mret, nic_ret.
  destruct (dpdk _ (c_stats_get p) d) as [[r0 [st|]] d0]; [|by exists r0].
  destruct (dpdk _ (c_xstats_get p 0) d0) as [[len v0] d1]. destruct (Z.ltb_spec len 0); [by left|].
  destruct (dpdk _ (c_calloc len) d1) as [xs d2]. destruct (Z.eqb_spec xs NULL) as [->|Hxs]; [by left|].
  apply Z.eqb_neq in Hxs.
  destruct (dpdk _ (c_xstats_get p len) d2) as [[ret vs] d3]. destruct ((ret <? 0) || (len <? ret)).
  { destruct (dpdk _ (c_free xs) d3). left. cbn. by rewrite Hxs. }
  destruct (dpdk _ (c_calloc len) d3) as [ns d4]. destruct (Z.eqb_spec ns NULL) as [->|Hns].
  { destruct (dpdk _ (c_free xs) d4). left. cbn. by rewrite Hxs. }
  apply Z.eqb_neq in Hns.
  destruct (dpdk _ (c_xstats_names p len) d4) as [[ret' names] d5]. destruct ((ret' <? 0) || (len <? ret')).
  { destruct (dpdk _ (c_free xs) d5) as [? d6]. destruct (dpdk _ (c_free ns) d6). left. cbn. by rewrite Hxs, Hns. }
  destruct (print_loop_lines dpdk (Z.to_nat len) 0 (filled len 0 vs) (filled len EmptyString names) d5)
    as (t & d6 & -> & Ha & Hf & Hp); [lia|by rewrite length_filled..|].
  right. cbn. rewrite app_nil_r. unfold allocs, frees, printed in *. rewrite Hxs, Hns, Ha, Hf.
  split_and!; [done..|]. exists len, ret, vs, ret', names. split_and!; [set_solver..|]. by rewrite Hp.
Qed.


(** *** Witnesses: a card whose link comes up after [d] delays, and one whose
    third receive queue cannot be set up *)

Definition card {A : Type} (bad_q : option Z) (c : ext_call A) (d : nat) : A * nat :=
  match c in ext_call A return A * nat with
  | c_eal_init _ => ((3, 0), d)
  | c_dev_count_avail => (1, d)
  | c_is_valid_port q => (q =? 0, d)
  | c_dev_info_get _ => (mk_devinfo 7 (mk_txconf 0 8), d)
  | c_dev_configure _ _ _ _ => (0, d)
  | c_adjust_desc _ _ _ => ((0, (512, 256)), d)
  | c_socket_id _ => (0, d)
  | c_rx_queue_setup _ q _ _ _ _ => (if decide (bad_q = Some q) then -12 else 0, d)
  | c_tx_queue_setup _ _ _ _ _ => (0, d)
  | c_dev_start _ => (0, d)
  | c_fc_get _ => ((0, mk_fc 3 9), d)
  | c_fc_set _ _ => (0, d)
  | c_link_get _ => (mk_link (match d with O => 1 | S _ => 0 end) 0, d)
  | c_delay_ms _ => (tt, pred d)
  | c_mac_addr_add _ _ _ => (0, d)
  | c_macaddr_get _ => ((0, 11), d)
  | c_flow_validate _ _ => (0, d)
  | c_flow_create _ _ => (100, d)
  | c_flow_query _ _ => (0, d)
  | c_flow_destroy _ _ => (0, d)
  | c_pool_create _ _ _ _ _ _ => (200, d)
  | c_pool_cache_size _ => (512, d)
  | c_default_cache _ _ => (1, d)
  | c_pool_free _ => (tt, d)
  | c_stats_get _ => ((0, Some []), d)
  | c_xstats_get _ _ => ((0, []), d)
  | c_xstats_names _ _ => ((0, []), d)
  | c_calloc _ => (300, d)
  | c_free _ => (tt, d)
  | c_printf _ => (tt, d)
  end.

Lemma card_ints bad A (c : ext_call A) d z : negated c (card bad c d).1 = Some z -> INT_MIN < z <= INT_MAX.
Proof.
  unfold INT_MIN, INT_MAX. destruct c; cbn; try discriminate; intros [= <-]; try lia. case_decide; lia.
Qed.

#[export] Instance card_healthy : Healthy (fun A c => card None c) 0 (fun k d => d = k).
Proof. intros A c d k ->. destruct c; cbn; (split; [|done]); try done; by intros ->. Qed.

Lemma init_dpdk_port_correct_witness :
  match init_dpdk_port (fun A c => card (Some 2) c) 0 200 4 4 5%nat with
  | (Ok v, (t, _)) => quiet t /\ port_ready 0 200 4 4 v t
  | (Panic e, (t, _)) => stopped e t
  | (UB, _) => False
  end
  /\ (init_dpdk_port (fun A c => card (Some 2) c) 0 200 4 4 5%nat).1 = Panic 12.
Proof.
  split; [|vm_compute; reflexivity].
  apply (init_dpdk_port_correct (fun A c => card (Some 2) c) 0 200 4 4 5%nat); [apply card_ints|lia..].
Defined.

Lemma port_comes_up_witness :
  exists t0 d0 t1 d1 rxd txd sock info fc,
    dpdk_net_init (fun A c => card None c) (Some ["-l"; "0"]%string) 5%nat = (Ok 0, (t0, d0))
    /\ init_dpdk_port (fun A c => card None c) 0 200 4 1 d0 = (Ok 0, (t1, d1))
    /\ acts t1 = setup_plan 0 200 4 1 rxd txd sock info ++ start_plan 0 fc
    /\ link_seen t1.
Proof.
  apply (port_comes_up (fun A c => card None c) 0 (fun k d => d = k) 5 "-l" ["0"]%string 200 4 1 5%nat);
    [exact card_healthy|apply card_ints|reflexivity|lia..].
Defined.

Definition ctx_b : UdpContext := mk_udpctx 0x0100000a 32768 0 0 1 0 (mk_rxq [] 0 0) [] 0 0.

Lemma set_fdir_correct_witness :
  match set_fdir (fun A c => card None c) (mk_netctx 3 0 [] 200 ctx_b) O with
  | (Ok (e, c'), (t, _)) =>
    (e = 0 /\ exists rule f, acts t = [Ev (c_flow_create 0 rule) f] /\ f <> NULL
       /\ c' = mk_netctx 3 0 [f] 200 ctx_b
       /\ forall pkt, wire_ok pkt -> steers rule pkt = if decide (addressed ctx_b pkt) then Some 3 else None)
    \/ (e = ENOTRECOVERABLE /\ c' = mk_netctx 3 0 [] 200 ctx_b
        /\ Forall (fun ev => exists rule, ev = Ev (c_flow_create 0 rule) NULL) (acts t))
  | _ => False
  end.
Proof.
  apply (set_fdir_correct (fun A c => card None c) (mk_netctx 3 0 [] 200 ctx_b) O).
  split; cbn; lia.
Defined.

(** A response of a server at port 6789 on another address. *)
Definition ctx_server : UdpContext := mk_udpctx 0x0200000a 6789 0 0 2 0 (mk_rxq [] 0 0) [] 0 0.
Definition pkt_old : rte_mbuf :=
  mk_mbuf (mk_eth 2 1 8) (mk_ip 69 0 64 17 0x0100000a 0x0200000a) (mk_udp 128 0 0) [0; 0; 0; 0] 14 20 0 0 0 0 1.
Definition pkt_new : rte_mbuf :=
  mk_mbuf (mk_eth 1 2 8) (mk_ip 69 (hton16 28) 64 17 0x0200000a 0x0200000a)
    (mk_udp (hton16 6789) (hton16 6789) (hton16 8)) [0; 0; 0; 0] 14 20 0 0 42 42 1.


