(* ===== verification/NetDebug.v ===== *)
(** * NetDebug: the packet filter of the debugging build

    With [NET_DEBUG] ([src/include/psp/libos/io/udp_dpdk/context.hh]) the
    function [parse_packet] of [src/src/c++/libos/io/udp_dpdk/context.cc] reads
    the headers of a packet and frees it when it is not for the context.  The
    rest of that build prints.  [rte_pktmbuf_read] answers null for a packet
    that is too short, and the code does not test for it. *)
From S2P Require Import Prelude Fail Interfaces Base Ring Bytes Dispatcher Worker NetWorker System Udp Nic.
Import Udp Nic.

Module NetDebug.

Definition ether_broadcast : Z := 0xffffffffffff.

(** [pktmbuf_struct_read] and the access through its result: [h] is the header
    of that size at the offset. *)
Definition pktmbuf_struct_read {T} (p : rte_mbuf) (offset size : Z) (h : T) : outcome T :=
  if offset + size <=? pkt_len p then Ok h else UB.

(** [gone] lists the packets that were freed. *)
Definition parse_packet_debug (c : UdpContext) (m : packets) (pkt : Z) (r : rxq) (gone : list Z)
  : outcome (Z * rxq * list Z) :=
  p ← get_pkt m pkt;
  eth ← pktmbuf_struct_read p 0 ETH_HDR (eth_hdr p);
  if negb (d_addr eth =? my_mac c) && negb (d_addr eth =? ether_broadcast) then Ok (0, r, gone ++ [pkt])
  else
    iph ← pktmbuf_struct_read p ETH_HDR IP_HDR (ip_hdr p);
    if negb (next_proto_id iph =? IPPROTO_UDP) then Ok (0, r, gone ++ [pkt])
    else
      udp ← pktmbuf_struct_read p (ETH_HDR + IP_HDR) UDP_HDR (udp_hdr p);
      if negb (ntoh16 (dst_port udp) =? port c) then Ok (0, r, gone ++ [pkt])
      else '(e, r) ← parse_packet pkt r; Ok (e, r, gone).

(** The loop of [recv_packets] over a burst. *)
Fixpoint parse_all_debug (c : UdpContext) (m : packets) (pkts : list Z) (r : rxq) (gone : list Z)
  : outcome (rxq * list Z) :=
  match pkts with
  | [] => Ok (r, gone)
  | p :: pkts =>
    '(e, r, gone) ← parse_packet_debug c m p r gone;
    _ ← PSP_OK e;
    parse_all_debug c m pkts r gone
  end.

(** ** What is let through *)

(** The address of the frame is that of the context, or all. *)
Definition framed (c : UdpContext) (p : rte_mbuf) : Prop :=
  d_addr (eth_hdr p) = my_mac c \/ d_addr (eth_hdr p) = ether_broadcast.

Definition accepts (c : UdpContext) (p : rte_mbuf) : Prop :=
  framed c p /\ next_proto_id (ip_hdr p) = IPPROTO_UDP /\ ntoh16 (dst_port (udp_hdr p)) = port c.

#[export] Instance accepts_dec c p : Decision (accepts c p).
Proof. unfold accepts, framed. solve_decision. Defined.

Definition accepted (c : UdpContext) (m : packets) (a : Z) : Prop :=
  match m !! a with Some p => accepts c p | None => False end.

#[export] Instance accepted_dec c m a : Decision (accepted c m a).
Proof. unfold accepted. destruct (m !! a); apply _. Defined.

(** The packets of a burst have all three headers. *)
Definition whole (m : packets) (a : Z) : Prop :=
  exists p, m !! a = Some p /\ ETH_HDR + IP_HDR + UDP_HDR <= pkt_len p.

Lemma parse_packet_debug_ok c m a r l gone :
  whole m a -> in_rep r l -> Z.of_nat (length l) < INBOUND_Q_LEN ->
  exists r', parse_packet_debug c m a r gone
      = Ok (0, r', if decide (accepted c m a) then gone else gone ++ [a])
    /\ in_rep r' (if decide (accepted c m a) then l ++ [a] else l).
Proof.
  intros (p & Ha & Hl) Hr Hlen. unfold parse_packet_debug, get_pkt, pktmbuf_struct_read.
  rewrite Ha. cbn [mbind outcome_bind].
  rewrite !(proj2 (Z.leb_le _ _)) by (unfold ETH_HDR, IP_HDR, UDP_HDR in *; lia). cbn [mbind outcome_bind].
  assert (Hacc : accepted c m a <-> accepts c p) by (unfold accepted; by rewrite Ha).
  destruct (decide (accepted c m a)) as [Hc|Hc]; rewrite Hacc in Hc; unfold accepts, framed in Hc.
  - destruct Hc as (Hf & Hp & Hq). rewrite (proj2 (Z.eqb_eq _ _) Hp), (proj2 (Z.eqb_eq _ _) Hq).
    replace (negb _ && negb _) with false by (destruct Hf as [-> | ->]; rewrite Z.eqb_refl, ?andb_false_r; done).
    cbn [negb]. destruct (parse_packet_ok r l a Hr Hlen) as (r' & -> & Hr'). by exists r'.
  - exists r. split; [|done].
    destruct (Z.eqb_spec (d_addr (eth_hdr p)) (my_mac c)), (Z.eqb_spec (d_addr (eth_hdr p)) ether_broadcast);
      cbn [negb andb]; try done;
      destruct (Z.eqb_spec (next_proto_id (ip_hdr p)) IPPROTO_UDP); cbn [negb]; try done;
      destruct (Z.eqb_spec (ntoh16 (dst_port (udp_hdr p))) (port c)); cbn [negb]; try done; tauto.
Qed.

Lemma parse_all_debug_ok c m ps r l gone :
  Forall (whole m) ps -> in_rep r l -> Z.of_nat (length l + length ps) <= INBOUND_Q_LEN ->
  exists r', parse_all_debug c m ps r gone = Ok (r', gone ++ filter (fun a => ~ accepted c m a) ps)
    /\ in_rep r' (l ++ filter (accepted c m) ps).
Proof.
  intros Hw. revert r l gone. induction Hw as [|a ps Ha _ IH]; intros r l gone Hr Hl; cbn [parse_all_debug].
  { exists r. by rewrite !app_nil_r. }
  cbn [length] in Hl. destruct (parse_packet_debug_ok c m a r l gone Ha Hr) as (r1 & -> & H1); [lia|].
  cbn [mbind outcome_bind]. change (PSP_OK 0) with (Ok tt). cbn [mbind outcome_bind].
  rewrite !filter_cons. destruct (decide (accepted c m a)) as [Hc|Hc].
  - rewrite (decide_False (P := ~ accepted c m a)) by tauto.
    destruct (IH r1 (l ++ [a]) gone H1) as (r2 & -> & H2); [rewrite length_app; cbn [length]; lia|].
    exists r2. split; [done|]. by rewrite <- app_assoc in H2.
  - rewrite decide_True by done. destruct (IH r1 l (gone ++ [a]) H1) as (r2 & -> & H2); [lia|].
    exists r2. split; [|done]. by rewrite <- app_assoc.
Qed.

End NetDebug.
Import NetDebug.

(** The filter of the debugging build.  Of a burst of whole packets that fits
    into the ring, those accepted are behind the others there, in order, and
    exactly the rest are freed, each once.  A packet that the flow rule of the
    context takes is accepted exactly when the frame was addressed to the
    context or to all, and a packet is only accepted with the protocol and the
    port that the rule asks for.  A packet without a whole Ethernet header is
    undefined. *)
Theorem debug_filter_correct c m q ps r l :
  addr_ok c -> Forall (whole m) ps -> in_rep r l -> Z.of_nat (length l + length ps) <= INBOUND_Q_LEN ->
  exists r' rule, parse_all_debug c m ps r [] = Ok (r', filter (fun a => ~ accepted c m a) ps)
    /\ in_rep r' (l ++ filter (accepted c m) ps)
    /\ ipv4_rule q (fdir_filter c) = Ok rule
    /\ (forall a p, m !! a = Some p -> wire_ok p -> steers rule p = Some q -> accepted c m a <-> framed c p)
    /\ (forall a p, m !! a = Some p -> wire_ok p -> accepted c m a ->
          ether_type (eth_hdr p) = hton16 RTE_ETHER_TYPE_IPV4 -> dst_addr (ip_hdr p) = ip c -> steers rule p = Some q)
    /\ (forall a p r, m !! a = Some p -> pkt_len p < ETH_HDR -> parse_packet_debug c m a r [] = UB).
Proof.
  intros Hc Hw Hr Hl. destruct (parse_all_debug_ok c m ps r l [] Hw Hr Hl) as (r' & E & Hr').
  pose proof (ipv4_rule_eq q (fdir_filter c)) as Er. set (rule := mk_rule _ _ _) in Er. exists r', rule.
  split; [exact E|]. split; [exact Hr'|]. split; [exact Er|].
  assert (Hst : forall p, wire_ok p -> steers rule p = if decide (addressed c p) then Some q else None).
  { intros p Hp. destruct (fdir_rule_steers c q p Hc Hp) as (rule' & Er' & Hs).
    rewrite Er in Er'. by injection Er' as <-. }
  clearbody rule.
  split; [|split].
  - intros a p Ha Hp. rewrite (Hst p Hp). unfold accepted. rewrite Ha.
    case_decide as Had; [|done]. intros _. destruct Had as (_ & Hproto & _ & Hport). unfold accepts. tauto.
  - intros a p Ha Hp. unfold accepted. rewrite Ha. intros (_ & H1 & H2) He Hip. rewrite (Hst p Hp).
    by rewrite decide_True by done.
  - intros a p r0 Ha Hs. unfold parse_packet_debug, get_pkt, pktmbuf_struct_read. rewrite Ha. cbn [mbind outcome_bind].
    by rewrite (proj2 (Z.leb_gt (0 + ETH_HDR) (pkt_len p))) by lia.
Qed.

(** *** Witness: a packet for the context, and one for another *)

Definition debug_pkt (mac : Z) : rte_mbuf :=
  mk_mbuf (mk_eth mac 9 (hton16 RTE_ETHER_TYPE_IPV4)) (mk_ip 69 0 64 IPPROTO_UDP 5 0x0100000a)
    (mk_udp 1 (hton16 32768) 0) [] 14 20 8 0 60 60 1.

Lemma debug_filter_correct_witness :
  exists r', parse_all_debug ctx_b {[ 100 := debug_pkt 7; 200 := debug_pkt 1 ]} [100; 200]
      (mk_rxq (replicate 128 0) 0 0) [] = Ok (r', [100])
    /\ in_rep r' [200].
Proof.
  destruct (debug_filter_correct ctx_b {[ 100 := debug_pkt 7; 200 := debug_pkt 1 ]} 3 [100; 200]
    (mk_rxq (replicate 128 0) 0 0) []) as (r' & rule & E & Hr & _).
  - split; cbn; lia.
  - repeat constructor; eexists; split; (reflexivity || (cbn; unfold ETH_HDR, IP_HDR, UDP_HDR; lia)).
  - apply rrel_in_rep. split; cbn; [by apply ring_empty|lia|lia|lia].
  - cbn. unfold INBOUND_Q_LEN. lia.
  - exists r'. split; [exact E|exact Hr].
Defined.
