(* ===== verification/Hash.v ===== *)
(** * Hash: hashes of one and two words

    Models [src/include/base/hash.h] and the CRC instruction of
    [src/include/asm/ops.h].  The instruction is the CRC of its bits, least
    significant first, by the polynomial of CRC-32C. *)
From Stdlib Require Import Znumtheory Zpow_facts.
From S2P Require Import Prelude Base.

Module Hash.

(** ** The CRC *)

(** The polynomial 0x11EDC6F41, reflected. *)
Definition CRC32C_POLY : Z := 0x82F63B78.

Definition crc_bit (x : Z) : Z := Z.lxor (Z.shiftr x 1) (if Z.odd x then CRC32C_POLY else 0).

(** [crc32q]: the low half of the register takes part, and the high half of the
    result is zero. *)
Definition __mm_crc32_u64 (crc val : Z) : Z := Nat.iter 64 crc_bit (Z.lxor (u32 crc) val).

Definition hash_crc32c_one (seed val : Z) : Z := u32 (__mm_crc32_u64 seed val).

Definition hash_crc32c_two (seed a b : Z) : Z :=
  let seed := u32 (__mm_crc32_u64 seed a) in u32 (__mm_crc32_u64 seed b).

(** ** CityHash of eight and of sixteen bytes *)

Definition HASH_CITY_K2 : Z := 0x9ae16a3b2f90404f.

Definition xorshift (a : Z) : Z := Z.lxor a (Z.shiftr a 47).

Definition __hash_city_len16 (u v mul : Z) : Z :=
  let a := u64 (Z.lxor u v * mul) in
  let a := xorshift a in
  let b := u64 (Z.lxor v a * mul) in
  let b := xorshift b in
  u64 (b * mul).

(** A shift by the width or more has no meaning. *)
Definition __hash_city_rotate (val shift : Z) : outcome Z :=
  if (0 <? shift) && (shift <? 64) then
    Ok (Z.lor (Z.shiftr val shift) (u64 (Z.shiftl val (64 - shift))))
  else UB.

Definition hash_city_two (val_a val_b : Z) : outcome Z :=
  let mul := u64 (HASH_CITY_K2 + 32) in
  let a := u64 (val_a + HASH_CITY_K2) in
  let b := val_b in
  rb ← __hash_city_rotate b 37;
  let c := u64 (rb * mul + a) in
  ra ← __hash_city_rotate a 25;
  let d := u64 ((ra + b) * mul) in
  Ok (__hash_city_len16 c d mul).

Definition hash_city_one (val : Z) : outcome Z :=
  let mul := u64 (HASH_CITY_K2 + 16) in
  let a := u64 (val + HASH_CITY_K2) in
  let b := val in
  rb ← __hash_city_rotate b 37;
  let c := u64 (rb * mul + a) in
  ra ← __hash_city_rotate a 25;
  let d := u64 ((ra + b) * mul) in
  Ok (__hash_city_len16 c d mul).

(** The time-stamp counter, from the two halves the instruction gives, and the
    pseudorandom values made of it. *)
Definition rdtsc (a d : Z) : Z := Z.lor a (u64 (Z.shiftl d 32)).

Definition rand_crc32c (seed a d : Z) : Z := hash_crc32c_one seed (rdtsc a d).

Definition rand_city (a d : Z) : outcome Z := hash_city_one (rdtsc a d).

(** ** Lemmas *)

Lemma bits_range k a : 0 <= k -> 0 <= a -> (forall n, k <= n -> Z.testbit a n = false) -> 0 <= a < 2 ^ k.
Proof.
  intros Hk Ha Hb. split; [done|]. assert (H : a = a mod 2 ^ k).
  { apply Z.bits_inj'. intros n Hn. destruct (Z.lt_ge_cases n k).
    - by rewrite Z.mod_pow2_bits_low by lia.
    - rewrite Z.mod_pow2_bits_high by lia. by apply Hb. }
  rewrite H. apply Z.mod_pos_bound. lia.
Qed.

Lemma crc_bit_lxor x y : crc_bit (Z.lxor x y) = Z.lxor (crc_bit x) (crc_bit y).
Proof.
  unfold crc_bit. rewrite Z.shiftr_lxor, <- !Z.bit0_odd, Z.lxor_spec.
  apply Z.bits_inj'. intros n Hn. rewrite !Z.lxor_spec.
  destruct (Z.testbit x 0), (Z.testbit y 0); cbn [xorb]; rewrite ?Z.bits_0;
    repeat destruct (Z.testbit _ n); done.
Qed.

Lemma crc_iter_lxor n x y : Nat.iter n crc_bit (Z.lxor x y) = Z.lxor (Nat.iter n crc_bit x) (Nat.iter n crc_bit y).
Proof. induction n as [|n IH]; [done|]. by rewrite !Nat.iter_succ, IH, crc_bit_lxor. Qed.

Lemma crc_bit_range k x : 32 <= k -> 0 <= x < 2 ^ (k + 1) -> 0 <= crc_bit x < 2 ^ k.
Proof.
  intros Hk Hx. apply lxor_range; [lia| |].
  - rewrite Z.shiftr_div_pow2 by lia. change (2 ^ 1) with 2. rewrite Z.pow_add_r in Hx by lia.
    change (2 ^ 1) with 2 in Hx. split; [apply Z.div_pos; lia|apply Z.div_lt_upper_bound; lia].
  - assert (2 ^ 32 <= 2 ^ k) by (apply Z.pow_le_mono_r; lia). unfold CRC32C_POLY. destruct (Z.odd x); lia.
Qed.

(** On 32-bit values a step is injective: the top bit tells which case it was. *)
Lemma crc_bit_zero x : 0 <= x < 2 ^ 32 -> crc_bit x = 0 -> x = 0.
Proof.
  unfold crc_bit. intros Hx E. apply Z.lxor_eq in E.
  destruct (Z.odd x) eqn:Eo; [|apply Z.bits_inj'; intros n Hn; rewrite Z.bits_0].
  - exfalso. apply (f_equal (fun z => Z.testbit z 31)) in E.
    rewrite Z.shiftr_spec, (high_bits x 32) in E by lia. done.
  - destruct (Z.eq_dec n 0) as [->|Hne]; [by rewrite Z.bit0_odd|].
    replace n with (n - 1 + 1) by lia. by rewrite <- Z.shiftr_spec, E, Z.bits_0 by lia.
Qed.

Lemma crc_iter_range32 n x : 0 <= x < 2 ^ 32 -> 0 <= Nat.iter n crc_bit x < 2 ^ 32.
Proof.
  intros Hx. induction n as [|n IH]; [done|]. rewrite Nat.iter_succ. apply crc_bit_range; [done|].
  change (2 ^ (32 + 1)) with (2 * 2 ^ 32). lia.
Qed.

Lemma crc_iter_zero n x : 0 <= x < 2 ^ 32 -> Nat.iter n crc_bit x = 0 -> x = 0.
Proof.
  intros Hx. induction n as [|n IH]; [done|]. rewrite Nat.iter_succ. intros E.
  apply IH, crc_bit_zero, E. by apply crc_iter_range32.
Qed.

Lemma crc_iter_range n k x : 0 <= x < 2 ^ (32 + Z.of_nat k) -> (k <= n)%nat -> 0 <= Nat.iter n crc_bit x < 2 ^ 32.
Proof.
  intros Hx Hk. replace n with ((n - k) + k)%nat by lia. rewrite Nat.iter_add. apply crc_iter_range32.
  clear Hk n. revert x Hx. induction k as [|k IH]; intros x Hx; [by rewrite Z.add_0_r in Hx|].
  rewrite Nat.iter_succ_r. apply IH. apply crc_bit_range; [lia|].
  by replace (32 + Z.of_nat k + 1) with (32 + Z.of_nat (S k)) by lia.
Qed.

Lemma mm_range crc val : 0 <= val < 2 ^ 64 -> 0 <= __mm_crc32_u64 crc val < 2 ^ 32.
Proof.
  intros Hv. apply (crc_iter_range 64 32); [|lia]. apply lxor_range; [lia| |done].
  pose proof (u32_range crc). change (2 ^ (32 + Z.of_nat 32)) with (2 ^ 64). lia.
Qed.

Lemma crc_bit_double x : crc_bit (2 * x) = x.
Proof.
  unfold crc_bit. rewrite Z.odd_mul. cbn [Z.odd andb]. rewrite Z.lxor_0_r, Z.shiftr_div_pow2 by lia.
  change (2 ^ 1) with 2. by rewrite Z.mul_comm, Z.div_mul.
Qed.

Lemma crc_iter_shift k x : Nat.iter k crc_bit (x * 2 ^ Z.of_nat k) = x.
Proof.
  revert x. induction k as [|k IH]; intros x; [cbn; lia|]. rewrite Nat.iter_succ_r.
  replace (x * 2 ^ Z.of_nat (S k)) with (2 * (x * 2 ^ Z.of_nat k))
    by (rewrite Nat2Z.inj_succ, Z.pow_succ_r by lia; lia).
  by rewrite crc_bit_double.
Qed.

(** A difference inside of 32 consecutive bits does not vanish. *)
Definition burst (e : Z) : Prop := exists d k, 0 < d < 2 ^ 32 /\ (k <= 32)%nat /\ e = d * 2 ^ Z.of_nat k.

Lemma burst_nonzero e : burst e -> Nat.iter 64 crc_bit e <> 0.
Proof.
  intros (d & k & Hd & Hk & ->) E. replace 64%nat with ((64 - k) + k)%nat in E by lia.
  rewrite Nat.iter_add, crc_iter_shift in E. apply crc_iter_zero in E; lia.
Qed.

Lemma mm_diff s v s' v' :
  Z.lxor (__mm_crc32_u64 s v) (__mm_crc32_u64 s' v') = Nat.iter 64 crc_bit (Z.lxor (Z.lxor (u32 s) (u32 s')) (Z.lxor v v')).
Proof.
  unfold __mm_crc32_u64. rewrite <- crc_iter_lxor. f_equal.
  apply Z.bits_inj'. intros n _. rewrite !Z.lxor_spec. repeat destruct (Z.testbit _ n); done.
Qed.

Lemma mm_inj_burst s v v' : burst (Z.lxor v v') -> __mm_crc32_u64 s v <> __mm_crc32_u64 s v'.
Proof.
  intros Hb E. apply (burst_nonzero _ Hb). pose proof (mm_diff s v s v') as Hd.
  by rewrite E, (Z.lxor_nilpotent (u32 s)), Z.lxor_0_l, Z.lxor_nilpotent in Hd.
Qed.

Lemma mm_inj_seed s s' v : 0 <= s < 2 ^ 32 -> 0 <= s' < 2 ^ 32 -> __mm_crc32_u64 s v = __mm_crc32_u64 s' v -> s = s'.
Proof.
  intros Hs Hs' E. apply Z.lxor_eq. pose proof (mm_diff s v s' v) as Hd.
  rewrite E, (Z.lxor_nilpotent v), Z.lxor_0_r, Z.lxor_nilpotent, !u32_id in Hd by done.
  symmetry in Hd. apply crc_iter_zero in Hd; [done|]. by apply lxor_range.
Qed.

Lemma mm_eq_iff s v v' : __mm_crc32_u64 s v = __mm_crc32_u64 s v' <-> __mm_crc32_u64 0 (Z.lxor v v') = 0.
Proof.
  rewrite <- Z.lxor_eq_0_iff, mm_diff, Z.lxor_nilpotent, Z.lxor_0_l. unfold __mm_crc32_u64.
  by rewrite Z.lxor_0_l.
Qed.

#[global] Opaque __mm_crc32_u64.

(** ** The mixing of CityHash *)

Lemma xorshift_range a : 0 <= a < 2 ^ 64 -> 0 <= xorshift a < 2 ^ 64.
Proof.
  intros Ha. apply lxor_range; [done..|]. rewrite Z.shiftr_div_pow2 by lia.
  split; [apply Z.div_pos; lia|apply Z.div_lt_upper_bound; lia].
Qed.

(** Twice the shift leaves the word: [xorshift] is its own inverse. *)
Lemma xorshift_involutive a : 0 <= a < 2 ^ 64 -> xorshift (xorshift a) = a.
Proof.
  intros Ha. unfold xorshift. apply Z.bits_inj'. intros n Hn.
  rewrite !Z.lxor_spec, !Z.shiftr_spec, Z.lxor_spec, Z.shiftr_spec, (high_bits a 64 (n + 47 + 47)) by lia.
  by destruct (Z.testbit a n), (Z.testbit a (n + 47)).
Qed.

Lemma xorshift_inj a b : 0 <= a < 2 ^ 64 -> 0 <= b < 2 ^ 64 -> xorshift a = xorshift b -> a = b.
Proof. intros Ha Hb E. by rewrite <- (xorshift_involutive a), E, xorshift_involutive. Qed.

(** Multiplication by an odd number is a bijection of the words. *)
Lemma mul_odd_inj mul a b :
  Z.odd mul = true -> 0 <= a < 2 ^ 64 -> 0 <= b < 2 ^ 64 -> u64 (a * mul) = u64 (b * mul) -> a = b.
Proof.
  intros Hodd Ha Hb E. assert (Hd : (2 ^ 64 | mul * (a - b))).
  { apply Z.mod_divide; [done|]. unfold u64 in E. rewrite Z.mul_sub_distr_l, Zminus_mod, !(Z.mul_comm mul), E.
    by rewrite Z.sub_diag. }
  apply Gauss in Hd.
  - destruct Hd as [q Hq]. assert (q = 0) by nia. lia.
  - apply rel_prime_sym, rel_prime_Zpower_r; [lia|]. apply rel_prime_sym, prime_rel_prime; [apply prime_2|].
    intros Hdiv. apply Z.mod_divide in Hdiv; [|done]. rewrite Zmod_odd, Hodd in Hdiv. done.
Qed.

Lemma lxor_inj_l v a b : Z.lxor a v = Z.lxor b v -> a = b.
Proof.
  intros E. apply (f_equal (fun z => Z.lxor z v)) in E.
  by rewrite !Z.lxor_assoc, Z.lxor_nilpotent, !Z.lxor_0_r in E.
Qed.

Lemma rotate_ok val shift :
  0 <= val < 2 ^ 64 -> 0 < shift < 64 ->
  exists r, __hash_city_rotate val shift = Ok r /\ 0 <= r < 2 ^ 64
    /\ forall i, 0 <= i < 64 -> Z.testbit r ((i - shift) mod 64) = Z.testbit val i.
Proof.
  intros Hv Hs. unfold __hash_city_rotate.
  rewrite (proj2 (Z.ltb_lt 0 shift)), (proj2 (Z.ltb_lt shift 64)) by lia. cbn [andb].
  eexists. split; [reflexivity|]. split.
  - pose proof (u64_range (Z.shiftl val (64 - shift))).
    apply bits_range; [done|apply Z.lor_nonneg; split; [apply Z.shiftr_nonneg; lia|lia]|].
    intros n Hn. by rewrite Z.lor_spec, Z.shiftr_spec, (high_bits val 64), (high_bits _ 64) by lia.
  - intros i Hi. destruct (Z.lt_ge_cases i shift).
    + replace ((i - shift) mod 64) with (i - shift + 64) by (apply (Z.mod_unique_pos _ _ (-1)); lia).
      unfold u64. rewrite Z.lor_spec, Z.shiftr_spec, (high_bits val 64), Z.mod_pow2_bits_low, Z.shiftl_spec by lia.
      cbn [orb]. f_equal. lia.
    + rewrite Z.mod_small by lia. unfold u64.
      rewrite Z.lor_spec, Z.shiftr_spec, Z.mod_pow2_bits_low, Z.shiftl_spec, (Z.testbit_neg_r val (_ - _)) by lia.
      rewrite orb_false_r. f_equal. lia.
Qed.

End Hash.
Import Hash.

(** The CRC hashes: of the same seed, two words whose differences lie within 32
    consecutive bits never collide, and of the same word no two seeds do; in a
    hash of two words a burst of differences in either of them changes the
    result.  Two words collide under one seed exactly when they do under all:
    when the hash of their difference is zero. *)
Theorem hash_crc32c_bursts s s' v v' w :
  0 <= s < 2 ^ 32 -> 0 <= s' < 2 ^ 32 -> 0 <= v < 2 ^ 64 -> 0 <= v' < 2 ^ 64 -> 0 <= w < 2 ^ 64 ->
  (burst (Z.lxor v v') ->
     hash_crc32c_one s v <> hash_crc32c_one s v' /\ hash_crc32c_two s v w <> hash_crc32c_two s v' w
     /\ hash_crc32c_two s w v <> hash_crc32c_two s w v')
  /\ (hash_crc32c_one s v = hash_crc32c_one s' v -> s = s')
  /\ (hash_crc32c_one s v = hash_crc32c_one s v' <-> hash_crc32c_one 0 (Z.lxor v v') = 0).
Proof.
  intros Hs Hs' Hv Hv' Hw. unfold hash_crc32c_two, hash_crc32c_one.
  assert (R : forall c x, 0 <= x < 2 ^ 64 -> u32 (__mm_crc32_u64 c x) = __mm_crc32_u64 c x)
    by (intros c x Hx; apply u32_id, mm_range, Hx).
  assert (Hx : 0 <= Z.lxor v v' < 2 ^ 64) by (by apply lxor_range).
  rewrite !R by done. split; [|split].
  - intros Hb. split_and!; [by apply mm_inj_burst| |by apply mm_inj_burst].
    intros E%mm_inj_seed; [|by apply mm_range..]. by apply mm_inj_burst in E.
  - by apply mm_inj_seed.
  - apply mm_eq_iff.
Qed.

(** CityHash: the hashes of one and of two words are defined and are words; the
    rotation moves bit [i] to bit [i - shift] around the word; and the final
    mixing loses nothing: with one argument and an odd multiplier fixed,
    different words give different results. *)
Theorem hash_city_mixes u u' v mul shift :
  0 <= u < 2 ^ 64 -> 0 <= u' < 2 ^ 64 -> 0 <= v < 2 ^ 64 -> Z.odd mul = true -> 0 < shift < 64 ->
  (exists h1 h2, hash_city_one u = Ok h1 /\ hash_city_two u v = Ok h2 /\ 0 <= h1 < 2 ^ 64 /\ 0 <= h2 < 2 ^ 64)
  /\ (exists r, __hash_city_rotate u shift = Ok r /\ 0 <= r < 2 ^ 64
        /\ forall i, 0 <= i < 64 -> Z.testbit r ((i - shift) mod 64) = Z.testbit u i)
  /\ (__hash_city_len16 u v mul = __hash_city_len16 u' v mul -> u = u').
Proof.
  intros Hu Hu' Hv Hm Hs. split_and!.
  - eexists _, _. split; [reflexivity|]. split; [reflexivity|]. split; apply u64_range.
  - by apply rotate_ok.
  - unfold __hash_city_len16. intros E%mul_odd_inj; [|done|apply xorshift_range, u64_range..].
    apply xorshift_inj in E; [|apply u64_range..].
    assert (X : forall x, 0 <= xorshift (u64 (Z.lxor x v * mul)) < 2 ^ 64) by (intros; apply xorshift_range, u64_range).
    apply mul_odd_inj in E; [|done|by apply lxor_range..].
    rewrite !(Z.lxor_comm v) in E. apply lxor_inj_l, xorshift_inj in E; [|apply u64_range..].
    apply mul_odd_inj in E; [|done|by apply lxor_range..]. by apply lxor_inj_l in E.
Qed.

(** *** Witnesses *)

Lemma hash_crc32c_bursts_witness :
  hash_crc32c_one 7 (0x1234 * 2 ^ 20) <> hash_crc32c_one 7 (0x4321 * 2 ^ 20)
  /\ hash_crc32c_one 0xffffffff 0 = 0x73d74d75.
Proof.
  split; [|vm_compute; reflexivity].
  apply (hash_crc32c_bursts 7 9 (0x1234 * 2 ^ 20) (0x4321 * 2 ^ 20) 5); [lia..|].
  exists 0x5115, 20%nat. split; [lia|]. split; [lia|]. vm_compute. reflexivity.
Defined.

Lemma hash_city_mixes_witness :
  (exists r, __hash_city_rotate 1 37 = Ok r /\ 0 <= r < 2 ^ 64
     /\ forall i, 0 <= i < 64 -> Z.testbit r ((i - 37) mod 64) = Z.testbit 1 i)
  /\ (__hash_city_len16 1 3 (HASH_CITY_K2 + 16) = __hash_city_len16 2 3 (HASH_CITY_K2 + 16) -> 1 = 2).
Proof. apply (hash_city_mixes 1 2 3 (HASH_CITY_K2 + 16) 37); [lia..|reflexivity|lia]. Defined.
