(* ===== verification/ClientRun.v ===== *)
(** * ClientRun: a client over a network that answers

    The play of the schedules of [Client], [src/src/c++/apps/client/client.hh], is
    composed with an environment: a clock that goes forward and a peer that
    sends each packet back, in any order and after any delay, or not yet.
    There the work of a client is defined throughout, so that it returns, and
    nothing is lost: what was sent is answered, in the receive ring or still on
    the way, and answers that come late find the next schedule. *)
From S2P Require Import Prelude Fail Interfaces Mempool Context Ring Bytes Dispatcher Worker NetWorker System Requests Udp AppWorker Schedule Client.
Import Udp Schedule Client.

Module ClientRun.

(** ** Lemmas on rings and payloads *)

Lemma parse_packet_rrel r l p :
  rrel r l -> Z.of_nat (length l) < INBOUND_Q_LEN -> pop_head r + 1 < 2 ^ 32 ->
  exists r', parse_packet p r = Ok (0, r') /\ rrel r' (l ++ [p]) /\ pop_head r' = pop_head r + 1.
Proof.
  intros [H1 H2 H3 H4] Hl Hb. unfold parse_packet. pose proof (rh_buf _ _ _ _ H1) as Hbuf.
  change (INBOUND_Q_LEN - 1) with (2 ^ 7 - 1). rewrite land_mask by done.
  change (2 ^ 7) with INBOUND_Q_LEN. rewrite H3.
  pose proof (Z.mod_pos_bound (pop_tail r + Z.of_nat (length l)) INBOUND_Q_LEN ltac:(done)) as Hm.
  rewrite arr_set_Ok by lia. cbn [mbind outcome_bind]. eexists. split; [reflexivity|]. rewrite u32_id by lia.
  split; [|cbn; lia]. split; cbn [inbound_queue pop_tail pop_head]; [by apply ring_push|lia| |lia].
  rewrite length_app. cbn [length]. lia.
Qed.

Lemma parse_all_rrel ps r l :
  rrel r l -> Z.of_nat (length l + length ps) <= INBOUND_Q_LEN -> pop_head r + Z.of_nat (length ps) < 2 ^ 32 ->
  exists r', parse_all ps r = Ok r' /\ rrel r' (l ++ ps) /\ pop_head r' = pop_head r + Z.of_nat (length ps).
Proof.
  revert r l. induction ps as [|p ps IH]; intros r l Hr Hl Hb; cbn [parse_all].
  - exists r. rewrite app_nil_r. cbn. split_and!; [done..|lia].
  - cbn [length] in *. destruct (parse_packet_rrel r l p) as (r1 & -> & H1 & H2); [done|lia..|].
    cbn. destruct (IH r1 (l ++ [p])) as (r2 & -> & H3 & H4); [done|rewrite length_app; simpl; lia|lia|].
    exists r2. rewrite <- app_assoc in H3. split_and!; [done..|lia].
Qed.

(** A buffer that a request fits into, with a word behind the payload that the
    length computed for the packet has room for. *)
Definition buffer_ok (pt : pkt_type) (sz : Z) (pkt : rte_mbuf) : Prop :=
  sizes_ok pt sz (room pkt)
  /\ exists k, load 4 (room pkt) (payload_size pt sz) = Ok k /\ 0 <= k
       /\ NET_HDR_SIZE + payload_size pt sz + k < 2 ^ 16.

(** ** The environment *)

Section environment.
Context {N : Type}.
Context (rx_burst : N -> Z -> list Z * N) (tx_burst : N -> packets -> list Z -> Z * N).
Context (take_time rdtscp : N -> Z * N) (clock : N -> Z) (wire : N -> list Z).

(** The peer: [wire] are the packets it has and has not yet sent back. *)
Record echo_laws : Prop := {
  el_clock : clock_laws rx_burst tx_burst take_time rdtscp clock;
  el_time n t n' : take_time n = (t, n') -> wire n' = wire n;
  el_tsc n t n' : rdtscp n = (t, n') -> wire n' = wire n;
  el_rx n ps n' : rx_burst n MAX_RX_BURST = (ps, n') -> wire n ≡ₚ ps ++ wire n' /\ Z.of_nat (length ps) <= MAX_RX_BURST;
  el_tx n m ps k n' : tx_burst n m ps = (k, n') -> k = Z.of_nat (length ps) /\ wire n' ≡ₚ ps ++ wire n
}.
End environment.

Section running.
Context {P : Type} `{AllocatorLaws P} {N : Type}.
Context (mtod : Z -> Z) (rx_burst : N -> Z -> list Z * N) (tx_burst : N -> packets -> list Z -> Z * N).
Context (take_time rdtscp : N -> Z * N) (l4_field : Z -> Z) (flag : Z).
Context (clock : N -> Z) (wire : N -> list Z) (Henv : echo_laws rx_burst tx_burst take_time rdtscp clock wire).
Context (blocks : gset Z) (s : sched).

(** The requests of the schedules behind this one, the buffers in use when the
    play begins, and the answers to earlier schedules that are still to come. *)
Context (later held stale : Z) (Hlater : 0 <= later).

(** What does not change while the schedule is played: the last send time is
    the end, no reading of the clock is exactly that, and the length of the
    payload fits its field. *)
Record sched_ok : Prop := {
  so_len : 2 <= Z.of_nat (length (s_send_times s));
  so_last : arr_get (s_send_times s) (Z.of_nat (length (s_send_times s)) - 1) = Ok (s_end_time s - s_offset s);
  so_end n t n' : take_time n = (t, n') -> t <> s_end_time s;
  so_l4 : l4_field (payload_size (s_ptype s) (s_pkt_size s)) = payload_size (s_ptype s) (s_pkt_size s)
    /\ 0 <= payload_size (s_ptype s) (s_pkt_size s)
}.

(** The request number [k] of the schedule, not sent yet. *)
Definition unsent (c : client P) (k : Z) : Prop :=
  exists q, cl_requests c !! Z.to_nat (send_offset c + k) = Some q /\ cr_id q = send_offset c + k /\ cr_mbuf q = NULL.

(** The buffers that [n] requests hold at most. *)
Definition demand (conc n : Z) : Z := if conc <? 0 then n else Z.min n conc.

(** [l] is the receive ring and [own] the buffers in use. *)
Record run_inv (n : N) (c : client P) (m : packets) (p : play) (l : list Z) (own : gset Z) : Prop := {
  ri_play : play_inv s c p;
  ri_port : 0 <= port (cl_udp c) < 2 ^ 16;
  ri_out : out_rep (cl_udp c) [];
  ri_out_room : push_head (cl_udp c) + (s_n_requests s + later - send_index p) < 2 ^ 32;
  ri_in : rrel (in_q (cl_udp c)) l;
  ri_in_room : pop_head (in_q (cl_udp c)) + Z.of_nat (length (wire n)) + (s_n_requests s + later - send_index p) < 2 ^ 32;
  ri_next : next_cr c = None;
  ri_pool : pool_inv (mbuf_pool c) own;
  ri_blocks : pool_blocks (mbuf_pool c) = blocks;
  ri_size : Z.of_nat (size own) <= held + (send_index p - recv_requests p);
  ri_spare : held + demand (max_concurrency c) (s_n_requests s) <= Z.of_nat (size blocks);
  ri_bufs b : b ∈ blocks -> exists pkt, m !! b = Some pkt /\ buffer_ok (s_ptype s) (s_pkt_size s) pkt;
  ri_flight : send_index p - recv_requests p + stale = Z.of_nat (length (l ++ wire n));
  ri_nodup : NoDup (l ++ wire n);
  ri_ans a : a ∈ l ++ wire n -> exists i, is_answer s (cl_id c) m own (length (cl_requests c)) a i;
  ri_reqs k : send_index p <= k < s_n_requests s + later -> unsent c k;
  ri_offset : 0 <= send_offset c /\ send_offset c + s_n_requests s + later < 2 ^ 32;
  ri_it : 1 <= send_time_it p <= Z.of_nat (length (s_send_times s))
    /\ arr_get (s_send_times s) (send_time_it p - 1) = Ok (next_send_time p - s_offset s);
  ri_done : sending_complete p = false -> send_time_it p < Z.of_nat (length (s_send_times s));
  ri_iter : iter_time p <> s_end_time s
}.

Context (Hs : sched_ok).

(** *** Waiting for answers *)

Lemma run_inv_play n c m p p' l own :
  run_inv n c m p l own ->
  (send_index p', recv_requests p', send_time_it p', next_send_time p', sending_complete p')
    = (send_index p, recv_requests p, send_time_it p, next_send_time p, sending_complete p) ->
  iter_time p' <> s_end_time s -> run_inv n c m p' l own.
Proof.
  intros [] [= E1 E2 E3 E4 E5] Hi.
  split; try rewrite E1; try rewrite E2; try rewrite E3; try rewrite E4; try rewrite E5; try done.
  destruct ri_play0. split; by rewrite ?E1, ?E2.
Qed.

(** Packets that have come in move from the wire to the ring. *)
Lemma run_inv_recv n n' c m p l own ps r' :
  run_inv n c m p l own -> wire n ≡ₚ ps ++ wire n' -> rrel r' (l ++ ps) ->
  pop_head r' = pop_head (in_q (cl_udp c)) + Z.of_nat (length ps) ->
  run_inv n' (set_udp (set_in r' (cl_udp c)) c) m p (l ++ ps) own.
Proof.
  intros [] Hw Hr Hh.
  assert (Hp : l ++ wire n ≡ₚ (l ++ ps) ++ wire n') by (rewrite <- app_assoc; by apply Permutation_app_head).
  split; cbn [cl_udp set_udp cl_id cl_requests send_offset next_cr max_concurrency mbuf_pool set_in in_q]; try done.
  - by destruct ri_play0.
  - by destruct ri_out0.
  - rewrite Hh. apply Permutation_length in Hw. rewrite length_app in Hw. lia.
  - by rewrite <- (Permutation_length Hp).
  - by rewrite <- Hp.
  - intros a Ha. apply ri_ans0. by rewrite Hp.
Qed.

Lemma recv_packets_run n c m p l own :
  run_inv n c m p l own ->
  exists st n' r' l', recv_packets rx_burst n (in_q (cl_udp c)) = Ok (st, n', r')
    /\ run_inv n' (set_udp (set_in r' (cl_udp c)) c) m p l' own.
Proof.
  intros Hi. pose proof (ri_in _ _ _ _ _ _ Hi) as Hr. unfold recv_packets.
  assert (Hsame : run_inv n (set_udp (set_in (in_q (cl_udp c)) (cl_udp c)) c) m p l own).
  { rewrite <- (app_nil_r l). apply (run_inv_recv n n c m p l own []); try done; [by rewrite app_nil_r|cbn; lia]. }
  destruct (Z.ltb_spec (u32 (pop_head (in_q (cl_udp c)) - pop_tail (in_q (cl_udp c)))) (INBOUND_Q_LEN - MAX_RX_BURST)) as [Hlt|_].
  2: by eexists _, _, _, l.
  destruct (rx_burst n MAX_RX_BURST) as [ps n'] eqn:Er.
  destruct (el_rx _ _ _ _ _ _ Henv _ _ _ Er) as [Hw Hlen].
  assert (Hl : Z.of_nat (length l) < 120).
  { destruct Hr as [_ ? E ?]. rewrite E, u32_id in Hlt by lia. unfold INBOUND_Q_LEN, MAX_RX_BURST in Hlt. lia. }
  destruct ps as [|a ps].
  - eexists _, n', _, l. split; [reflexivity|]. rewrite <- (app_nil_r l).
    apply (run_inv_recv n n' c m p l own []); try done; [by rewrite app_nil_r|cbn; lia].
  - pose proof (Permutation_length Hw) as Hwl. rewrite length_app in Hwl.
    pose proof (ri_in_room _ _ _ _ _ _ Hi) as Hroom. pose proof (pi_sent _ _ _ (ri_play _ _ _ _ _ _ Hi)) as Hsi.
    unfold MAX_RX_BURST, INBOUND_Q_LEN in *.
    destruct (parse_all_rrel (a :: ps) (in_q (cl_udp c)) l) as (r' & E & Hr' & Hh); [done|unfold INBOUND_Q_LEN; lia|lia|].
    rewrite E. cbn [mbind outcome_bind]. eexists _, n', r', (l ++ a :: ps). split; [reflexivity|].
    by apply (run_inv_recv n n').
Qed.

Lemma run_inv_wire n n' c m p l own : run_inv n c m p l own -> wire n' = wire n -> run_inv n' c m p l own.
Proof. intros [] E. split; rewrite ?E; try done. Qed.

Lemma recv_loop_run fuel n c m p l own :
  run_inv n c m p l own ->
  match recv_loop rx_burst take_time fuel s n c p with
  | Ok None => True
  | Ok (Some (n', c', p')) => recv_requests p' = recv_requests p /\ exists l', run_inv n' c' m p' l' own
  | _ => False
  end.
Proof.
  revert n c p l. induction fuel as [|fuel IH]; intros n c p l Hi; cbn [recv_loop]; [done|].
  destruct (_ <=? _).
  - split; [done|]. exists l. eapply run_inv_play; [exact Hi|done|]. apply Hi.
  - destruct (recv_packets_run n c m p l own Hi) as (st & n1 & r1 & l1 & E & Hi1). rewrite E.
    cbn [mbind outcome_bind]. destruct (take_time n1) as [now n2] eqn:Et.
    pose proof (so_end Hs _ _ _ Et) as Hend.
    assert (Hi2 : run_inv n2 (set_udp (set_in r1 (cl_udp c)) c) m
      (mk_play (send_index p) (recv_requests p) (attempts p) (u32 (ev_count p + 1)) (n_skipped p)
         (send_time_it p) (next_send_time p) now st (sending_complete p) (terminate p)) l1 own).
    { eapply run_inv_wire; [|by eapply (el_time _ _ _ _ _ _ Henv)]. eapply run_inv_play; [exact Hi1|done|exact Hend]. }
    cbn zeta. destruct (_ && _); [by apply (IH _ _ _ _ Hi2)|]. split; [done|by exists l1].
Qed.

(** *** Sending *)

(** A request whose packet can be sent goes out at once, through the ring. *)
Lemma send_request_run i n (c : client P) m q len :
  out_rep (cl_udp c) [] -> push_head (cl_udp c) + 1 < 2 ^ 32 -> 0 <= port (cl_udp c) < 2 ^ 16 ->
  0 <= i -> cl_requests c !! Z.to_nat i = Some q -> sendable m (cr_mbuf q) len ->
  exists n' u m' old new tsc,
    send_request tx_burst rdtscp l4_field flag i n c m
      = Ok (0, n', set_udp u (set_reqs (<[Z.to_nat i := set_sending tsc q]> (cl_requests c)) c), m')
    /\ out_rep u [] /\ push_head u = push_head (cl_udp c) + 1 /\ in_q u = in_q (cl_udp c)
    /\ port u = port (cl_udp c)
    /\ m !! cr_mbuf q = Some old /\ m' !! cr_mbuf q = Some new /\ room new = room old
    /\ (forall x, x <> cr_mbuf q -> m' !! x = m !! x) /\ wire n' ≡ₚ cr_mbuf q :: wire n.
Proof.
  intros Ho Hh Hport Hi Hq Hsend. unfold send_request.
  assert (Hu : u32 (push_head (cl_udp c) - push_tail (cl_udp c)) = 0).
  { destruct Ho as [_ _ -> _]. cbn [length]. word_lia. }
  rewrite Hu. cbn [Z.eqb OUTBOUND_Q_LEN]. rewrite (proj2 (arr_get_Ok _ i q)) by done. cbn [mbind outcome_bind].
  destruct (out_rep_push _ _ (cr_mbuf q) Ho) as (o & Eo & Ho'); [done|done|]. rewrite Eo. cbn [mbind outcome_bind].
  set (u0 := set_out o _ _ _) in *. cbn [app] in Ho'. unfold send_packets. change (Z.to_nat MAX_TX_BURST) with 8%nat.
  destruct (tx_loop_ok l4_field flag 8 u0 m [cr_mbuf q] (fun _ => len)) as (t & m' & Hloop & Hrep & Hall & Hoth);
    [done|done|cbn; apply NoDup_singleton|intros x ->%list_elem_of_singleton; exact Hsend|].
  rewrite Hloop. cbn [mbind outcome_bind take length]. change (0 <? Z.of_nat 1) with true.
  cbn iota. destruct (tx_burst n m' [cr_mbuf q]) as [k n1] eqn:Et.
  destruct (el_tx _ _ _ _ _ _ Henv _ _ _ _ _ Et) as [-> Hw]. cbn [length].
  rewrite Z.ltb_irrefl. cbn [mbind outcome_bind PSP_OK Z.eqb].
  destruct (rdtscp n1) as [tsc n2] eqn:Ec.
  rewrite arr_set_Ok by (apply lookup_lt_Some in Hq; lia). cbn [mbind outcome_bind].
  destruct (Hall (cr_mbuf q)) as (old & new & Hold & Hnew & Hsent); [cbn; by apply list_elem_of_singleton|].
  eexists n2, _, m', old, new, tsc. split; [reflexivity|].
  split_and!; try done; [cbn; by rewrite u32_id by (destruct Ho; lia)|by apply (sa_room _ _ _ _ Hsent)| |].
  - intros x Hx. apply Hoth. cbn. by intros ->%list_elem_of_singleton.
  - by rewrite (el_tsc _ _ _ _ _ _ Henv _ _ _ Ec), Hw.
Qed.

(** The state behind a request that has gone out in the buffer [x]. *)
Lemma run_inv_sent n n' c c' m m' p p' l own x i :
  run_inv n c m p l own -> play_inv s c' p' -> send_index p < s_n_requests s ->
  send_index p' = send_index p + 1 ->
  (recv_requests p', send_time_it p', next_send_time p', sending_complete p', iter_time p')
    = (recv_requests p, send_time_it p, next_send_time p, sending_complete p, iter_time p) ->
  i = send_offset c + send_index p ->
  fixed c' = fixed c -> port (cl_udp c') = port (cl_udp c) ->
  out_rep (cl_udp c') [] -> push_head (cl_udp c') = push_head (cl_udp c) + 1 ->
  in_q (cl_udp c') = in_q (cl_udp c) -> next_cr c' = None ->
  x ∈ blocks -> x ∉ own -> pool_blocks (mbuf_pool c') = blocks -> pool_inv (mbuf_pool c') ({[x]} ∪ own) ->
  (exists q, cl_requests c' = <[Z.to_nat i := q]> (cl_requests c)) ->
  (exists pkt, m' !! x = Some pkt /\ buffer_ok (s_ptype s) (s_pkt_size s) pkt
     /\ load 4 (room pkt) (rid_offset (s_ptype s)) = Ok (Z.lxor i (client_bits (cl_id c)))) ->
  (forall y, y <> x -> m' !! y = m !! y) -> wire n' ≡ₚ x :: wire n ->
  run_inv n' c' m' p' l ({[x]} ∪ own).
Proof.
  intros [] Hplay Hlt E1 [= E2 E3 E4 E5 E6] Hi Hfix Eport Hout Hph Hin Hnext Hx Hxo Hbl Hpool (q & Hreqs) (pkt & Hpkt & Hbuf & Hld) Hoth Hw.
  unfold fixed in Hfix. injection Hfix as F1 F2 F3. pose proof (pi_sent _ _ _ ri_play0) as Hsent.
  assert (Hi0 : 0 <= i) by lia.
  assert (Hidx : (Z.to_nat i < length (cl_requests c))%nat).
  { destruct (ri_reqs0 (send_index p)) as (q0 & Hq0 & _); [lia|]. subst i. by eapply lookup_lt_Some. }
  assert (Hp : l ++ wire n' ≡ₚ x :: (l ++ wire n)) by (rewrite Hw; symmetry; apply Permutation_middle).
  assert (Hown : forall a, a ∈ l ++ wire n -> a ∈ own) by (intros a Ha; by destruct (ri_ans0 a Ha) as (? & [? _])).
  split; rewrite ?E1, ?E2, ?E3, ?E4, ?E5, ?E6, ?F1, ?F2, ?Eport, ?Hin, ?Hph; try done.
  - lia.
  - apply Permutation_length in Hw. rewrite Hw. cbn [length]. lia.
  - rewrite size_union by set_solver. rewrite size_singleton. lia.
  - by rewrite F3.
  - intros y Hy. destruct (decide (y = x)) as [->|Hne]; [by exists pkt|]. rewrite Hoth by done. by apply ri_bufs0.
  - apply Permutation_length in Hp. rewrite Hp. cbn [length]. lia.
  - rewrite Hp. apply NoDup_cons. split; [|done]. intros Ha. by apply Hxo, Hown.
  - intros a Ha. rewrite Hp in Ha. rewrite Hreqs, length_insert. apply elem_of_cons in Ha as [->|Ha].
    + exists i. split; [set_solver|]. split; [lia|]. by exists pkt.
    + destruct (ri_ans0 a Ha) as (j & Ho & Hj & pk & Hm & Hl). exists j. split; [set_solver|]. split; [done|].
      exists pk. rewrite Hoth; [done|]. intros ->. by apply Hxo.
  - intros k Hk. destruct (ri_reqs0 k) as (q0 & Hq0 & Hid & Hmb); [lia|]. exists q0. rewrite F2, Hreqs.
    rewrite list_lookup_insert_ne by lia. done.
Qed.

(** There is a buffer for the next request, when its turn comes. *)
Lemma run_inv_buffer n c m p l own :
  run_inv n c m p l own -> send_index p < s_n_requests s ->
  (max_concurrency c <? 0) || (inflight p <? max_concurrency c) = true -> (size own < size blocks)%nat.
Proof.
  intros [] Hlt Hc. rewrite (inflight_exact _ _ _ ri_play0) in Hc. destruct ri_play0. unfold demand in *.
  apply orb_true_iff in Hc. destruct (Z.ltb_spec (max_concurrency c) 0); [lia|].
  destruct Hc as [|Hc%Z.ltb_lt]; [done|lia].
Qed.

(** What an attempt leaves as it was. *)
Definition timing (p : play) : Z * Z * bool * Z * bool :=
  (send_time_it p, next_send_time p, sending_complete p, iter_time p, terminate p).

Lemma attempt_run n c m p l own :
  run_inv n c m p l own -> send_index p < s_n_requests s ->
  exists n' c' m' p' own',
    attempt mtod tx_burst rdtscp l4_field flag s (inflight p) n c m p = Ok (false, n', c', m', p')
    /\ run_inv n' c' m' p' l own' /\ timing p' = timing p.
Proof.
  intros Hi Hlt. pose proof Hi as [].
  destruct ((max_concurrency c <? 0) || (inflight p <? max_concurrency c)) eqn:Hc.
  2: { exists n, c, m, (add_skip (add_attempt p)), own. unfold attempt. rewrite Hc. split; [done|]. split; [|done].
       by eapply run_inv_play. }
  destruct (ri_reqs0 (send_index p)) as (q & Hq & Hid & Hmb); [lia|]. pose proof (pi_sent _ _ _ ri_play0) as Hsi.
  assert (Hii : u32 (send_index (add_attempt p) + send_offset c) = send_offset c + send_index p)
    by (cbn [send_index add_attempt]; rewrite u32_id by lia; lia).
  destruct (pool_alloc_room (mbuf_pool c) own) as (x & pool & Ea & Hx & Hxo & Hbl & Hpool); [done| |].
  { rewrite ri_blocks0. apply (run_inv_buffer _ _ _ _ _ _ Hi Hlt Hc). }
  assert (Hnull : x <> NULL) by (intros ->; by apply (pool_no_null _ _ ri_pool0)).
  rewrite ri_blocks0 in Hx. destruct (ri_bufs0 x Hx) as (pkt & Hpkt & Hsz & k & Hk & Hk0 & Hk1).
  destruct (so_l4 Hs) as [Hl4 Hpl].
  destruct (gen_next_req_ok mtod l4_field (s_ptype s) (s_pkt_size s) (send_index (add_attempt p)) c m q x pool pkt)
    as (r & Eg & Hlen & Hrid & _ & Htail); rewrite ?Hii; try done; [lia|].
  rewrite Hii, Hid, Hl4 in *. set (i := send_offset c + send_index p) in *.
  set (id := Z.lxor i (client_bits (cl_id c))) in *.
  set (c1 := mk_client _ _ _ _ _ _ _) in Eg. set (pk := with_room _ _ _) in Eg.
  destruct (send_request_run i n c1 (<[x := pk]> m) (set_mbuf x (set_id id q)) (payload_size (s_ptype s) (s_pkt_size s) + k))
    as (n' & u & m' & old & new & tsc & Es & Hout & Hph & Hin & Hpo & Hold & Hnew & Hroom & Hoth & Hw);
    [done|cbn; lia|done|lia| | |].
  { cbn [cl_requests c1]. apply list_lookup_insert_eq. by eapply lookup_lt_Some. }
  { split; [done|]. exists pk, k. cbn [cr_mbuf set_mbuf]. rewrite lookup_insert_eq. split_and!; try done; [|lia].
    cbn [room l4_len pk with_room]. by rewrite Htail. }
  cbn [cr_mbuf set_mbuf] in *. rewrite lookup_insert_eq in Hold. injection Hold as <-. cbn [room pk with_room] in Hroom.
  eexists n', _, m', (add_sent (add_attempt p)), ({[x]} ∪ own).
  assert (Eat : attempt mtod tx_burst rdtscp l4_field flag s (inflight p) n c m p
    = Ok (false, n', set_next_cr None (set_udp u (set_reqs (<[Z.to_nat i := set_sending tsc (set_mbuf x (set_id id q))]>
        (cl_requests c1)) c1)), m', add_sent (add_attempt p))).
  { unfold attempt. rewrite Hc, Eg. cbn [mbind outcome_bind Z.eqb next_cr c1]. fold c1. rewrite Es. done. }
  split; [exact Eat|]. split; [|done].
  destruct (attempt_ok mtod rx_burst tx_burst take_time rdtscp l4_field flag s n c m p _ _ _ _ _ ri_play0 Hlt Eat) as (Hplay & _ & Hfix & _).
  eapply (run_inv_sent n n' c _ m m' p _ l own x i); try done.
  - cbn. apply u32_id. destruct ri_play0. lia.
  - exact (eq_trans Hbl ri_blocks0).
  - eexists. cbn [cl_requests c1 set_next_cr set_udp set_reqs]. by rewrite list_insert_insert_eq.
  - exists new. split; [done|]. unfold buffer_ok, sizes_ok in *. rewrite Hroom, Hlen, Hrid, Htail by lia. naive_solver.
  - intros y Hy. rewrite Hoth, lookup_insert_ne by done. done.
Qed.

(** Moving on to the next send time, as long as the end has not been reached. *)
Lemma next_time_run n c m p l own :
  run_inv n c m p l own -> send_time_it p < Z.of_nat (length (s_send_times s)) ->
  exists p', gen_next_send_time s p = Ok p' /\ send_time_it p' = send_time_it p + 1
    /\ run_inv n c m (if s_end_time s <=? next_send_time p' then set_complete true p' else p') l own.
Proof.
  intros Hi Hit. pose proof Hi as []. unfold gen_next_send_time.
  destruct (arr_get_lt (s_send_times s) (send_time_it p)) as [t Ht]; [lia|]. rewrite Ht. cbn [mbind outcome_bind].
  eexists. split; [reflexivity|]. cbn [send_time_it next_send_time]. split; [done|].
  assert (E : send_time_it p + 1 - 1 = send_time_it p) by lia.
  assert (E' : t + s_offset s - s_offset s = t) by lia.
  destruct (Z.leb_spec (s_end_time s) (t + s_offset s)) as [Hge|Hlt].
  - split; cbn [send_index recv_requests send_time_it next_send_time sending_complete iter_time set_complete]; try done.
    + by destruct ri_play0.
    + rewrite E, E'. split; [lia|done].
  - split; cbn [send_index recv_requests send_time_it next_send_time sending_complete iter_time]; try done.
    + by destruct ri_play0.
    + rewrite E, E'. split; [lia|done].
    + intros _. destruct (Z.eq_dec (send_time_it p + 1) (Z.of_nat (length (s_send_times s)))) as [Heq|]; [|lia].
      pose proof (so_last Hs) as Hl. replace (Z.of_nat (length (s_send_times s)) - 1) with (send_time_it p) in Hl by lia.
      rewrite Ht in Hl. injection Hl as Hl. lia.
Qed.

Lemma send_loop_run fuel n c m p l own :
  run_inv n c m p l own -> Z.of_nat (length (s_send_times s)) - send_time_it p < Z.of_nat fuel ->
  exists infl n' c' m' p' own',
    send_loop mtod tx_burst rdtscp l4_field flag fuel s (inflight p) n c m p = Ok (infl, n', c', m', p')
    /\ run_inv n' c' m' p' l own'.
Proof.
  revert n c m p own. induction fuel as [|fuel IH]; intros n c m p own Hi Hf;
    [destruct (ri_it _ _ _ _ _ _ Hi); lia|]. cbn [send_loop].
  destruct (_ && _) eqn:Hg; [|by eexists _, n, c, m, p, own].
  apply andb_true_iff in Hg as [Hg Hlt%Z.ltb_lt]. apply andb_true_iff in Hg as [Hnx%Z.leb_le Hen%Z.leb_le].
  pose proof (ri_iter _ _ _ _ _ _ Hi) as Hne. destruct (ri_it _ _ _ _ _ _ Hi) as [Hit Hget].
  assert (Hlast : send_time_it p < Z.of_nat (length (s_send_times s))).
  { destruct (Z.eq_dec (send_time_it p) (Z.of_nat (length (s_send_times s)))) as [E|]; [|lia].
    rewrite E, (so_last Hs) in Hget. injection Hget as Hget. lia. }
  destruct (attempt_run n c m p l own Hi Hlt) as (n1 & c1 & m1 & p1 & own1 & Ea & Hi1 & Ht). rewrite Ea.
  cbn [mbind outcome_bind]. unfold timing in Ht. injection Ht as T1 T2 T3 T4 T5.
  destruct (next_time_run n1 c1 m1 p1 l own1 Hi1) as (p2 & Eg & Hit2 & Hi2); [lia|]. rewrite Eg. cbn [mbind outcome_bind].
  apply (IH _ _ _ _ _ Hi2). destruct (_ <=? _); cbn [send_time_it set_complete]; lia.
Qed.

(** *** Answers *)

Lemma complete_all_keeps t idx l rs k q :
  rs !! k = Some q ->
  exists q', complete_all t idx l rs !! k = Some q' /\ cr_id q' = cr_id q /\ cr_mbuf q' = cr_mbuf q.
Proof.
  revert rs q. induction l as [|a l IH]; intros rs q Hk; [by exists q|]. cbn.
  destruct (decide (Z.to_nat (idx a) = k)) as [<-|Hne].
  - destruct (IH (alter (set_completed t) (Z.to_nat (idx a)) rs) (set_completed t q)) as (q' & Hq' & E1 & E2);
      [by rewrite list_lookup_alter_eq, Hk|]. by exists q'.
  - apply IH. by rewrite list_lookup_alter_ne.
Qed.

Lemma length_complete_all t idx l rs : length (complete_all t idx l rs) = length rs.
Proof.
  revert rs. induction l as [|a l IH]; intros rs; [done|]. exact (eq_trans (IH _) (length_alter _ _ _)).
Qed.

(** The request an answer belongs to. *)
Definition request_of (w : Z) (m : packets) (a : Z) : Z :=
  match m !! a with
  | Some pkt => match load 4 (room pkt) (rid_offset (s_ptype s)) with Ok v => Z.lxor v (client_bits w) | _ => 0 end
  | None => 0
  end.

Lemma request_of_ok w m own len a i : is_answer s w m own len a i -> is_answer s w m own len a (request_of w m a).
Proof.
  intros (Ho & Hi & pkt & Hm & Hl). unfold request_of. rewrite Hm, Hl, client_bits_roundtrip.
  split; [done|]. split; [done|]. by exists pkt.
Qed.

Lemma answer_run t n c m p l own :
  run_inv n c m p l own -> recv_requests p < s_n_requests s ->
  exists batch c' own', answer_loop (Z.to_nat MAX_RX_BURST) s t c m = Ok (batch, c', m)
    /\ run_inv n c' m (add_received batch p) (drop 8 l) own'.
Proof.
  intros Hi Hgo. pose proof Hi as []. change (Z.to_nat MAX_RX_BURST) with 8%nat.
  assert (Hp : l ++ wire n = take 8 l ++ (drop 8 l ++ wire n)) by (by rewrite app_assoc, take_drop).
  assert (Hsub : forall a, a ∈ take 8 l -> a ∈ l ++ wire n) by (intros a Ha; apply elem_of_app; left; by eapply take_incl).
  destruct (answer_loop_all 8 s t c m l own (request_of (cl_id c) m)) as (c' & E & Hr & Hq & Hpl & Hb & Hu & Hh & Hn); try done.
  { rewrite Hp in ri_nodup0. by apply NoDup_app in ri_nodup0 as (? & _). }
  { intros a Ha. destruct (ri_ans0 a (Hsub a Ha)) as [i Hai]. by eapply request_of_ok. }
  pose proof (answer_loop_ok 8 s t c m _ _ _ E) as [Hbt Hfix].
  exists (Z.of_nat (length (take 8 l))), c', (own ∖ list_to_set (take 8 l)). split; [exact E|].
  clear E. remember (in_q (cl_udp c')) as r' eqn:Er. clear Er.
  unfold fixed in Hfix. injection Hfix as F1 F2 F3.
  assert (Hlen : Z.of_nat (length (l ++ wire n)) = Z.of_nat (length (take 8 l)) + Z.of_nat (length (drop 8 l ++ wire n)))
    by (rewrite Hp at 1; rewrite length_app; lia).
  assert (Hrecv : u32 (recv_requests p + Z.of_nat (length (take 8 l))) = recv_requests p + Z.of_nat (length (take 8 l)))
    by (apply u32_id; destruct ri_play0; unfold MAX_RX_BURST in *; lia).
  split; cbn [add_received send_index recv_requests send_time_it next_send_time sending_complete iter_time];
    rewrite ?F1, ?F2, ?Hb, ?Hu, ?Hrecv, ?Hh, ?Hn, ?Hq, ?length_complete_all; cbn [in_q set_in port push_head]; try done.
  - destruct ri_play0. split; cbn [send_index recv_requests add_received]; rewrite ?Hrecv, ?F3; unfold MAX_RX_BURST in *; try lia.
  - by destruct ri_out0.
  - lia.
  - assert (Ho : list_to_set (take 8 l) ⊆ own)
      by (intros a Ha%elem_of_list_to_set; by destruct (ri_ans0 a (Hsub a Ha)) as (? & ? & _)).
    pose proof (subseteq_size _ _ Ho) as Hs8. rewrite size_difference by done.
    rewrite size_list_to_set in *; [lia|by rewrite Hp in ri_nodup0; apply NoDup_app in ri_nodup0 as (? & _)..].
  - by rewrite F3.
  - lia.
  - rewrite Hp in ri_nodup0. by apply NoDup_app in ri_nodup0 as (_ & _ & ?).
  - intros a Ha. assert (Hin : a ∈ l ++ wire n) by (rewrite Hp; apply elem_of_app; by right).
    destruct (ri_ans0 a Hin) as (i & Ho & Hi' & Hm). exists i. split; [|done].
    apply elem_of_difference. split; [done|]. rewrite elem_of_list_to_set. intros Ht.
    rewrite Hp in ri_nodup0. apply NoDup_app in ri_nodup0 as (_ & Hd & _). by apply (Hd a).
  - intros k Hk. destruct (ri_reqs0 k Hk) as (q & Hq0 & Hid & Hmb).
    destruct (complete_all_keeps t (request_of (cl_id c) m) (take 8 l) _ _ _ Hq0) as (q' & Hq' & E1 & E2).
    exists q'. rewrite F2, Hq, E1, E2. done.
Qed.

(** *** The loop *)

Lemma play_iter_run fuel n c m p l own :
  run_inv n c m p l own -> recv_requests p < s_n_requests s ->
  match play_iter mtod rx_burst tx_burst take_time rdtscp l4_field flag fuel s n c m p with
  | Ok None => True
  | Ok (Some (n', c', m', p')) => exists l' own', run_inv n' c' m' p' l' own'
  | _ => False
  end.
Proof.
  intros Hi Hgo. unfold play_iter.
  assert (Hi0 : run_inv n c m (set_status EAGAIN p) l own) by (eapply run_inv_play; [exact Hi|done|apply Hi]).
  pose proof (recv_loop_run fuel n c m _ l own Hi0) as Hr.
  destruct (recv_loop _ _ _ _ _ _ _) as [[[[n1 c1] p1]|]| |]; try done. cbn [mbind outcome_bind].
  destruct Hr as [Hr1 [l1 Hi1]].
  destruct (send_loop_run (S (length (s_send_times s))) n1 c1 m p1 l1 own Hi1) as (infl & n2 & c2 & m2 & p2 & own2 & E & Hi2);
    [destruct (ri_it _ _ _ _ _ _ Hi1); lia|].
  destruct (send_loop_ok mtod rx_burst tx_burst take_time rdtscp l4_field flag _ _ _ _ _ _ _ _ _ _ _ (ri_play _ _ _ _ _ _ Hi1) E)
    as (_ & _ & _ & _ & Hr2 & _).
  rewrite E. cbn [mbind outcome_bind]. destruct (_ && _).
  - exists l1, own2. eapply run_inv_play; [exact Hi2|done|apply Hi2].
  - destruct (status p2 =? 0); [|by exists l1, own2]. destruct (rdtscp n2) as [t n3] eqn:Et.
    assert (Hi3 : run_inv n3 c2 m2 p2 l1 own2)
      by (eapply run_inv_wire; [exact Hi2|by eapply (el_tsc _ _ _ _ _ _ Henv)]).
    destruct (answer_run t n3 c2 m2 p2 l1 own2 Hi3) as (batch & c3 & own3 & Ea & Hi4); [cbn in Hr1; lia|]. rewrite Ea.
    cbn [mbind outcome_bind]. by exists (drop 8 l1), own3.
Qed.

Lemma play_loop_run fuel n c m p l own :
  run_inv n c m p l own ->
  match play_loop mtod rx_burst tx_burst take_time rdtscp l4_field flag fuel s n c m p with
  | Ok None => True
  | Ok (Some (n', c', m', p')) => exists l' own', run_inv n' c' m' p' l' own'
  | _ => False
  end.
Proof.
  revert n c m p l own. induction fuel as [|fuel IH]; intros n c m p l own Hi; cbn [play_loop];
    (destruct (_ && _) eqn:Hg; [|by exists l, own]); [done|]. apply andb_true_iff in Hg as [Hgo%Z.ltb_lt _].
  pose proof (play_iter_run (S fuel) n c m p l own Hi Hgo) as Hr.
  destruct (play_iter _ _ _ _ _ _ _ _ _ _ _ _ _) as [[[[[n1 c1] m1] p1]|]| |]; try done. cbn [mbind outcome_bind].
  destruct Hr as (l1 & own1 & Hi1). by apply (IH _ _ _ _ l1 own1).
Qed.

Lemma play_loop_done fuel n c m p l own :
  run_inv n c m p l own -> remaining s p < Z.of_nat fuel -> iter_time p <= clock n ->
  exists n' c' m' p' l' own',
    play_loop mtod rx_burst tx_burst take_time rdtscp l4_field flag fuel s n c m p = Ok (Some (n', c', m', p'))
    /\ run_inv n' c' m' p' l' own' /\ (s_n_requests s <= recv_requests p' \/ terminate p' = true)
    /\ unaccounted p' = unaccounted p /\ fixed c' = fixed c.
Proof.
  intros Hi Hf Ht. pose proof (play_loop_run fuel n c m p l own Hi) as Hrun.
  destruct (play_loop _ _ _ _ _ _ _ _ _ _ _ _ _) as [r| |] eqn:El; try done.
  apply (play_loop_ok mtod rx_burst tx_burst take_time rdtscp l4_field flag clock (el_clock _ _ _ _ _ _ Henv)) in El
    as (n' & c' & m' & p' & -> & Hend & _ & Hu & Hc); [|done..|apply Hi].
  destruct Hrun as (l' & own' & Hi'). by exists n', c', m', p', l', own'.
Qed.

(** Behind the loop there is a send time to report. *)
Lemma last_time_run n c m p l own :
  run_inv n c m p l own ->
  exists lst, (if sending_complete p then Ok (s_end_time s)
               else arr_get (s_send_times s) (send_time_it p) ≫= (fun t => Ok (t + s_offset s))) = Ok lst.
Proof.
  intros Hi. destruct (sending_complete p) eqn:Es; [by eexists|]. pose proof (ri_done _ _ _ _ _ _ Hi Es) as Hd.
  destruct (ri_it _ _ _ _ _ _ Hi) as [Hit _].
  destruct (arr_get_lt (s_send_times s) (send_time_it p)) as [t Ht]; [lia|]. rewrite Ht. by eexists.
Qed.

End running.

(** ** Where a play starts *)

(** A client between two schedules.  It may still have answers to earlier
    requests to come, in the receive ring [l] or on the wire; it has buffers for
    [spare] more requests and, in the counters, room for [n_reqs] more, which are
    the next ones behind its offset. *)
Record ready {P N : Type} `{AllocatorLaws P} (wire : N -> list Z) (pt : pkt_type) (sz n_reqs spare : Z)
    (n : N) (c : client P) (m : packets) (l : list Z) (own : gset Z) : Prop := {
  rd_port : 0 <= port (cl_udp c) < 2 ^ 16;
  rd_out : out_rep (cl_udp c) [] /\ push_head (cl_udp c) + n_reqs < 2 ^ 32;
  rd_in : rrel (in_q (cl_udp c)) l /\ pop_head (in_q (cl_udp c)) + Z.of_nat (length (wire n)) + n_reqs < 2 ^ 32;
  rd_pool : pool_inv (mbuf_pool c) own;
  rd_size : Z.of_nat (size own) + spare <= Z.of_nat (size (pool_blocks (mbuf_pool c)));
  rd_bufs b : b ∈ pool_blocks (mbuf_pool c) -> exists pkt, m !! b = Some pkt /\ buffer_ok pt sz pkt;
  rd_nodup : NoDup (l ++ wire n);
  rd_ans a : a ∈ l ++ wire n ->
    exists i, is_answer (mk_sched pt sz 0 [] 0 0 0 0) (cl_id c) m own (length (cl_requests c)) a i;
  rd_reqs k : 0 <= k < n_reqs -> unsent c k;
  rd_offset : 0 <= send_offset c /\ send_offset c + n_reqs < 2 ^ 32
}.

(** The invariant of the play holds at its start. *)
Lemma ready_run_inv {P : Type} `{AllocatorLaws P} {N : Type} (wire : N -> list Z) pt sz n_reqs times t0 start_time end_time
    max_duration later spare (n n' : N) (c : client P) m l own p :
  ready wire pt sz (n_reqs + later) (demand (max_concurrency c) n_reqs + spare) n c m l own -> 0 <= later -> 0 <= spare ->
  wire n' = wire n -> times !! 0%nat = Some t0 -> (2 <= length times)%nat ->
  0 < n_reqs < 2 ^ 31 - 8 -> iter_time p <> end_time -> sending_complete p = false ->
  (send_index p, recv_requests p, send_time_it p, next_send_time p) = (0, 0, 1, t0 + (start_time - t0)) ->
  run_inv wire (pool_blocks (mbuf_pool c))
    (mk_sched pt sz n_reqs times start_time end_time max_duration (start_time - t0))
    later (Z.of_nat (size own)) (Z.of_nat (length (l ++ wire n)))
    n' (set_next_cr None c) m p l own.
Proof.
  intros [] Hla Hsp Hw Ht Hl Hn Hi Hc [= E1 E2 E3 E4]. destruct rd_out0, rd_in0.
  split; cbn [s_n_requests s_send_times s_offset s_end_time s_ptype s_pkt_size cl_udp set_next_cr mbuf_pool
    send_offset cl_requests next_cr cl_id max_concurrency]; rewrite ?E1, ?E2, ?E3, ?E4, ?Hw; try done; try lia.
  - split; cbn [s_n_requests]; unfold MAX_RX_BURST; rewrite ?E1, ?E2; lia.
  - split; [lia|]. apply arr_get_Ok. split; [lia|]. change (Z.to_nat (1 - 1)) with 0%nat. rewrite Ht. f_equal. lia.
Qed.

(** And when the play is over the client is ready for what is behind it. *)
Lemma run_inv_ready {P : Type} `{AllocatorLaws P} {N : Type} (wire : N -> list Z) blocks s later held stale spare (n n' : N)
    (c : client P) m p l own :
  run_inv wire blocks s later held stale n c m p l own -> wire n' = wire n -> 0 <= later ->
  held + (demand (max_concurrency c) (s_n_requests s) + spare) <= Z.of_nat (size blocks) ->
  ready wire (s_ptype s) (s_pkt_size s) later spare n'
    (mk_client (cl_id c) (cl_udp c) (mbuf_pool c) (cl_requests c) (u32 (send_offset c + s_n_requests s))
       (next_cr c) (max_concurrency c)) m l own.
Proof.
  intros [] Hw Hla Hsp. destruct ri_play0. rewrite u32_id by lia.
  split; cbn [cl_id cl_udp mbuf_pool cl_requests send_offset max_concurrency]; rewrite ?Hw, ?ri_blocks0; try done; try lia.
  - split; [done|lia].
  - split; [done|lia].
  - unfold demand in *. destruct (Z.ltb_spec (max_concurrency c) 0); lia.
  - intros k Hk. destruct (ri_reqs0 (s_n_requests s + k)) as (q & Hq & Hid & Hmb); [lia|].
    exists q. cbn [cl_requests send_offset]. by rewrite <- Z.add_assoc.
Qed.

(** ** The schedules of a worker *)

(** A schedule that can be played with buffers of one format: no two readings of
    the clock lie exactly as far apart as its first and its last send time. *)
Record playable {N : Type} (take_time : N -> Z * N) (fuel : nat) (pt : pkt_type) (sz : Z) (x : sched_in) : Prop := {
  pl_format : si_ptype x = pt /\ si_pkt_size x = sz;
  pl_times : (2 <= length (si_send_times x))%nat;
  pl_end t0 tl n0 n1 t n2 : si_send_times x !! 0%nat = Some t0 -> last (si_send_times x) = Some tl ->
    take_time n1 = (t, n2) -> t <> (take_time n0).1 + (tl - t0);
  pl_reqs : 0 < si_n_requests x < 2 ^ 31 - 8;
  pl_duration : 0 <= si_max_duration x < Z.of_nat fuel;
  pl_fresh : send_index (si_counters x) = 0 /\ recv_requests (si_counters x) = 0
    /\ attempts (si_counters x) = 0 /\ n_skipped (si_counters x) = 0
}.

(** What a play has done: it ended with all its requests answered or with the
    time up, sent no more than there are nor more than allowed at a time, and
    every attempt is counted. *)
Record accounted (conc : Z) (x : sched_in) (p : play) : Prop := {
  ac_end : si_n_requests x <= recv_requests p \/ terminate p = true;
  ac_sent : 0 <= send_index p <= si_n_requests x;
  ac_conc : 0 <= conc -> send_index p - recv_requests p <= conc;
  ac_attempts : u32 (attempts p) = u32 (send_index p + n_skipped p)
}.

Definition total_requests (xs : list sched_in) : Z := foldr (fun x k => si_n_requests x + k) 0 xs.
Definition total_demand (conc : Z) (xs : list sched_in) : Z := foldr (fun x k => demand conc (si_n_requests x) + k) 0 xs.

(** The requests sent and the answers received in the plays. *)
Definition total_sent (rs : list (Z * Z * play)) : Z := foldr (fun r k => send_index r.2 + k) 0 rs.
Definition total_answers (rs : list (Z * Z * play)) : Z := foldr (fun r k => recv_requests r.2 + k) 0 rs.

Section schedules.
Context {P : Type} `{AllocatorLaws P} {N : Type}.
Context (mtod : Z -> Z) (rx_burst : N -> Z -> list Z * N) (tx_burst : N -> packets -> list Z -> Z * N).
Context (take_time rdtscp : N -> Z * N) (l4_field : Z -> Z) (flag : Z).
Context (clock : N -> Z) (wire : N -> list Z) (Henv : echo_laws rx_burst tx_burst take_time rdtscp clock wire).
Context (fuel : nat) (pt : pkt_type) (sz : Z).
Context (Hl4 : l4_field (payload_size pt sz) = payload_size pt sz) (Hpl : 0 <= payload_size pt sz).

Lemma playable_ends x : playable take_time fuel pt sz x ->
  exists t0 tl, si_send_times x !! 0%nat = Some t0 /\ last (si_send_times x) = Some tl
    /\ arr_get (si_send_times x) 0 = Ok t0
    /\ arr_get (si_send_times x) (Z.of_nat (length (si_send_times x)) - 1) = Ok tl.
Proof.
  intros [_ Hlen _ _ _ _]. destruct (lookup_lt_is_Some_2 (si_send_times x) 0) as [t0 Hf0]; [lia|].
  destruct (lookup_lt_is_Some_2 (si_send_times x) (pred (length (si_send_times x)))) as [tl Hl]; [lia|].
  exists t0, tl. rewrite last_lookup. split_and!; [done..| |]; apply arr_get_Ok; (split; [lia|]); [done|].
  by replace (Z.to_nat _) with (pred (length (si_send_times x))) by lia.
Qed.

(** One schedule: the play returns, and leaves the client ready for the rest. *)
Lemma play_returns x later spare n (c : client P) m l own :
  playable take_time fuel pt sz x -> 0 <= later -> 0 <= spare ->
  ready wire pt sz (si_n_requests x + later) (demand (max_concurrency c) (si_n_requests x) + spare) n c m l own ->
  exists lst e n' c' m' p l' own',
    play_schedule mtod rx_burst tx_burst take_time rdtscp l4_field flag fuel (si_ptype x) (si_pkt_size x)
      (si_n_requests x) (si_max_duration x) (si_send_times x) (si_counters x) n c m = Ok (Some (lst, e, n', c', m', p))
    /\ accounted (max_concurrency c) x p
    /\ send_index p + Z.of_nat (length (l ++ wire n)) = recv_requests p + Z.of_nat (length (l' ++ wire n'))
    /\ max_concurrency c' = max_concurrency c /\ send_offset c' = send_offset c + si_n_requests x
    /\ ready wire pt sz later spare n' c' m' l' own'.
Proof.
  intros Hx Hla Hsp Hrd. destruct (playable_ends x Hx) as (t0 & tl & Ht0 & Htl & G0 & Gl).
  destruct Hx as [[<- <-] Hlen Hread Hn Hf (H1 & H2 & H3 & H4)]. pose proof (el_clock _ _ _ _ _ _ Henv) as Hclock.
  unfold play_schedule. destruct (take_time n) as [start n1] eqn:Et1.
  assert (Hread' : forall k t k', take_time k = (t, k') -> t <> start + (tl - t0))
    by (intros k t k' E; specialize (Hread _ _ n _ _ _ Ht0 Htl E); by rewrite Et1 in Hread).
  rewrite G0, Gl. cbn [mbind outcome_bind]. set (s := mk_sched _ _ _ _ _ _ _ _).
  unfold gen_next_send_time. cbn [s_send_times s send_time_it]. rewrite G0. cbn [mbind outcome_bind].
  destruct (take_time n1) as [now n2] eqn:Et2. cbn zeta.
  destruct (cl_take _ _ _ _ _ Hclock _ _ _ Et1) as [_ C1], (cl_take _ _ _ _ _ Hclock _ _ _ Et2) as [C2 C3].
  set (p1 := mk_play _ _ _ _ _ _ _ now _ _ _).
  assert (Hs : sched_ok take_time l4_field s).
  { split; cbn; [lia|by rewrite Gl; f_equal; lia|intros k t k' E; specialize (Hread' k t k' E); lia|done]. }
  pose proof (ready_run_inv wire (si_ptype x) (si_pkt_size x) (si_n_requests x) (si_send_times x) t0 start
    (tl + (start - t0)) (si_max_duration x) later spare n n2 c m l own p1 Hrd Hla Hsp) as Hi. fold s in Hi.
  destruct (play_loop_done mtod rx_burst tx_burst take_time rdtscp l4_field flag clock wire Henv
    (pool_blocks (mbuf_pool c)) s later (Z.of_nat (size own)) (Z.of_nat (length (l ++ wire n))) Hla Hs fuel n2
    (set_next_cr None c) m p1 l own) as (n3 & c3 & m3 & p3 & l3 & own3 & E & Hi3 & Hend & Hu & Hc).
  { apply Hi; try done; [|by cbn; specialize (Hread' _ _ _ Et2); lia|by cbn; rewrite H1, H2].
    by rewrite (el_time _ _ _ _ _ _ Henv _ _ _ Et2), (el_time _ _ _ _ _ _ Henv _ _ _ Et1). }
  { unfold remaining. cbn. lia. }
  { cbn. lia. }
  rewrite E. cbn [mbind outcome_bind]. injection Hc as Hc1 Hc2 Hc3. cbn [set_next_cr cl_id send_offset max_concurrency] in *.
  destruct (last_time_run wire _ s _ _ _ _ _ _ _ _ _ Hi3) as [lst Hlst]. cbn [s_send_times s] in Hlst. rewrite Hlst.
  cbn [mbind outcome_bind]. destruct (take_time n3) as [e n4] eqn:Et4. pose proof (el_time _ _ _ _ _ _ Henv _ _ _ Et4) as Hw4.
  eexists lst, e, n4, _, m3, p3, l3, own3. split; [reflexivity|]. cbn [send_offset max_concurrency].
  pose proof Hi3 as []. destruct ri_play0. cbn [s_n_requests s] in *.
  rewrite Hw4, Hc2, u32_id by lia. split_and!; [|lia|done|done|].
  - split; [done|done|by rewrite <- Hc3|]. unfold unaccounted in Hu. cbn in Hu. rewrite H1, H3, H4 in Hu. clear -Hu. word_lia.
  - rewrite <- Hc2, <- (u32_id (send_offset c3 + si_n_requests x)) by lia.
    apply (run_inv_ready wire _ s _ _ _ spare n3 n4 c3 m3 p3 l3 own3 Hi3 Hw4 Hla). rewrite Hc3. apply Hrd.
Qed.

Lemma totals_nonneg conc xs :
  Forall (playable take_time fuel pt sz) xs -> 0 <= total_requests xs /\ 0 <= total_demand conc xs.
Proof.
  induction 1 as [|x xs Hx _ [IH1 IH2]]; cbn [total_requests total_demand foldr]; [lia|]. unfold total_requests, total_demand in *.
  pose proof (pl_reqs _ _ _ _ _ Hx). unfold demand in *. destruct (Z.ltb_spec conc 0); lia.
Qed.

(** All schedules, one after the other. *)
Lemma work_returns xs n (c : client P) m l own :
  Forall (playable take_time fuel pt sz) xs ->
  ready wire pt sz (total_requests xs) (total_demand (max_concurrency c) xs) n c m l own ->
  exists rs n' c' m' l' own',
    client_work mtod rx_burst tx_burst take_time rdtscp l4_field flag fuel xs n c m = Ok (Some (rs, n', c', m'))
    /\ Forall2 (accounted (max_concurrency c)) xs rs.*2
    /\ total_sent rs + Z.of_nat (length (l ++ wire n)) = total_answers rs + Z.of_nat (length (l' ++ wire n'))
    /\ send_offset c' = send_offset c + total_requests xs
    /\ ready wire pt sz 0 0 n' c' m' l' own'.
Proof.
  intros Hxs. revert n c m l own. induction Hxs as [|x xs Hx Hxs IH]; intros n c m l own Hrd; cbn [client_work].
  { exists [], n, c, m, l, own. split_and!; try done. cbn. lia. }
  destruct (totals_nonneg (max_concurrency c) xs Hxs) as [T1 T2].
  destruct (play_returns x (total_requests xs) (total_demand (max_concurrency c) xs) n c m l own Hx T1 T2 Hrd)
    as (lst & e & n1 & c1 & m1 & p & l1 & own1 & E & Ha & Hsum & Hc & Ho & Hrd1).
  rewrite E. cbn [mbind outcome_bind]. rewrite <- Hc in Hrd1.
  destruct (IH n1 c1 m1 l1 own1 Hrd1) as (rs & n2 & c2 & m2 & l2 & own2 & E2 & Has & Hsum2 & Ho2 & Hrd2).
  rewrite E2. cbn [mbind outcome_bind]. exists ((lst, e, p) :: rs), n2, c2, m2, l2, own2.
  split; [reflexivity|]. rewrite Hc in Has. split; [by constructor|].
  cbn [total_sent total_answers total_requests foldr snd] in *. unfold total_sent, total_answers, total_requests in *.
  split_and!; [lia|lia|done].
Qed.

End schedules.

End ClientRun.
Import ClientRun.


(** C16. A microbenchmark request across the two machines.  The client builds the
    packet of a fresh request; its payload arrives in a buffer of the server,
    whose worker handles it; the first twelve bytes of the response come back
    in a buffer of the client.  The worker has worked for the run time that the
    schedule gave the request, has counted it under its type, and the packet
    that came back is the answer to that request and to no other. *)
Theorem mb_request_served {P : Type} `{Allocator P} mtod l4_field fake_work cycles s si (c : client P) m q b pool pkt :
  let i := u32 (si + send_offset c) in
  s_ptype s = PSP_MB -> next_cr c = None -> cl_requests c !! Z.to_nat i = Some q -> cr_id q = i -> cr_mbuf q = NULL ->
  pool_alloc (mbuf_pool c) = Ok (b, pool) -> b <> NULL -> m !! b = Some pkt ->
  16 <= Z.of_nat (length (room pkt)) < 2 ^ 64 ->
  0 <= cr_type q < 2 ^ 32 -> 0 <= run_ns q < 2 ^ 32 -> fake_work (cycles (run_ns q)) = Ok tt ->
  exists c1 m1 sent, gen_next_req mtod l4_field PSP_MB (s_pkt_size s) si c m = Ok (0, c1, m1) /\ m1 !! b = Some sent
    /\ (forall bs pkt_s ms w, ms !! bs = Some pkt_s -> (16 <= length (room pkt_s))%nat ->
        take 16 (room pkt_s) = take 16 (room sent) ->
        exists w' ms' resp, App.mb_process_request fake_work cycles l4_field bs w ms = Ok (0, w', ms')
          /\ ms' !! bs = Some resp /\ l4_len resp = l4_field 12
          /\ App.mb_requests w' = u32 (App.mb_requests w + 1)
          /\ App.n_shorts w' = (if cr_type q =? req_num SHORT then u32 (App.n_shorts w + 1) else App.n_shorts w)
          /\ App.n_longs w' = (if (cr_type q =? req_num LONG) && negb (cr_type q =? req_num SHORT)
                               then u32 (App.n_longs w + 1) else App.n_longs w)
          /\ forall m2 own a back, m2 !! a = Some back -> (12 <= length (room back))%nat ->
               take 12 (room back) = take 12 (room resp) -> a ∈ own ->
               forall j, is_answer s (cl_id c) m2 own (length (cl_requests c)) a j <-> j = i).
Proof.
  intros i Hpt Hn Hq Hid Hmb Ha Hb Hp Hlen Hty Hrun Hfw.
  destruct (gen_next_req_ok mtod l4_field PSP_MB (s_pkt_size s) si c m q b pool pkt)
    as (r & E & Hr & Hrid & Hload & _); try done; [rewrite Hid; apply u32_range|].
  rewrite Hid in *. destruct (Hload eq_refl) as [Lt Lr]. rewrite !u32_id in Lt, Lr by done.
  eexists _, _, _. split; [exact E|]. split; [apply lookup_insert_eq|]. cbn [room with_room].
  intros bs pkt_s ms w Hs Hls Htake. assert (Hl16 : (16 <= length r)%nat) by lia.
  assert (Hpre : forall off, off + 4 <= 16 -> load 4 (room pkt_s) off = load 4 r off)
    by (intros off Ho; apply (load_prefix 4 16); [done..|lia]).
  unfold App.mb_process_request, get_pkt. rewrite Hs. cbn [mbind outcome_bind Z.add Z.mul Pos.add Pos.mul].
  change (4 + 4 * 2) with 12. rewrite (Hpre 12), Lr by lia. cbn [mbind outcome_bind]. rewrite Hfw.
  cbn [mbind outcome_bind]. rewrite (Hpre 4), Lt by lia. cbn [mbind outcome_bind].
  destruct (store_is_Ok 4 (room pkt_s) 12 0) as (r' & Es); [lia..|]. rewrite Es. cbn [mbind outcome_bind].
  eexists _, _, _. split; [reflexivity|]. split; [apply lookup_insert_eq|]. split; [done|].
  cbn [App.mb_requests App.n_shorts App.n_longs].
  split; [by destruct (_ =? _); [|destruct (_ =? _)]|].
  split; [by destruct (_ =? _); [|destruct (_ =? _)]|].
  split; [by destruct (cr_type q =? req_num SHORT), (cr_type q =? req_num LONG)|].
  intros m2 own a back Hback Hlb Htb Hown j. cbn [room with_room] in Htb.
  assert (Hidb : load 4 (room back) 0 = Ok (Z.lxor i (client_bits (cl_id c)))).
  { pose proof (length_store _ _ _ _ _ Es). rewrite (load_prefix 4 12 (room back) r') by (done || lia).
    rewrite (load_store_other _ _ _ _ _ _ _ Es), Hpre by lia. exact Hrid. }
  unfold is_answer. rewrite Hpt. change (rid_offset PSP_MB) with 0. split.
  - intros (_ & _ & pk & Hpk & Hl). rewrite Hback in Hpk. injection Hpk as <-. rewrite Hidb in Hl. injection Hl as Hl.
    by rewrite <- (client_bits_roundtrip (cl_id c) j), <- Hl, client_bits_roundtrip.
  - intros ->. split; [done|]. split; [|by exists back].
    apply lookup_lt_Some in Hq. pose proof (u32_range (si + send_offset c)) as Hu. fold i in Hu. lia.
Qed.

(** *** Witness: a clock with even readings and a peer that answers at once *)

Definition tick_time (e : Z * list Z) : Z * (Z * list Z) := (2 * (e.1 + 1), (e.1 + 1, e.2)).
Definition tick_clock (e : Z * list Z) : Z := 2 * e.1.

Lemma tick_echo : echo_laws loop_rx loop_tx tick_time loop_tsc tick_clock snd.
Proof.
  split.
  - split; intros *; unfold loop_rx, loop_tx, tick_time, loop_tsc, tick_clock; intros [= <- <-]; cbn; lia.
  - intros n t n' [= <- <-]. done.
  - intros n t n' [= <- <-]. done.
  - intros n ps n' [= <- <-]. cbn [snd]. rewrite take_drop, length_take. split; [done|]. unfold MAX_RX_BURST. lia.
  - intros n m ps k n' [= <- <-]. split; [done|]. cbn. apply Permutation_app_comm.
Qed.

Lemma example_ready :
  ready snd PSP_MB 0 2 2 (0, []) (example_client example_ctx_pool example_rx) example_packets [] ∅.
Proof.
  split.
  - cbn. lia.
  - split; [|cbn; lia]. split; cbn; [|done..]. by split.
  - split; [|cbn; lia]. split; cbn; [|done..]. by split.
  - exact example_ctx_pool_ok.
  - apply (bool_decide_unpack _). by vm_compute.
  - assert (E : pool_blocks (mbuf_pool (example_client example_ctx_pool example_rx)) = {[4096; 5064]})
      by (apply (bool_decide_unpack _); by vm_compute).
    rewrite E. intros b Hb. exists example_packet. split.
    + apply elem_of_union in Hb as [->%elem_of_singleton | ->%elem_of_singleton]; by vm_compute.
    + split; [split; [done|split; [cbn; lia|done]]|]. exists 0. split; [by vm_compute|]. split; [lia|by vm_compute].
  - apply NoDup_nil_2.
  - by intros a Ha%elem_of_nil.
  - intros k Hk. assert (k = 0 \/ k = 1) as [-> | ->] by lia; eexists; (split; [reflexivity|done]).
  - cbn. lia.
Qed.

(** Two schedules of one request each. *)
Definition example_scheds : list sched_in :=
  [mk_sched_in PSP_MB 0 1 200 [0; 51] example_play; mk_sched_in PSP_MB 0 1 200 [60; 70; 99] example_play].

Lemma example_playable : Forall (playable tick_time 201 PSP_MB 0) example_scheds.
Proof.
  repeat constructor; cbn; try lia; intros t0 tl n0 n1 t n2 [= <-] [= <-] [= <- _]; cbn; lia.
Qed.


Lemma mb_process_length fake_work cycles l4_field b w (ms ms' : packets) w' p r :
  App.mb_process_request fake_work cycles l4_field b w ms = Ok (0, w', ms') ->
  ms !! b = Some p -> ms' !! b = Some r -> length (room r) = length (room p).
Proof.
  unfold App.mb_process_request, get_pkt. intros E Hp Hr. rewrite Hp in E. ok_inv E.
  rewrite lookup_insert_eq in Hr. injection Hr as <-. cbn [mbind outcome_bind room with_room] in *. ok_inv E0. by eapply length_store.
Qed.

Lemma mb_request_served_witness :
  exists c1 m1 sent w' ms' resp,
    gen_next_req id id PSP_MB 0 1 (example_client example_ctx_pool example_rx) example_packets = Ok (0, c1, m1)
    /\ m1 !! 4096 = Some sent
    /\ App.mb_process_request (fun _ => Ok tt) id id 7000 (App.mk_mb 0 0 0) {[7000 := sent]} = Ok (0, w', ms')
    /\ ms' !! 7000 = Some resp /\ App.n_longs w' = 1
    /\ forall j, is_answer example_sched 3 {[4096 := resp]} {[4096]} 2 4096 j <-> j = 1.
Proof.
  destruct (mb_request_served id id (fun _ => Ok tt) id example_sched 1 (example_client example_ctx_pool example_rx)
    example_packets (mk_cr 1 NULL 2000 2 0 0 0) 4096 example_pool_used example_packet)
    as (c1 & m1 & sent & E & Hsent & Hserve);
    [reflexivity|reflexivity|reflexivity|reflexivity|reflexivity|reflexivity|discriminate|reflexivity|cbn; lia|cbn; lia|cbn; lia|reflexivity|].
  assert (Hlen : length (room sent) = 64%nat).
  { clear Hserve. vm_compute in E. injection E as _ <-. vm_compute in Hsent. injection Hsent as <-. reflexivity. }
  destruct (Hserve 7000 sent {[7000 := sent]} (App.mk_mb 0 0 0)) as (w' & ms' & resp & Er & Hr & _ & _ & _ & Hl & Hans).
  - apply lookup_insert_eq.
  - rewrite Hlen. lia.
  - reflexivity.
  - exists c1, m1, sent, w', ms', resp. split; [exact E|]. split; [exact Hsent|]. split; [exact Er|]. split; [exact Hr|].
    split; [exact Hl|]. apply (Hans {[4096 := resp]} {[4096]} 4096 resp).
    + apply lookup_insert_eq.
    + rewrite (mb_process_length _ _ _ _ _ _ _ _ _ _ Er (lookup_insert_eq _ _ _) Hr), Hlen. lia.
    + reflexivity.
    + apply elem_of_singleton_2. reflexivity.
Defined.
