(* ===== verification/ClientSetup.v ===== *)
(** * ClientSetup: from a configuration to the workers of the load generator

    Models [src/src/c++/apps/client/common.hh] ([read_cmds], [parse_config]) and
    [src/src/c++/apps/client/client.cc]: the schedule from the command line, the
    wiring and the launch of the workers, [stop_all] and the reports over all
    workers.  What YAML and the command-line parser give is a record; the file
    system, the random draws and floating-point arithmetic are arguments.
    Calls to the card are those of [Nic].  What [main] starts is composed with
    the work of the clients in [ClientRun]. *)
From Stdlib Require Import Ascii Sorted.
From S2P Require Import Prelude Fail Interfaces Base Mempool Context Peers Requests Dispatcher Worker NetWorker Udp Schedule Client ClientLog Control Nic System ClientRun.
Import Udp Schedule Client Nic ClientRun.

Module ClientSetup.

(** ** [std::stoi]

    White space, a sign, digits; what follows them is not looked at.  Without
    digits, or when the number is not an [int], it throws. *)

Definition is_space (c : ascii) : bool :=
  let n := Z.of_nat (nat_of_ascii c) in (n =? 32) || ((9 <=? n) && (n <=? 13)).

Definition digit (c : ascii) : option Z :=
  let n := Z.of_nat (nat_of_ascii c) in
  if (48 <=? n) && (n <=? 57) then Some (n - 48) else None.

Fixpoint skip_spaces (cs : list ascii) : list ascii :=
  match cs with
  | c :: cs' => if is_space c then skip_spaces cs' else cs
  | [] => []
  end.

Fixpoint digits (acc : Z) (cs : list ascii) : Z :=
  match cs with
  | c :: cs => match digit c with Some d => digits (10 * acc + d) cs | None => acc end
  | [] => acc
  end.

Definition sign (cs : list ascii) : Z * list ascii :=
  match cs with
  | c :: cs' =>
    let n := Z.of_nat (nat_of_ascii c) in
    if n =? 45 then (-1, cs') else if n =? 43 then (1, cs') else (1, cs)
  | [] => (1, [])
  end.

Definition stoi (s : string) : option Z :=
  let '(sg, cs) := sign (skip_spaces (String.list_ascii_of_string s)) in
  match cs with
  | c :: _ =>
    match digit c with
    | Some _ =>
      let v := sg * digits 0 cs in
      if decide (INT_MIN <= v <= INT_MAX) then Some v else None
    | None => None
    end
  | [] => None
  end.

(** ** Schedules *)

Section schedules.
(** [D]: the numbers of type [double]; [fs]: the lines of the files that can be
    opened; [seconds_ns]: the product with 1e9. *)
Context {D : Type} (ltb : D -> D -> bool) (sub : D -> D -> D) (div : D -> Z -> D).
Context (fs : string -> option (list string)) (seconds_ns : Z -> Z) (req_offset : Z).

(** An entry of [schedules]. *)
Record sched_node : Type := mk_node {
  sn_rate : D; sn_duration : Z; sn_uniform : bool; sn_ptype : string; sn_pkt_size : option Z;
  sn_ratios : list D; sn_cmd_lists : option (list string); sn_mean_ns : option (list Z)
}.

(** A [Schedule]. *)
Record sched_obj : Type := mk_sobj {
  ob_id : Z; ob_rate : D; ob_duration : Z; ob_max_duration : Z; ob_uniform : bool;
  ob_ptype : pkt_type; ob_pkt_size : Z; ob_ratios : list D;
  ob_strs : list (list string); ob_reqs_us : list Z;
  ob_n_requests : Z; ob_send_times : list Z
}.

Definition read_cmds (requests_str : list string) (cmd_list : string) : outcome (list string) :=
  match fs cmd_list with
  | None => Panic 1
  | Some lines => Ok (requests_str ++ lines)
  end.

Fixpoint read_lists (cmd_lists : list string) : outcome (list (list string)) :=
  match cmd_lists with
  | [] => Ok []
  | f :: cmd_lists =>
    r ← read_cmds [] f;
    _ ← PSP_TRUE EINVAL (0 <? Z.of_nat (length r));
    rs ← read_lists cmd_lists; Ok (r :: rs)
  end.

(** [reqs_us.push_back(std::stoi(r[0]))] for each list; what [stoi] throws is
    caught nowhere. *)
Fixpoint run_times (requests_str : list (list string)) : outcome (list Z) :=
  match requests_str with
  | [] => Ok []
  | r :: requests_str =>
    x ← arr_get r 0;
    match stoi x with
    | None => Panic SIGABRT
    | Some v => vs ← run_times requests_str; Ok (u32 v :: vs)
    end
  end.

Definition timed (pt : pkt_type) : bool := match pt with PSP_MB | IX => true | _ => false end.

(** The commands of an entry and their run times. *)
Definition parse_cmds (x : sched_node) : outcome (list (list string) * list Z) :=
  match sn_cmd_lists x with
  | Some cmd_lists =>
    _ ← PSP_TRUE EINVAL (Z.of_nat (length cmd_lists) =? Z.of_nat (length (sn_ratios x)));
    requests_str ← read_lists cmd_lists;
    reqs_us ← (if timed (str_to_ptype (sn_ptype x)) then run_times requests_str else Ok []);
    Ok (requests_str, reqs_us)
  | None =>
    match sn_mean_ns x with
    | None => Panic ENOENT
    | Some cmd_mean_ns =>
      _ ← PSP_TRUE EINVAL (Z.of_nat (length cmd_mean_ns) =? Z.of_nat (length (sn_ratios x)));
      Ok ([], cmd_mean_ns)
    end
  end.

(** An entry of the configuration up to the generation of its requests. *)
Definition parse_sched (n_workers i : Z) (x : sched_node) : outcome sched_obj :=
  let ptype := str_to_ptype (sn_ptype x) in
  pkt_size ← (match ptype with
              | RAW => match sn_pkt_size x with None => Panic EINVAL | Some v => Ok v end
              | _ => Ok 0
              end);
  '(requests_str, reqs_us) ← parse_cmds x;
  Ok (mk_sobj (u32 i) (div (sn_rate x) n_workers) (sn_duration x) (u64 (sn_duration x + 5)) (sn_uniform x) ptype pkt_size
        (sn_ratios x) requests_str reqs_us 0 []).

(** What chance and the clock contribute to one generation. *)
Record chance : Type := mk_chance { ch_step : D -> Z -> Z; ch_start : Z; ch_draws : list (D * Z) }.

(** What the generation reads of a schedule. *)
Definition cfg_of (o : sched_obj) : sched_cfg :=
  mk_cfg (ob_id o) (seconds_ns (ob_duration o)) (ob_uniform o) (ob_ptype o) (ob_ratios o) (ob_reqs_us o).

(** [gen_schedule] on the object: its requests are appended to [reqs]. *)
Definition generate (ch : chance) (o : sched_obj) (reqs : list ClientRequest)
  : outcome (option (sched_obj * list ClientRequest)) :=
  r ← gen_schedule ltb sub (ch_step ch (ob_rate o)) req_offset (cfg_of o) (ch_start ch) (ch_draws ch) reqs;
  match r with
  | None => Ok None
  | Some g =>
    Ok (Some (mk_sobj (ob_id o) (ob_rate o) (ob_duration o) (ob_max_duration o) (ob_uniform o) (ob_ptype o)
                (ob_pkt_size o) (ob_ratios o) (ob_strs o) (ob_reqs_us o) (n_requests g) (send_times g), requests g))
  end.

(** The schedules of one worker; [None] when the draws do not suffice. *)
Fixpoint parse_scheds (n_workers : Z) (ch : Z -> chance) (i : Z) (xs : list sched_node) (reqs : list ClientRequest)
  : outcome (option (list sched_obj * list ClientRequest)) :=
  match xs with
  | [] => Ok (Some ([], reqs))
  | x :: xs =>
    o ← parse_sched n_workers i x;
    r ← generate (ch i) o reqs;
    match r with
    | None => Ok None
    | Some (o, reqs) =>
      r ← parse_scheds n_workers ch (i + 1) xs reqs;
      match r with None => Ok None | Some (os, reqs) => Ok (Some (o :: os, reqs)) end
    end
  end.

(** ** Workers *)

(** A [Client]: the worker it is, its schedules and requests, the allowed
    concurrency and the place of its context. *)
Record cworker : Type := mk_cw {
  cw_obj : Control.wobj; cw_scheds : list sched_obj; cw_reqs : list ClientRequest;
  cw_conc : Z; cw_ctx : option Z
}.

(** The constructor; [total] is [total_workers]. *)
Definition new_Client (m : Z) (os : list sched_obj) (reqs : list ClientRequest) (total : Z) : cworker * Z :=
  (mk_cw (Control.new_Worker_id Control.CLIENT (i32 total)) os reqs m None, u32 (total + 1)).

(** The workers of [parse_config], [n_left] of them still to come. *)
Fixpoint parse_workers (ch : Z -> Z -> chance) (conc : Z) (n_workers : Z) (n_left : nat) (n : Z) (xs : list sched_node) (total : Z)
  : outcome (option (list cworker * Z)) :=
  match n_left with
  | O => Ok (Some ([], total))
  | S n_left =>
    r ← parse_scheds n_workers (ch n) 0 xs [];
    match r with
    | None => Ok None
    | Some (os, reqs) =>
      let '(w, total) := new_Client conc os reqs total in
      r ← parse_workers ch conc n_workers n_left (n + 1) xs total;
      match r with None => Ok None | Some (ws, total) => Ok (Some (w :: ws, total)) end
    end
  end.

(** The configuration, as YAML and [inet_aton] give it. *)
Record client_cfg : Type := mk_ccfg {
  cc_cpus : option (list Z); cc_remote_mac : Z; cc_mac : Z; cc_device : Z;
  cc_net : option (list Z); cc_scheds : option (list sched_node)
}.

(** The options of the command line. *)
Record cli : Type := mk_cli {
  op_uniform : bool; op_mb : bool; op_ix : bool; op_pkt_size : Z;
  op_ips : list Z; op_ports : list Z; op_duration : Z;
  op_cmd_lists : list string; op_ratios : list D; op_rate : D; op_conc : Z
}.

(** [v[i % v.size()]]. *)
Definition cyclic (v : list Z) (i : Z) : outcome Z :=
  if Z.of_nat (length v) =? 0 then UB else arr_get v (i mod Z.of_nat (length v)).

Section card.
Context {N : Type} (dpdk : forall A, ext_call A -> N -> A * N) (junk : Z -> UdpContext) (mempool_at : Z).

Definition set_remote (rip rport rmac : Z) (c : net_ctx) : net_ctx :=
  let u := nx_udp c in
  mk_netctx (nx_id c) (nx_port_id c) (nx_flows c) (nx_pool c)
    (mk_udpctx (ip u) (port u) rport rip (my_mac u) rmac (in_q u) (outbound_queue u) (push_head u) (push_tail u)).

(** The loop over [net_workers], with the pool that they share. *)
Fixpoint new_contexts (cfg : client_cfg) (o : cli) (i : Z) (ips : list Z) (mempool : Z)
  : nic N (list net_ctx * Z) :=
  match ips with
  | [] => mret ([], mempool)
  | ip :: ips =>
    let port := u16 (32768 + i mod (65535 - 32768)) in
    '(ctx, mempool) ← new_UdpContext dpdk (junk i) (u32 i) ip port (cc_device cfg) mempool_at mempool (cc_mac cfg);
    rip ← lift (cyclic (op_ips o) i);
    rport ← lift (cyclic (op_ports o) i);
    '(ctxs, mempool) ← new_contexts cfg o (i + 1) ips mempool;
    mret (set_remote rip rport (cc_remote_mac cfg) ctx :: ctxs, mempool)
  end.

(** [parse_config]: the CPUs, the contexts with their pool, and the workers. *)
Definition parse_config (ch : Z -> Z -> chance) (cfg : client_cfg) (o : cli) (total : Z)
  : nic N (option (list Z * (list net_ctx * Z) * (list cworker * Z))) :=
  match cc_cpus cfg with
  | None => lift (Panic ENODEV)
  | Some cpus =>
    match cc_net cfg with
    | None => lift (Panic ENODEV)
    | Some net =>
      nets ← new_contexts cfg o 0 net NULL;
      match cc_scheds cfg with
      | None => mret (Some (cpus, nets, ([], total)))
      | Some xs =>
        r ← lift (parse_workers ch (op_conc o) (Z.of_nat (length net)) (length net) 0 xs total);
        match r with None => mret None | Some ws => mret (Some (cpus, nets, ws)) end
      end
    end
  end.

(** The schedule that the command line describes. *)
Definition cli_sched (n_workers : Z) (o : cli) : outcome sched_obj :=
  _ ← PSP_TRUE EINVAL (Z.of_nat (length (op_cmd_lists o)) =? Z.of_nat (length (op_ratios o)));
  strs ← read_lists (op_cmd_lists o);
  let pt := if op_ix o then IX else if op_mb o then PSP_MB else RAW in
  pkt_size ← (match pt with
              | RAW => _ ← PSP_TRUE EINVAL (0 <? op_pkt_size o); Ok (op_pkt_size o)
              | _ => Ok 0
              end);
  us ← (if op_mb o || op_ix o then run_times strs else Ok []);
  Ok (mk_sobj 0 (div (op_rate o) n_workers) (op_duration o) (u64 (op_duration o + 5)) (op_uniform o) pt pkt_size
        (op_ratios o) strs us 0 []).

(** [w->eal_thread], [w->cpu_id] and [w->udp_ctx]. *)
Definition wire_to (cpu i : Z) (w : cworker) : cworker :=
  mk_cw (Control.with_cpu cpu (cw_obj w)) (cw_scheds w) (cw_reqs w) (cw_conc w) (Some i).

Definition wire_worker (cpus : list Z) (ctxs : list net_ctx) (i : Z) (w : cworker) : outcome cworker :=
  cpu ← arr_get cpus i;
  _ ← arr_get ctxs i;
  Ok (wire_to cpu i w).

Fixpoint wire_workers (cpus : list Z) (ctxs : list net_ctx) (i : Z) (ws : list cworker) : outcome (list cworker) :=
  match ws with
  | [] => Ok []
  | w :: ws => w ← wire_worker cpus ctxs i w; ws ← wire_workers cpus ctxs (i + 1) ws; Ok (w :: ws)
  end.

(** The workers when the configuration has none; [i] is the first context that
    is left. *)
Fixpoint cli_workers (ch : Z -> chance) (o : cli) (cpus : list Z) (ctxs : list net_ctx) (n_left : nat) (i total : Z)
  : outcome (option (list cworker)) :=
  match n_left with
  | O => Ok (Some [])
  | S n_left =>
    s ← cli_sched (Z.of_nat (length ctxs)) o;
    r ← generate (ch i) s [];
    match r with
    | None => Ok None
    | Some (s, reqs) =>
      let '(w, total) := new_Client (op_conc o) [s] reqs total in
      w ← wire_worker cpus ctxs i w;
      r ← cli_workers ch o cpus ctxs n_left (i + 1) total;
      match r with None => Ok None | Some ws => Ok (Some (w :: ws)) end
    end
  end.

(** [set_fdir] of every context; what it returns is not looked at. *)
Fixpoint set_fdirs (ctxs : list net_ctx) : nic N (list net_ctx) :=
  match ctxs with
  | [] => mret []
  | c :: ctxs => '(_, c) ← set_fdir dpdk c; ctxs ← set_fdirs ctxs; mret (c :: ctxs)
  end.

(** [launch] of a client; its [setup] wants a context. *)
Definition launch_worker (wait_rc remote_rc : Z) (w : cworker) : outcome (Z * cworker) :=
  '(rc, x) ← Control.launch wait_rc remote_rc
    (fun _ => _ ← PSP_TRUE EPERM (if cw_ctx w then true else false); Ok 0) (cw_obj w);
  Ok (rc, mk_cw x (cw_scheds w) (cw_reqs w) (cw_conc w) (cw_ctx w)).

Definition stop_worker (w : cworker) : cworker :=
  mk_cw (Control.stop (cw_obj w)) (cw_scheds w) (cw_reqs w) (cw_conc w) (cw_ctx w).

(** The loop that launches them; [lcore] is what the environment layer answers
    for a CPU. *)
Fixpoint launch_workers (lcore : Z -> Z * Z) (ws : list cworker) : outcome (list cworker) :=
  match ws with
  | [] => Ok []
  | w :: ws =>
    let '(wait_rc, remote_rc) := lcore (Control.w_cpu (cw_obj w)) in
    '(rc, w) ← launch_worker wait_rc remote_rc w;
    if negb (rc =? 0) then Ok (stop_worker w :: ws)
    else ws ← launch_workers lcore ws; Ok (w :: ws)
  end.

(** [stop_all], the handler of the signals. *)
Definition stop_all_clients (ws : list cworker) : list cworker := stop_worker <$> ws.

(** [main] up to the joining of the workers: [eal] is the list of arguments for
    the environment layer, [ch n i] what chance gives to schedule [i] of worker
    [n]. *)
Definition main (eal : option (list string)) (ch : Z -> Z -> chance) (lcore : Z -> Z * Z) (cfg : client_cfg) (o : cli)
  : nic N (option (list net_ctx * list cworker)) :=
  _ ← psp_ok (dpdk_net_init dpdk eal);
  r ← parse_config ch cfg o 0;
  match r with
  | None => mret None
  | Some (cpus, (ctxs, pool), (ws, total)) =>
    r ← lift (match ws with
              | [] => cli_workers (fun n => ch n 0) o cpus ctxs (length ctxs) 0 total
              | _ => ws ← wire_workers cpus ctxs 0 ws; Ok (Some ws)
              end);
    match r with
    | None => mret None
    | Some ws =>
      let n := u16 (Z.of_nat (length ctxs)) in
      ret ← init_dpdk_port dpdk 0 pool n n;
      if negb (ret =? 0) then lift (Panic 1)
      else
        ctxs ← set_fdirs ctxs;
        ws ← lift (launch_workers lcore ws);
        mret (Some (ctxs, ws))
    end
  end.

End card.
(** ** What an entry of the configuration gives *)

(** What can be wrong with the commands of an entry, and how the process ends
    then. *)
Inductive cmds_fault (x : sched_node) : Z -> Prop :=
  | F_lists fl : sn_cmd_lists x = Some fl -> length fl <> length (sn_ratios x) -> cmds_fault x EINVAL
  | F_file fl f : sn_cmd_lists x = Some fl -> f ∈ fl -> fs f = None -> cmds_fault x 1
  | F_empty fl f : sn_cmd_lists x = Some fl -> f ∈ fl -> fs f = Some [] -> cmds_fault x EINVAL
  | F_number fl f l ls : sn_cmd_lists x = Some fl -> f ∈ fl -> fs f = Some (l :: ls) ->
      timed (str_to_ptype (sn_ptype x)) = true -> stoi l = None -> cmds_fault x SIGABRT
  | F_none : sn_cmd_lists x = None -> sn_mean_ns x = None -> cmds_fault x ENOENT
  | F_means ms : sn_cmd_lists x = None -> sn_mean_ns x = Some ms -> length ms <> length (sn_ratios x) ->
      cmds_fault x EINVAL.

Inductive fault (x : sched_node) : Z -> Prop :=
  | F_size : str_to_ptype (sn_ptype x) = RAW -> sn_pkt_size x = None -> fault x EINVAL
  | F_cmds e : cmds_fault x e -> fault x e.

Lemma read_lists_cases fl :
  match read_lists fl with
  | Ok rs => Forall2 (fun f r => fs f = Some r /\ r <> []) fl rs
  | Panic e => exists f, f ∈ fl /\ (e = 1 /\ fs f = None \/ e = EINVAL /\ fs f = Some [])
  | UB => False
  end.
Proof.
  induction fl as [|f fl IH]; cbn [read_lists]; [constructor|]. unfold read_cmds.
  destruct (fs f) as [r|] eqn:Ef; [|exists f; set_solver]. destruct r as [|l r]; [exists f; set_solver|].
  cbn [mbind outcome_bind app length PSP_TRUE]. rewrite (proj2 (Z.ltb_lt _ _)) by lia. cbn [mbind outcome_bind].
  destruct (read_lists fl); cbn [mbind outcome_bind]; [by constructor| |done].
  destruct IH as (f' & ? & ?). exists f'. split; [by right|done].
Qed.

Lemma run_times_cases rs :
  Forall (fun r => r <> []) rs ->
  match run_times rs with
  | Ok us => length us = length rs /\ Forall (fun r => forall l ls, r = l :: ls -> is_Some (stoi l)) rs
  | Panic e => e = SIGABRT /\ exists l ls, l :: ls ∈ rs /\ stoi l = None
  | UB => False
  end.
Proof.
  induction 1 as [|[|l r] rs Hr _ IH]; cbn [run_times]; [by split|done|].
  change (arr_get (l :: r) 0) with (Ok l). cbn [mbind outcome_bind].
  destruct (stoi l) eqn:El; [|split; [done|]; exists l, r; set_solver].
  destruct (run_times rs); cbn [mbind outcome_bind]; [|set_solver|done].
  destruct IH as [Hl Hf]. split; [cbn; by rewrite Hl|]. constructor; [|done]. intros ? ? [= <- <-]. by rewrite El.
Qed.

(** What a schedule has before its requests are generated. *)
Record fresh (n_workers i : Z) (x : sched_node) (o : sched_obj) : Prop := {
  fr_id : ob_id o = u32 i;
  fr_rate : ob_rate o = div (sn_rate x) n_workers;
  fr_time : ob_duration o = sn_duration x /\ ob_max_duration o = u64 (sn_duration x + 5) /\ ob_uniform o = sn_uniform x;
  fr_type : ob_ptype o = str_to_ptype (sn_ptype x) /\ (ob_ptype o = RAW -> sn_pkt_size x = Some (ob_pkt_size o));
  fr_ratios : ob_ratios o = sn_ratios x;
  fr_runs : timed (ob_ptype o) = true -> length (ob_reqs_us o) = length (ob_ratios o);
  fr_none : ob_n_requests o = 0 /\ ob_send_times o = []
}.

Lemma parse_cmds_cases x :
  match parse_cmds x with
  | Ok (_, us) => (timed (str_to_ptype (sn_ptype x)) = true -> length us = length (sn_ratios x))
      /\ forall e, ~ cmds_fault x e
  | Panic e => cmds_fault x e
  | UB => False
  end.
Proof.
  unfold parse_cmds. destruct (sn_cmd_lists x) as [fl|] eqn:El.
  - unfold PSP_TRUE at 1. destruct (Z.eqb_spec (Z.of_nat (length fl)) (Z.of_nat (length (sn_ratios x)))) as [Hl|Hl];
      [|apply (F_lists x fl); [done|lia]].
    cbn [mbind outcome_bind]. pose proof (read_lists_cases fl) as Hr.
    destruct (read_lists fl) as [rs|e|]; cbn [mbind outcome_bind]; [| |done].
    2: { destruct Hr as (f & Hf & [[-> E]|[-> E]]); [by eapply F_file|by eapply F_empty]. }
    assert (Hne : Forall (fun r => r <> []) rs) by (apply Forall2_Forall_r with (1 := Hr); by apply Forall_true; intros ? ? []).
    assert (Hok : (timed (str_to_ptype (sn_ptype x)) = true -> Forall (fun r => forall l ls, r = l :: ls -> is_Some (stoi l)) rs) ->
      forall e, ~ cmds_fault x e).
    { intros Hs e Hf. inversion Hf; simplify_eq; try congruence; try lia;
        match goal with H : _ ∈ fl |- _ => apply list_elem_of_lookup in H as [k Hk] end;
        destruct (Forall2_lookup_l _ _ _ _ _ Hr Hk) as (r & Hr' & E & Hn); simplify_eq; try congruence.
      specialize (Hs ltac:(done)). rewrite Forall_lookup in Hs. destruct (Hs k _ Hr' l ls ltac:(congruence)). congruence. }
    destruct (timed _) eqn:Et; cbn [mbind outcome_bind]; [|by split; [|apply Hok]].
    pose proof (run_times_cases rs Hne) as Hu. destruct (run_times rs) as [us|e|]; cbn [mbind outcome_bind]; [| |done].
    + destruct Hu as [Hu Hf]. split; [|by apply Hok]. intros _. rewrite Hu, <- (Forall2_length _ _ _ Hr). lia.
    + destruct Hu as (-> & l & ls & [k Hk]%list_elem_of_lookup & E).
      destruct (Forall2_lookup_r _ _ _ _ _ Hr Hk) as (f & Hf & Ef & _).
      apply (F_number x fl f l ls); try done. by eapply list_elem_of_lookup_2.
  - destruct (sn_mean_ns x) as [ms|] eqn:Em; [|by apply F_none].
    unfold PSP_TRUE. destruct (Z.eqb_spec (Z.of_nat (length ms)) (Z.of_nat (length (sn_ratios x)))); cbn [mbind outcome_bind].
    + split; [lia|]. intros err Hf. inversion Hf; simplify_eq; try congruence; lia.
    + eapply F_means; [done|done|lia].
Qed.

Lemma parse_sched_cases n_workers i x :
  match parse_sched n_workers i x with
  | Ok o => fresh n_workers i x o /\ forall e, ~ fault x e
  | Panic e => fault x e
  | UB => False
  end.
Proof.
  unfold parse_sched. pose proof (parse_cmds_cases x) as Hc.
  assert (Hsz : exists r, (match str_to_ptype (sn_ptype x) with
      | RAW => match sn_pkt_size x with None => Panic EINVAL | Some v => Ok v end
      | _ => Ok 0 end) = r /\ match r with
        | Ok v => str_to_ptype (sn_ptype x) = RAW -> sn_pkt_size x = Some v
        | Panic e => fault x e | UB => False end).
  { eexists. split; [reflexivity|]. destruct (str_to_ptype (sn_ptype x)) eqn:Ep; try done.
    destruct (sn_pkt_size x) eqn:Es; [done|by apply F_size]. }
  destruct Hsz as (r & -> & Hsz). destruct r as [v|e|]; cbn [mbind outcome_bind]; [|done|done].
  destruct (parse_cmds x) as [[strs us]|e|]; cbn [mbind outcome_bind]; [|by apply F_cmds|done].
  destruct Hc as [Hus Hno]. split; [by split|].
  intros e Hf. inversion Hf as [Hr Hn|? Hf']; [by rewrite (Hsz Hr) in Hn|by eapply Hno].
Qed.

(** ** Well-formed workers *)

(** The schedule [o] of a worker whose requests for it start at [off]. *)
Record sched_wf (off : nat) (reqs : list ClientRequest) (o : sched_obj) : Prop := {
  wf_times : Z.of_nat (length (ob_send_times o)) = ob_n_requests o;
  wf_some : 0 < ob_n_requests o;
  wf_sorted : StronglySorted Z.lt (ob_send_times o);
  wf_reqs k : Z.of_nat k < ob_n_requests o ->
    exists q, reqs !! (off + k)%nat = Some q /\ generated req_offset (cfg_of o) (Z.of_nat off) (Z.of_nat k) q
}.

(** The schedules of a worker share its requests out, one behind the other. *)
Fixpoint scheds_wf (off : nat) (reqs : list ClientRequest) (os : list sched_obj) : Prop :=
  match os with
  | [] => off = length reqs
  | o :: os => sched_wf off reqs o /\ scheds_wf (off + Z.to_nat (ob_n_requests o)) reqs os
  end.

Lemma scheds_wf_length off reqs os : scheds_wf off reqs os -> (off <= length reqs)%nat.
Proof. revert off. induction os as [|o os IH]; intros off; cbn [scheds_wf]; [lia|]. intros [_ H%IH]. lia. Qed.

(** The draws for a schedule lead to its end. *)
Definition chance_ok (o : sched_obj) (ch : chance) : Prop :=
  cfg_ok req_offset (cfg_of o)
  /\ Forall (draw_ok ltb sub (ch_step ch (ob_rate o)) (cfg_of o)) (ch_draws ch)
  /\ 0 <= end_ns (cfg_of o) < time_after (ch_step ch (ob_rate o)) (cfg_of o) (ch_draws ch) 0.

(** The schedule [o] with [n] requests to send at [ts]. *)
Definition filled_in (n : Z) (ts : list Z) (o : sched_obj) : sched_obj :=
  mk_sobj (ob_id o) (ob_rate o) (ob_duration o) (ob_max_duration o) (ob_uniform o) (ob_ptype o) (ob_pkt_size o)
    (ob_ratios o) (ob_strs o) (ob_reqs_us o) n ts.

Lemma sched_wf_app off reqs more o : sched_wf off reqs o -> sched_wf off (reqs ++ more) o.
Proof.
  intros [W1 W2 W3 W4]. split; try done. intros k Hk. destruct (W4 k Hk) as (q & Hq & Hg).
  exists q. split; [by apply lookup_app_l_Some|done].
Qed.

Lemma generate_ok ch o reqs :
  chance_ok o ch -> Z.of_nat (length reqs + length (ch_draws ch)) < 2 ^ 32 ->
  exists n ts new, generate ch o reqs = Ok (Some (filled_in n ts o, reqs ++ new))
    /\ sched_wf (length reqs) (reqs ++ new) (filled_in n ts o)
    /\ n = Z.of_nat (length new) /\ (length new <= length (ch_draws ch))%nat.
Proof.
  intros (Hc & Hd & He) Hl.
  destruct (gen_schedule_ok ltb sub (ch_step ch (ob_rate o)) req_offset (cfg_of o) (ch_start ch) reqs (ch_draws ch))
    as (g & new & ts & E & [G1 G2 G3 G4 G5 _ _ _] & _ & Hn & _); [done..|].
  exists (n_requests g), (send_times g), new. unfold generate. rewrite E. cbn [mbind outcome_bind]. rewrite G1.
  split; [done|]. split; [|lia]. split; cbn [filled_in ob_send_times ob_n_requests]; rewrite ?G2; [lia|lia|done|].
  intros k Hk. destruct (lookup_lt_is_Some_2 new k) as [q Hq]; [lia|]. exists q.
  split; [|by apply G3]. by rewrite lookup_app_r, Nat.add_comm, Nat.add_sub by lia.
Qed.

(** The number of draws for the schedules [i], [i + 1], ... *)
Fixpoint all_draws (ch : Z -> chance) (i : Z) (n : nat) : nat :=
  match n with O => O | S n => (length (ch_draws (ch i)) + all_draws ch (i + 1) n)%nat end.

(** The entries have no faults, and the draws lead each schedule to its end. *)
Definition entries_ok (n_workers : Z) (ch : Z -> chance) (xs : list sched_node) : Prop :=
  forall k x, xs !! k = Some x ->
    (forall e, ~ fault x e)
    /\ forall o, fresh n_workers (Z.of_nat k) x o -> chance_ok o (ch (Z.of_nat k)).

(** The schedules made from the entries, in their order. *)
Definition made (n_workers : Z) (i : Z) (xs : list sched_node) (os : list sched_obj) : Prop :=
  length os = length xs
  /\ forall k x, xs !! k = Some x -> exists o n ts,
       fresh n_workers (i + Z.of_nat k) x o /\ os !! k = Some (filled_in n ts o).

Lemma parse_scheds_ok n_workers ch i xs reqs :
  (forall k x, xs !! k = Some x -> (forall e, ~ fault x e)
     /\ forall o, fresh n_workers (i + Z.of_nat k) x o -> chance_ok o (ch (i + Z.of_nat k))) ->
  Z.of_nat (length reqs + all_draws ch i (length xs)) < 2 ^ 32 ->
  exists os new, parse_scheds n_workers ch i xs reqs = Ok (Some (os, reqs ++ new))
    /\ scheds_wf (length reqs) (reqs ++ new) os /\ made n_workers i xs os
    /\ (length new <= all_draws ch i (length xs))%nat.
Proof.
  revert i reqs. induction xs as [|x xs IH]; intros i reqs Hxs Hl; cbn [parse_scheds all_draws length] in *.
  { exists [], []. rewrite app_nil_r. by split_and!. }
  destruct (Hxs 0%nat x eq_refl) as [Hno Hch]. rewrite Z.add_0_r in Hch.
  pose proof (parse_sched_cases n_workers i x) as Hp.
  destruct (parse_sched n_workers i x) as [o|e|]; [|by destruct (Hno e)|done]. destruct Hp as [Hf _].
  cbn [mbind outcome_bind]. destruct (generate_ok (ch i) o reqs (Hch o Hf)) as (n & ts & new & E & Hw & Hn & Hlen); [lia|].
  rewrite E. cbn [mbind outcome_bind].
  destruct (IH (i + 1) (reqs ++ new)) as (os & new' & E' & Hw' & [Hm1 Hm2] & Hlen').
  { intros k y Hk. replace (i + 1 + Z.of_nat k) with (i + Z.of_nat (S k)) by lia. by apply Hxs. }
  { rewrite length_app. lia. }
  rewrite E'. cbn [mbind outcome_bind]. exists (filled_in n ts o :: os), (new ++ new'). rewrite app_assoc.
  split; [done|]. split; [|split].
  - split; [by apply sched_wf_app|]. cbn [filled_in ob_n_requests]. rewrite Hn, Nat2Z.id, <- length_app. exact Hw'.
  - split; [cbn; by rewrite Hm1|]. intros [|k] y Hk.
    + injection Hk as <-. exists o, n, ts. by rewrite Z.add_0_r.
    + destruct (Hm2 k y Hk) as (o' & n' & ts' & ? & ?). exists o', n', ts'.
      by replace (i + Z.of_nat (S k)) with (i + 1 + Z.of_nat k) by lia.
  - rewrite length_app. lia.
Qed.

(** The first faulty entry ends the process. *)
Lemma parse_scheds_fault n_workers ch i pre x post reqs e :
  (forall k x, pre !! k = Some x -> (forall e, ~ fault x e)
     /\ forall o, fresh n_workers (i + Z.of_nat k) x o -> chance_ok o (ch (i + Z.of_nat k))) ->
  Z.of_nat (length reqs + all_draws ch i (length pre)) < 2 ^ 32 -> fault x e ->
  exists e', fault x e' /\ parse_scheds n_workers ch i (pre ++ x :: post) reqs = Panic e'.
Proof.
  revert i reqs. induction pre as [|y pre IH]; intros i reqs Hxs Hl Hf; cbn [parse_scheds all_draws length app] in *.
  { pose proof (parse_sched_cases n_workers i x) as Hp.
    destruct (parse_sched n_workers i x) as [o|e'|]; [|by exists e'|done]. by destruct (proj2 Hp e). }
  destruct (Hxs 0%nat y eq_refl) as [Hno Hch]. rewrite Z.add_0_r in Hch.
  pose proof (parse_sched_cases n_workers i y) as Hp.
  destruct (parse_sched n_workers i y) as [o|e'|]; [|by destruct (Hno e')|done]. destruct Hp as [Hfr _].
  cbn [mbind outcome_bind]. destruct (generate_ok (ch i) o reqs (Hch o Hfr)) as (n & ts & new & E & _ & Hn & Hlen); [lia|].
  rewrite E. cbn [mbind outcome_bind].
  destruct (IH (i + 1) (reqs ++ new)) as (e' & He & E'); [|rewrite length_app; lia|done|].
  { intros k z Hk. replace (i + 1 + Z.of_nat k) with (i + Z.of_nat (S k)) by lia. by apply Hxs. }
  exists e'. by rewrite E'.
Qed.

(** A worker that [parse_config] has made. *)
Record parsed (n_workers : Z) (xs : list sched_node) (conc id : Z) (w : cworker) : Prop := {
  pa_obj : cw_obj w = Control.new_Worker_id Control.CLIENT id;
  pa_reqs : scheds_wf 0 (cw_reqs w) (cw_scheds w);
  pa_made : made n_workers 0 xs (cw_scheds w);
  pa_conc : cw_conc w = conc
}.

(** The draws for the schedules of a worker. *)
Definition draws_ok (n_workers : Z) (ch : Z -> chance) (xs : list sched_node) : Prop :=
  entries_ok n_workers ch xs /\ Z.of_nat (all_draws ch 0 (length xs)) < 2 ^ 32.

Lemma parse_workers_ok ch conc n_workers n_left n xs total :
  (forall m, n <= m < n + Z.of_nat n_left -> draws_ok n_workers (ch m) xs) ->
  0 <= total -> total + Z.of_nat n_left < 2 ^ 31 ->
  exists ws, parse_workers ch conc n_workers n_left n xs total = Ok (Some (ws, total + Z.of_nat n_left))
    /\ length ws = n_left
    /\ forall k w, ws !! k = Some w -> parsed n_workers xs conc (total + Z.of_nat k) w.
Proof.
  revert n total. induction n_left as [|n_left IH]; intros n total Hch H0 Hl; cbn [parse_workers].
  { exists []. rewrite Z.add_0_r. by split_and!. }
  destruct (Hch n) as [He Hd]; [lia|].
  destruct (parse_scheds_ok n_workers (ch n) 0 xs []) as (os & reqs & E & Hw & Hm & _); [|done|].
  { intros k x Hk. rewrite Z.add_0_l. by apply He. }
  rewrite E. cbn [mbind outcome_bind app new_Client].
  destruct (IH (n + 1) (total + 1)) as (ws & E' & Hlen & Hws); [intros m Hm'; apply Hch; lia|lia|lia|].
  rewrite u32_id, E' by lia. cbn [mbind outcome_bind]. eexists. split; [do 3 f_equal; lia|]. split; [cbn; by rewrite Hlen|].
  intros [|k] w Hk.
  - injection Hk as <-. rewrite Z.add_0_r. split; try done. cbn [cw_obj]. by replace (i32 total) with total by word_lia.
  - replace (total + Z.of_nat (S k)) with (total + 1 + Z.of_nat k) by lia. by apply Hws.
Qed.

Lemma wire_workers_ok cpus (ctxs : list net_ctx) i ws :
  0 <= i -> i + Z.of_nat (length ws) <= Z.of_nat (length ctxs) ->
  if decide (i + Z.of_nat (length ws) <= Z.of_nat (length cpus) \/ ws = [])
  then exists ws', wire_workers cpus ctxs i ws = Ok ws' /\ length ws' = length ws
    /\ forall k w', ws' !! k = Some w' -> exists w cpu, ws !! k = Some w
         /\ cpus !! (Z.to_nat i + k)%nat = Some cpu /\ w' = wire_to cpu (i + Z.of_nat k) w
  else wire_workers cpus ctxs i ws = UB.
Proof.
  revert i. induction ws as [|w ws IH]; intros i Hi Hc; cbn [wire_workers length].
  { rewrite decide_True by auto. exists []. by split_and!. }
  unfold wire_worker. cbn [length] in Hc. destruct (arr_get_lt ctxs i) as [c Ec]; [lia|].
  destruct (decide (i < Z.of_nat (length cpus))) as [Hlt|Hge].
  2: { rewrite decide_False by (intros [?|?]; [lia|done]). by rewrite (arr_get_UB cpus i) by lia. }
  destruct (arr_get_lt cpus i) as [cpu Eu]; [lia|]. rewrite Eu, Ec. cbn [mbind outcome_bind].
  specialize (IH (i + 1) ltac:(lia) ltac:(lia)). apply arr_get_Ok in Eu as [_ Eu].
  destruct (decide (i + 1 + Z.of_nat (length ws) <= Z.of_nat (length cpus) \/ ws = [])) as [Hd|Hd].
  - rewrite decide_True by (left; destruct Hd as [?| ->]; cbn [length]; lia).
    destruct IH as (ws' & -> & Hl & Hws). cbn [mbind outcome_bind]. eexists. split; [done|]. split; [cbn; by rewrite Hl|].
    intros [|k] w' Hk.
    + injection Hk as <-. exists w, cpu. by rewrite Nat.add_0_r, Z.add_0_r.
    + destruct (Hws k w' Hk) as (v & u & ? & Hu & ->). exists v, u. split; [done|].
      replace (Z.to_nat (i + 1) + k)%nat with (Z.to_nat i + S k)%nat in Hu by lia. split; [done|]. f_equal. lia.
  - rewrite decide_False by (intros [?|?]; [apply Hd; left; lia|done]). by rewrite IH.
Qed.

(** A worker whose main loop runs. *)
Definition launched (w : cworker) : cworker :=
  mk_cw (Control.with_run false true false (cw_obj w)) (cw_scheds w) (cw_reqs w) (cw_conc w) (cw_ctx w).

Lemma launch_workers_ok lcore ws :
  (forall cpu, lcore cpu = (0, 0)) ->
  Forall (fun w => Control.joinable (cw_obj w) = false /\ Control.exited (cw_obj w) = false
    /\ Control.eal_thread (cw_obj w) = true /\ is_Some (cw_ctx w)) ws ->
  launch_workers lcore ws = Ok (launched <$> ws).
Proof.
  intros Hc. induction 1 as [|w ws (Hj & He & Ht & [i Hi]) _ IH]; cbn [launch_workers]; [done|].
  rewrite Hc. unfold launch_worker, Control.launch. rewrite Hj, Ht. cbn [mbind outcome_bind PSP_OK Z.eqb].
  rewrite Hi. cbn [PSP_TRUE mbind outcome_bind]. unfold Control.begin_main. cbn [Z.eqb negb]. cbn [Control.exited Control.with_run]. rewrite He.
  cbn [andb mbind outcome_bind Z.eqb negb]. rewrite IH. cbn [mbind outcome_bind fmap list_fmap].
  unfold launched at 2. by rewrite Hj, Hi.
Qed.

(** ** The contexts *)

(** The context of worker [i], whose address is [addr]. *)
Record ctx_ready (cfg : client_cfg) (o : cli) (i addr : Z) (c : net_ctx) : Prop := {
  cx_id : nx_id c = i /\ nx_port_id c = cc_device cfg /\ nx_pool c <> NULL;
  cx_addr : ip (nx_udp c) = addr /\ port (nx_udp c) = 32768 + i mod 32767;
  cx_remote : cyclic (op_ips o) i = Ok (remote_ip (nx_udp c)) /\ cyclic (op_ports o) i = Ok (remote_port (nx_udp c))
    /\ remote_mac (nx_udp c) = cc_remote_mac cfg;
  cx_in : rrel (in_q (nx_udp c)) [] /\ pop_head (in_q (nx_udp c)) = 0;
  cx_out : out_rep (nx_udp c) [] /\ push_head (nx_udp c) = 0
}.

Lemma cyclic_Ok v i : v <> [] -> exists x, cyclic v i = Ok x.
Proof.
  intros Hv. unfold cyclic. assert (0 < Z.of_nat (length v)) by (destruct v; cbn; [done|lia]).
  rewrite (proj2 (Z.eqb_neq _ _)) by lia. apply arr_get_lt. by apply Z.mod_pos_bound.
Qed.

(** The client a worker and its context make up, with the buffers of [pool]. *)
Definition client_of {P : Type} (pool : P) (w : cworker) (c : net_ctx) : client P :=
  mk_client (p_worker_id (Control.w_peer (cw_obj w))) (nx_udp c) pool (cw_reqs w) 0 None (cw_conc w).

(** What [work] reads of a schedule, whose counters are still zero; durations in
    seconds are compared with differences of time points in nanoseconds. *)
Definition sched_of (s : sched_obj) : sched_in :=
  mk_sched_in (ob_ptype s) (ob_pkt_size s) (ob_n_requests s) (10 ^ 9 * ob_max_duration s) (ob_send_times s)
    (mk_play 0 0 0 0 0 0 0 0 0 false false).

Lemma scheds_wf_total off reqs os :
  scheds_wf off reqs os -> Z.of_nat off + total_requests (sched_of <$> os) = Z.of_nat (length reqs).
Proof.
  revert off. induction os as [|o os IH]; intros off; cbn; [lia|].
  intros [[_ H _ _] E%IH]. unfold total_requests in E. lia.
Qed.

Lemma scheds_wf_unsent off reqs os k :
  scheds_wf off reqs os -> (off <= k < length reqs)%nat ->
  exists q, reqs !! k = Some q /\ cr_id q = Z.of_nat k /\ cr_mbuf q = NULL.
Proof.
  revert off. induction os as [|o os IH]; intros off; cbn [scheds_wf]; [lia|].
  intros [[_ _ _ Hq] Hos] Hk. destruct (decide (Z.of_nat (k - off) < ob_n_requests o)) as [Hin|Hout].
  - destruct (Hq _ Hin) as (q & E & [G1 [G2 _] _ _]). exists q. replace (off + (k - off))%nat with k in E by lia.
    split; [done|]. split; [lia|done].
  - apply (IH _ Hos). lia.
Qed.

(** A schedule that can be played in buffers of the given format. *)
Record fit {N : Type} (take_time : N -> Z * N) (fuel : nat) (pt : pkt_type) (sz : Z) (s : sched_obj) : Prop := {
  ft_format : ob_ptype s = pt /\ ob_pkt_size s = sz;
  ft_reqs : 2 <= ob_n_requests s < 2 ^ 31 - 8;
  ft_duration : 0 <= 10 ^ 9 * ob_max_duration s < Z.min (2 ^ 63) (Z.of_nat fuel);
  ft_end t0 tl n0 n1 t n2 : ob_send_times s !! 0%nat = Some t0 -> last (ob_send_times s) = Some tl ->
    take_time n1 = (t, n2) -> t <> (take_time n0).1 + (tl - t0)
}.

Lemma fit_playable {N : Type} (take_time : N -> Z * N) fuel pt sz off reqs os :
  scheds_wf off reqs os -> Forall (fit take_time fuel pt sz) os ->
  Forall (playable take_time fuel pt sz) (sched_of <$> os).
Proof.
  intros Hwf H. revert off Hwf. induction H as [|o os [F1 F2 F3 F4] _ IH]; intros off; cbn [scheds_wf fmap list_fmap]; [constructor|].
  intros [[W1 _ _ _] Hos]. constructor; [|by eapply IH]. by split; cbn [sched_of si_ptype si_pkt_size si_n_requests
    si_max_duration si_send_times si_counters]; try lia.
Qed.

Section healthy_card.
Context {N : Type} (dpdk : forall A, ext_call A -> N -> A * N) (up_in : nat -> N -> Prop).
Context `{!Healthy dpdk 0 up_in}.
Context (junk : Z -> UdpContext) (mempool_at : Z) (Hat : mempool_at <> NULL).
Context (Hjunk : forall i, length (inbound_queue (in_q (junk i))) = 128%nat /\ length (outbound_queue (junk i)) = 128%nat).

Notation total := (total up_in).

Lemma total_new_contexts cfg o k i ips pool :
  op_ips o <> [] -> op_ports o <> [] -> 0 <= i -> i + Z.of_nat (length ips) < 2 ^ 16 ->
  total k (new_contexts dpdk junk mempool_at cfg o i ips pool) (fun r =>
    length r.1 = length ips /\ (pool <> NULL -> r.2 = pool)
    /\ forall j c, r.1 !! j = Some c -> exists addr, ips !! j = Some addr
         /\ ctx_ready cfg o (i + Z.of_nat j) addr c /\ nx_flows c = [] /\ nx_pool c = r.2).
Proof.
  intros Hip Hpo. revert k i pool. induction ips as [|a ips IH]; intros k i pool Hi Hl; cbn [new_contexts].
  { apply total_ret. by split_and!. }
  cbn [length] in Hl. eapply total_bind; [by apply (total_new_context dpdk 0)|]. intros [c p] k1 _ (Hp & Hpool & Hc). cbn [fst snd] in *.
  destruct (cyclic_Ok (op_ips o) i Hip) as [rip Er], (cyclic_Ok (op_ports o) i Hpo) as [rp Ep].
  eapply total_lift_bind; [exact Er|]. eapply total_lift_bind; [exact Ep|].
  eapply total_bind; [apply (IH k1 (i + 1) p); lia|]. intros [cs p'] k4 _ (Hlen & Hp' & Hcs). cbn [fst snd] in *.
  specialize (Hp' Hp). subst p' c. destruct (Hjunk i) as [Hj1 Hj2]. apply total_ret. cbn [fst snd]. split; [cbn; by rewrite Hlen|].
  split; [done|]. intros [|j] c Hj.
  - injection Hj as <-. exists a. rewrite Z.add_0_r. split; [done|]. split; [|done].
    assert (Hport : u16 (32768 + i mod (65535 - 32768)) = 32768 + i mod 32767).
    { change (65535 - 32768) with 32767. pose proof (Z.mod_pos_bound i 32767 ltac:(lia)). apply u16_id. lia. }
    unfold set_remote.
    split; cbn [nx_id nx_port_id nx_pool nx_udp ip port remote_ip remote_port remote_mac in_q pop_head push_head];
      rewrite ?Hport, ?u32_id by lia; split_and!; try done; (split; [|done..]; by split).
  - destruct (Hcs j c Hj) as (addr & Ha & Hr & Hf). exists addr. split; [done|].
    by replace (i + Z.of_nat (S j)) with (i + 1 + Z.of_nat j) by lia.
Qed.

Lemma total_set_fdirs k ctxs :
  total k (set_fdirs dpdk ctxs) (fun r => length r = length ctxs
    /\ forall j c', r !! j = Some c' -> exists c f, ctxs !! j = Some c /\ f <> NULL
         /\ c' = mk_netctx (nx_id c) (nx_port_id c) (nx_flows c ++ [f]) (nx_pool c) (nx_udp c)).
Proof.
  revert k. induction ctxs as [|c ctxs IH]; intros k; cbn [set_fdirs]; [by apply total_ret|].
  eapply (total_bind _ _ _ _ (fun r => exists f, f <> NULL
    /\ r.2 = mk_netctx (nx_id c) (nx_port_id c) (nx_flows c ++ [f]) (nx_pool c) (nx_udp c))).
  - unfold set_fdir, generate_ipv4_flow. rewrite ipv4_rule_eq. eapply (total_bind _ _ _ _ (fun f => f <> NULL)).
    + eapply total_lift_bind; [done|].
      eapply total_bind; [by apply total_call|]. intros res k2 _ Hr. cbn in Hr. subst res. cbn [Z.eqb]. by apply (total_call dpdk 0).
    + intros f k1 _ Hf. rewrite (proj2 (Z.eqb_neq _ _) Hf). apply total_ret. by exists f.
  - intros [e c1] k1 _ (f & Hf & Hc). cbn in Hc. subst c1. eapply total_bind; [apply IH|].
    intros cs k2 _ [Hl Hcs]. apply total_ret. split; [cbn; by rewrite Hl|].
    intros [|j] c' Hj; [injection Hj as <-; by exists c, f|by apply Hcs].
Qed.

(** The configuration [cfg] describes workers with the addresses [net] and the
    schedules [xs], for which there are draws. *)
Record config_ok (cfg : client_cfg) (o : cli) (ch : Z -> Z -> chance) (net : list Z) (xs : list sched_node) : Prop := {
  co_net : cc_net cfg = Some net /\ (0 < length net)%nat /\ Z.of_nat (length net) <= 32767;
  co_remote : op_ips o <> [] /\ op_ports o <> [];
  co_scheds : cc_scheds cfg = Some xs;
  co_draws n : 0 <= n < Z.of_nat (length net) -> draws_ok (Z.of_nat (length net)) (ch n) xs
}.

Lemma total_parse_config k ch cfg o cpus net xs :
  config_ok cfg o ch net xs -> cc_cpus cfg = Some cpus ->
  total k (parse_config dpdk junk mempool_at ch cfg o 0) (fun r => exists ctxs pool ws,
    r = Some (cpus, (ctxs, pool), (ws, Z.of_nat (length net)))
    /\ length ctxs = length net /\ length ws = length net
    /\ (forall j c, ctxs !! j = Some c -> exists addr, net !! j = Some addr
          /\ ctx_ready cfg o (Z.of_nat j) addr c /\ nx_flows c = [] /\ nx_pool c = pool)
    /\ forall j w, ws !! j = Some w -> parsed (Z.of_nat (length net)) xs (op_conc o) (Z.of_nat j) w).
Proof.
  intros [(Hn & H0 & Hmax) [Hi Hp] Hs Hd] Hc. unfold parse_config. rewrite Hc, Hn, Hs.
  eapply total_bind; [apply total_new_contexts; [done|done|lia|lia]|]. intros [ctxs pool] k1 _ (Hl & _ & Hctx).
  destruct (parse_workers_ok ch (op_conc o) (Z.of_nat (length net)) (length net) 0 xs 0) as (ws & E & Hw & Hws);
    [intros m Hm; apply Hd; lia|lia|lia|].
  eapply total_lift_bind; [exact E|]. apply total_ret. by exists ctxs, pool, ws.
Qed.

(** A worker of the client that has been started: its object with the CPU it
    runs on, and its schedules. *)
Record started (n_workers : Z) (xs : list sched_node) (conc : Z) (cpus : list Z) (i : nat) (w : cworker) : Prop := {
  st_obj : exists cpu, cpus !! i = Some cpu
    /\ cw_obj w = Control.with_run false true false
                    (Control.with_cpu cpu (Control.new_Worker_id Control.CLIENT (Z.of_nat i)));
  st_ctx : cw_ctx w = Some (Z.of_nat i);
  st_reqs : scheds_wf 0 (cw_reqs w) (cw_scheds w);
  st_made : made n_workers 0 xs (cw_scheds w);
  st_conc : cw_conc w = conc
}.

(** Such a worker, with its context and buffers, can begin its schedules. *)
Lemma started_ready {P E : Type} `{AllocatorLaws P} (wire : E -> list Z) cfg o n_workers xs conc cpus i addr w c pt sz
    (pool : P) own n m :
  ctx_ready cfg o (Z.of_nat i) addr c -> started n_workers xs conc cpus i w ->
  Z.of_nat (length (cw_reqs w)) < 2 ^ 32 -> wire n = [] -> pool_inv pool own ->
  Z.of_nat (size own) + total_demand conc (sched_of <$> cw_scheds w) <= Z.of_nat (size (pool_blocks pool)) ->
  (forall b, b ∈ pool_blocks pool -> exists pkt, m !! b = Some pkt /\ buffer_ok pt sz pkt) ->
  ready wire pt sz (total_requests (sched_of <$> cw_scheds w))
    (total_demand (max_concurrency (client_of pool w c)) (sched_of <$> cw_scheds w)) n (client_of pool w c) m [] own.
Proof.
  intros [_ [_ Cp] _ [Ci Ch] [Co Cq]] [_ _ Sr _ Sc] Hr Hw Hpool Hsz Hb. pose proof (scheds_wf_total _ _ _ Sr) as Ht.
  split; cbn [client_of cl_udp mbuf_pool cl_requests send_offset max_concurrency]; rewrite ?Cp, ?Ch, ?Cq, ?Hw, ?Sc; try done; try lia.
  - pose proof (Z.mod_pos_bound (Z.of_nat i) 32767). lia.
  - split; [done|lia].
  - cbn [length]. split; [done|lia].
  - apply NoDup_nil_2.
  - by intros a Ha%elem_of_nil.
  - intros k Hk. destruct (scheds_wf_unsent _ _ _ (Z.to_nat k) Sr) as (q & Hq & Hid & Hmb); [lia|].
    exists q. cbn [client_of cl_requests send_offset]. rewrite Z.add_0_l. split; [done|]. split; [lia|done].
Qed.

Lemma launch_started n_workers xs conc cpus (ctxs : list net_ctx) lcore ws :
  (forall cpu, lcore cpu = (0, 0)) -> (length ws <= length cpus)%nat -> (length ws <= length ctxs)%nat ->
  (forall j w, ws !! j = Some w -> parsed n_workers xs conc (Z.of_nat j) w) ->
  exists ws1 ws2, wire_workers cpus ctxs 0 ws = Ok ws1 /\ launch_workers lcore ws1 = Ok ws2
    /\ length ws2 = length ws /\ forall j w, ws2 !! j = Some w -> started n_workers xs conc cpus j w.
Proof.
  intros Hlc Hcpu Hctx Hws. pose proof (wire_workers_ok cpus ctxs 0 ws ltac:(lia) ltac:(lia)) as Hwire.
  rewrite decide_True in Hwire by (left; lia). destruct Hwire as (ws1 & E & Hl & Hw1).
  exists ws1, (launched <$> ws1). split; [done|]. split; [|split; [by rewrite length_fmap|]].
  - apply launch_workers_ok; [done|]. apply Forall_lookup. intros j w' Hj.
    destruct (Hw1 j w' Hj) as (w & cpu & Hw & _ & ->). cbn. rewrite (pa_obj _ _ _ _ _ (Hws j w Hw)). cbn. by split_and!.
  - intros j w'. rewrite list_lookup_fmap, fmap_Some. intros (w1 & Hj & ->).
    destruct (Hw1 j w1 Hj) as (w & cpu & Hw & Hc & ->). destruct (Hws j w Hw) as [P1 P2 P3 P4].
    split; cbn; try done. exists cpu. by rewrite P1.
Qed.

Lemma total_main k arg args ch lcore cfg o cpus net xs :
  config_ok cfg o ch net xs -> cc_cpus cfg = Some cpus -> (length net <= length cpus)%nat ->
  (forall cpu, lcore cpu = (0, 0)) -> (k < 90)%nat ->
  total k (main dpdk junk mempool_at (Some (arg :: args)) ch lcore cfg o) (fun r => exists ctxs ws, r = Some (ctxs, ws)
    /\ length ctxs = length net /\ length ws = length net
    /\ (forall i c, ctxs !! i = Some c -> exists addr f, net !! i = Some addr
          /\ ctx_ready cfg o (Z.of_nat i) addr c /\ nx_flows c = [f] /\ f <> NULL)
    /\ forall i w, ws !! i = Some w -> started (Z.of_nat (length net)) xs (op_conc o) cpus i w).
Proof.
  intros Hcfg Hcpus Hlen Hlc Hk. pose proof (co_net _ _ _ _ _ Hcfg) as (_ & Hpos & Hmax).
  unfold main. eapply total_bind; [by apply total_psp_ok, (total_net_init dpdk 0)|]. intros u k1 L1 _.
  eapply total_bind; [by apply total_parse_config|]. intros r k2 L2 (ctxs & pool & ws & -> & Hl & Hw & Hctx & Hws).
  destruct (launch_started (Z.of_nat (length net)) xs (op_conc o) cpus ctxs lcore ws) as (ws1 & ws2 & E1 & E2 & Hl2 & Hs);
    [done|lia|lia|done|].
  eapply (total_lift_bind _ _ (Some ws1)); [destruct ws; [cbn in Hw; lia|by rewrite E1]|].
  eapply total_bind; [apply (total_init dpdk 0); [done|unfold retry_count; lia]|]. intros ret k3 L3 ->. cbn [Z.eqb negb].
  eapply total_bind; [apply total_set_fdirs|]. intros ctxs2 k4 _ [Hl4 Hctx2].
  eapply total_lift_bind; [exact E2|]. apply total_ret. exists ctxs2, ws2.
  split; [done|]. split; [lia|]. split; [lia|]. split; [|done].
  intros i c' Hi. destruct (Hctx2 i c' Hi) as (c & f & Hc & Hf & ->). destruct (Hctx i c Hc) as (addr & Ha & Hr & Hfl & _).
  exists addr, f. cbn [nx_flows]. rewrite Hfl. split_and!; try done. by destruct Hr.
Qed.

(** The ports of the contexts differ. *)
Lemma ports_differ cfg o (net : list Z) (ctxs : list net_ctx) :
  Z.of_nat (length ctxs) <= 32767 ->
  (forall i c, ctxs !! i = Some c -> exists addr, net !! i = Some addr /\ ctx_ready cfg o (Z.of_nat i) addr c) ->
  NoDup ((fun c => port (nx_udp c)) <$> ctxs).
Proof.
  intros Hl Hc. apply NoDup_alt. intros i j p. rewrite !list_lookup_fmap, !fmap_Some.
  intros (c1 & H1 & E1) (c2 & H2 & E2). pose proof (lookup_lt_Some _ _ _ H1). pose proof (lookup_lt_Some _ _ _ H2).
  destruct (Hc i c1 H1) as (? & _ & R1), (Hc j c2 H2) as (? & _ & R2).
  rewrite E1, (proj2 (cx_addr _ _ _ _ _ R1)), (proj2 (cx_addr _ _ _ _ _ R2)), !Z.mod_small in E2 by lia. lia.
Qed.

End healthy_card.

End schedules.

Arguments sched_node : clear implicits.
Arguments sched_obj : clear implicits.
Arguments chance : clear implicits.
Arguments cworker : clear implicits.
Arguments client_cfg : clear implicits.
Arguments cli : clear implicits.
(** ** Reports *)

Section reports.
(** [per_second n ns]: [n / (ns / 1e9)]; [epoch t0 c]: the number of the epoch in
    which cycle [c] falls; the others are those of [ClientLog]. *)
Context {D : Type} (add : D -> D -> D) (per_second : Z -> Z -> D) (epoch : Z -> Z -> Z).
Context (at_least : Z -> Z -> Z -> Z -> bool) (to_ns : Z -> Z) (tenth : nat -> nat).
Context (iter : list (Z * list ClientRequest) -> list (Z * list ClientRequest)).

(** A schedule that has been played. *)
Record played : Type := mk_played {
  pl_start : Z; pl_last : Z; pl_end : Z; pl_sent : Z; pl_recv : Z; pl_n : Z; pl_times : list Z
}.

(** Times are counted in nanoseconds. *)
Definition since_epoch (t : Z) : Z := u64 t.

Definition ns_diff (start stop : Z) : Z :=
  let ns := stop - start in u64 (if ns <? 0 then -1 else ns).

Definition getRequestsPerSecond (p : played) : D := per_second (pl_recv p) (ns_diff (pl_start p) (pl_end p)).
Definition getOfferedLoad (p : played) : D := per_second (pl_sent p) (ns_diff (pl_start p) (pl_last p)).

(** What a client reports when it is destroyed: how many requests were sent,
    answered, not answered and behind the schedule. *)
Definition client_report (p : played) : Z * Z * Z * Z :=
  (u32 (pl_sent p + 1), pl_recv p, u32 (u32 (pl_sent p + 1) - pl_recv p), u32 (pl_n p - u32 (pl_sent p + 1))).

(** The rates of the schedules of a worker are added to [sched_rates]. *)
Fixpoint add_rates (sched_rates : gmap Z (D * D)) (i : Z) (ps : list played) : gmap Z (D * D) :=
  match ps with
  | [] => sched_rates
  | p :: ps =>
    let offered_rate := getOfferedLoad p in
    let achieved_rate := getRequestsPerSecond p in
    add_rates (match sched_rates !! i with
               | None => <[i := (offered_rate, achieved_rate)]> sched_rates
               | Some (o, a) => <[i := (add o offered_rate, add a achieved_rate)]> sched_rates
               end) (i + 1) ps
  end.

(** The tables of the workers and the rates of the schedules, which are printed
    in the order of the schedules. *)
Fixpoint log_worker_throughputs (sched_rates : gmap Z (D * D)) (workers : list (list played * list ClientRequest))
  : outcome (list (gmap (Z * Z) Z) * gmap Z (D * D)) :=
  match workers with
  | [] => Ok ([], sched_rates)
  | (scheds, reqs) :: workers =>
    let sched_rates := add_rates sched_rates 0 scheds in
    p ← arr_get scheds 0;
    t ← arr_get (pl_times p) 0;
    let table := ClientLog.log_throughput (epoch (since_epoch t)) reqs in
    '(tables, sched_rates) ← log_worker_throughputs sched_rates workers;
    Ok (table :: tables, sched_rates)
  end.

Fixpoint log_worker_latencies (fuel : nat) (downsample : Z) (workers : list (list ClientRequest))
  : outcome (option (list (list ClientRequest * list ClientLog.hist_line))) :=
  match workers with
  | [] => Ok (Some [])
  | reqs :: workers =>
    r ← ClientLog.log_latency at_least to_ns tenth iter fuel downsample reqs;
    match r with
    | None => Ok None
    | Some (_, out, lines) =>
      r ← log_worker_latencies fuel downsample workers;
      match r with None => Ok None | Some rest => Ok (Some ((out, lines) :: rest)) end
    end
  end.

(** *** The rates as sums *)

(** The rates of some schedules, added up from the left. *)
Definition total_rate (ps : list played) : option (D * D) :=
  match ps with
  | [] => None
  | p :: ps =>
    Some (foldl (fun '(o, a) q => (add o (getOfferedLoad q), add a (getRequestsPerSecond q)))
            (getOfferedLoad p, getRequestsPerSecond p) ps)
  end.

(** The schedules with the number [i], worker by worker. *)
Definition column (i : nat) (workers : list (list played * list ClientRequest)) : list played :=
  omap (fun w => w.1 !! i) workers.

Lemma total_rate_snoc ps p :
  total_rate (ps ++ [p]) = match total_rate ps with
    | None => Some (getOfferedLoad p, getRequestsPerSecond p)
    | Some (o, a) => Some (add o (getOfferedLoad p), add a (getRequestsPerSecond p))
    end.
Proof. destruct ps as [|q ps]; [done|]. cbn. rewrite foldl_app. cbn. by destruct (foldl _ _ _). Qed.

Lemma add_rates_lookup m i ps j :
  add_rates m i ps !! j =
    match (if decide (i <= j) then ps !! Z.to_nat (j - i) else None) with
    | Some p =>
      match m !! j with
      | None => Some (getOfferedLoad p, getRequestsPerSecond p)
      | Some (o, a) => Some (add o (getOfferedLoad p), add a (getRequestsPerSecond p))
      end
    | None => m !! j
    end.
Proof.
  revert m i. induction ps as [|p ps IH]; intros m i; cbn [add_rates]; [by case_decide|].
  rewrite IH. destruct (decide (j = i)) as [->|Hne].
  - rewrite decide_False, decide_True, Z.sub_diag by lia. cbn.
    destruct (m !! i) as [[o a]|]; by rewrite lookup_insert_eq.
  - set (m' := match m !! i with None => _ | Some _ => _ end).
    assert (E : m' !! j = m !! j) by (subst m'; destruct (m !! i) as [[??]|]; by rewrite lookup_insert_ne by done).
    rewrite E. destruct (decide (i <= j)); [rewrite decide_True by lia|by rewrite decide_False by lia].
    by replace (Z.to_nat (j - i)) with (S (Z.to_nat (j - (i + 1)))) by lia.
Qed.

(** The first send time of the first schedule is there. *)
Definition logged (w : list played * list ClientRequest) : bool :=
  match w.1 with p :: _ => match pl_times p with [] => false | _ => true end | [] => false end.

Lemma log_throughputs_rates workers : forall pre m,
  (forall i : nat, m !! Z.of_nat i = total_rate (column i pre)) ->
  if forallb logged workers
  then exists tables r, log_worker_throughputs m workers = Ok (tables, r) /\ length tables = length workers
    /\ forall i : nat, r !! Z.of_nat i = total_rate (column i (pre ++ workers))
  else log_worker_throughputs m workers = UB.
Proof.
  induction workers as [|[ps reqs] workers IH]; intros pre m Hm; cbn [log_worker_throughputs forallb].
  { exists [], m. by rewrite app_nil_r. }
  destruct ps as [|p ps]; [done|]. unfold logged at 1. cbn [fst].
  change (arr_get (p :: ps) 0) with (Ok p). cbn [mbind outcome_bind].
  destruct (pl_times p) as [|t ts]; [done|]. change (arr_get (t :: ts) 0) with (Ok t). cbn [mbind outcome_bind andb].
  assert (Hm' : forall i : nat, add_rates m 0 (p :: ps) !! Z.of_nat i
    = total_rate (column i (pre ++ [(p :: ps, reqs)]))).
  { intros i. rewrite add_rates_lookup, decide_True, Hm, Z.sub_0_r, Nat2Z.id by lia.
    unfold column. rewrite omap_app. cbn [omap list_omap fst].
    destruct ((p :: ps) !! i) as [q|]; [by rewrite total_rate_snoc|by rewrite app_nil_r]. }
  specialize (IH _ _ Hm').
  destruct (forallb logged workers).
  - destruct IH as (tables & r & E & Hl & Hr). rewrite E. cbn [mbind outcome_bind].
    eexists _, r. split; [reflexivity|]. split; [cbn; by rewrite Hl|]. intros i. by rewrite Hr, <- app_assoc.
  - by rewrite IH.
Qed.

End reports.

(** ** The name of the log *)

Definition log_dir : string := "./".

(** [snprintf] leaves 127 characters and the end of the string. *)
Definition generate_log_file_path (exp_label log_label : string) : string :=
  String.substring 0 127 (log_dir ++ "/" ++ exp_label ++ "/" ++ log_label).

(** The loop over the entries of the directory. *)
Fixpoint find_trace_dir (entries : list string) : string :=
  match entries with
  | [] => "client"
  | d :: entries =>
    if String.prefix "client" d && Nat.eqb (String.length d) 7 then d else find_trace_dir entries
  end.

(** The end of [main]: [dir] has the entries of the log directory, if [opendir]
    could open it; the directory is read whether it was opened or not. *)
Definition output_file (label output_filename output_dirname : string) (dir : option (list string)) : outcome string :=
  if Nat.eqb (String.length output_filename) 0 then
    trace_dir ← (if Nat.eqb (String.length output_dirname) 0 then
                   match dir with None => UB | Some entries => Ok (find_trace_dir entries) end
                 else Ok output_dirname);
    Ok (generate_log_file_path label (trace_dir ++ "/traces"))
  else Ok output_filename.

(** A name of seven characters that begins with [client]. *)
Definition is_client_dir (d : string) : Prop := String.prefix "client" d = true /\ String.length d = 7%nat.

(** The first such name among the entries, or [client]. *)
Definition trace_dir_of (entries : list string) (t : string) : Prop :=
  t = "client"%string /\ Forall (fun e => ~ is_client_dir e) entries
  \/ exists pre post, entries = pre ++ t :: post /\ is_client_dir t /\ Forall (fun e => ~ is_client_dir e) pre.

Lemma find_trace_dir_spec entries : trace_dir_of entries (find_trace_dir entries).
Proof.
  unfold trace_dir_of, is_client_dir. induction entries as [|e entries IH]; cbn [find_trace_dir]; [by left|].
  destruct (String.prefix "client" e) eqn:Ep, (Nat.eqb_spec (String.length e) 7) as [El|El]; cbn [andb].
  1: { right. by exists [], entries. }
  all: destruct IH as [[-> Hn]|(pre & post & E & Hd & Hn)];
    [left; split; [done|]; constructor; [intros [??]; congruence|done]|right; exists (e :: pre), post].
  all: split; [by rewrite E at 1|]; split; [done|]; constructor; [intros [??]; congruence|done].
Qed.

Lemma substring_take n t :
  (String.length t <= n)%nat /\ String.substring 0 n t = t
  \/ (n < String.length t)%nat /\ String.length (String.substring 0 n t) = n
     /\ String.prefix (String.substring 0 n t) t = true.
Proof.
  revert n. induction t as [|c t IH]; intros [|n]; cbn [String.substring String.length String.prefix];
    [left; split; [lia|done]|left; split; [lia|done]|right; split_and!; (lia || done)|].
  destruct (IH n) as [[H ->]|(H1 & H2 & H3)]; [left; split; [lia|done]|right].
  rewrite H2. destruct (ascii_dec c c); [|done]. split_and!; (lia || done).
Qed.

End ClientSetup.
Import ClientSetup.


(** The log of a run goes to the file that was asked for, or into the directory
    that was asked for, or into the first one with a name of seven letters that
    begins with [client], or into [client].  A path of more than 127 characters
    is cut off.  Without a directory to look into, the run ends in undefined
    behaviour before anything is written. *)
Theorem log_file_correct label name dirname dir :
  match output_file label name dirname dir with
  | Ok f =>
    name <> EmptyString /\ f = name
    \/ name = EmptyString /\ exists t full, full = String.append log_dir ("/" ++ label ++ "/" ++ t ++ "/traces")
       /\ ((String.length full <= 127)%nat /\ f = full
           \/ (127 < String.length full)%nat /\ String.length f = 127%nat /\ String.prefix f full = true)
       /\ (dirname <> EmptyString -> t = dirname)
       /\ (dirname = EmptyString -> exists entries, dir = Some entries /\ trace_dir_of entries t)
  | UB => name = EmptyString /\ dirname = EmptyString /\ dir = None
  | Panic _ => False
  end.
Proof.
  unfold output_file. destruct name as [|c name]; cbn [String.length Nat.eqb]; [|by left].
  assert (Hpath : forall t, exists full, full = String.append log_dir ("/" ++ label ++ "/" ++ t ++ "/traces")
    /\ ((String.length full <= 127)%nat /\ generate_log_file_path label (t ++ "/traces") = full
        \/ (127 < String.length full)%nat /\ String.length (generate_log_file_path label (t ++ "/traces")) = 127%nat
           /\ String.prefix (generate_log_file_path label (t ++ "/traces")) full = true)).
  { intros t. eexists. split; [reflexivity|]. apply substring_take. }
  destruct dirname as [|c dirname]; cbn [String.length Nat.eqb].
  - destruct dir as [entries|]; [|done]. cbn [mbind outcome_bind]. right. split; [done|].
    destruct (Hpath (find_trace_dir entries)) as (full & E & H). exists (find_trace_dir entries), full.
    split_and!; [done|done|done|]. intros _. exists entries. split; [done|apply find_trace_dir_spec].
  - cbn [mbind outcome_bind]. right. split; [done|]. destruct (Hpath (String c dirname)) as (full & E & H).
    by exists (String c dirname), full.
Qed.

(** With fewer CPUs than net workers, the program only prints an error when it
    reads the configuration; it goes on and reads behind the end of the vector
    of CPUs. *)
Theorem client_needs_cpus {D : Type} (ltb : D -> D -> bool) sub div fs seconds_ns req_offset
    {N : Type} (dpdk : forall A, ext_call A -> N -> A * N) up_in junk mempool_at arg args ch lcore cfg o cpus net xs k d :
  Healthy dpdk 0 up_in -> up_in k d -> mempool_at <> NULL ->
  (forall i, length (inbound_queue (in_q (junk i))) = 128%nat /\ length (outbound_queue (junk i)) = 128%nat) ->
  config_ok ltb sub div fs seconds_ns req_offset cfg o ch net xs -> cc_cpus cfg = Some cpus ->
  (length cpus < length net)%nat ->
  (main ltb sub div fs seconds_ns req_offset dpdk junk mempool_at (Some (arg :: args)) ch lcore cfg o d).1 = UB.
Proof.
  intros Hh Hd Hat Hj Hcfg Hcpu Hlen. unfold main.
  eapply (total_then up_in k); [by apply total_psp_ok, (total_net_init dpdk 0)|exact Hd|].
  intros u d1 k1 _ Hd1.
  eapply (total_then up_in k1); [by apply (total_parse_config _ _ _ _ _ _ _ _ _ _ Hat Hj _ _ _ _ cpus net xs)|exact Hd1|].
  intros r d2 k2 (ctxs & pool & ws & -> & Hl & Hw & _ & _) _.
  pose proof (wire_workers_ok cpus ctxs 0 ws ltac:(lia) ltac:(lia)) as Hwire.
  rewrite decide_False in Hwire by (intros [?| ->]; [lia|cbn in Hw; lia]).
  destruct ws; [cbn in Hw; lia|]. unfold mbind at 1, nic_bind at 1, lift at 1. by rewrite Hwire.
Qed.

(** C32. What a faulty entry does.  The first entry of the configuration with a
    fault ends the process, with the code that belongs to one of its faults:
    a raw schedule without a packet size, another number of command lists or
    run times than of ratios, an empty list, an entry with neither lists nor run
    times, a list that cannot be opened, or a run time that is no number. *)
Theorem faulty_schedule_stops {D : Type} (ltb : D -> D -> bool) sub div fs seconds_ns req_offset
    {N : Type} (dpdk : forall A, ext_call A -> N -> A * N) up_in junk mempool_at arg args ch lcore cfg o cpus net pre x post e k d :
  Healthy dpdk 0 up_in -> up_in k d -> mempool_at <> NULL ->
  (forall i, length (inbound_queue (in_q (junk i))) = 128%nat /\ length (outbound_queue (junk i)) = 128%nat) ->
  cc_cpus cfg = Some cpus -> cc_net cfg = Some net -> (0 < length net)%nat -> Z.of_nat (length net) <= 32767 ->
  op_ips o <> [] -> op_ports o <> [] ->
  cc_scheds cfg = Some (pre ++ x :: post) ->
  draws_ok ltb sub div fs seconds_ns req_offset (Z.of_nat (length net)) (ch 0) pre -> fault fs x e ->
  exists e', fault fs x e'
    /\ (main ltb sub div fs seconds_ns req_offset dpdk junk mempool_at (Some (arg :: args)) ch lcore cfg o d).1 = Panic e'.
Proof.
  intros Hh Hd Hat Hj Hcpu Hnet H0 Hmax Hip Hpo Hs [He Hdr] Hf.
  destruct (parse_scheds_fault ltb sub div fs seconds_ns req_offset (Z.of_nat (length net)) (ch 0) 0 pre x post [] e)
    as (e' & He' & E); [by intros j y Hy; apply He|done|done|].
  exists e'. split; [done|]. unfold main.
  eapply (total_then up_in k); [by apply total_psp_ok, (total_net_init dpdk 0)|exact Hd|].
  intros u d1 k1 _ Hd1. apply bind_stops. unfold parse_config. rewrite Hcpu, Hnet, Hs.
  eapply (total_then up_in k1); [apply (total_new_contexts _ _ _ _ Hat Hj); (done || lia)|exact Hd1|].
  intros nets d2 k2 _ _. apply bind_stops. unfold lift. destruct net; [cbn in H0; lia|].
  cbn [length parse_workers fst]. cbn [length] in E. by rewrite E.
Qed.


(** The rates that are reported.  When every worker has a first schedule with a
    send time, there is a table for each worker, and the rates of a schedule are
    the rates of the workers that have it, added up in the order of the workers;
    else the first send time is read where there is none. *)
Theorem log_rates_correct {D : Type} (add : D -> D -> D) per_second epoch workers :
  if forallb logged workers
  then exists tables r, log_worker_throughputs add per_second epoch ∅ workers = Ok (tables, r)
    /\ length tables = length workers
    /\ forall i : nat, r !! Z.of_nat i = total_rate add per_second (column i workers)
  else log_worker_throughputs add per_second epoch ∅ workers = UB.
Proof. apply (log_throughputs_rates add per_second epoch workers [] ∅). intros i. by rewrite lookup_empty. Qed.

(** *** Witnesses: two net workers, one entry with two lists of commands *)

Definition ex_fs (f : string) : option (list string) :=
  if decide (f = "short"%string) then Some ["10"; "20"]%string
  else if decide (f = "long"%string) then Some [" +5000us"]%string
  else None.

Definition ex_node (lists : list string) : sched_node Z := mk_node 100 1 false "PSP_MB" None [995; 5] (Some lists) None.

Definition ex_cfg (cpus : list Z) (xs : list (sched_node Z)) : client_cfg Z :=
  mk_ccfg (Some cpus) 7 8 0 (Some [0x0100000a; 0x0200000a]) (Some xs).

Definition ex_cli : cli Z := mk_cli false false false 0 [0x0300000a] [6789] 10 [] [] 0 (-1).

Definition ex_chance (n i : Z) : chance Z := mk_chance (fun _ t => t) 100 [(3, 1); (997, 1)].

Definition ex_junk (i : Z) : UdpContext := mk_udpctx 0 0 0 0 0 0 (mk_rxq (replicate 128 5) 0 0) (replicate 128 6) 0 0.

Notation ex_lists := (["short"; "long"]%string).

Lemma ex_config_ok cpus :
  config_ok Z.ltb Z.sub Z.div ex_fs id 1 (ex_cfg cpus [ex_node ex_lists]) ex_cli ex_chance
    [0x0100000a; 0x0200000a] [ex_node ex_lists].
Proof.
  split; [split_and!; [done|cbn; lia|cbn; lia]|done|done|]. intros n _. split; [|cbn; lia].
  intros k x Hk. destruct k as [|k]; [|by destruct k]. injection Hk as <-. split.
  - pose proof (parse_sched_cases Z.div ex_fs id 1 2 0 (ex_node ex_lists)) as Hp.
    destruct (parse_sched Z.div ex_fs 2 0 (ex_node ex_lists)) as [o|e|] eqn:E; [by destruct Hp|by vm_compute in E|done].
  - intros o [_ _ (F1 & _ & F2) [F3 _] F4 F5 _]. rewrite F4, F3 in F5.
    assert (Hd : forall r, is_Some (pick Z.ltb Z.sub r [995; 5] 0) ->
      draw_ok Z.ltb Z.sub (fun t => t) (cfg_of id o) (r, 1)).
    { intros r Hr. split; [cbn; by rewrite F4|]. cbn. unfold next_time. cbn. rewrite F1, F2. cbn. intros t Ht. word_lia. }
    split; [|split].
    + unfold cfg_ok. cbn. rewrite F3, F4. cbn. unfold LAST. split_and!; [lia|lia|by apply F5].
    + constructor; [apply Hd; by eexists|]. constructor; [apply Hd; by eexists|constructor].
    + cbn. unfold time_after, next_time. cbn. rewrite F1, F2. by vm_compute.
Qed.

Lemma ex_junk_ok i : length (inbound_queue (in_q (ex_junk i))) = 128%nat /\ length (outbound_queue (ex_junk i)) = 128%nat.
Proof. done. Qed.


Lemma client_needs_cpus_witness :
  (main Z.ltb Z.sub Z.div ex_fs id 1 (fun A c => card None c) ex_junk 64 (Some ["-l"; "0"]%string) ex_chance
    (fun _ => (0, 0)) (ex_cfg [2] [ex_node ex_lists]) ex_cli 5%nat).1 = UB.
Proof.
  apply (client_needs_cpus Z.ltb Z.sub Z.div ex_fs id 1 (fun A c => card None c) (fun k d => d = k) ex_junk 64 "-l" ["0"]%string
    ex_chance (fun _ => (0, 0)) (ex_cfg [2] [ex_node ex_lists]) ex_cli [2] [0x0100000a; 0x0200000a]
    [ex_node ex_lists] 5%nat 5%nat).
  - exact card_healthy.
  - reflexivity.
  - discriminate.
  - exact ex_junk_ok.
  - apply ex_config_ok.
  - reflexivity.
  - cbn. lia.
Defined.

(** The second entry names a list that is not there. *)
Lemma faulty_schedule_stops_witness :
  exists e', fault ex_fs (ex_node ["short"; "none"]%string) e'
    /\ (main Z.ltb Z.sub Z.div ex_fs id 1 (fun A c => card None c) ex_junk 64 (Some ["-l"; "0"]%string) ex_chance
          (fun _ => (0, 0)) (ex_cfg [2; 4] [ex_node ex_lists; ex_node ["short"; "none"]%string]) ex_cli 5%nat).1 = Panic e'.
Proof.
  apply (faulty_schedule_stops Z.ltb Z.sub Z.div ex_fs id 1 (fun A c => card None c) (fun k d => d = k) ex_junk 64 "-l"
    ["0"]%string ex_chance (fun _ => (0, 0)) (ex_cfg [2; 4] [ex_node ex_lists; ex_node ["short"; "none"]%string]) ex_cli
    [2; 4] [0x0100000a; 0x0200000a] [ex_node ex_lists] (ex_node ["short"; "none"]%string) [] 1 5%nat 5%nat).
  - exact card_healthy.
  - reflexivity.
  - discriminate.
  - exact ex_junk_ok.
  - reflexivity.
  - reflexivity.
  - cbn. lia.
  - cbn. lia.
  - discriminate.
  - discriminate.
  - reflexivity.
  - apply (co_draws _ _ _ _ _ _ _ _ _ _ _ (ex_config_ok [2; 4])). cbn. lia.
  - apply F_cmds. apply (F_file _ _ ["short"; "none"]%string "none"%string); [reflexivity|set_solver|reflexivity].
Defined.

(** The state behind the start, and its first worker. *)
Definition ex_state : list net_ctx * list (cworker Z) :=
  match (main Z.ltb Z.sub Z.div ex_fs id 1 (fun A c => card None c) ex_junk 64 (Some ["-l"; "0"]%string) ex_chance
           (fun _ => (0, 0)) (ex_cfg [2; 4] [ex_node ex_lists]) ex_cli 5%nat).1 with
  | Ok (Some r) => r
  | _ => ([], [])
  end.

Definition ex_ctx : net_ctx := default (mk_netctx 0 0 [] 0 (ex_junk 0)) (ex_state.1 !! 0%nat).
Definition ex_worker : cworker Z :=
  default (mk_cw (Control.new_Worker_id Control.CLIENT 0) [] [] 0 None) (ex_state.2 !! 0%nat).

Lemma ex_started :
  ctx_ready (ex_cfg [2; 4] [ex_node ex_lists]) ex_cli 0 0x0100000a ex_ctx
  /\ started Z.div id 1 2 [ex_node ex_lists] (-1) [2; 4] 0 ex_worker.
Proof.
  destruct (total_main Z.ltb Z.sub Z.div ex_fs id 1 (fun A c => card None c) (fun k d => d = k) ex_junk 64 ltac:(done)
    ex_junk_ok 5%nat "-l" ["0"]%string ex_chance (fun _ => (0, 0)) (ex_cfg [2; 4] [ex_node ex_lists]) ex_cli [2; 4]
    [0x0100000a; 0x0200000a] [ex_node ex_lists] (ex_config_ok [2; 4]) eq_refl ltac:(cbn; lia) ltac:(done) ltac:(lia) 5%nat eq_refl)
    as (r & t & d' & k' & E & (ctxs & ws & -> & Hl & Hw & Hc & Hs) & _).
  unfold ex_ctx, ex_worker, ex_state. rewrite E. cbn [fst snd].
  destruct (lookup_lt_is_Some_2 ctxs 0) as [c Ec]; [rewrite Hl; cbn; lia|].
  destruct (lookup_lt_is_Some_2 ws 0) as [w Ew]; [rewrite Hw; cbn; lia|].
  rewrite Ec, Ew. cbn [default]. split; [|by apply (Hs 0%nat)].
  destruct (Hc 0%nat c Ec) as (addr & f & Ha & Hr & _). by injection Ha as <-.
Qed.

Definition ex_sched : sched_obj Z :=
  mk_sobj 0 50 1 6 false PSP_MB 0 [995; 5] [["10"; "20"]; [" +5000us"]]%string [10; 5000] 2 [101; 102].

Lemma ex_worker_scheds : cw_scheds ex_worker = [ex_sched] /\ length (cw_reqs ex_worker) = 2%nat.
Proof. by vm_compute. Qed.

(** Passes for ten seconds in nanoseconds. *)
Definition ex_fuel : nat := Z.to_nat (10 ^ 10).

Lemma ex_fuel_enough : Z.of_nat ex_fuel = 10 ^ 10.
Proof. unfold ex_fuel. apply Z2Nat.id. lia. Qed.
#[global] Opaque ex_fuel.

Lemma ex_sched_fit : Forall (fit tick_time ex_fuel PSP_MB 0) [ex_sched].
Proof.
  constructor; [|constructor]. split.
  - by split.
  - cbn. lia.
  - rewrite ex_fuel_enough. cbn. lia.
  - intros t0 tl n0 n1 t n2 [= <-] [= <-] [= <- _]. cbn. lia.
Qed.

