(* ===== verification/Boot.v ===== *)
(** * Boot: the server from the configuration to running workers

    Models the constructor of [Psp] in [src/src/c++/libos/common/persephone.cc]
    with its calls to the card and to the task queue, over [Control], [Nic] and
    [Context], the constructor of [PspApp] in [src/src/c++/apps/app/psp_app.hh]
    and the start of [main] in [src/src/c++/apps/app/psp_app.cc].  RocksDB is an
    argument. *)
From S2P Require Import Prelude Fail Base Mempool Context Requests Lrpc Peers Dispatcher Worker NetWorker System Udp Control Nic.
Import Udp Control Nic.

Module Boot.

Section boot.
Context (junk_types : dtypes) (junk_dp : dispatch_mode) (junk : list Z) (allocs : Z -> (Z * Z) * (Z * Z)).
Context {N : Type} (dpdk : forall A, ext_call A -> N -> A * N) (junk_ctx : Z -> UdpContext) (mempool_at : Z).
(** The [mac] and the [device_id] of the configuration. *)
Context (mac port_id : Z).

(** The net workers, with a context each. *)
Fixpoint net_workers (i : Z) (cs : list net_cfg) (s : ctl) (ctxs : list net_ctx) (pool : Z)
  : nic N (ctl * list net_ctx * Z) :=
  match cs with
  | [] => mret (s, ctxs, pool)
  | c :: cs =>
    _ ← lift (arr_get (cpus s) i);
    '(ctx, pool) ← new_UdpContext dpdk (junk_ctx i) (u32 i) (nc_ip c) (nc_port c) port_id mempool_at pool mac;
    s ← lift (add_net junk_types junk_dp i c s);
    net_workers (i + 1) cs s (ctxs ++ [ctx]) pool
  end.

(** The application workers: a context with the address of the net worker, and
    one pass of the loop that [Control] has. *)
Fixpoint app_workers_card (n_left : nat) (i netw : Z) (type : string) (s : ctl) (ctxs : list net_ctx) (pool : Z)
  : nic N (ctl * list net_ctx * Z) :=
  match n_left with
  | O => mret (s, ctxs, pool)
  | S n_left =>
    nw ← lift (deref s netw);
    match w_udp nw with
    | None => lift UB
    | Some (_, ip, port) =>
      '(ctx, pool) ← new_UdpContext dpdk (junk_ctx i) (u32 i) ip port port_id mempool_at pool mac;
      s ← lift (app_workers allocs 1 i netw type s);
      app_workers_card n_left (i + 1) netw type s (ctxs ++ [ctx]) pool
    end
  end.

(** The constructor of [Psp].  What [dpdk_net_init] and [taskqueue_init] return
    is not looked at. *)
Definition Psp_card (malloc : nat -> Z -> Z) (sizeof_ucontext : Z) (eal : option (list string)) (c : config) (g : pools) (s : ctl)
  : nic N (pools * ctl * list net_ctx * Z) :=
  _ ← dpdk_net_init dpdk eal;
  '(_, g) ← lift (taskqueue_init malloc sizeof_ucontext g);
  match cfg_cpus c, cfg_net c with
  | None, _ => lift (Panic ENODEV)
  | Some _, None => lift (Panic ENODEV)
  | Some cs, Some nets =>
    '(s, ctxs, pool) ← net_workers 0 nets (mk_ctl cs (workers s) (total_workers s) (chans_mem s)) [] NULL;
    '(_, ws) ← lift (get_workers NET s (replicate MAX_WORKERS (-1)));
    netw ← lift (arr_get ws 0);
    '(s, ctxs, pool) ←
      (match cfg_workers c with
       | None => mret (s, ctxs, pool)
       | Some (n, type) =>
         '(s, ctxs, pool) ← app_workers_card (Z.to_nat n) (Z.of_nat (length nets)) netw type s ctxs pool;
         s ← lift (upd_dpt netw mark_free s);
         mret (s, ctxs, pool)
       end);
    s ← lift (upd_dpt netw (add_types junk (cfg_requests c)) s);
    ret ← init_dpdk_port dpdk port_id pool (n_tqs c) (n_rqs c);
    if negb (ret =? 0) then lift (Panic 1) else mret (g, s, ctxs, pool)
  end.

End boot.

(** The rest of the constructor of [PspApp]: [db] is what [rocksdb_open]
    returned, if it did not report an error; the result has the database of
    each place. *)
Fixpoint set_dbs (n_left : nat) (i db : Z) (rdb_workers : list Z) (dbs : gmap Z Z) : outcome (gmap Z Z) :=
  match n_left with
  | O => Ok dbs
  | S n_left => p ← arr_get rdb_workers i; set_dbs n_left (i + 1) db rdb_workers (<[p := db]> dbs)
  end.

Definition open_db (db : option Z) (s : ctl) : outcome (gmap Z Z) :=
  '(ntds, rdb_workers) ← get_workers RDB s (replicate MAX_WORKERS (-1));
  if 0 <? ntds then
    match db with
    | None => Panic 1
    | Some db => set_dbs (Z.to_nat ntds) 0 db rdb_workers ∅
    end
  else Ok ∅.

(** The [setup] of the classes of workers. *)
Definition setup (w : wobj) : outcome Z :=
  match w_type w with
  | NET => _ ← PSP_TRUE EPERM (if w_udp w then true else false); Ok 0
  | _ => Ok 0
  end.

(** [main] up to the fake packets. *)
Definition start (db : option Z) (lcore : Z -> Z * Z) (s : ctl) : outcome (gmap Z Z * bool * ctl) :=
  dbs ← open_db db s;
  '(ok, s) ← launch_all lcore setup s;
  Ok (dbs, ok, s).

(** ** Looking for workers *)

(** The places of the workers of a type, in increasing order, are entered into
    the array from [j] on. *)
Lemma get_loop_places m i j type s out :
  populated s -> 0 <= i -> i + Z.of_nat m = total_workers s -> 0 <= j <= i -> length out = MAX_WORKERS ->
  exists l, get_loop m i j type s out
      = Ok (j + Z.of_nat (length l), take (Z.to_nat j) out ++ l ++ drop (Z.to_nat j + length l) out)
    /\ (length l <= m)%nat
    /\ forall p, p ∈ l <-> i <= p < total_workers s /\ exists w, at_place s p w /\ w_type w = type.
Proof.
  intros Hp. revert i j out. induction m as [|m IH]; intros i j out Hi Hm Hj Hl; cbn [get_loop].
  { exists []. cbn. rewrite Z.add_0_r, Nat.add_0_r, take_drop. split_and!; [done|done|]. intros p.
    rewrite elem_of_nil. split; [done|]. lia. }
  pose proof (po_total _ Hp). destruct (po_at _ Hp i) as (w & Hw); [lia|]. rewrite (deref_Ok _ _ _ Hi Hw). cbn [mbind outcome_bind].
  destruct (decide (w_type w = type)) as [Ht|Ht].
  - rewrite arr_set_Ok by (rewrite Hl; unfold MAX_WORKERS; lia). cbn [mbind outcome_bind].
    destruct (IH (i + 1) (j + 1) (<[Z.to_nat j := i]> out)) as (l & E & Hlen & Hin);
      [lia|lia|lia|by rewrite length_insert|].
    exists (i :: l). rewrite E. split_and!; [|cbn; lia|].
    + cbn [length]. f_equal. f_equal; [lia|].
      replace (Z.to_nat (j + 1)) with (S (Z.to_nat j)) by lia.
      rewrite (take_S_r _ _ i) by (apply list_lookup_insert_eq; rewrite Hl; unfold MAX_WORKERS; lia).
      rewrite take_insert_ge, drop_insert_lt, <- app_assoc by lia. cbn [app].
      by replace (S (Z.to_nat j) + length l)%nat with (Z.to_nat j + S (length l))%nat by lia.
    + intros p. rewrite elem_of_cons, Hin. split.
      * intros [->|(? & v & ? & ?)]; [|split; [lia|by exists v]]. split; [lia|by exists w].
      * intros [? Hex]. destruct (decide (p = i)) as [->|?]; [by left|right]. split; [lia|done].
  - destruct (IH (i + 1) j out) as (l & E & Hlen & Hin); [lia|lia|lia|done|].
    exists l. split_and!; [done|lia|]. intros p. rewrite Hin. split.
    + intros [? Hex]. split; [lia|done].
    + intros [? (v & Hv & Hty)]. split; [|by exists v]. destruct (decide (p = i)) as [->|?]; [|lia].
      unfold at_place in *. congruence.
Qed.

Lemma set_dbs_ok n i db ws dbs :
  0 <= i -> i + Z.of_nat n <= Z.of_nat (length ws) ->
  exists dbs', set_dbs n i db ws dbs = Ok dbs'
    /\ forall p, dbs' !! p = if decide (p ∈ take n (drop (Z.to_nat i) ws)) then Some db else dbs !! p.
Proof.
  revert i dbs. induction n as [|n IH]; intros i dbs Hi Hl; cbn [set_dbs].
  { exists dbs. split; [done|]. intros p. by rewrite decide_False by (rewrite take_0; set_solver). }
  destruct (arr_get_lt ws i) as [q Hq]; [lia|]. rewrite Hq. cbn [mbind outcome_bind].
  destruct (IH (i + 1) (<[q := db]> dbs)) as (dbs' & E & H'); [lia|lia|]. exists dbs'. split; [done|].
  intros p. rewrite H'. apply arr_get_Ok in Hq as [_ Hq]. replace (Z.to_nat (i + 1)) with (S (Z.to_nat i)) by lia.
  rewrite (drop_S _ _ _ Hq). cbn [take]. destruct (decide (p ∈ take n (drop (S (Z.to_nat i)) ws))).
  - by rewrite decide_True by (by right).
  - destruct (decide (p = q)) as [->|Hne].
    + rewrite lookup_insert_eq. by rewrite decide_True by (by left).
    + rewrite lookup_insert_ne by done. rewrite decide_False; [done|]. by intros [?|?]%elem_of_cons.
Qed.

(** ** The state the constructor leaves *)

(** The context at place [i]: it has the address of the net worker and the
    common pool, and both its rings are empty. *)
Record server_ctx (net : net_cfg) (port_id pool i : Z) (c : net_ctx) : Prop := {
  sc_id : nx_id c = i /\ nx_port_id c = port_id /\ nx_flows c = [];
  sc_pool : nx_pool c = pool /\ pool <> NULL;
  sc_addr : ip (nx_udp c) = nc_ip net /\ port (nx_udp c) = nc_port net /\ remote_mac (nx_udp c) = 0;
  sc_rings : rrel (in_q (nx_udp c)) [] /\ pop_head (in_q (nx_udp c)) = 0 /\ out_rep (nx_udp c) []
}.

Definition server_ctxs (net : net_cfg) (port_id pool : Z) (k : Z) (ctxs : list net_ctx) : Prop :=
  Z.of_nat (length ctxs) = k /\ forall i c, ctxs !! i = Some c -> server_ctx net port_id pool (Z.of_nat i) c.

Lemma server_ctxs_snoc net port_id pool k ctxs c :
  server_ctxs net port_id pool k ctxs -> server_ctx net port_id pool k c -> server_ctxs net port_id pool (k + 1) (ctxs ++ [c]).
Proof.
  intros [Hl Hc] Hn. split; [rewrite length_app; cbn; lia|]. intros i x. rewrite lookup_app_Some.
  intros [Hx|[Hge Hx]]; [by apply Hc|]. assert (i = length ctxs) as -> by (apply lookup_lt_Some in Hx; cbn in Hx; lia).
  rewrite Nat.sub_diag in Hx. injection Hx as <-. by rewrite Hl.
Qed.

Lemma fresh_allocs_le allocs h n m : fresh_allocs allocs h n -> m <= n -> fresh_allocs allocs h m.
Proof. intros [F1 F2 F3 F4] Hm. split; intros; [apply F1|apply F2|apply F3|apply F4]; lia. Qed.

Section wired_state.
Context (allocs : Z -> (Z * Z) * (Z * Z)) (cs : list Z) (net : net_cfg) (wt : WorkerType) (types : dtypes).
Context (h0 : lheap) (n : Z) (s : ctl) (w0 : wobj) (d : dispatcher).
Context (Hn : 0 <= n < 32) (Hw : wired allocs cs net wt types h0 n s w0 d).

Lemma wired_place i w : 0 <= i < total_workers s -> at_place s i w ->
  unstarted w /\ w_type w = if decide (i = 0) then NET else wt.
Proof.
  intros Hi Ha. destruct Hw as [_ _ Wt (N1 & N2 & _ & _ & _ & _ & N7) _ Wa _ _ _]. unfold at_place in Ha.
  destruct (decide (i = 0)) as [->|Hne].
  - change (Z.to_nat 0) with 0%nat in Ha. rewrite N1 in Ha. by injection Ha as <-.
  - destruct (Wa i) as (v & [R1 _ R3 _ _ [R6 _] _]); [lia|]. rewrite R1 in Ha. by injection Ha as <-.
Qed.

Lemma wired_setup i w : 0 <= i < total_workers s -> at_place s i w -> setup w = Ok 0.
Proof.
  intros Hi Ha. destruct Hw as [_ _ Wt (N1 & _ & _ & N4 & _) _ Wa _ _ _]. unfold at_place in Ha.
  assert (exists x, w_udp w = Some x) as [x Hx].
  { destruct (decide (i = 0)) as [->|Hne].
    - change (Z.to_nat 0) with 0%nat in Ha. rewrite N1 in Ha. injection Ha as <-. by eexists.
    - destruct (Wa i) as (v & [R1 _ _ R4 _ _ _]); [lia|]. rewrite R1 in Ha. injection Ha as <-. by eexists. }
  unfold setup. rewrite Hx. by destruct (w_type w).
Qed.

Lemma wired_populated : populated s.
Proof.
  destruct Hw as [_ Wl Wt (N1 & _) _ Wa _ _ _]. split; [done|lia|]. intros i Hi.
  destruct (decide (i = 0)) as [->|Hne]; [by exists w0|]. destruct (Wa i) as (v & [R1 _ _ _ _ _ _]); [lia|]. by exists v.
Qed.

(** The application workers get the database if they are to have one. *)
Lemma open_db_wired db :
  exists dbs, open_db (Some db) s = Ok dbs
    /\ forall p, dbs !! p = if decide (wt = RDB /\ 1 <= p <= n) then Some db else None.
Proof.
  pose proof (wi_total _ _ _ _ _ _ _ _ _ _ Hw) as Ht. pose proof wired_populated as Hp.
  destruct (get_loop_places (Z.to_nat (total_workers s)) 0 0 RDB s (replicate MAX_WORKERS (-1)))
    as (l & E & Hlen & Hin); [done|lia|lia|lia|done|].
  assert (Hin' : forall p, p ∈ l <-> wt = RDB /\ 1 <= p <= n).
  { intros p. rewrite Hin. split.
    - intros [Hr (w & Ha & Hty)]. destruct (wired_place p w Hr Ha) as [_ Hty']. rewrite Hty in Hty'.
      destruct (decide (p = 0)); [done|]. split; [done|lia].
    - intros [Hrdb Hr]. split; [lia|]. destruct (po_at _ Hp p) as (w & Ha); [lia|]. exists w. split; [done|].
      destruct (wired_place p w) as [_ ->]; [lia|done|]. by rewrite decide_False by lia. }
  unfold open_db, get_workers. rewrite E. cbn [mbind outcome_bind app]. rewrite Z.add_0_l, take_0. cbn [app Nat.add].
  destruct (Z.ltb_spec 0 (Z.of_nat (length l))) as [Hpos|Hz].
  - destruct (set_dbs_ok (Z.to_nat (Z.of_nat (length l))) 0 db (l ++ drop (length l) (replicate MAX_WORKERS (-1))) ∅)
      as (dbs & Ed & Hd); [lia|rewrite length_app; lia|].
    change (Z.to_nat 0) with 0%nat in *. cbn [Nat.add]. exists dbs. split; [exact Ed|]. intros p. rewrite Hd, drop_0, Nat2Z.id, take_app_length, lookup_empty.
    destruct (decide (wt = RDB /\ 1 <= p <= n)) as [H|H]; [rewrite decide_True by (by apply Hin'); done|].
    by rewrite decide_False by (by rewrite Hin').
  - destruct l; [|cbn in Hz; lia]. exists ∅. split; [done|]. intros p. rewrite lookup_empty.
    rewrite decide_False; [done|]. rewrite <- Hin'. apply not_elem_of_nil.
Qed.

Lemma start_wired db lcore :
  (forall cpu, lcore cpu = (0, 0)) ->
  exists dbs s', start (Some db) lcore s = Ok (dbs, true, s')
    /\ (forall p, dbs !! p = if decide (wt = RDB /\ 1 <= p <= n) then Some db else None)
    /\ forall j, 0 <= j <= n -> exists w, at_place s' j w /\ started w = true /\ exited w = false.
Proof.
  intros Hlc. destruct (open_db_wired db) as (dbs & E & Hd). pose proof (wi_total _ _ _ _ _ _ _ _ _ _ Hw) as Ht.
  destruct (launch_loop_ok lcore setup (fun _ => 0) (Z.to_nat (total_workers s)) 0 s) as (b & s' & E' & B1 & B2 & B3);
    [done|by apply wired_populated|lia|lia|by intros j w Hj Ha; split; [apply (wired_place j w)|apply (wired_setup j)]|lia|].
  destruct b; [|by destruct (B3 eq_refl) as (f & _ & ? & _)].
  exists dbs, s'. unfold start, launch_all. rewrite E. cbn [mbind outcome_bind]. rewrite E'. split; [done|]. split; [done|].
  intros j Hj. apply B2; [done|lia].
Qed.

End wired_state.

Section healthy_card.
Context (junk_types : dtypes) (junk_dp : dispatch_mode) (junk : list Z) (allocs : Z -> (Z * Z) * (Z * Z)).
Context {N : Type} (dpdk : forall A, ext_call A -> N -> A * N) (port_id : Z) (up_in : nat -> N -> Prop).
Context `{!Healthy dpdk port_id up_in}.
Context (junk_ctx : Z -> UdpContext) (mempool_at mac : Z) (Hat : mempool_at <> NULL).
Context (Hjunk : forall i, length (inbound_queue (in_q (junk_ctx i))) = 128%nat /\ length (outbound_queue (junk_ctx i)) = 128%nat).
Context (cs : list Z) (net : net_cfg) (wt : WorkerType).

Lemma total_server_ctx k i pool :
  0 <= i < 2 ^ 32 ->
  total up_in k (new_UdpContext dpdk (junk_ctx i) (u32 i) (nc_ip net) (nc_port net) port_id mempool_at pool mac) (fun r =>
    (pool <> NULL -> r.2 = pool) /\ server_ctx net port_id r.2 i r.1).
Proof.
  intros Hi d Hd. destruct (total_new_context dpdk port_id up_in k (junk_ctx i) (u32 i) (nc_ip net) (nc_port net) port_id
    mempool_at pool mac Hat d Hd) as ([c p] & t & d' & k' & E & (Hp & Hpool & Hc) & Hu).
  exists (c, p), t, d', k'. split; [done|]. split; [|done]. cbn [fst snd] in *. subst c. split; [done|].
  destruct (Hjunk i) as [Hj1 Hj2]. split; cbn [nx_id nx_port_id nx_flows nx_pool nx_udp ip port remote_mac in_q];
    rewrite ?u32_id by done; split_and!; try done; (split; [|done..]; by split).
Qed.

(** The loop over the application workers, from the state with [k] of them. *)
Lemma total_app_workers kk h0 types n m k s w0 d type ctxs pool :
  worker_type_of type = Some wt -> fresh_allocs allocs h0 n -> n < 32 -> n < Z.of_nat (length cs) ->
  0 <= k -> k + Z.of_nat m = n -> wired allocs cs net wt types h0 k s w0 d -> server_ctxs net port_id pool (k + 1) ctxs ->
  pool <> NULL ->
  total up_in kk (app_workers_card allocs dpdk junk_ctx mempool_at mac port_id m (k + 1) 0 type s ctxs pool) (fun r =>
    exists s' w0' d' ctxs', r = (s', ctxs', pool) /\ app_workers allocs m (k + 1) 0 type s = Ok s'
      /\ wired allocs cs net wt types h0 n s' w0' d' /\ server_ctxs net port_id pool (n + 1) ctxs').
Proof.
  intros Hty Ha Hn Hc. revert kk k s w0 d ctxs. induction m as [|m IH]; intros kk k s w0 d ctxs Hk Hm Hw Hx Hp.
  { apply total_ret. exists s, w0, d, ctxs. replace n with k by lia. by split_and!. }
  cbn [app_workers_card]. destruct (wi_net _ _ _ _ _ _ _ _ _ _ Hw) as (N1 & _ & _ & N4 & _).
  eapply total_lift_bind; [by apply (deref_Ok s 0 w0)|]. rewrite N4.
  eapply total_bind; [apply total_server_ctx; lia|]. intros [c p] k1 _ [Hpool Hc1]. cbn [fst snd] in *.
  rewrite (Hpool Hp) in *. clear Hpool.
  destruct (app_workers_ok allocs cs net wt types h0 (k + 1) 1 k s w0 d type) as (s1 & w1 & d1 & E1 & Hw1);
    [done|by eapply fresh_allocs_le; [|]; [exact Ha|lia]|lia|lia|lia|lia|done|].
  eapply total_lift_bind; [exact E1|].
  intros dd Hdd. destruct (IH k1 (k + 1) s1 w1 d1 (ctxs ++ [c])) with (d := dd)
    as (r & t & d' & k' & E & (s' & w' & dp' & ctxs' & -> & Es & Hws & Hxs) & Hu); [lia|lia|done|by apply server_ctxs_snoc|done|done|].
  exists (s', ctxs', pool), t, d', k'. split; [done|]. split; [|done]. exists s', w', dp', ctxs'.
  split; [done|]. split; [|done]. by rewrite app_workers_S, E1.
Qed.

Lemma total_Psp k malloc sizeof_ucontext g0 rc g arg args n type reqs types h s0 :
  worker_type_of type = Some wt -> 0 <= n < 32 -> n < Z.of_nat (length cs) -> fresh_allocs allocs h n ->
  match reqs with
  | Some es => register_types junk (str_to_dp (nc_dp net)) es junk_types = Ok types
  | None => str_to_dp (nc_dp net) = CFCFS /\ types = junk_types
  end ->
  taskqueue_init malloc sizeof_ucontext g0 = Ok (rc, g) -> (k < 90)%nat ->
  workers s0 = replicate MAX_WORKERS None -> total_workers s0 = 0 -> chans_mem s0 = h ->
  total up_in k (Psp_card junk_types junk_dp junk allocs dpdk junk_ctx mempool_at mac port_id malloc sizeof_ucontext
      (Some (arg :: args)) (mk_config (Some cs) (Some [net]) (Some (n, type)) reqs) g0 s0) (fun r =>
    exists s w0 d ctxs pool, r = (g, s, ctxs, pool)
      /\ wired allocs cs net wt types h n s w0 d /\ dpt_free_peers d = 2 ^ n - 1
      /\ server_ctxs net port_id pool (n + 1) ctxs).
Proof.
  intros Hty Hn Hc Ha Hreq Htq Hk Hs1 Hs2 Hs3.
  destruct (lookup_lt_is_Some_2 cs 0) as [cpu0 Hcpu]; [lia|].
  destruct (psp_wired junk_types junk_dp junk allocs cs net n type wt reqs types h [] Hty Hn Hc Ha Hreq)
    as (s & w0 & d & E & Hw & Hf).
  destruct (net_ok allocs cs net wt junk_types junk_dp h cpu0 Hcpu) as (s1 & w1 & d1 & E1 & Hw1).
  assert (Hwt : wt <> NET) by (by unfold worker_type_of in Hty; repeat case_decide; simplify_eq).
  unfold Psp_card. eapply total_bind; [by apply (total_net_init dpdk port_id)|]. intros u k1 L1 _.
  eapply total_lift_bind; [exact Htq|]. cbn [cfg_cpus cfg_net cfg_workers cfg_requests]. rewrite Hs1, Hs2, Hs3.
  assert (Hnet : total up_in k1 (net_workers junk_types junk_dp dpdk junk_ctx mempool_at mac port_id 0 [net]
      (mk_ctl cs (replicate MAX_WORKERS None) 0 h) [] NULL) (fun r => exists ctxs pool, r = (s1, ctxs, pool)
      /\ server_ctxs net port_id pool 1 ctxs /\ pool <> NULL)).
  { cbn [net_workers net_loop] in E1 |- *. eapply total_lift_bind; [by apply (arr_get_Ok cs 0 cpu0)|].
    eapply total_bind; [apply total_server_ctx; lia|]. intros [c p] k2 _ [_ Hcx]. cbn [fst snd] in *.
    apply bind_Ok_inv in E1 as (s1' & E1 & [= <-]). eapply total_lift_bind; [exact E1|]. apply total_ret.
    exists ([] ++ [c]), p. split; [done|]. split; [|by destruct Hcx as [_ [_ ?]]].
    apply (server_ctxs_snoc net port_id p 0 []); [by split|done]. }
  eapply total_bind; [exact Hnet|]. intros r k2 L2 (ctxs & pool & -> & Hx & Hp).
  unfold Psp_workers in E. cbn [cfg_cpus cfg_net cfg_workers cfg_requests workers total_workers chans_mem] in E.
  rewrite E1 in E. change (replicate MAX_WORKERS (-1)) with (-1 :: replicate 31 (-1)) in *. cbn [mbind outcome_bind] in E.
  pose proof (get_net allocs cs net wt junk_types h 0 s1 w1 d1 (replicate 31 (-1)) (-1) ltac:(lia) Hwt Hw1) as Eg.
  rewrite Eg in E. cbn [mbind outcome_bind length] in E. change (arr_get (0 :: replicate 31 (-1)) 0) with (Ok 0) in E.
  cbn [mbind outcome_bind] in E. change (Z.of_nat 1) with (0 + 1) in E.
  eapply total_lift_bind; [exact Eg|]. eapply (total_lift_bind _ _ 0); [done|].
  eapply (total_bind _ _ _ _ (fun r => exists s3 ctxs', r = (s3, ctxs', pool)
    /\ upd_dpt 0 (add_types junk reqs) s3 = Ok s /\ server_ctxs net port_id pool (n + 1) ctxs')).
  - change (Z.of_nat (length [net])) with (0 + 1).
    eapply total_bind; [by eapply (total_app_workers k2 h junk_types n (Z.to_nat n) 0); (done || lia)|].
    intros r k3 L3 (s2 & w2 & d2 & ctxs' & -> & E2 & _ & Hx'). rewrite E2 in E. cbn [mbind outcome_bind] in E.
    apply bind_Ok_inv in E as (s3 & E3 & E4). eapply total_lift_bind; [exact E3|]. apply total_ret. by exists s3, ctxs'.
  - intros r k3 L3 (s3 & ctxs' & -> & E4 & Hx'). eapply total_lift_bind; [exact E4|].
    eapply total_bind; [apply (total_init dpdk port_id); [done|unfold retry_count; lia]|]. intros ret k4 _ ->. cbn [Z.eqb negb].
    apply total_ret. by exists s, w0, d, ctxs', pool.
Qed.

End healthy_card.

End Boot.
Import Boot.


(** *** Witness: two RocksDB workers, and no memory for the pools *)

Definition no_pools : pools :=
  mk_pools Mempool.mempool_zero Mempool.mempool_zero Mempool.mempool_zero Mempool.mempool_zero.

Definition boot_junk (i : Z) : UdpContext := mk_udpctx 0 0 0 0 0 0 (mk_rxq (replicate 128 5) 0 0) (replicate 128 6) 0 0.

Lemma no_pools_init : exists g, taskqueue_init (fun _ _ => NULL) 968 no_pools = Ok (-1, g).
Proof. eexists. vm_compute. reflexivity. Qed.

