(* ===== verification/Server.v ===== *)
(** * Server: the benchmark server from its configuration to its end

    The whole of [main] in [src/src/c++/apps/app/psp_app.cc] up to the joining
    of the threads: the constructor of [Psp] and the launch of the workers
    ([Boot]), the threads over the pools that the constructor made ([Startup],
    [Program]) and the packets of the benchmark ([Benchmark]).  What comes after
    it is in [Teardown]. *)
From S2P Require Import Prelude Fail Interfaces Base Mempool TaskQueue Context Ring Requests Lrpc Peers.
From S2P Require Import Dispatcher Worker NetWorker SystemSpec System Program Startup Benchmark Udp Control Nic Boot.
Import Udp Control Nic Boot.

Module Server.

Section server.
Context (junk_types : dtypes) (junk_dp : dispatch_mode) (junk : list Z) (allocs : Z -> (Z * Z) * (Z * Z)).
Context {N : Type} (dpdk : forall A, ext_call A -> N -> A * N) (junk_ctx : Z -> UdpContext) (mempool_at mac port_id : Z).
Context (malloc : nat -> Z -> Z) (sizeof_ucontext : Z).
(** The memory behind the pools, the data address of a packet, the contexts
    [uctx_main] of the threads, the answers to [main] for its packets and the
    times at which the net worker calls [work]. *)
Context (mem : pools -> gmap Z task * gmap Z ucontext * gmap Z Z).
Context (mtod uctx_main : Z -> Z) (draw : Z -> Z * Z) (nows : list Z).

(** The threads after [init_worker], the net worker over its context. *)
Definition threads_start (g : pools) (ctx : net_ctx) (ids : list Z)
  : outcome (net (tmem Mempool.mempool * task_queue) (cmem Mempool.mempool)) :=
  let '(tasks, ctxs, words) := mem g in
  d ← init_all ids (boot_dst (start_queue g tasks) (start_ctx g ctxs words));
  Ok (mk_net (mk_world d ∅ (replicate MAX_WORKERS (mk_thread 0 false)) ∅ (mk_stats 0 0 0 0 0 false false))
        (in_q (nx_udp ctx)) 0 0).

(** One schedule of the threads: [main] sends its packets, whose number is not the
    [-1] that would have it send for a time, before the net worker takes the
    first; [Program] has the other interleavings.  [None]: a worker did not
    start, or the net worker is still in its loop. *)
Definition server_main (eal : option (list string)) (c : config) (g : pools) (s : ctl) (db : option Z) (lcore : Z -> Z * Z)
  : nic N (option (net (tmem Mempool.mempool * task_queue) (cmem Mempool.mempool))) :=
  '(g, s, ctxs, _) ← Psp_card junk_types junk_dp junk allocs dpdk junk_ctx mempool_at mac port_id malloc sizeof_ucontext eal c g s;
  net_worker ← lift (deref s 0);
  '(_, ok, _) ← lift (start db lcore s);
  if ok : bool then
    match w_dpt net_worker with
    | None => lift UB
    | Some dpt =>
      ctx ← lift (arr_get ctxs 0);
      n ← lift (threads_start g ctx (seqZ 0 (total_workers s)));
      n ← lift (create_packets mtod BENCHMARK_CREATE_NO_PACKET 0 draw n);
      lift (net_main mtod uctx_main (Z.to_nat (n_peers (dpt_peer dpt))) nows n)
    end
  else mret None.

(** What the benchmark leaves. *)
Definition benchmark_left (n' : net (tmem Mempool.mempool * task_queue) (cmem Mempool.mempool)) : Prop :=
  TEST_TOTAL_PACKETS_COUNTER (bench (wld n')) = 100
  /\ TEST_RCVD_SMALL_PACKETS (bench (wld n')) + TEST_RCVD_BIG_PACKETS (bench (wld n')) = 100
  /\ 0 <= TEST_END_TIME (bench (wld n')) - TEST_START_TIME (bench (wld n')) <= BENCHMARK_DURATION_US
  /\ pop_head (rx n') = pop_tail (rx n') /\ tq_model (tskq (dst (wld n'))) []
  /\ exists left, left <> [] /\ freed (dst (wld n')) ++ left ≡ₚ mbufs draw 0 BENCHMARK_CREATE_NO_PACKET.

Lemma threads_start_booted ctx ids tasks ctxs words :
  let g := fresh_pools malloc sizeof_ucontext in
  0 < sizeof_ucontext <= 2730 -> (forall k z, 0 < malloc k z) ->
  (forall z, malloc 6%nat z mod 8 = 0 /\ malloc 6%nat z < 2 ^ 62) ->
  mem g = (tasks, ctxs, words) -> mapped g tasks ctxs words -> ids <> [] ->
  rrel (in_q (nx_udp ctx)) [] -> pop_head (in_q (nx_udp ctx)) = 0 ->
  exists n0, threads_start g ctx ids = Ok n0 /\ booted n0 /\ Z.of_nat (n_cap n0) = 786432.
Proof.
  intros g Hs Hm Hal Emem Hmap Hids Hr Hh.
  destruct (fresh_pools_booted malloc sizeof_ucontext tasks ctxs words (inbound_queue (in_q (nx_udp ctx))) ids)
    as (d & Ed & Hb & Hc); try done.
  { by rewrite (rh_buf _ _ _ _ (rr_ring _ _ Hr)). }
  unfold threads_start. rewrite Emem. fold g in Ed. rewrite Ed. cbn [mbind outcome_bind].
  eexists. split; [done|]. pose proof (rr_head _ _ Hr) as Ht. cbn in Ht.
  replace (in_q (nx_udp ctx)) with (mk_rxq (inbound_queue (in_q (nx_udp ctx))) 0 0); [by split|].
  destruct (in_q (nx_udp ctx)) as [q t h]. cbn in *. f_equal; lia.
Qed.

End server.
End Server.
Import Server.


(** *** Witness: two RocksDB workers *)

