(* ===== verification/Timing.v ===== *)
(** * Timing: reading and calibrating the time-stamp counter

    Models [src/include/psp/time.hh], [src/include/psp/cpuid.hh] and the
    instructions of [src/include/asm/ops.h] they use.  The processor and the
    clock of the system are parameters: each instruction or call changes the
    state of the environment [N] and yields what it reads.  So are the floating
    point operations that end in [cycles_per_ns]. *)
From S2P Require Import Prelude Hash.

Module Timing.
Import Hash.

(** ** cpuid.hh: the four registers *)
Record CPUID : Type := mk_CPUID { EAX : Z; EBX : Z; ECX : Z; EDX : Z }.

Record timespec : Type := mk_timespec { tv_sec : Z; tv_nsec : Z }.

Section hardware.
Context {N : Type}.
(** The instructions: [cpuid] for a leaf and a subleaf, [rdtsc] with the two
    halves of the counter, [rdtscp] with the processor's number as well. *)
Context (cpuid : Z -> Z -> N -> CPUID * N).
Context (rdtsc_insn : N -> Z * Z * N) (rdtscp_insn : N -> Z * Z * Z * N).
(** [clock_gettime(CLOCK_MONOTONIC_RAW)], [None] when it fails, and [nanosleep]. *)
Context (clock_gettime : N -> option timespec * N) (nanosleep : timespec -> N -> N).
(** The product of a number of seconds with 1E9 as an integer, the quotient of a
    number of ticks by a thousandth of a number of nanoseconds as an integer,
    and a quotient by 1000.0 in single precision. *)
Context {F : Type} (seconds_ns : Z -> Z) (quot : Z -> Z -> Z) (thousandth : Z -> F).

Definition new_CPUID (i j : Z) (n : N) : CPUID * N := cpuid i j n.

(** Leaf 0 does not look at the subleaf. *)
Definition cpu_serialize (n : N) : N := (cpuid 0 0 n).2.

Definition read_tsc (n : N) : Z * N := let '(a, d, n) := rdtsc_insn n in (rdtsc a d, n).

(** The number of the processor is stored if there is a place for it. *)
Definition rdtscp (auxp : bool) (n : N) : Z * option Z * N :=
  let '(a, d, c, n) := rdtscp_insn n in
  (Z.lor a (u64 (Z.shiftl d 32)), if auxp then Some c else None, n).

Definition take_start_time (n : N) : Z * N := read_tsc (cpu_serialize n).

Definition take_end_time (n : N) : Z * N :=
  let '(time, _, n) := rdtscp false n in (time, cpu_serialize n).

(** The result, the new value of [cycles_per_ns], and the environment. *)
Definition get_system_freq (n : N) : Z * F * N :=
  let '(r, n) := new_CPUID 0x16 0x0 n in (0, thousandth (EAX r), n).

(** [junk] is what the field [tv_sec], which is not initialised, happens to
    hold.  The second reading of the clock is not tested, and read; without a
    nanosecond between the readings, or with time going backwards, the
    conversion to an integer is undefined. *)
Definition time_calibrate_tsc (junk : Z) (n : N) : outcome (Z * option F * N) :=
  let n := cpu_serialize n in
  match clock_gettime n with
  | (Some t_start, n) =>
    let '(start, n) := read_tsc n in
    let n := nanosleep (mk_timespec junk 500000000) n in
    match clock_gettime n with
    | (Some t_end, n) =>
      let '(stop, _, n) := rdtscp false n in
      if tv_sec t_end - tv_sec t_start <? 0 then UB else
      let ns := u64 (seconds_ns (tv_sec t_end - tv_sec t_start) + (tv_nsec t_end - tv_nsec t_start)) in
      if ns =? 0 then UB else
      let per_us := quot (u64 (stop - start)) ns in
      if per_us <? 2 ^ 64 then Ok (0, Some (thousandth per_us), n) else UB
    | (None, _) => UB
    end
  | (None, n) => Ok (-1, None, n)
  end.

(** ** The laws of the parameters *)

(** The instructions read a counter that does not go backwards, modulo 2^64,
    in two halves. *)
Record counter_laws (ticks : N -> Z) : Prop := {
  ct_cpuid i j n r n' : cpuid i j n = (r, n') -> ticks n <= ticks n';
  ct_tsc n a d n' : rdtsc_insn n = (a, d, n') ->
    a = ticks n mod 2 ^ 32 /\ d = ticks n / 2 ^ 32 mod 2 ^ 32 /\ ticks n <= ticks n';
  ct_tscp n a d c n' : rdtscp_insn n = (a, d, c, n') ->
    a = ticks n mod 2 ^ 32 /\ d = ticks n / 2 ^ 32 mod 2 ^ 32 /\ ticks n <= ticks n'
}.

(** Small products with 1E9 are exact.  A quotient of moderate numbers that is
    not within a thousandth of an integer is rounded to the right one. *)
Record double_laws : Prop := {
  dl_seconds s : 0 <= s < 2 ^ 20 -> seconds_ns s = s * 10 ^ 9;
  dl_quot a b v : 0 <= a < 2 ^ 53 -> 0 < b < 2 ^ 53 -> 0 <= v < 2 ^ 32 ->
    v * b * 1024 + b <= 1000 * a * 1024 <= (v + 1) * b * 1024 - b -> quot a b = v
}.

(** The counter is put together from its halves. *)
Lemma tsc_value a d : 0 <= a < 2 ^ 32 -> 0 <= d < 2 ^ 32 -> Z.lor a (u64 (Z.shiftl d 32)) = a + 2 ^ 32 * d.
Proof.
  clear. intros Ha Hd. rewrite Z.shiftl_mul_pow2, u64_id by lia.
  assert (E : Z.land a (d * 2 ^ 32) = 0).
  { apply Z.bits_inj'. intros k Hk. rewrite Z.land_spec, Z.bits_0.
    destruct (Z.ltb_spec k 32).
    - by rewrite Z.mul_pow2_bits_low, andb_false_r by lia.
    - rewrite (Z.bits_above_log2 a k); [done|lia|]. destruct (decide (a = 0)) as [->|]; [cbn; lia|].
      apply Z.log2_lt_pow2; [lia|]. eapply Z.lt_le_trans; [apply Ha|]. apply Z.pow_le_mono_r; lia. }
  rewrite <- Z.lxor_lor, <- Z.add_nocarry_lxor by done. lia.
Qed.

Lemma tsc_halves t : Z.lor (t mod 2 ^ 32) (u64 (Z.shiftl (t / 2 ^ 32 mod 2 ^ 32) 32)) = u64 t.
Proof.
  clear. rewrite tsc_value by (apply Z.mod_pos_bound; lia). unfold u64. change (2 ^ 64) with (2 ^ 32 * 2 ^ 32).
  by rewrite Z.rem_mul_r by lia.
Qed.

End hardware.

End Timing.
Import Timing.

(** The two calibrations agree.  When the counter has run at [f] MHz between the
    two readings of the clock, up to a thousandth and a few digits lost in the
    conversions, the calibration against the clock sets the same number of
    cycles per nanosecond as the one that asks a processor that names [f] as its
    base frequency; however long the sleep between the readings was. *)
Theorem calibrations_agree {N F : Type} cpuid rdtsc_insn rdtscp_insn clock_gettime nanosleep seconds_ns quot (thousandth : Z -> F)
    junk f (n n' : N) t0 n2 start n3 t1 n4 stop c n5 :
  double_laws seconds_ns quot -> 0 <= f < 2 ^ 32 -> EAX (cpuid 0x16 0 n').1 = f ->
  clock_gettime (cpu_serialize cpuid n) = (Some t0, n2) -> read_tsc rdtsc_insn n2 = (start, n3) ->
  clock_gettime (nanosleep (mk_timespec junk 500000000) n3) = (Some t1, n4) -> rdtscp rdtscp_insn false n4 = (stop, c, n5) ->
  0 <= tv_sec t1 - tv_sec t0 < 2 ^ 20 -> 0 <= stop - start < 2 ^ 53 ->
  let ns := (tv_sec t1 - tv_sec t0) * 10 ^ 9 + (tv_nsec t1 - tv_nsec t0) in
  0 < ns < 2 ^ 53 -> f * ns * 1024 + ns <= 1000 * (stop - start) * 1024 <= (f + 1) * ns * 1024 - ns ->
  time_calibrate_tsc cpuid rdtsc_insn rdtscp_insn clock_gettime nanosleep seconds_ns quot thousandth junk n
  = Ok (0, Some (get_system_freq cpuid thousandth n').1.2, n5).
Proof.
  intros Hd Hf Hid E0 Es E1 Ep Hsec Htsc ns Hns Hrate. unfold time_calibrate_tsc, get_system_freq, new_CPUID.
  rewrite E0, Es, E1, Ep. destruct (cpuid 22 0 n') as [r m]. cbn [fst snd] in *. subst f.
  rewrite (proj2 (Z.ltb_ge _ _)) by lia. rewrite (dl_seconds _ _ Hd) by lia. fold ns. rewrite !u64_id by lia.
  rewrite (proj2 (Z.eqb_neq _ _)) by lia. rewrite (dl_quot _ _ Hd _ _ (EAX r)) by lia. by rewrite (proj2 (Z.ltb_lt _ _)) by lia.
Qed.

(** An interval between a start time and an end time is at least what passed
    between the two calls and at most what passed until the second returned,
    also when the counter overflows in between. *)
Theorem interval_measured {N : Type} cpuid rdtsc_insn rdtscp_insn (ticks : N -> Z) n s n1 n2 e n3 :
  counter_laws cpuid rdtsc_insn rdtscp_insn ticks ->
  take_start_time cpuid rdtsc_insn n = (s, n1) -> ticks n1 <= ticks n2 ->
  take_end_time cpuid rdtscp_insn n2 = (e, n3) -> ticks n3 - ticks n < 2 ^ 64 ->
  ticks n2 - ticks n1 <= u64 (e - s) <= ticks n3 - ticks n.
Proof.
  intros Hl. unfold take_start_time, take_end_time, read_tsc, rdtscp, Hash.rdtsc, cpu_serialize.
  destruct (cpuid 0 0 n) as [r m] eqn:E0. cbn [snd]. pose proof (ct_cpuid _ _ _ _ Hl _ _ _ _ _ E0) as H0.
  destruct (rdtsc_insn m) as [[a d] m1] eqn:E1. destruct (ct_tsc _ _ _ _ Hl _ _ _ _ E1) as (-> & -> & H1).
  rewrite tsc_halves. intros [= <- <-] H2.
  destruct (rdtscp_insn n2) as [[[a' d'] c] m2] eqn:E2. destruct (ct_tscp _ _ _ _ Hl _ _ _ _ _ E2) as (-> & -> & H3).
  rewrite tsc_halves. destruct (cpuid 0 0 m2) as [r' m3] eqn:E3. pose proof (ct_cpuid _ _ _ _ Hl _ _ _ _ _ E3) as H4.
  cbn [snd]. intros [= <- <-] H5. clear -H0 H1 H2 H3 H4 H5. word_lia.
Qed.

(** *** Witness: a counter of 2600.5 MHz, read around a sleep of two nanoseconds
    and half a second; the state counts the nanoseconds *)

Definition ex_cpuid (i j n : Z) : CPUID * Z := (mk_CPUID (if i =? 0x16 then 2600 else 0) 0 0 0, n).
Definition ex_ticks (n : Z) : Z := 26005 * n / 10000.
Definition ex_rdtsc (n : Z) : Z * Z * Z := (ex_ticks n mod 2 ^ 32, ex_ticks n / 2 ^ 32, n).
Definition ex_rdtscp (n : Z) : Z * Z * Z * Z := (ex_ticks n mod 2 ^ 32, ex_ticks n / 2 ^ 32, 0, n).
Definition ex_clock (n : Z) : option timespec * Z := (Some (mk_timespec (n / 10 ^ 9) (n mod 10 ^ 9)), n).

Lemma calibrations_agree_witness :
  time_calibrate_tsc ex_cpuid ex_rdtsc ex_rdtscp ex_clock (fun t n => n + tv_sec t + tv_nsec t) (fun s => s * 10 ^ 9)
    (fun a b => 1000 * a / b) id 2 (10 ^ 11 + 999000000) = Ok (0, Some 2600, 10 ^ 11 + 1499000002).
Proof.
  apply (calibrations_agree ex_cpuid ex_rdtsc ex_rdtscp ex_clock (fun t n => n + tv_sec t + tv_nsec t) (fun s => s * 10 ^ 9)
    (fun a b => 1000 * a / b) id 2 2600 (10 ^ 11 + 999000000) 0 (mk_timespec 100 999000000) (10 ^ 11 + 999000000)
    262647899500 (10 ^ 11 + 999000000) (mk_timespec 101 499000002) (10 ^ 11 + 1499000002) 263948149505 None).
  - split; [done|]. intros a b v Ha Hb Hv Hq. symmetry. apply Z.div_unique with (1000 * a - v * b); lia.
  - lia.
  - reflexivity.
  - reflexivity.
  - reflexivity.
  - reflexivity.
  - reflexivity.
  - cbn. lia.
  - lia.
  - cbn. lia.
  - cbn. lia.
Defined.
