(* ===== verification/Logging.v ===== *)
(** * Logging: messages, their limits, and run-time checks

    Models [src/include/base/log.h] (the messages that are printed once, a
    number of times, or at most once a second), the clock of
    [src/include/base/time.h] that the last kind reads, and the checks of
    [src/include/base/assert.h].  The functions [logk], [logk_bug] and
    [init_shutdown] are declared there, but have no source: the calls that are
    made to them are recorded.  A static variable of a macro is its argument
    and its result. *)
From Stdlib Require Import Sorted.
From stdpp Require Import strings.
From S2P Require Import Prelude.

Module Logging.

(** ** time.h *)

Definition ONE_SECOND : Z := 1000000.
Definition ONE_MS : Z := 1000.

(** [tsc] is what [rdtsc] reads; the divisor, an [int], is converted. *)
Definition microtime (start_tsc cycles_per_us tsc : Z) : outcome Z :=
  let divisor := u64 cycles_per_us in
  if divisor =? 0 then UB else Ok (u64 (tsc - start_tsc) / divisor).

(** How many microseconds [__time_delay_us] is called for. *)
Definition delay_ms (ms : Z) : Z := u64 (ms * ONE_MS).

(** ** log.h *)

Inductive loglevel := LOG_EMERG | LOG_CRIT | LOG_ERR | LOG_WARN | LOG_NOTICE | LOG_INFO.

Inductive text := Message (fmt : string) | SuppressedTimes (n : Z).

Inductive call :=
  | Logk (level : loglevel) (t : text)
  | LogkBug (fatal : bool) (expr : string)
  | InitShutdown (status : Z).

Definition log_once (level : loglevel) (fmt : string) (once : bool) : bool * list call :=
  if negb once then (true, [Logk level (Message fmt)]) else (once, []).

Definition log_first_n (level : loglevel) (fmt : string) (n : Z) : Z * list call :=
  if 0 <? n then (n - 1, [Logk level (Message fmt)]) else (n, []).

Record limiter : Type := mk_limiter { last_us : Z; suppressed : Z }.

Definition log_ratelimited (level : loglevel) (fmt : string) (cur_us : Z) (s : limiter) : limiter * list call :=
  if ONE_SECOND <=? u64 (cur_us - last_us s) then
    let '(n, first) :=
      if negb (suppressed s =? 0) then (0, [Logk level (SuppressedTimes (suppressed s))]) else (suppressed s, []) in
    (mk_limiter cur_us n, first ++ [Logk level (Message fmt)])
  else (mk_limiter (last_us s) (u64 (suppressed s + 1)), []).

Definition EXIT_FAILURE : Z := 1.

(** [init_shutdown] does not return. *)
Definition panic {A : Type} (fmt : string) : list call * outcome A :=
  ([Logk LOG_EMERG (Message fmt); InitShutdown EXIT_FAILURE], Panic EXIT_FAILURE).

(** ** assert.h *)

Section checks.
(** The code [logk_bug] ends the process with, when the bug is fatal; [None]
    when it returns, to code that is then reached though declared unreachable. *)
Context (logk_bug_ends : option Z).

Definition BUG (expr : string) : list call * outcome unit :=
  ([LogkBug true expr], match logk_bug_ends with Some e => Panic e | None => UB end).

Definition BUG_ON (expr : string) (cond : bool) : list call * outcome unit :=
  if cond then BUG expr else ([], Ok tt).

(** In a release build the condition is not evaluated. *)
Definition assert_ (debug : bool) (expr : string) (cond : outcome bool) : list call * outcome unit :=
  if debug then
    match cond with
    | Ok c => if negb c then BUG expr else ([], Ok tt)
    | Panic e => ([], Panic e)
    | UB => ([], UB)
    end
  else ([], Ok tt).

Definition WARN_ON (expr : string) (cond : bool) : bool * list call :=
  (cond, if cond then [LogkBug false expr] else []).

Definition WARN_ON_ONCE (expr : string) (cond once : bool) : bool * bool * list call :=
  if negb once && cond then (cond, true, [LogkBug false expr]) else (cond, once, []).
End checks.

(** ** One place in the code, reached again and again *)

Fixpoint once_calls (level : loglevel) (fmt : string) (k : nat) (once : bool) : list (list call) :=
  match k with
  | O => []
  | S k => let '(once, c) := log_once level fmt once in c :: once_calls level fmt k once
  end.

Fixpoint first_n_calls (level : loglevel) (fmt : string) (k : nat) (n : Z) : list (list call) :=
  match k with
  | O => []
  | S k => let '(n, c) := log_first_n level fmt n in c :: first_n_calls level fmt k n
  end.

Fixpoint ratelimited_calls (level : loglevel) (fmt : string) (start_tsc cycles_per_us : Z) (tscs : list Z) (s : limiter)
  : outcome (limiter * list (list call)) :=
  match tscs with
  | [] => Ok (s, [])
  | tsc :: tscs =>
    cur_us ← microtime start_tsc cycles_per_us tsc;
    let '(s, c) := log_ratelimited level fmt cur_us s in
    '(s, cs) ← ratelimited_calls level fmt start_tsc cycles_per_us tscs s;
    Ok (s, c :: cs)
  end.

Fixpoint warn_once_calls (expr : string) (conds : list bool) (once : bool) : list (bool * list call) :=
  match conds with
  | [] => []
  | cond :: conds =>
    let '(r, once, c) := WARN_ON_ONCE expr cond once in (r, c) :: warn_once_calls expr conds once
  end.

(** ** Lemmas *)

Lemma once_calls_done level fmt k : once_calls level fmt k true = replicate k [].
Proof. induction k as [|k IH]; cbn; [done|by rewrite IH]. Qed.

Lemma first_n_calls_done level fmt k n : n <= 0 -> first_n_calls level fmt k n = replicate k [].
Proof.
  intros Hn. induction k as [|k IH]; cbn [first_n_calls replicate]; [done|]. unfold log_first_n.
  by rewrite (proj2 (Z.ltb_ge 0 n)), IH by done.
Qed.

Lemma warn_once_calls_done expr conds : warn_once_calls expr conds true = (fun c => (c, [])) <$> conds.
Proof. induction conds as [|c conds IH]; cbn; [done|by rewrite IH]. Qed.

(** How many of the calls were printed, and how many the reports mention. *)
Definition printed (cs : list (list call)) : Z :=
  Z.of_nat (length (filter (fun c => c <> []) cs)).

Definition mentions (c : call) : Z := match c with Logk _ (SuppressedTimes n) => n | _ => 0 end.

Definition reported (cs : list (list call)) : Z :=
  foldr (fun c n => foldr (fun c n => mentions c + n) 0 c + n) 0 cs.

(** The times at which a message is due: a second behind the one before. *)
Fixpoint due (last : Z) (ts : list Z) : list bool :=
  match ts with
  | [] => []
  | t :: ts => if last + ONE_SECOND <=? t then true :: due t ts else false :: due last ts
  end.

Lemma due_length last ts : length (due last ts) = length ts.
Proof. revert last. induction ts as [|t ts IH]; intros last; cbn; [done|]. case_match; cbn; by rewrite IH. Qed.

(** Behind [last], what is due lies a second behind it. *)
Lemma due_after last ts i t : due last ts !! i = Some true -> ts !! i = Some t -> last + ONE_SECOND <= t.
Proof.
  revert last i. induction ts as [|x ts IH]; intros last i; cbn [due]; [done|].
  destruct (Z.leb_spec (last + ONE_SECOND) x); destruct i as [|i]; cbn; try done.
  - by intros _ [= <-].
  - intros H1 H2. specialize (IH _ _ H1 H2). unfold ONE_SECOND in *. lia.
  - apply IH.
Qed.

Lemma due_apart last ts i j t t' :
  (i < j)%nat -> due last ts !! i = Some true -> due last ts !! j = Some true ->
  ts !! i = Some t -> ts !! j = Some t' -> t + ONE_SECOND <= t'.
Proof.
  revert last i j. induction ts as [|x ts IH]; intros last i j Hij; cbn [due]; [done|].
  destruct (Z.leb_spec (last + ONE_SECOND) x); destruct i as [|i], j as [|j]; cbn; try done; try lia.
  - intros _ Hj [= <-] Ht'. by eapply due_after.
  - apply IH. lia.
  - apply IH. lia.
Qed.

(** What is not due lies within a second of the message before, or of [last]. *)
Lemma due_not last ts j t :
  due last ts !! j = Some false -> ts !! j = Some t ->
  t < last + ONE_SECOND \/ exists i u, (i < j)%nat /\ due last ts !! i = Some true /\ ts !! i = Some u /\ t < u + ONE_SECOND.
Proof.
  revert last j. induction ts as [|x ts IH]; intros last j; cbn [due]; [done|].
  destruct (Z.leb_spec (last + ONE_SECOND) x) as [Hx|Hx]; destruct j as [|j]; cbn [lookup list_lookup]; try done.
  - intros H1 H2. right. destruct (IH _ _ H1 H2) as [Hlt|(i & u & Hi & Hd & Hu & Hlt)].
    + exists 0%nat, x. by split_and!; [lia|..].
    + exists (S i), u. by split_and!; [lia|..].
  - intros _ [= <-]. by left.
  - intros H1 H2. destruct (IH _ _ H1 H2) as [Hlt|(i & u & Hi & Hd & Hu & Hlt)]; [by left|].
    right. exists (S i), u. by split_and!; [lia|..].
Qed.

Lemma microtime_exact start cycles tsc :
  0 < cycles < 2 ^ 31 -> start <= tsc < start + 2 ^ 64 -> microtime start cycles tsc = Ok ((tsc - start) / cycles).
Proof.
  intros Hc Ht. unfold microtime. rewrite !u64_id by lia. by rewrite (proj2 (Z.eqb_neq _ _)) by lia.
Qed.

(** A message that is due is printed, with a report of those suppressed before
    it; one that is not is counted. *)
Lemma ratelimited_step level fmt cur s :
  0 <= last_us s <= cur -> cur < 2 ^ 64 -> 0 <= suppressed s < 2 ^ 64 - 1 ->
  exists c, log_ratelimited level fmt cur s =
      (if last_us s + ONE_SECOND <=? cur then mk_limiter cur 0 else mk_limiter (last_us s) (suppressed s + 1), c)
    /\ (if last_us s + ONE_SECOND <=? cur
        then c <> [] /\ last c = Some (Logk level (Message fmt)) /\ foldr (fun c n => mentions c + n) 0 c = suppressed s
        else c = []).
Proof.
  intros Hl Hc Hs. unfold log_ratelimited. rewrite !u64_id by lia.
  replace (ONE_SECOND <=? cur - last_us s) with (last_us s + ONE_SECOND <=? cur)
    by (destruct (Z.leb_spec (last_us s + ONE_SECOND) cur), (Z.leb_spec ONE_SECOND (cur - last_us s)); lia).
  destruct (Z.leb_spec (last_us s + ONE_SECOND) cur); [|by eexists].
  destruct (Z.eqb_spec (suppressed s) 0) as [E|E]; cbn [negb]; rewrite ?E; eexists; (split; [reflexivity|]); cbn; split_and!; done || lia.
Qed.

Lemma ratelimited_due level fmt start cycles tscs s :
  0 < cycles < 2 ^ 31 -> StronglySorted Z.le (start + cycles * last_us s :: tscs) ->
  Forall (fun t => t < start + 2 ^ 64) tscs ->
  0 <= last_us s -> 0 <= suppressed s -> suppressed s + Z.of_nat (length tscs) < 2 ^ 64 ->
  exists s' cs, ratelimited_calls level fmt start cycles tscs s = Ok (s', cs)
    /\ (fun c => bool_decide (c <> [])) <$> cs = due (last_us s) ((fun t => (t - start) / cycles) <$> tscs)
    /\ (forall c, c ∈ cs -> c = [] \/ last c = Some (Logk level (Message fmt)))
    /\ printed cs + reported cs + suppressed s' = suppressed s + Z.of_nat (length tscs).
Proof.
  intros Hc. revert s. induction tscs as [|tsc tscs IH]; intros s Hsort Hmax Hl Hs Hn; cbn [ratelimited_calls].
  { exists s, []. split_and!; [done..|by intros c ?%elem_of_nil|unfold printed, reported; cbn; lia]. }
  apply StronglySorted_inv in Hsort as [Hsort Hge]. pose proof Hsort as Hsort'. apply StronglySorted_inv in Hsort' as [Hs' Hge'].
  apply Forall_cons in Hge as [Hge0 Hge], Hmax as [Hm0 Hm]. cbn [length] in Hn.
  assert (Hcur : last_us s <= (tsc - start) / cycles) by (apply Z.div_le_lower_bound; lia).
  assert (Hup : (tsc - start) / cycles < 2 ^ 64) by (apply Z.div_lt_upper_bound; nia).
  assert (Hback : cycles * ((tsc - start) / cycles) <= tsc - start) by (apply Z.mul_div_le; lia).
  rewrite microtime_exact by nia. cbn [mbind outcome_bind]. set (cur := (tsc - start) / cycles) in *.
  destruct (ratelimited_step level fmt cur s) as (c & E & Hcase); [lia..|]. rewrite E. cbn [fmap list_fmap due].
  fold cur. destruct (Z.leb_spec (last_us s + ONE_SECOND) cur) as [Hd|Hd].
  - destruct Hcase as (Hne & Hlast & Hsum).
    destruct (IH (mk_limiter cur 0)) as (s' & cs & E' & Hdue & Hall & Hcount); cbn [last_us suppressed]; try done; try lia.
    { constructor; [done|]. eapply Forall_impl; [exact Hge'|]. cbn. intros x Hx. lia. }
    rewrite E'. exists s', (c :: cs). split; [reflexivity|]. cbn [last_us suppressed] in *. split_and!.
    + by rewrite fmap_cons, bool_decide_eq_true_2, Hdue by done.
    + intros c' [->|Hin]%elem_of_cons; [by right|by apply Hall].
    + unfold printed, reported in *. rewrite filter_cons_True by done. cbn [length foldr]. rewrite Hsum. lia.
  - subst c. destruct (IH (mk_limiter (last_us s) (suppressed s + 1))) as (s' & cs & E' & Hdue & Hall & Hcount);
      cbn [last_us suppressed]; try done; try lia; [by constructor|].
    rewrite E'. exists s', ([] :: cs). split; [reflexivity|]. cbn [last_us suppressed] in *. split_and!.
    + by rewrite fmap_cons, bool_decide_eq_false_2, Hdue by naive_solver.
    + intros c' [->|Hin]%elem_of_cons; [by left|by apply Hall].
    + unfold printed, reported in *. rewrite filter_cons_False by naive_solver. cbn [length foldr]. lia.
Qed.

End Logging.
Import Logging.

(** C38. A rate-limited message.  Whenever its place in the code is reached, at
    readings of the counter that do not decrease: two messages that are printed
    lie at least a second apart; one that is not printed comes within a second
    of a printed one, or within the first second of the process; and every call
    is printed, or mentioned by a report of the suppressed ones, or counted for
    the next report. *)
Theorem ratelimited_correct level fmt start cycles tscs :
  0 < cycles < 2 ^ 31 -> StronglySorted Z.le (start :: tscs) -> Forall (fun t => t < start + 2 ^ 64) tscs ->
  Z.of_nat (length tscs) < 2 ^ 64 ->
  let us t := (t - start) / cycles in
  exists s cs, ratelimited_calls level fmt start cycles tscs (mk_limiter 0 0) = Ok (s, cs)
    /\ length cs = length tscs
    /\ (forall c, c ∈ cs -> c = [] \/ last c = Some (Logk level (Message fmt)))
    /\ (forall i j c c' t t', (i < j)%nat -> cs !! i = Some c -> cs !! j = Some c' -> c <> [] -> c' <> [] ->
          tscs !! i = Some t -> tscs !! j = Some t' -> us t + ONE_SECOND <= us t')
    /\ (forall j t, cs !! j = Some [] -> tscs !! j = Some t ->
          us t < ONE_SECOND
          \/ exists i c u, (i < j)%nat /\ cs !! i = Some c /\ c <> [] /\ tscs !! i = Some u /\ us t < us u + ONE_SECOND)
    /\ printed cs + reported cs + suppressed s = Z.of_nat (length tscs).
Proof.
  intros Hc Hsort Hmax Hn us.
  destruct (ratelimited_due level fmt start cycles tscs (mk_limiter 0 0)) as (s & cs & E & Hdue & Hall & Hcount); try done.
  { cbn [last_us]. by rewrite Z.mul_0_r, Z.add_0_r. }
  exists s, cs. fold us in Hdue.
  assert (Hcs : forall i c, cs !! i = Some c -> due 0 (us <$> tscs) !! i = Some (bool_decide (c <> []))).
  { intros i c Hi. change 0 with (last_us (mk_limiter 0 0)). rewrite <- Hdue, list_lookup_fmap. by rewrite Hi. }
  assert (Hus : forall i t, tscs !! i = Some t -> (us <$> tscs) !! i = Some (us t)).
  { intros i t Hi. by rewrite list_lookup_fmap, Hi. }
  split_and!; try done.
  - rewrite <- (length_fmap (fun c => bool_decide (c <> [])) cs), Hdue, due_length. by rewrite length_fmap.
  - intros i j c c' t t' Hij Hi%Hcs Hj%Hcs Hne Hne' Ht%Hus Ht'%Hus.
    rewrite bool_decide_eq_true_2 in Hi, Hj by done. by eapply (due_apart 0 _ i j).
  - intros j t Hj%Hcs Ht%Hus. rewrite bool_decide_eq_false_2 in Hj by naive_solver.
    destruct (due_not _ _ _ _ Hj Ht) as [Hlt|(i & u & Hij & Hi & Hu & Hlt)]; [by left|]. right.
    apply list_lookup_fmap_Some in Hu as (u' & -> & Hu'). change 0 with (last_us (mk_limiter 0 0)) in Hi.
    rewrite <- Hdue in Hi. apply list_lookup_fmap_Some in Hi as (c & Hb & Hi).
    exists i, c, u'. split_and!; try done. by apply (bool_decide_eq_true_1 _ (eq_sym Hb)).
Qed.

(** Messages that are limited in number.  [log_once] prints at the first call
    only, [log_first_n] at the first [n], and [WARN_ON_ONCE] where the condition
    holds for the first time; it always yields the condition. *)
Theorem limited_correct level fmt expr k n conds :
  once_calls level fmt (S k) false = [Logk level (Message fmt)] :: replicate k []
  /\ first_n_calls level fmt k n
     = replicate (k `min` Z.to_nat n) [Logk level (Message fmt)] ++ replicate (k - Z.to_nat n) []
  /\ (warn_once_calls expr conds false).*1 = conds
  /\ (forall i, warn_once_calls expr conds false !! i = Some (true, [LogkBug false expr])
        <-> conds !! i = Some true /\ forall j, (j < i)%nat -> conds !! j = Some false).
Proof.
  split_and!.
  - cbn. by rewrite once_calls_done.
  - revert n. induction k as [|k IH]; intros n; [done|]. cbn [first_n_calls]. unfold log_first_n.
    destruct (Z.ltb_spec 0 n) as [Hn|Hn].
    + rewrite IH. replace (Z.to_nat n) with (S (Z.to_nat (n - 1))) by lia. done.
    + rewrite first_n_calls_done by done. by replace (Z.to_nat n) with 0%nat by lia.
  - induction conds as [|[] conds IH]; cbn; [done| |by rewrite IH].
    rewrite warn_once_calls_done, <- list_fmap_compose. f_equal. apply list_fmap_id.
  - induction conds as [|[] conds IH]; intros i; cbn [warn_once_calls WARN_ON_ONCE negb andb].
    + split; [done|by intros [? _]].
    + rewrite warn_once_calls_done, lookup_cons. destruct i as [|i]; cbv iota.
      * split; [|done]. split; [done|lia].
      * rewrite list_lookup_fmap. split; [by destruct (conds !! i)|]. intros [_ H]. specialize (H 0%nat). naive_solver lia.
    + destruct i as [|i]; cbn; [naive_solver|]. rewrite IH. split; intros [H1 H2]; (split; [done|]).
      * intros [|j] Hj; cbn; [done|]. apply H2. lia.
      * intros j Hj. apply (H2 (S j)). lia.
Qed.

(** *** Witness: six calls of a message in three seconds, at 2 cycles per
    microsecond *)

Definition example_tscs : list Z := [1000; 3000000; 3000010; 4000000; 5100000; 7200000].

Lemma ratelimited_correct_witness :
  exists s cs, ratelimited_calls LOG_WARN "full" 0 2 example_tscs (mk_limiter 0 0) = Ok (s, cs)
    /\ printed cs + reported cs + suppressed s = 6
    /\ cs !! 4%nat = Some [Logk LOG_WARN (SuppressedTimes 2); Logk LOG_WARN (Message "full")].
Proof.
  destruct (ratelimited_correct LOG_WARN "full" 0 2 example_tscs) as (s & cs & E & _ & _ & _ & _ & Hsum).
  - lia.
  - unfold example_tscs. repeat (constructor; [|repeat constructor; lia]). constructor.
  - unfold example_tscs. repeat constructor; lia.
  - cbn. lia.
  - exists s, cs. split; [exact E|]. split; [exact Hsum|].
    vm_compute in E. injection E as <- <-. reflexivity.
Defined.
