(* ===== verification/Teardown.v ===== *)
(** * Teardown: the end of the server

    Models the last part of [main] in [src/src/c++/apps/app/psp_app.cc], which
    joins and deletes the workers, with the destructors it runs: [~Worker]
    ([Worker.cc]), [~Dispatcher] ([DispatchSu.hh]), [~UdpContext] (in [Nic]) and
    [~Psp] ([persephone.hh]). *)
From S2P Require Import Prelude Fail Base Requests Lrpc Peers Dispatcher Worker NetWorker System Udp Control Nic Boot.
Import Udp Control Nic Boot.

Module Teardown.

(** The loop of [~Dispatcher] over the types; the result has the places of the
    types that were deleted.  A place that was never set holds no object. *)
Fixpoint del_types (n_left : nat) (i : Z) (d : dtypes) (gone : list Z) : outcome (list Z) :=
  match n_left with
  | O => Ok gone
  | S n_left =>
    p ← arr_get (rtypes d) i;
    match p with
    | None => UB
    | Some _ => del_types n_left (i + 1) d (gone ++ [i])
    end
  end.

(** [~Dispatcher], and [~Worker] of the dispatcher as a worker: [udp_ctx] is what
    that member, which nothing sets, holds. *)
Definition delete_Dispatcher (udp_ctx : Z) (d : dtypes) : outcome (list Z) :=
  gone ← del_types (Z.to_nat (n_rtypes d)) 0 d [];
  j ← arr_get (type_to_nsorder d) (req_num UNKNOWN);
  p ← arr_get (rtypes d) j;
  match p with
  | None => UB
  | Some _ =>
    if decide (j ∈ gone) then UB
    else if udp_ctx =? NULL then Ok (gone ++ [j]) else UB
  end.

Section shutdown.
Context {N : Type} (dpdk : forall A, ext_call A -> N -> A * N).

(** [delete workers[i]]: the dispatcher of a net worker goes first. *)
Definition delete_worker (udp_ctx : Z) (w : wobj) (ctx : net_ctx) : nic N (list Z) :=
  gone ← lift (match w_dpt w with None => Ok [] | Some d => delete_Dispatcher udp_ctx (dpt_types d) end);
  _ ← delete_UdpContext dpdk ctx;
  mret gone.

(** The loop of [main]: [wait_rc i] is what waiting for the thread returns. *)
Fixpoint delete_workers (n_left : nat) (i udp_ctx : Z) (wait_rc : Z -> Z) (s : ctl) (ctxs : list net_ctx) : nic N (list Z) :=
  match n_left with
  | O => mret []
  | S n_left =>
    w ← lift (deref s i);
    let w := (join (wait_rc i) w).2 in
    ctx ← lift (arr_get ctxs i);
    gone ← delete_worker udp_ctx w ctx;
    rest ← delete_workers n_left (i + 1) udp_ctx wait_rc s ctxs;
    mret (gone ++ rest)
  end.

(** With [~Psp]. *)
Definition shutdown (udp_ctx : Z) (wait_rc : Z -> Z) (s : ctl) (ctxs : list net_ctx) (net_mempool : Z) : nic N (list Z) :=
  gone ← delete_workers (Z.to_nat (total_workers s)) 0 udp_ctx wait_rc s ctxs;
  _ ← print_dpdk_device_stats dpdk 0;
  _ ← (if net_mempool =? NULL then mret tt else call dpdk (c_pool_free net_mempool));
  mret gone.

End shutdown.

(** ** The types of the dispatcher *)

Lemma del_types_all n i d gone :
  0 <= i -> (forall j, i <= j < i + Z.of_nat n -> exists rt, rtypes d !! Z.to_nat j = Some (Some rt)) ->
  del_types n i d gone = Ok (gone ++ seqZ i (Z.of_nat n)).
Proof.
  revert i gone. induction n as [|n IH]; intros i gone Hi Hall; cbn [del_types].
  { by rewrite app_nil_r. }
  destruct (Hall i) as [rt Hrt]; [lia|]. rewrite (proj2 (arr_get_Ok (rtypes d) i (Some rt))) by done. cbn [mbind outcome_bind].
  rewrite IH by (try lia; intros j Hj; apply Hall; lia). rewrite <- app_assoc. do 2 f_equal.
  rewrite (seqZ_cons i) by lia. cbn [app]. f_equal. f_equal; lia.
Qed.

(** What the registration leaves: types at all places up to the extra one. *)
Lemma registered junk dp es d t :
  dtypes_ok d -> register_types junk dp es d = Ok t ->
  0 <= n_rtypes t < LAST /\ type_to_nsorder t !! 0%nat = Some (n_rtypes t)
  /\ forall j, 0 <= j <= n_rtypes t -> exists rt, rtypes t !! Z.to_nat j = Some (Some rt).
Proof.
  intros Hd E. unfold register_types in E. destruct (Z.ltb_spec LAST (Z.of_nat (length es))) as [|Hes]; [done|].
  assert (Hfill : exists i d', (if decide (dp = CFCFS) then Ok (0, d) else fill_types 0 (register_entries junk 0 es []).*2 d) = Ok (i, d')
    /\ 0 <= i /\ dtypes_ok d' /\ forall j, 0 <= j < i -> exists rt, rtypes d' !! Z.to_nat j = Some (Some rt)).
  { case_decide; [exists 0, d; split_and!; try done; lia|].
    destruct (register_entries_inv junk es 0 [] (fun _ => True)) as (_ & _ & Hl); [constructor|done|done|].
    destruct (fill_types_ok (register_entries junk 0 es []).*2 0 d Hd) as (d' & -> & Hd' & Hall & _);
      [lia|rewrite length_fmap; cbn in Hl; lia|].
    eexists _, d'. split; [done|]. split; [lia|]. split; [done|]. intros j Hj.
    destruct (lookup_lt_is_Some_2 (register_entries junk 0 es []).*2 (Z.to_nat j)) as [rt Hrt]; [lia|].
    exists rt. apply (Hall (Z.to_nat j) rt Hrt). }
  destruct Hfill as (i & d' & Ef & Hi & [L1 L2] & Hall). cbv zeta in E. rewrite Ef in E. cbn [mbind outcome_bind] in E.
  apply bind_Ok_inv in E as (r & Er & E). apply bind_Ok_inv in E as (o & Eo & E). injection E as <-. cbn [n_rtypes type_to_nsorder rtypes].
  apply arr_set_inv in Er as [Hr ->]. apply arr_set_inv in Eo as [Ho ->]. rewrite L1 in Hr. unfold LAST in *. split; [lia|].
  split; [apply list_lookup_insert_eq; lia|]. intros j Hj. destruct (decide (j = i)) as [->|Hne].
  - rewrite list_lookup_insert_eq by lia. eauto.
  - rewrite list_lookup_insert_ne by lia. apply Hall. lia.
Qed.

Lemma delete_registered junk dp es d t udp_ctx :
  dtypes_ok d -> register_types junk dp es d = Ok t ->
  delete_Dispatcher udp_ctx t = if udp_ctx =? NULL then Ok (seqZ 0 (n_rtypes t + 1)) else UB.
Proof.
  intros Hd E. destruct (registered junk dp es d t Hd E) as (Hn & Ho & Hall). unfold delete_Dispatcher.
  rewrite del_types_all by (try lia; intros j Hj; apply Hall; lia). cbn [mbind outcome_bind app].
  rewrite (proj2 (arr_get_Ok (type_to_nsorder t) (req_num UNKNOWN) (n_rtypes t))) by done. cbn [mbind outcome_bind].
  destruct (Hall (n_rtypes t)) as [rt Hrt]; [lia|].
  rewrite (proj2 (arr_get_Ok (rtypes t) (n_rtypes t) (Some rt))) by (split; [lia|done]). cbn [mbind outcome_bind].
  rewrite Z2Nat.id by lia. rewrite decide_False by (rewrite elem_of_seqZ; lia).
  destruct (udp_ctx =? NULL); [|done]. f_equal. by rewrite seqZ_app by lia.
Qed.

(** Without a registration, no place of the table was ever set. *)
Lemma delete_unregistered t udp_ctx :
  (forall i x, rtypes t !! i = Some x -> x = None) -> delete_Dispatcher udp_ctx t = UB.
Proof.
  intros Hno. unfold delete_Dispatcher. destruct (Z.to_nat (n_rtypes t)) as [|n]; cbn [del_types mbind outcome_bind].
  - destruct (arr_get (type_to_nsorder t) _) as [j| |] eqn:Ej; cbn [mbind outcome_bind]; [|by unfold arr_get in Ej; repeat case_match|done].
    destruct (arr_get (rtypes t) j) as [x| |] eqn:Ex; cbn [mbind outcome_bind]; [|by unfold arr_get in Ex; repeat case_match|done].
    apply arr_get_Ok in Ex as [_ Ex]. by rewrite (Hno _ _ Ex).
  - destruct (arr_get (rtypes t) 0) as [x| |] eqn:Ex; cbn [mbind outcome_bind]; [|by unfold arr_get in Ex; repeat case_match|done].
    apply arr_get_Ok in Ex as [_ Ex]. by rewrite (Hno _ _ Ex).
Qed.

(** ** The workers and their contexts *)

Section healthy_card.
Context {N : Type} (dpdk : forall A, ext_call A -> N -> A * N) (port_id : Z) (up_in : nat -> N -> Prop).
Context `{!Healthy dpdk port_id up_in}.

Lemma total_print_loop k n i xs names :
  0 <= i -> length xs = (Z.to_nat i + n)%nat -> length names = (Z.to_nat i + n)%nat ->
  total up_in k (print_loop dpdk n i xs names) (fun _ => True).
Proof.
  revert k i. induction n as [|n IH]; intros k i Hi Hx Hn; cbn [print_loop]; [by apply total_ret|].
  destruct (arr_get_lt xs i) as [v Hv]; [lia|]. destruct (arr_get_lt names i) as [m Hm]; [lia|].
  eapply total_lift_bind; [exact Hv|]. eapply (total_bind _ _ _ _ (fun _ => True)).
  - destruct (v =? 0); [by apply total_ret|]. eapply total_lift_bind; [exact Hm|]. by apply (total_call dpdk port_id).
  - intros _ k1 _ _. apply IH; lia.
Qed.

Lemma total_print_stats k p : total up_in k (print_dpdk_device_stats dpdk p) (fun _ => True).
Proof.
  unfold print_dpdk_device_stats. eapply total_bind; [by apply total_call|]. intros [r0 st] k1 _ [x Hx]. cbn in Hx. subst st.
  eapply total_lift_bind; [done|]. eapply total_bind; [by apply total_call|]. intros [len v0] k2 _ _.
  destruct (Z.ltb_spec len 0); [by apply total_ret|]. eapply total_bind; [by apply total_call|]. intros a k3 _ _.
  destruct (a =? NULL); [by apply total_ret|]. eapply total_bind; [by apply total_call|]. intros [r vs] k4 _ _.
  destruct ((r <? 0) || (len <? r)).
  { eapply total_bind; [by apply total_call|]. intros _ k5 _ _. by apply total_ret. }
  eapply total_bind; [by apply total_call|]. intros b k5 _ _. destruct (b =? NULL).
  { eapply total_bind; [by apply total_call|]. intros _ k6 _ _. by apply total_ret. }
  eapply total_bind; [by apply total_call|]. intros [r' ns] k6 _ _. destruct ((r' <? 0) || (len <? r')).
  { eapply total_bind; [by apply total_call|]. intros _ k7 _ _. eapply total_bind; [by apply total_call|].
    intros _ k8 _ _. by apply total_ret. }
  eapply total_bind; [apply total_print_loop; rewrite ?length_filled; done|]. intros _ k7 _ _. by apply total_ret.
Qed.

Lemma join_dpt rc w : w_dpt (join rc w).2 = w_dpt w.
Proof. unfold join. by repeat case_match. Qed.

Lemma delete_no_flows c d : nx_flows c = [] -> delete_UdpContext dpdk c d = (Ok tt, ([], d)).
Proof. intros Hf. unfold delete_UdpContext. by rewrite Hf. Qed.

(** Workers without a dispatcher and contexts without rules go in silence. *)
Lemma total_delete_rest k n i udp_ctx wait_rc s ctxs :
  (forall j, i <= j < i + Z.of_nat n -> exists w c, at_place s j w /\ w_dpt w = None
     /\ ctxs !! Z.to_nat j = Some c /\ nx_flows c = []) -> 0 <= i ->
  total up_in k (delete_workers dpdk n i udp_ctx wait_rc s ctxs) (fun r => r = []).
Proof.
  revert k i. induction n as [|n IH]; intros k i Hall Hi; cbn [delete_workers]; [by apply total_ret|].
  destruct (Hall i) as (w & c & Hw & Hd & Hc & Hf); [lia|].
  eapply total_lift_bind; [by apply deref_Ok|]. cbv zeta.
  eapply total_lift_bind; [by apply (arr_get_Ok ctxs i c)|].
  eapply (total_bind _ _ _ _ (fun r => r = [])).
  - unfold delete_worker. rewrite join_dpt, Hd. eapply total_lift_bind; [done|]. intros d Hu.
    exists [], [], d, k. unfold mbind, nic_bind. by rewrite delete_no_flows.
  - intros g k1 _ ->. eapply total_bind; [apply IH; [intros j Hj; apply Hall; lia|lia]|]. intros r k2 _ ->. by apply total_ret.
Qed.

End healthy_card.


(** A server with [n] application workers behind the net worker, whose
    dispatcher has the tables [types]. *)
Record manned (types : dtypes) (n : Z) (s : ctl) : Prop := {
  ma_total : 0 <= n /\ total_workers s = n + 1;
  ma_net : exists w d, at_place s 0 w /\ w_dpt w = Some d /\ dpt_types d = types;
  ma_app i : 1 <= i <= n -> exists w, at_place s i w /\ w_dpt w = None
}.

(** The set-up mans the server. *)
Lemma wired_manned allocs cs net wt types h n s w0 d : 0 <= n -> wired allocs cs net wt types h n s w0 d -> manned types n s.
Proof.
  intros Hn [_ _ Wt (N1 & _ & N3 & _) (_ & _ & _ & _ & _ & D6) Wa _ _ _]. split; [done|by exists w0, d|].
  intros i Hi. destruct (Wa i Hi) as (w & [R1 _ _ _ _ [_ R6] _]). by exists w.
Qed.

Section manned_server.
Context {N : Type} (dpdk : forall A, ext_call A -> N -> A * N) (port_id : Z) (up_in : nat -> N -> Prop).
Context (types : dtypes) (n : Z) (s : ctl) (net : net_cfg) (pool : Z) (ctxs : list net_ctx) (wait_rc : Z -> Z).
Context (Hm : manned types n s) (Hc : server_ctxs net port_id pool (n + 1) ctxs).

Lemma ctx_at j : 0 <= j <= n -> exists c, ctxs !! Z.to_nat j = Some c /\ nx_flows c = [] /\ pool <> NULL.
Proof.
  intros Hj. destruct Hc as [Hl Hall]. destruct (lookup_lt_is_Some_2 ctxs (Z.to_nat j)) as [c Hx]; [lia|].
  exists c. by destruct (Hall _ c Hx) as [(_ & _ & ?) [_ ?] _ _].
Qed.

Lemma total_delete_workers udp_ctx gone k :
  Healthy dpdk port_id up_in -> delete_Dispatcher udp_ctx types = Ok gone ->
  total up_in k (delete_workers dpdk (Z.to_nat (total_workers s)) 0 udp_ctx wait_rc s ctxs) (fun r => r = gone).
Proof.
  intros Hh Hdel. destruct Hm as [[Hn Ht] (w & d & Hw & Hd & Hty) Happ]. rewrite Ht.
  replace (Z.to_nat (n + 1)) with (S (Z.to_nat n)) by lia. cbn [delete_workers].
  destruct (ctx_at 0) as (c & Ex & Hf & _); [lia|].
  eapply total_lift_bind; [by apply (deref_Ok s 0 w)|]. cbv zeta. eapply total_lift_bind; [by apply (arr_get_Ok ctxs 0 c)|].
  eapply (total_bind _ _ _ _ (fun r => r = gone)).
  - unfold delete_worker. rewrite join_dpt, Hd, Hty. eapply total_lift_bind; [exact Hdel|]. intros dv Hu.
    exists gone, [], dv, k. unfold mbind, nic_bind. by rewrite delete_no_flows.
  - intros g k1 _ ->. eapply total_bind; [apply (total_delete_rest dpdk up_in k1 (Z.to_nat n) 1)|].
    + intros j Hj. destruct (Happ j) as (v & Hv & Hnone); [lia|]. destruct (ctx_at j) as (x & Hx & Hxf & _); [lia|]. by exists v, x.
    + lia.
    + intros r k2 _ ->. apply total_ret. by rewrite app_nil_r.
Qed.

Lemma shutdown_undefined udp_ctx dv :
  delete_Dispatcher udp_ctx types = UB -> (shutdown dpdk udp_ctx wait_rc s ctxs pool dv).1 = UB.
Proof.
  intros Hdel. destruct Hm as [[Hn Ht] (w & d & Hw & Hd & Hty) _]. apply bind_UB. rewrite Ht.
  replace (Z.to_nat (n + 1)) with (S (Z.to_nat n)) by lia. cbn [delete_workers].
  destruct (ctx_at 0) as (c & Ex & _); [lia|]. rewrite (deref_Ok s 0 w), (proj2 (arr_get_Ok ctxs 0 c)) by done.
  unfold delete_worker. cbv beta. unfold mbind, nic_bind, lift. by rewrite join_dpt, Hd, Hty, Hdel.
Qed.

End manned_server.

End Teardown.
Import Teardown.


(** When no request types were registered, as for a server whose policy does
    not need them, the dispatcher's tables were never set, and its destructor is
    undefined. *)
Theorem untyped_shutdown_undefined {N : Type} (dpdk : forall A, ext_call A -> N -> A * N) port_id dv
    net pool ctxs wait_rc types n s udp_ctx :
  manned types n s -> server_ctxs net port_id pool (n + 1) ctxs -> (forall i x, rtypes types !! i = Some x -> x = None) ->
  (shutdown dpdk udp_ctx wait_rc s ctxs pool dv).1 = UB.
Proof.
  intros Hm Hc Hno. by apply (shutdown_undefined dpdk port_id types n s net pool ctxs), delete_unregistered.
Qed.

(** *** Witnesses: a net worker and one application worker *)

Definition bare_types : dtypes := mk_dtypes (replicate (Z.to_nat LAST) None) 0 (replicate (Z.to_nat LAST) 0).

Definition end_wobj (types : dtypes) (i : Z) : wobj :=
  let w := with_cpu i (new_Worker_id MBK i) in
  if i =? 0 then with_dpt (mk_dpt (w_peer w) DFCFS 1 0 types) w else w.

Definition end_ctl (types : dtypes) : ctl :=
  mk_ctl [] (Some (end_wobj types 0) :: Some (end_wobj types 1) :: replicate 30 None) 2 (mk_lheap ∅ ∅).

Definition end_ctx (i : Z) : net_ctx :=
  mk_netctx i 0 [] 200 (mk_udpctx 10 6789 0 0 8 0 (mk_rxq (replicate 128 5) 0 0) (replicate 128 6) 0 0).

Lemma end_manned types : manned types 1 (end_ctl types).
Proof.
  split; [done|by eexists _, _|]. intros i Hi. assert (i = 1) as -> by lia. by eexists.
Qed.

Lemma end_ctxs : server_ctxs (mk_netcfg 10 6789 "DFCFS") 0 200 2 [end_ctx 0; end_ctx 1].
Proof.
  split; [done|]. intros i c Hi.
  assert (c = end_ctx (Z.of_nat i)) as -> by (destruct i as [|[|i]]; [by injection Hi as <-..|by destruct i]).
  split; cbn; split_and!; try done; (split; [|done..]; by split).
Qed.


Lemma untyped_shutdown_undefined_witness :
  (shutdown (fun A c => card None c) NULL (fun _ => 0) (end_ctl bare_types) [end_ctx 0; end_ctx 1] 200 5%nat).1 = UB.
Proof.
  apply (untyped_shutdown_undefined (fun A c => card None c) 0 5%nat (mk_netcfg 10 6789 "DFCFS") 200 [end_ctx 0; end_ctx 1]
    (fun _ => 0) bare_types 1 (end_ctl bare_types) NULL).
  - apply end_manned.
  - exact end_ctxs.
  - intros i x Hx. apply lookup_replicate in Hx as [-> _]. reflexivity.
Defined.
